(* ===== verification/_CoqProject ===== *)
-Q . S2P
Prelude.v
StreamId.v
StreamIdFacts.v
StreamIdSpec.v
Hash.v
Bitmap.v
Bloom.v
BloomFacts.v
Ext.v
Router.v
HashHeap.v
RouterLookup.v
RouterInv.v
RouterApps.v
RouterChannels.v
RouterForward.v
RouterReceive.v
RouterInit.v
PubSub.v
RouterExample.v
PubSubExample.v
Sched.v
RouterThread.v
RouterEpoch.v
RouterEpochExample.v
Logging.v
Config.v
ConfigFacts.v
Controller.v
ControllerFacts.v
ControllerExample.v
Process.v
ProcessFacts.v
ProcessExample.v
PyLoader.v
PyApi.v
PyLoaderFacts.v
PyLoaderExample.v
NorthIo.v
AppApi.v
Agent.v
NorthIoApp.v
JrtcApp.v
JrtcAppPrint.v
JrtcAppFacts.v
JrtcAppObject.v
ApiExample.v
JrtcAppExample.v
CData.v
Codelets.v
SampleApp.v
FirstExampleC.v
PlainApp.v
FirstExample.v
AdvancedExampleC1.v
AdvancedExampleC2.v
AdvancedPair.v
AdvancedExample1.v
AdvancedExample2.v
SimpleAgent.v
SampleExample.v
AdvancedSample.v
PlainSample.v
RestServer.v
RestServerFacts.v
RestServerInv.v
CtlTool.v
CtlToolFacts.v
RestExample.v
CtlToolExample.v
UnitTests.v
GoStreamId.v
