(* ===== verification/Prelude.v ===== *)
(** * jrt-controller: a verification library

    The jrt-controller loads applications and routes streams of messages
    between eBPF agents and these applications. This library models its C core
    ([src/src/]), its REST server in Rust, the part of its command-line tool in
    Go that deals with applications, and its samples, and proves what makes it correct, or, where the code does not
    do what it means to, exactly what it does.

    ** The program and the files that model it

    - Stream ids ([stream_id/]): sixteen bytes that pack a version, a
      destination, a device, and 54-bit hashes of a path and a name.
      [StreamId] holds the macros and accessors byte by byte, for signed and
      unsigned [char] (class [CharSign]); [StreamIdFacts] relates every byte
      operation to the decoded fields; [StreamIdSpec] states the round trips,
      the independence of the setters and the meaning of matching. [Hash] has
      the Murmur hashes, checked on known values; [Bitmap] the bit array and
      its iterator; [Bloom] and [BloomFacts] the Bloom filter and the
      generation of ids from names; [HashHeap] the same hashing with the blocks
      that it allocates and frees. [GoStreamId] has the accessors of the
      command-line tool ([tools/jrtc-ctl/jrtcbindings/]).
    - External libraries ([Ext]): Concurrency Kit (bitmap, hash table, ring)
      and jbpf (memory pool, IO) are submodules whose sources are not in the
      repository. Each is a class of operations and a class of the laws its
      documentation gives; module [Reference] instantiates them with lists, so
      that the router runs inside the logic and every theorem has a witness.
    - Router ([router/jrtc_router.c]): [Router] is the state of
      [g_router_ctx] (request table, ids, contexts, channels) and its
      operations, in the order of the source; addresses of heap objects are
      keys of finite maps, and using one that was freed is a fault.
      [RouterLookup]: ring sizes and the sixteen wildcard lookups.
      [RouterInv]: the router invariant, requests. [RouterApps]: registration
      and deregistration. [RouterChannels]: channels, whose tables store key
      addresses rather than keys. [RouterForward]: delivery of messages.
      [RouterReceive]: reception, and delivery from end to end. [RouterInit]:
      initialisation and its error labels, the polling step, and the states
      that can be reached. [RouterThread]: the thread that polls.
      [RouterExample]: concrete states. [RouterEpoch]: the same operations
      split into their accesses to shared memory, with the lock and the epochs,
      as transitions that interleave; [RouterEpochExample]: some runs.
    - What the router promises ([PubSub]): an abstract publish/subscribe
      service, with queues and subscriptions as its only state and a labelled
      step relation, and the proof that the router refines it. [PubSubExample]
      runs both.
    - [Sched] ([jrtc_sched.c] and the scheduling part of the router),
      [Logging] ([logger/]), [Config] and [ConfigFacts]
      ([controller/jrtc_config.c]).
    - Controller ([controller/jrtc_int.c]): [Controller] and [ControllerFacts]
      have the table of applications, loading, running and unloading;
      [Process] and [ProcessFacts] have the rest and what [start_jrtc] and
      [main] ([controller/jrtc.c]) make of it: files, libraries, signals, the
      REST server's thread, the command line. [ControllerExample],
      [ProcessExample].
    - REST server ([rest_api_lib/src/lib.rs]): [RestServer] has its handlers,
      the strings it makes for C, its list of applications, the callbacks of
      the controller and the handle it is stopped with; [RestServerFacts] what
      C is given and what is never freed, and the interleavings of starting and
      stopping; [RestServerInv] the server on top of the controller.
      [RestExample].
    - Command-line tool ([tools/jrtc-ctl/]): [CtlTool] has its configuration
      ([cmd/clicommon/config.go]), the requests it makes and loading and
      unloading ([cmd/load/], [cmd/app/], [services/jrt-controller/]);
      [CtlToolFacts], [CtlToolExample].
    - Python applications ([pythonapp_loader/]): [PyLoader] is the loader as
      programs over the calls of the Python API, [PyApi] the rules of the API
      as a monitor, with execution against given answers and a weakest
      precondition over all of them, [PyLoaderFacts] and [PyLoaderExample] what
      follows.
    - [NorthIo] and [NorthIoApp] ([controller/jrtc_north_io_app.c]: the encoding
      batch; the setup of the network and the application from start to stop),
      [AppApi] (requests by name, sending), [Agent] ([agent/jrtc_agent.c]),
      [ApiExample].
    - Applications written with the C++ class ([wrapper_apis/c/jrtc_app.cpp]):
      [JrtcApp] has the configuration, [Init], [run], [CleanUp] and the indexed
      calls of the C interface; [JrtcAppFacts] proves them against the router
      through its lemmas; [JrtcAppPrint] has the stream operators;
      [JrtcAppObject] the heap of the objects, created, run once or more often,
      and deleted; [JrtcAppExample] runs one.
    - The sample applications ([src/sample_apps/]): [CData] has C integers and
      their bytes in memory, [Codelets] the programs the agent runs
      ([jbpf_codelets/]). [SampleApp] runs a handler on the events of an object
      of the class; [FirstExampleC], [AdvancedExampleC1] and
      [AdvancedExampleC2] are the applications of [first_example_c/] and
      [advanced_example_c/], [AdvancedPair] the two advanced ones together.
      [PlainApp] is what the applications on the router's interface share;
      [FirstExample], [AdvancedExample1] and [AdvancedExample2] are those of
      [first_example/] and [advanced_example/]. [SimpleAgent] is the program
      that starts jbpf and calls the codelets ([simple_agent_ipc.c]), with its
      signal handlers. [SampleExample], [AdvancedSample], [PlainSample]:
      executions of all of them.
    - The repository's own tests ([src/jrtc_tests/]): [UnitTests] evaluates
      them on the definitions of this library.

    [main] reads the command line and calls [start_jrtc], which reads the
    configuration with [Config], starts the router with [RouterInit] and loads
    the north-bound application with [Controller]. The controller drives the
    router: [run_app] registers, [unload_app] deregisters. It is itself driven by
    the REST server, whose requests come from [CtlTool]: a request ([rest_op])
    stands for operations of the controller ([ctl_op]), and what the tool puts
    into the parameters of a Python application is what [PyLoader] reads. Agents
    create streams with ids from [Bloom]; applications ask for them with requests from [Bloom]; the router thread forwards with the
    lookups of [RouterLookup] to the queues that [NorthIoApp] and the
    applications of [JrtcApp] read. A sample application is such an application:
    its [jrtc_start_app] is what [run_app] starts in a thread, its messages come
    from [Codelets] through the router, and its answers go back to them.

    ** Conventions

    Integers are [Z] with every wrap-around written out ([wrap]); bit
    operations are those of [Z]. Code that can leave defined behaviour returns
    an [outcome]; its faults are out-of-bounds accesses, NULL dereferences,
    double frees, uses after free, overflow of signed integers, uses of
    variables that are not initialised, divergence and [abort] (which a failed
    [assert] calls). The results of calls
    that can fail (allocations, thread creation, library calls) are arguments,
    collected in a record per operation ([register_env], [load_env], ...), and
    a predicate states what they may be relied on for, such as fresh addresses.
    NULL is [None].

    Fuel appears in seven places. [app_loop] has one unit more than the bitmap
    has bits, and never runs out ([forward_one]). [extract_loop] has one more
    than the filter has bits, and so has [take_loop], the same on the heap
    ([get_hash_frees]). [expand_loop] takes it as an argument: one unit
    more than the number of dollar signs is enough when no value of the
    environment has one ([expand_env_vars_terminates]); for a value that refers
    to itself none is enough ([expand_env_vars_diverges]). [wait_loop] takes it
    too: more than the number of polls until the timeout is enough
    ([init_spec]); without a timeout, and without the channel it waits for,
    none is enough ([init_waits_forever]). [wait_channel], the same wait without a
    timeout, ends with more fuel than polls until the channel is there
    ([wait_channel_found]), and with none when it never is
    ([wait_channel_forever]). [input_loop] needs one unit more than there are
    messages ([simple_input_drains]).

    A loop that runs until a flag is set takes the list of its rounds. What the
    other threads do to the router between two rounds is a function of the
    round ([others]); it is assumed to preserve what the application relies on
    ([round_ok], [turn_ok], [keeps_served]), or to be steps of the router's
    interface ([others_ok]). What the REST server asks for while the process runs is a
    list of operations ([ctl_op]). The order in which a hash map of the server
    is iterated, which nothing determines, is an argument, and the theorems hold
    for every permutation of its entries.

    ** What the theorems show

    - Ids: each field reads back as written, setters do not disturb each other,
      matching is bit inclusion per field, generated ids decode to what they
      were made from; where [char] is signed, which paths read back wrong.
    - Router: the invariant holds in every reachable state, no operation faults
      there, a message reaches exactly the applications whose requests describe
      its stream and that have room, in order, and every buffer is released
      once; requests add and remove exactly one subscription; every error path
      releases what it acquired, with the exceptions the theorems name. Of a
      batch only the first buffer is delivered; the subscriptions of a
      deregistered application stay behind; the ring overruns its buffer
      unless the queue size plus one is a power of two.
    - Concurrency: in every interleaving the lock and the grace period keep the
      request table safe, a waiting application can go on, a request that stays
      in place is not missed; an application that leaves, though, can free its
      context under the hands of the router thread.
    - Publish/subscribe: every run of the router is a run of the abstract
      service; from this, over any run, an application receives what was queued
      for it, in order, without duplicates, inventions or losses.
    - Configuration: expansion computes substitution and terminates, or
      diverges on a self-reference; every string stays terminated in its
      buffer; parseable files are read to their end.
    - Controller: the table of applications stays consistent with the heap, the
      open libraries and the router; loading, unloading and shutdown do what
      they should; the error path of loading frees twice.
    - Process: a run unloads every application and releases files, descriptors
      and buffers; the values of the early returns and what they leak; requests
      before the router is initialised, or after its initialisation failed, use
      a router that is not there.
    - REST server: a run of it is a run of the controller on the operations its
      requests stand for; its list agrees with the controller's table; POST, GET
      and DELETE are inverse to each other, down to the contexts of the router;
      what C is given of a request, which strings are never freed, what happens
      for ids, strings and sizes out of range; of the orders of starting and
      stopping it only one does not use freed memory.
    - Command-line tool: which configurations it accepts, and when it panics;
      unloading by name undoes loading unless the name is taken; the script a
      Python application runs is the configured one for every order of its
      parameters only if no other parameter has another value.
    - Tests: the unit tests and the router test of the repository pass.
    - Python applications: the parts of a script's path; importing and running
      are in balance with respect to references, memory, thread states and the
      mutex, for every answer of Python; the first application obeys the rules
      of the API, every later one asks for an interpreter without the GIL.
    - Agent: what its channels are and who selects them; its life cycle.
    - North-bound application: batches are bounded, buffers and pool elements
      are conserved; it receives every UDP stream and ends without a fault when
      its network was set up, and uses a destroyed pool when it was not.
    - Applications: from the names in its configuration to its handler, an
      application gets the messages it selects; every received buffer is
      released once; a run leaves no request behind, but can leak a channel. An
      object that is run a second time uses the freed channels of the first run.
    - Sample applications: whole executions, from the creation of the object or
      the first request to the end, compute the sums of what was received and
      send them when they should; the versions with and without the class agree
      on what they add up and send, as far as they do; the number of messages
      until a sum overflows; what the second advanced application sends is what
      the first prints. Where the programs without the class release the wrong
      buffer, leave a request behind or wait for ever.
    - Agent program: in every interleaving with signals jbpf is started, cleaned
      up and stopped at most once and in this order, and a signal ends it, with
      one thread; with two it can be stopped twice, and before it is started.

    ** What is not modelled

    Concurrency, outside [RouterEpoch]: operations are atomic, and other threads
    act between the rounds of an application and between the turns of the
    router thread. The rings and the pools are taken to be correct for one
    producer and one consumer. A signal interrupts the agent program between
    its steps, not inside a call. The frameworks below the REST server and the
    tool (axum, tokio, serde; the parsers of YAML and JSON) decode and encode
    what the models start from and end with. The rest of the tool (decoder,
    gateways, caches, log analytics, codelets, the commands that wrap all this)
    is glue around services outside the repository. The Python samples and the
    copies of the agent program (which differ in comments) are left out, and
    so are time stamps, how long a program sleeps, most of what it prints for
    information, the expansion of format strings, the error indicator of
    Python and what a Python application does while it runs. Allocation by
    [strdup] in the controller is taken to succeed. *)
From Stdlib Require Export ZArith Lia.
From stdpp Require Export base numbers list list_numbers strings gmap.

#[global] Open Scope Z_scope.

(** ** Machine integers

    A w-bit unsigned integer is a [Z] in [0, 2^w); every C operation that can
    leave the range is followed by an explicit [wrap]. *)
Definition wrap (w x : Z) : Z := x mod 2 ^ w.

Declare Scope cint_scope.
Delimit Scope cint_scope with C.
Abbreviation u8 := (wrap 8).
Abbreviation u16 := (wrap 16).
Abbreviation u32 := (wrap 32).
Abbreviation u64 := (wrap 64).

(** [sext w x]: the two's complement value of the w-bit pattern [x]. *)
Definition sext (w x : Z) : Z := if x <? 2 ^ (w - 1) then x else x - 2 ^ w.

Notation "x '&&&' y" := (Z.land x y) (at level 40, left associativity) : cint_scope.
Notation "x '|||' y" := (Z.lor x y) (at level 50, left associativity) : cint_scope.
Notation "x '^^^' y" := (Z.lxor x y) (at level 45, left associativity) : cint_scope.
Notation "x '<<' n" := (Z.shiftl x n) (at level 35, right associativity) : cint_scope.
Notation "x '>>' n" := (Z.shiftr x n) (at level 35, right associativity) : cint_scope.
#[global] Open Scope cint_scope.

Definition is_byte (b : Z) : Prop := 0 <= b < 256.

#[global] Instance is_byte_dec b : Decision (is_byte b).
Proof. unfold is_byte. apply _. Defined.

(** ** Outcomes of C code

    [Fault] stands for an execution that leaves defined behaviour, never ends,
    or ends in [abort]. *)
Inductive fault : Type :=
| OutOfBounds
| NullDeref
| DoubleFree
| UseAfterFree
| BadShift
| SignedOverflow
| Uninitialised
| Divergence
| Aborted.

Inductive outcome (A : Type) : Type :=
| Ret (a : A)
| Fault (f : fault).
Arguments Ret {A} a.
Arguments Fault {A} f.

#[global] Instance fault_eq_dec : EqDecision fault.
Proof. solve_decision. Defined.

#[global] Instance outcome_eq_dec {A} `{EqDecision A} : EqDecision (outcome A).
Proof. solve_decision. Defined.

#[global] Instance outcome_ret : MRet outcome := @Ret.
#[global] Instance outcome_bind : MBind outcome := fun A B f m =>
  match m with Ret a => f a | Fault e => Fault e end.
#[global] Instance outcome_fmap : FMap outcome := fun A B f m =>
  match m with Ret a => Ret (f a) | Fault e => Fault e end.

Definition is_ret {A} (o : outcome A) : bool :=
  match o with Ret _ => true | Fault _ => false end.

(** Reading and writing an array cell: outside the array is a fault. *)
Definition array_get {A} (l : list A) (i : nat) : outcome A :=
  match l !! i with Some x => Ret x | None => Fault OutOfBounds end.

Definition array_set {A} (l : list A) (i : nat) (x : A) : outcome (list A) :=
  if decide (i < length l)%nat then Ret (<[i := x]> l) else Fault OutOfBounds.

Create HintDb jrtc discriminated.
Create Rewrite HintDb jbits.

Section Outcome.
Context {A B : Type}.
Implicit Types (m : outcome A) (f : A -> outcome B).

Lemma bind_ret_inv m f b :
    (m ≫= f) = Ret b -> exists a, m = Ret a /\ f a = Ret b.
Proof. destruct m; cbn; [eauto | discriminate]. Qed.

Lemma array_get_lt (l : list A) i :
    (i < length l)%nat -> exists x, array_get l i = Ret x /\ l !! i = Some x.
Proof.
    intros H. unfold array_get. destruct (lookup_lt_is_Some_2 l i H) as [x Hx].
    rewrite Hx. eauto.
Qed.

Lemma array_get_Some (l : list A) i x : l !! i = Some x -> array_get l i = Ret x.
Proof. unfold array_get. by intros ->. Qed.

Lemma array_set_lt (l : list A) i x :
    (i < length l)%nat -> array_set l i x = Ret (<[i := x]> l).
Proof. intros H. unfold array_set. by rewrite decide_True. Qed.
End Outcome.

Lemma filter_ext_in {A} (P Q : A -> Prop) `{!forall x, Decision (P x)} `{!forall x, Decision (Q x)} (l : list A) :
  (forall x, x ∈ l -> P x <-> Q x) -> filter P l = filter Q l.
Proof.
  induction l as [|x l IH]; intros Heq; [done|]. rewrite !filter_cons.
  rewrite IH by (intros y Hy; apply Heq; by apply list_elem_of_further).
  apply decide_ext, Heq, list_elem_of_here.
Qed.

Lemma omap_ext_in {A B} (f g : A -> option B) (l : list A) :
  (forall x, x ∈ l -> f x = g x) -> omap f l = omap g l.
Proof.
  induction l as [|x l IH]; intros H; [done|]. cbn. rewrite (H x) by apply list_elem_of_here.
  rewrite IH; [done|]. intros y Hy. apply H. by apply list_elem_of_further.
Qed.

(** [lia] on goals with quotients and remainders by constants. *)
Ltac dlia := Z.to_euclidean_division_equations; lia.

(** ** Bit-level lemmas *)
Lemma wrap_range w x : 0 <= w -> 0 <= wrap w x < 2 ^ w.
Proof. intros. apply Z.mod_pos_bound. lia. Qed.

Lemma wrap_small w x : 0 <= x < 2 ^ w -> wrap w x = x.
Proof. apply Z.mod_small. Qed.

(** Storing a number in an [int] never makes it bigger. *)
Lemma sext32_small x : 0 <= x < 2 ^ 31 -> sext 32 (u32 x) = x.
Proof. intros Hx. unfold sext, wrap. rewrite Z.mod_small by lia. by rewrite (proj2 (Z.ltb_lt _ _)) by lia. Qed.

Lemma sext32_le x : 0 <= x -> sext 32 (u32 x) <= x.
Proof.
  intros Hx. unfold sext, wrap. pose proof (Z.mod_le x (2 ^ 32) Hx ltac:(lia)). destruct (_ <? _); lia.
Qed.

Lemma wrap_wrap w x : 0 <= w -> wrap w (wrap w x) = wrap w x.
Proof. intros. apply wrap_small. by apply wrap_range. Qed.

Lemma testbit_wrap w x i : 0 <= w -> Z.testbit (wrap w x) i = (i <? w) && Z.testbit x i.
Proof. intros. by apply Z.testbit_mod_pow2. Qed.

Lemma testbit_shl x k i :
  0 <= k -> 0 <= i -> Z.testbit (x << k) i = (k <=? i) && Z.testbit x (i - k).
Proof.
  intros Hk Hi. rewrite Z.shiftl_spec by done.
  destruct (Z.leb_spec k i); [done|]. by rewrite Z.testbit_neg_r by lia.
Qed.

Lemma testbit_ones n i : 0 <= n -> 0 <= i -> Z.testbit (Z.ones n) i = (i <? n).
Proof.
  intros. rewrite Z.testbit_ones by done. rewrite (Zle_imp_le_bool 0 i); done.
Qed.

(** A bit of a value below 2^w vanishes from position w on. *)
Lemma testbit_high w x i : 0 <= x < 2 ^ w -> w <= i -> Z.testbit x i = false.
Proof.
  intros H Hi. destruct (Z.lt_ge_cases w 0).
  { rewrite Z.pow_neg_r in H by done. lia. }
  rewrite <- (Z.mod_small x (2 ^ w)) by done. by apply Z.mod_pow2_bits_high; lia.
Qed.

Lemma bits_lt w x : 0 <= w -> 0 <= x -> (forall i, w <= i -> Z.testbit x i = false) -> x < 2 ^ w.
Proof.
  intros Hw Hx H. destruct (Z.eq_dec x 0) as [->|Hne]; [lia|].
  apply Z.log2_lt_pow2; [lia|]. apply Z.nle_gt. intros Hle.
  specialize (H _ Hle). rewrite Z.bit_log2 in H by lia. discriminate.
Qed.

Lemma lor_lt w x y : 0 <= w -> 0 <= x < 2 ^ w -> 0 <= y < 2 ^ w -> 0 <= (x ||| y) < 2 ^ w.
Proof.
  intros Hw Hx Hy. split; [apply Z.lor_nonneg; lia|].
  apply bits_lt; [done|apply Z.lor_nonneg; lia|].
  intros i Hi. by rewrite Z.lor_spec, !(testbit_high w) by done.
Qed.

Lemma lxor_lt w x y : 0 <= w -> 0 <= x < 2 ^ w -> 0 <= y < 2 ^ w -> 0 <= (x ^^^ y) < 2 ^ w.
Proof.
  intros Hw Hx Hy. split; [apply Z.lxor_nonneg; lia|].
  apply bits_lt; [done|apply Z.lxor_nonneg; lia|].
  intros i Hi. by rewrite Z.lxor_spec, !(testbit_high w) by done.
Qed.

Lemma shiftr_lt w x k : 0 <= w -> 0 <= k -> 0 <= x < 2 ^ w -> 0 <= (x >> k) < 2 ^ w.
Proof.
  intros Hw Hk Hx. split; [apply Z.shiftr_nonneg; lia|].
  apply bits_lt; [done|apply Z.shiftr_nonneg; lia|].
  intros i Hi. rewrite Z.shiftr_spec by lia. apply (testbit_high w); lia.
Qed.

Section Masks.
Variable i : Z.
Hypothesis Hi : 0 <= i.
Lemma bits_x03 : Z.testbit 0x03 i = (i <? 2). Proof. by apply (testbit_ones 2). Qed.
Lemma bits_x07 : Z.testbit 0x07 i = (i <? 3). Proof. by apply (testbit_ones 3). Qed.
Lemma bits_x0F : Z.testbit 0x0F i = (i <? 4). Proof. by apply (testbit_ones 4). Qed.
Lemma bits_x1F : Z.testbit 0x1F i = (i <? 5). Proof. by apply (testbit_ones 5). Qed.
Lemma bits_x3F : Z.testbit 0x3F i = (i <? 6). Proof. by apply (testbit_ones 6). Qed.
Lemma bits_x7F : Z.testbit 0x7F i = (i <? 7). Proof. by apply (testbit_ones 7). Qed.
Lemma bits_xFF : Z.testbit 0xFF i = (i <? 8). Proof. by apply (testbit_ones 8). Qed.
Lemma bits_x54 : Z.testbit 0x3FFFFFFFFFFFFF i = (i <? 54). Proof. by apply (testbit_ones 54). Qed.
Lemma bits_shifted_ones n k : 0 <= n -> 0 <= k ->
    Z.testbit (Z.ones n << k) i = (k <=? i) && (i <? n + k).
Proof.
    intros. rewrite testbit_shl by done. destruct (Z.leb_spec k i); [|done].
    rewrite testbit_ones by lia. cbn. destruct (Z.ltb_spec (i - k) n), (Z.ltb_spec i (n + k)); lia || done.
Qed.
Lemma bits_xC0 : Z.testbit 0xC0 i = (6 <=? i) && (i <? 8). Proof. by apply (bits_shifted_ones 2 6). Qed.
Lemma bits_xF0 : Z.testbit 0xF0 i = (4 <=? i) && (i <? 8). Proof. by apply (bits_shifted_ones 4 4). Qed.
Lemma bits_xF8 : Z.testbit 0xF8 i = (3 <=? i) && (i <? 8). Proof. by apply (bits_shifted_ones 5 3). Qed.
Lemma bits_xFC : Z.testbit 0xFC i = (2 <=? i) && (i <? 8). Proof. by apply (bits_shifted_ones 6 2). Qed.
End Masks.

#[export] Hint Rewrite Z.land_spec Z.lor_spec Z.lxor_spec Z.bits_0 : jbits.
#[export] Hint Rewrite testbit_wrap testbit_shl Z.shiftr_spec testbit_ones
  bits_x03 bits_x07 bits_x0F bits_x1F bits_x3F bits_x7F bits_xFF bits_x54
  bits_xC0 bits_xF0 bits_xF8 bits_xFC using lia : jbits.

(** [bit_split]: case analysis on every bound the bit index is compared
    with; [bit_finish] closes the resulting equalities of atoms. *)
Ltac bit_step :=
  match goal with
  | |- context [?a <? ?b] => destruct (Z.ltb_spec a b); [try (exfalso; lia)|try (exfalso; lia)]
  | |- context [?a <=? ?b] => destruct (Z.leb_spec a b); [try (exfalso; lia)|try (exfalso; lia)]
  end; cbn [andb orb xorb negb].

Ltac bit_high :=
  repeat match goal with
  | H : is_byte ?x |- context [Z.testbit ?x ?j] =>
      rewrite (testbit_high 8 x j) by (unfold is_byte in H; lia)
  | H : 0 <= ?x < 2 ^ ?w |- context [Z.testbit ?x ?j] =>
      rewrite (testbit_high w x j) by lia
  end.

Ltac bit_finish :=
  cbn [andb orb xorb negb];
  bit_high;
  rewrite ?andb_true_r, ?andb_false_r, ?orb_false_r, ?orb_true_r, ?orb_false_l,
    ?orb_diag, ?andb_diag;
  try reflexivity;
  try (f_equal; lia);
  try (repeat f_equal; lia).

Ltac bitwise :=
  apply Z.bits_inj'; let i := fresh "i" in intros i ?;
  autorewrite with jbits;
  repeat (progress bit_step; autorewrite with jbits);
  bit_finish.

(** ** Bit inclusion

    [subset x y]: every bit of [x] is a bit of [y], the way C code tests it. *)
Definition subset (x y : Z) : bool := (x &&& y) =? x.

Lemma subset_spec x y :
  subset x y = true <-> forall i, 0 <= i -> Z.testbit x i = true -> Z.testbit y i = true.
Proof.
  unfold subset. rewrite Z.eqb_eq. split.
  - intros H i Hi Hx. rewrite <- H, Z.land_spec in Hx. by apply andb_prop in Hx as [_ ?].
  - intros H. apply Z.bits_inj'. intros i Hi. rewrite Z.land_spec.
    specialize (H i Hi). destruct (Z.testbit x i); [by rewrite H | done].
Qed.

Lemma subset_refl x : subset x x = true.
Proof. unfold subset. rewrite Z.land_diag. apply Z.eqb_refl. Qed.

Lemma subset_ones w x : 0 <= x < 2 ^ w -> subset x (Z.ones w) = true.
Proof.
  intros H. apply subset_spec. intros i Hi Hx. destruct (Z.lt_ge_cases w 0).
  { rewrite Z.pow_neg_r in H by done. lia. }
  rewrite testbit_ones by done. apply Z.ltb_lt. apply Z.nle_gt. intros Hle.
  by rewrite (testbit_high w x i) in Hx.
Qed.

(** Inclusion of concatenated bit strings is inclusion of the parts. *)
Lemma subset_cat w a b a' b' :
  0 <= w -> 0 <= b < 2 ^ w -> 0 <= b' < 2 ^ w ->
  subset ((a << w) ||| b) ((a' << w) ||| b') = subset a a' && subset b b'.
Proof.
  intros Hw Hb Hb'. apply eq_bool_prop_intro. rewrite andb_True, !Is_true_true, !subset_spec.
  split.
  - intros H. split; intros i Hi Hx.
    + specialize (H (i + w)). rewrite !Z.lor_spec, !testbit_shl in H by lia.
      rewrite Z.add_simpl_r, (testbit_high w b), (testbit_high w b') in H by lia.
      rewrite !orb_false_r, (Zle_imp_le_bool w (i + w)) in H by lia. apply H; [lia|done].
    + assert (i < w).
      { apply Z.nle_gt. intros Hle. by rewrite (testbit_high w b i) in Hx. }
      specialize (H i Hi). rewrite !Z.lor_spec, !testbit_shl in H by lia.
      assert (Hlt : (w <=? i) = false) by (apply Z.leb_gt; lia).
      rewrite Hlt in H. cbn in H. auto.
  - intros [Ha Hc] i Hi. rewrite !Z.lor_spec, !testbit_shl by lia.
    destruct (Z.leb_spec w i); cbn [andb].
    + rewrite (testbit_high w b), (testbit_high w b') by lia. rewrite !orb_false_r. apply Ha. lia.
    + cbn. apply Hc. done.
Qed.

(** Concatenation of bit strings is injective. *)
Lemma cat_inj w a b a' b' :
  0 <= w -> 0 <= b < 2 ^ w -> 0 <= b' < 2 ^ w ->
  (a << w) ||| b = (a' << w) ||| b' -> a = a' /\ b = b'.
Proof.
  intros Hw Hb Hb' H. split; apply Z.bits_inj'; intros i Hi.
  - pose proof (f_equal (λ z, Z.testbit z (i + w)) H) as E. cbv beta in E.
    rewrite !Z.lor_spec, !testbit_shl, (testbit_high w b), (testbit_high w b') in E by lia.
    rewrite Z.add_simpl_r, (Zle_imp_le_bool w (i + w)), !orb_false_r in E by lia. done.
  - destruct (Z.lt_ge_cases i w).
    + pose proof (f_equal (λ z, Z.testbit z i) H) as E. cbv beta in E.
      rewrite !Z.lor_spec, !testbit_shl in E by lia.
      assert (Hlt : (w <=? i) = false) by (apply Z.leb_gt; lia).
      rewrite Hlt in E. done.
    + by rewrite (testbit_high w b), (testbit_high w b') by lia.
Qed.
