(* ===== verification/StreamId.v ===== *)
(** * Stream identifiers

    The 16-byte stream id of [src/src/stream_id/jrtc_router_stream_id.h]: the
    bit-packing macros, the accessors of [jrtc_router_stream_id.c] and the
    request matching predicates. *)
From S2P Require Import Prelude.

Definition JRTC_ROUTER_STREAM_ID_BYTE_LEN : nat := 16.
Definition JRTC_ROUTER_STREAM_ID_VERSION : Z := 0.
Definition JRTC_ROUTER_DEST_NONE : Z := 0x1.
Definition JRTC_ROUTER_DEST_UDP : Z := 0x2.
Definition JRTC_ROUTER_DEST_ANY : Z := 0x7F.
Definition JRTC_ROUTER_DEVICE_ID_ANY : Z := 0x7F.
Definition JRTC_ROUTER_STREAM_PATH_ANY : Z := 0x3FFFFFFFFFFFFF.
Definition JRTC_ROUTER_STREAM_NAME_ANY : Z := 0x3FFFFFFFFFFFFF.

(** [struct jrtc_router_stream_id_int]: the fields, as the bit-fields hold them. *)
Record jrtc_router_stream_id_int := mk_sid_int {
  ver : Z;
  fwd_dst : Z;
  device_id : Z;
  stream_path : Z;
  stream_name : Z
}.

#[global] Instance sid_int_eq_dec : EqDecision jrtc_router_stream_id_int.
Proof. solve_decision. Defined.

(** Assigning to a bit-field of width w keeps the low w bits. *)
Definition sid_int_of (v f d p n : Z) : jrtc_router_stream_id_int :=
  mk_sid_int (wrap 6 v) (wrap 7 f) (wrap 7 d) (wrap 54 p) (wrap 54 n).

(** [struct jrtc_router_stream_id]: the object representation of [char id[16]]. *)
Record jrtc_router_stream_id := mk_stream_id { id : list Z }.

#[global] Instance stream_id_eq_dec : EqDecision jrtc_router_stream_id.
Proof. solve_decision. Defined.

Definition stream_id_wf (s : jrtc_router_stream_id) : Prop :=
  length (id s) = JRTC_ROUTER_STREAM_ID_BYTE_LEN /\ Forall is_byte (id s).

#[global] Instance stream_id_wf_dec s : Decision (stream_id_wf s).
Proof. unfold stream_id_wf. apply _. Defined.

(** Whether plain [char] is signed is up to the platform: it is on x86, it is
    not on ARM, and the headers are written for both. *)
Class CharSign := char_signed : bool.

Section Macros.
Context {cs : CharSign}.

(** The value of a [char] object after the integer promotions. *)
Definition char_val (b : Z) : Z := if char_signed then sext 8 b else b.

(** [(uint64_t)c] of a [char] c. *)
Definition char_u64 (b : Z) : Z := u64 (char_val b).

(** A store into a [char] object of the value of an int expression. *)
Definition st (l : list Z) (i : nat) (v : Z) : list Z := <[i := u8 v]> l.

Definition rd (l : list Z) (i : nat) : Z := char_val (l !!! i).

Definition _jrtc_router_stream_id_apply_ver_mask (l : list Z) (v : Z) : list Z :=
  st l 0 (rd l 0 ||| ((v << 2) ||| (rd l 0 &&& 0x03))).

Definition _jrtc_router_stream_id_apply_fwd_dst_mask (l : list Z) (v : Z) : list Z :=
  let l := st l 0 (rd l 0 ||| ((rd l 0 &&& 0xFC) ||| ((v &&& 0x7F) >> 5))) in
  st l 1 (rd l 1 ||| (((v &&& 0x1F) << 3) ||| (rd l 1 &&& 0x07))).

Definition _jrtc_router_stream_id_apply_device_id_mask (l : list Z) (v : Z) : list Z :=
  let l := st l 1 (rd l 1 ||| ((rd l 1 &&& 0xF8) ||| ((v >> 4) &&& 0x07))) in
  st l 2 (rd l 2 ||| (((v &&& 0x0F) << 4) ||| (rd l 2 &&& 0x0F))).

Definition _jrtc_router_stream_id_apply_stream_path_mask (l : list Z) (v : Z) : list Z :=
  let l := st l 2 (rd l 2 ||| ((rd l 2 &&& 0xF0) ||| ((v >> 50) &&& 0x0F))) in
  let l := st l 3 (rd l 3 ||| ((v >> 42) &&& 0xFF)) in
  let l := st l 4 (rd l 4 ||| ((v >> 34) &&& 0xFF)) in
  let l := st l 5 (rd l 5 ||| ((v >> 26) &&& 0xFF)) in
  let l := st l 6 (rd l 6 ||| ((v >> 18) &&& 0xFF)) in
  let l := st l 7 (rd l 7 ||| ((v >> 10) &&& 0xFF)) in
  let l := st l 8 (rd l 8 ||| ((v >> 2) &&& 0xFF)) in
  st l 9 (rd l 9 ||| (((v &&& 0x03) << 6) ||| (rd l 9 &&& 0x3F))).

Definition _jrtc_router_stream_id_apply_stream_name_mask (l : list Z) (v : Z) : list Z :=
  let l := st l 9 (rd l 9 ||| ((rd l 9 &&& 0xC0) ||| ((v >> 48) &&& 0x3F))) in
  let l := st l 10 (rd l 10 ||| ((v >> 40) &&& 0xFF)) in
  let l := st l 11 (rd l 11 ||| ((v >> 32) &&& 0xFF)) in
  let l := st l 12 (rd l 12 ||| ((v >> 24) &&& 0xFF)) in
  let l := st l 13 (rd l 13 ||| ((v >> 16) &&& 0xFF)) in
  let l := st l 14 (rd l 14 ||| ((v >> 8) &&& 0xFF)) in
  st l 15 (rd l 15 ||| (v &&& 0xFF)).

Definition _jrtc_router_stream_id_set_ver (l : list Z) (v : Z) : list Z :=
  st l 0 ((v << 2) ||| (rd l 0 &&& 0x03)).

Definition _jrtc_router_stream_id_set_fwd_dst (l : list Z) (v : Z) : list Z :=
  let l := st l 0 ((rd l 0 &&& 0xFC) ||| ((v &&& 0x7F) >> 5)) in
  st l 1 (((v &&& 0x1F) << 3) ||| (rd l 1 &&& 0x07)).

Definition _jrtc_router_stream_id_set_device_id (l : list Z) (v : Z) : list Z :=
  let l := st l 1 ((rd l 1 &&& 0xF8) ||| ((v >> 4) &&& 0x07)) in
  st l 2 (((v &&& 0x0F) << 4) ||| (rd l 2 &&& 0x0F)).

Definition _jrtc_router_stream_id_set_stream_path (l : list Z) (v : Z) : list Z :=
  let l := st l 2 ((rd l 2 &&& 0xF0) ||| ((v >> 50) &&& 0x0F)) in
  let l := st l 3 ((v >> 42) &&& 0xFF) in
  let l := st l 4 ((v >> 34) &&& 0xFF) in
  let l := st l 5 ((v >> 26) &&& 0xFF) in
  let l := st l 6 ((v >> 18) &&& 0xFF) in
  let l := st l 7 ((v >> 10) &&& 0xFF) in
  let l := st l 8 ((v >> 2) &&& 0xFF) in
  st l 9 (((v &&& 0x03) << 6) ||| (rd l 9 &&& 0x3F)).

Definition _jrtc_router_stream_id_set_stream_name (l : list Z) (v : Z) : list Z :=
  let l := st l 9 ((rd l 9 &&& 0xC0) ||| ((v >> 48) &&& 0x3F)) in
  let l := st l 10 ((v >> 40) &&& 0xFF) in
  let l := st l 11 ((v >> 32) &&& 0xFF) in
  let l := st l 12 ((v >> 24) &&& 0xFF) in
  let l := st l 13 ((v >> 16) &&& 0xFF) in
  let l := st l 14 ((v >> 8) &&& 0xFF) in
  st l 15 (v &&& 0xFF).

Definition _jrtc_router_stream_id_get_ver (l : list Z) : Z := (rd l 0 >> 2) &&& 0x3F.

Definition _jrtc_router_stream_id_get_fwd_dst (l : list Z) : Z :=
  ((rd l 0 &&& 0x03) << 5) ||| ((rd l 1 >> 3) &&& 0x1F).

Definition _jrtc_router_stream_id_get_device_id (l : list Z) : Z :=
  ((rd l 1 &&& 0x07) << 4) ||| ((rd l 2 >> 4) &&& 0x0F).

(** [(uint64_t)id[i] << k], in 64 bits. *)
Definition rd64 (l : list Z) (i : nat) (k : Z) : Z := u64 (char_u64 (l !!! i) << k).

Definition _jrtc_router_stream_id_get_stream_path (l : list Z) : Z :=
  u64 ((char_u64 (l !!! 2%nat) &&& 0x0F) << 50) ||| rd64 l 3 42 ||| rd64 l 4 34
  ||| rd64 l 5 26 ||| rd64 l 6 18 ||| rd64 l 7 10 ||| rd64 l 8 2
  ||| ((char_u64 (l !!! 9%nat) &&& 0xC0) >> 6).

(** The last byte is not cast: its [char] value is converted to [uint64_t] by
    the usual arithmetic conversions, which gives the same 64-bit pattern. *)
Definition _jrtc_router_stream_id_get_stream_name (l : list Z) : Z :=
  u64 ((char_u64 (l !!! 9%nat) &&& 0x3F) << 48) ||| rd64 l 10 40 ||| rd64 l 11 32
  ||| rd64 l 12 24 ||| rd64 l 13 16 ||| rd64 l 14 8 ||| u64 (rd l 15).

(** The exported accessors take a pointer; NULL is [None]. *)
Definition jrtc_router_stream_id_set_ver (s : option jrtc_router_stream_id) (v : Z) :=
  (λ s, mk_stream_id (_jrtc_router_stream_id_set_ver (id s) (u16 v))) <$> s.
Definition jrtc_router_stream_id_set_fwd_dst (s : option jrtc_router_stream_id) (v : Z) :=
  (λ s, mk_stream_id (_jrtc_router_stream_id_set_fwd_dst (id s) (u16 v))) <$> s.
Definition jrtc_router_stream_id_set_device_id (s : option jrtc_router_stream_id) (v : Z) :=
  (λ s, mk_stream_id (_jrtc_router_stream_id_set_device_id (id s) (u16 v))) <$> s.
Definition jrtc_router_stream_id_set_stream_path (s : option jrtc_router_stream_id) (v : Z) :=
  (λ s, mk_stream_id (_jrtc_router_stream_id_set_stream_path (id s) (u64 v))) <$> s.
Definition jrtc_router_stream_id_set_stream_name (s : option jrtc_router_stream_id) (v : Z) :=
  (λ s, mk_stream_id (_jrtc_router_stream_id_set_stream_name (id s) (u64 v))) <$> s.

Definition jrtc_router_stream_id_get_ver (s : option jrtc_router_stream_id) : Z :=
  match s with None => 0 | Some s => u16 (_jrtc_router_stream_id_get_ver (id s)) end.
Definition jrtc_router_stream_id_get_fwd_dst (s : option jrtc_router_stream_id) : Z :=
  match s with None => 0 | Some s => u16 (_jrtc_router_stream_id_get_fwd_dst (id s)) end.
Definition jrtc_router_stream_id_get_device_id (s : option jrtc_router_stream_id) : Z :=
  match s with None => 0 | Some s => u16 (_jrtc_router_stream_id_get_device_id (id s)) end.
Definition jrtc_router_stream_id_get_stream_path (s : option jrtc_router_stream_id) : Z :=
  match s with None => 0 | Some s => _jrtc_router_stream_id_get_stream_path (id s) end.
Definition jrtc_router_stream_id_get_stream_name (s : option jrtc_router_stream_id) : Z :=
  match s with None => 0 | Some s => _jrtc_router_stream_id_get_stream_name (id s) end.

End Macros.

(** ** Request matching *)

(** [((int* )id)[j]]: four bytes, least significant first. *)
Definition int_at (l : list Z) (j : nat) : Z :=
  foldr (λ b acc, (acc << 8) ||| b) 0 (take 4 (drop (4 * j) l)).

Definition jrtc_router_stream_id_matches_req (sid sid_req : jrtc_router_stream_id) : bool :=
  forallb (λ j, subset (int_at (id sid) j) (int_at (id sid_req) j)) [0; 1; 2; 3]%nat.

Definition __jrtc_router_stream_id_matches_req := jrtc_router_stream_id_matches_req.

(** The per-field predicates read the id through [struct
    jrtc_router_stream_id_int], whose bit-fields the System V ABI lays out
    from the least significant bit of their storage unit, opening a new unit
    when a field does not fit: ver and fwd_dst share the uint16_t at offset 0,
    device_id opens the one at 2, stream_path the uint64_t at 8 and
    stream_name the one at 16. [load] reads n bytes of the 16-byte object. *)
Fixpoint load (n : nat) (l : list Z) (off : nat) : outcome Z :=
  match n with
  | O => Ret 0
  | S n => b ← array_get l off; hi ← load n l (S off); Ret ((hi << 8) ||| b)
  end.

Definition bf_fwd_dst (s : jrtc_router_stream_id) : outcome Z :=
  u ← load 2 (id s) 0; Ret ((u >> 6) &&& 0x7F).
Definition bf_device_id (s : jrtc_router_stream_id) : outcome Z :=
  u ← load 2 (id s) 2; Ret (u &&& 0x7F).
Definition bf_stream_path (s : jrtc_router_stream_id) : outcome Z :=
  u ← load 8 (id s) 8; Ret (u &&& 0x3FFFFFFFFFFFFF).
Definition bf_stream_name (s : jrtc_router_stream_id) : outcome Z :=
  u ← load 8 (id s) 16; Ret (u &&& 0x3FFFFFFFFFFFFF).

Definition bf_matches (bf : jrtc_router_stream_id -> outcome Z)
    (sid sid_req : jrtc_router_stream_id) : outcome bool :=
  x ← bf sid; y ← bf sid_req; Ret (subset x y).

Definition jrtc_router_stream_id_fwd_dst_matches_req := bf_matches bf_fwd_dst.
Definition jrtc_router_stream_id_device_id_matches_req := bf_matches bf_device_id.
Definition jrtc_router_stream_id_stream_path_matches_req := bf_matches bf_stream_path.
Definition jrtc_router_stream_id_stream_name_matches_req := bf_matches bf_stream_name.

(** ** The documented layout

    docs/streams.md: ver (6 bits), fwd_dst (7), device_id (7), stream_path
    (54) and stream_name (54), most significant bit first. *)
Definition sid_value (s : jrtc_router_stream_id) : Z :=
  foldl (λ acc b, (acc << 8) ||| b) 0 (id s).

Definition decode (s : jrtc_router_stream_id) : jrtc_router_stream_id_int :=
  let v := sid_value s in
  mk_sid_int (wrap 6 (v >> 122)) (wrap 7 (v >> 115)) (wrap 7 (v >> 108))
             (wrap 54 (v >> 54)) (wrap 54 v).

Definition sid_int_wf (f : jrtc_router_stream_id_int) : Prop :=
  0 <= ver f < 2 ^ 6 /\ 0 <= fwd_dst f < 2 ^ 7 /\ 0 <= device_id f < 2 ^ 7 /\
  0 <= stream_path f < 2 ^ 54 /\ 0 <= stream_name f < 2 ^ 54.

Lemma char_val_low {cs : CharSign} b i :
  is_byte b -> 0 <= i < 8 -> Z.testbit (char_val b) i = Z.testbit b i.
Proof.
  intros Hb Hi. unfold char_val, sext, is_byte in *. destruct char_signed; [|done].
  change (2 ^ (8 - 1)) with 128. change (2 ^ 8) with 256.
  destruct (Z.ltb_spec b 128); [done|].
  rewrite <- (Z.mod_pow2_bits_low (b - 256) 8 i) by lia.
  replace (b - 256) with (b + (-1) * 2 ^ 8) by lia.
  rewrite Z.mod_add by lia. rewrite Z.mod_small by lia. done.
Qed.

(** The bits a [char] read gains above its eight own ones. *)
Lemma char_val_high {cs : CharSign} b i :
  is_byte b -> 8 <= i -> Z.testbit (char_val b) i = char_signed && Z.testbit b 7.
Proof.
  intros Hb Hi. unfold char_val, sext, is_byte in *. destruct char_signed; cbn [andb].
  2: { apply (testbit_high 8); lia. }
  change (2 ^ (8 - 1)) with 128. change (2 ^ 8) with 256.
  destruct (Z.ltb_spec b 128).
  - rewrite (testbit_high 8), (testbit_high 7) by lia. done.
  - rewrite Z.bits_above_log2_neg; [| lia |].
    + symmetry. apply Z.testbit_true; [lia|]. change (2 ^ 7) with 128.
      replace (b / 128) with 1; [done|]. apply (Z.div_unique b 128 1 (b - 128)); lia.
    + apply Z.le_lt_trans with 7; [|lia]. change 7 with (Z.log2 255).
      apply Z.log2_le_mono. lia.
Qed.

Lemma char_u64_bit {cs : CharSign} b i :
  0 <= i -> Z.testbit (char_u64 b) i = (i <? 64) && Z.testbit (char_val b) i.
Proof. intros. unfold char_u64. by rewrite testbit_wrap by lia. Qed.
#[export] Hint Rewrite @char_u64_bit using lia : jbits.

Lemma u8_byte x : is_byte (u8 x).
Proof. apply (wrap_range 8). lia. Qed.
#[export] Hint Resolve u8_byte : jrtc.

(** A well-formed id is sixteen bytes, one variable each. *)
Lemma stream_id_explode s : stream_id_wf s ->
  exists b0 b1 b2 b3 b4 b5 b6 b7 b8 b9 b10 b11 b12 b13 b14 b15,
    s = mk_stream_id [b0;b1;b2;b3;b4;b5;b6;b7;b8;b9;b10;b11;b12;b13;b14;b15] /\
    Forall is_byte [b0;b1;b2;b3;b4;b5;b6;b7;b8;b9;b10;b11;b12;b13;b14;b15].
Proof.
  destruct s as [l]. intros [Hl Hb]. cbn in Hl, Hb.
  do 16 (destruct l as [|? l]; [discriminate|]). destruct l; [|discriminate].
  repeat eexists. exact Hb.
Qed.

Ltac explode s :=
  let H := fresh in
  match goal with W : stream_id_wf s |- _ =>
    destruct (stream_id_explode s W) as (?&?&?&?&?&?&?&?&?&?&?&?&?&?&?&?&->&H); clear W;
    rewrite !Forall_cons in H; destruct H as (?&?&?&?&?&?&?&?&?&?&?&?&?&?&?&?&_)
  end.

Ltac char_low :=
  repeat match goal with
  | H : is_byte ?b |- context [Z.testbit (char_val ?b) ?j] =>
      rewrite (char_val_low b j H) by lia
  end.

(** [bitwise] for goals that read [char] objects. *)
Ltac char_bits :=
  apply Z.bits_inj'; let i := fresh "i" in intros i ?;
  autorewrite with jbits;
  repeat (progress bit_step; autorewrite with jbits);
  char_low; bit_finish.

Lemma decode_bytes b0 b1 b2 b3 b4 b5 b6 b7 b8 b9 b10 b11 b12 b13 b14 b15 :
  Forall is_byte [b0;b1;b2;b3;b4;b5;b6;b7;b8;b9;b10;b11;b12;b13;b14;b15] ->
  decode (mk_stream_id [b0;b1;b2;b3;b4;b5;b6;b7;b8;b9;b10;b11;b12;b13;b14;b15]) =
  mk_sid_int (b0 >> 2)
             (((b0 &&& 0x03) << 5) ||| (b1 >> 3))
             (((b1 &&& 0x07) << 4) ||| (b2 >> 4))
             (((b2 &&& 0x0F) << 50) ||| (b3 << 42) ||| (b4 << 34) ||| (b5 << 26)
              ||| (b6 << 18) ||| (b7 << 10) ||| (b8 << 2) ||| (b9 >> 6))
             (((b9 &&& 0x3F) << 48) ||| (b10 << 40) ||| (b11 << 32) ||| (b12 << 24)
              ||| (b13 << 16) ||| (b14 << 8) ||| b15).
Proof.
  intros H. rewrite !Forall_cons in H. destruct H as (?&?&?&?&?&?&?&?&?&?&?&?&?&?&?&?&_).
  unfold decode, sid_value. cbn [id foldl].
  rewrite !Z.shiftl_lor, !Z.shiftl_shiftl, Z.shiftl_0_l, Z.lor_0_l by lia. cbn [Z.add Pos.add Pos.succ Pos.add_carry].
  f_equal; bitwise.
Qed.

Ltac sid_cbn :=
  unfold st, rd;
  cbn [insert list_insert lookup_total list_lookup_total id length fmap option_fmap option_map
       default from_option].

Ltac solve_bytes :=
  repeat (apply Forall_cons_2; [solve [assumption | apply u8_byte]|]); apply Forall_nil_2.

Ltac decode_step :=
  rewrite !decode_bytes by solve_bytes; cbn [ver fwd_dst device_id stream_path stream_name].

Tactic Notation "sid_fields" reference(macro) :=
  match goal with s : jrtc_router_stream_id |- _ => explode s end;
  unfold macro; sid_cbn; decode_step; f_equal; char_bits.
