(* ===== verification/StreamIdFacts.v ===== *)
(** * Facts about stream identifiers

    What the packing macros and accessors of [StreamId] do to the documented
    fields, and what request matching decides. *)
From S2P Require Import Prelude StreamId.

(** ** Effect of the macros on the documented fields *)
Section MacroFacts.
Context {cs : CharSign}.
Implicit Types (s : jrtc_router_stream_id) (v : Z).

Lemma set_ver_decode s v : stream_id_wf s ->
  decode (mk_stream_id (_jrtc_router_stream_id_set_ver (id s) v)) =
  mk_sid_int (wrap 6 v) (fwd_dst (decode s)) (device_id (decode s))
             (stream_path (decode s)) (stream_name (decode s)).
Proof. intros W. sid_fields _jrtc_router_stream_id_set_ver. Qed.

Lemma set_fwd_dst_decode s v : stream_id_wf s ->
  decode (mk_stream_id (_jrtc_router_stream_id_set_fwd_dst (id s) v)) =
  mk_sid_int (ver (decode s)) (wrap 7 v) (device_id (decode s))
             (stream_path (decode s)) (stream_name (decode s)).
Proof. intros W. sid_fields _jrtc_router_stream_id_set_fwd_dst. Qed.

Lemma set_device_id_decode s v : stream_id_wf s ->
  decode (mk_stream_id (_jrtc_router_stream_id_set_device_id (id s) v)) =
  mk_sid_int (ver (decode s)) (fwd_dst (decode s)) (wrap 7 v)
             (stream_path (decode s)) (stream_name (decode s)).
Proof. intros W. sid_fields _jrtc_router_stream_id_set_device_id. Qed.

Lemma set_stream_path_decode s v : stream_id_wf s ->
  decode (mk_stream_id (_jrtc_router_stream_id_set_stream_path (id s) v)) =
  mk_sid_int (ver (decode s)) (fwd_dst (decode s)) (device_id (decode s))
             (wrap 54 v) (stream_name (decode s)).
Proof. intros W. sid_fields _jrtc_router_stream_id_set_stream_path. Qed.

Lemma set_stream_name_decode s v : stream_id_wf s ->
  decode (mk_stream_id (_jrtc_router_stream_id_set_stream_name (id s) v)) =
  mk_sid_int (ver (decode s)) (fwd_dst (decode s)) (device_id (decode s))
             (stream_path (decode s)) (wrap 54 v).
Proof. intros W. sid_fields _jrtc_router_stream_id_set_stream_name. Qed.

Lemma apply_fwd_dst_decode s v : stream_id_wf s ->
  decode (mk_stream_id (_jrtc_router_stream_id_apply_fwd_dst_mask (id s) v)) =
  mk_sid_int (ver (decode s)) (fwd_dst (decode s) ||| wrap 7 v) (device_id (decode s))
             (stream_path (decode s)) (stream_name (decode s)).
Proof. intros W. sid_fields _jrtc_router_stream_id_apply_fwd_dst_mask. Qed.

Lemma apply_device_id_decode s v : stream_id_wf s ->
  decode (mk_stream_id (_jrtc_router_stream_id_apply_device_id_mask (id s) v)) =
  mk_sid_int (ver (decode s)) (fwd_dst (decode s)) (device_id (decode s) ||| wrap 7 v)
             (stream_path (decode s)) (stream_name (decode s)).
Proof. intros W. sid_fields _jrtc_router_stream_id_apply_device_id_mask. Qed.

Lemma apply_stream_path_decode s v : stream_id_wf s ->
  decode (mk_stream_id (_jrtc_router_stream_id_apply_stream_path_mask (id s) v)) =
  mk_sid_int (ver (decode s)) (fwd_dst (decode s)) (device_id (decode s))
             (stream_path (decode s) ||| wrap 54 v) (stream_name (decode s)).
Proof. intros W. sid_fields _jrtc_router_stream_id_apply_stream_path_mask. Qed.

Lemma apply_stream_name_decode s v : stream_id_wf s ->
  decode (mk_stream_id (_jrtc_router_stream_id_apply_stream_name_mask (id s) v)) =
  mk_sid_int (ver (decode s)) (fwd_dst (decode s)) (device_id (decode s))
             (stream_path (decode s)) (stream_name (decode s) ||| wrap 54 v).
Proof. intros W. sid_fields _jrtc_router_stream_id_apply_stream_name_mask. Qed.

(** Every macro keeps sixteen bytes. *)
Lemma st_wf l i v : stream_id_wf (mk_stream_id l) -> stream_id_wf (mk_stream_id (st l i v)).
Proof.
  intros [Hl Hb]. split; cbn in *; unfold st; [by rewrite length_insert|].
  apply Forall_insert; [done|apply u8_byte].
Qed.

Lemma mk_id s : mk_stream_id (id s) = s.
Proof. by destruct s. Qed.

Lemma set_wf s v : stream_id_wf s ->
  stream_id_wf (mk_stream_id (_jrtc_router_stream_id_set_ver (id s) v)) /\
  stream_id_wf (mk_stream_id (_jrtc_router_stream_id_set_fwd_dst (id s) v)) /\
  stream_id_wf (mk_stream_id (_jrtc_router_stream_id_set_device_id (id s) v)) /\
  stream_id_wf (mk_stream_id (_jrtc_router_stream_id_set_stream_path (id s) v)) /\
  stream_id_wf (mk_stream_id (_jrtc_router_stream_id_set_stream_name (id s) v)).
Proof.
  intros W. rewrite <- (mk_id s) in W.
  repeat split_and!; unfold _jrtc_router_stream_id_set_ver, _jrtc_router_stream_id_set_fwd_dst,
    _jrtc_router_stream_id_set_device_id, _jrtc_router_stream_id_set_stream_path,
    _jrtc_router_stream_id_set_stream_name; cbv zeta; repeat apply st_wf; exact W.
Qed.

Lemma apply_wf s v : stream_id_wf s ->
  stream_id_wf (mk_stream_id (_jrtc_router_stream_id_apply_fwd_dst_mask (id s) v)) /\
  stream_id_wf (mk_stream_id (_jrtc_router_stream_id_apply_device_id_mask (id s) v)) /\
  stream_id_wf (mk_stream_id (_jrtc_router_stream_id_apply_stream_path_mask (id s) v)) /\
  stream_id_wf (mk_stream_id (_jrtc_router_stream_id_apply_stream_name_mask (id s) v)).
Proof.
  intros W. rewrite <- (mk_id s) in W.
  repeat split_and!; unfold _jrtc_router_stream_id_apply_fwd_dst_mask,
    _jrtc_router_stream_id_apply_device_id_mask, _jrtc_router_stream_id_apply_stream_path_mask,
    _jrtc_router_stream_id_apply_stream_name_mask; cbv zeta; repeat apply st_wf; exact W.
Qed.

(** The small fields are read back on every platform. *)
Lemma get_small_decode s : stream_id_wf s ->
  _jrtc_router_stream_id_get_ver (id s) = ver (decode s) /\
  _jrtc_router_stream_id_get_fwd_dst (id s) = fwd_dst (decode s) /\
  _jrtc_router_stream_id_get_device_id (id s) = device_id (decode s).
Proof.
  intros W. explode s.
  unfold _jrtc_router_stream_id_get_ver, _jrtc_router_stream_id_get_fwd_dst,
    _jrtc_router_stream_id_get_device_id. sid_cbn. decode_step.
  split_and!; char_bits.
Qed.

End MacroFacts.
