(* ===== verification/StreamIdSpec.v ===== *)
(** * What stream identifiers promise

    The accessors of [jrtc_router_stream_id.c] against the documented fields,
    and the request matching of [jrtc_router_stream_id.h] against a field by
    field specification. *)
From S2P Require Import Prelude StreamId StreamIdFacts.

Implicit Types s r : jrtc_router_stream_id.

Lemma id_byte s k : stream_id_wf s -> (k < 16)%nat -> is_byte (id s !!! k).
Proof.
  intros [Hl Hb] Hk. apply (Forall_lookup_total_1 _ _ _ Hb). by rewrite Hl.
Qed.

(** ** The id is its fields *)
Lemma sid_value_app_inj l l' a a' :
  length l = length l' -> Forall is_byte l -> Forall is_byte l' ->
  foldl (λ acc b, (acc << 8) ||| b) a l = foldl (λ acc b, (acc << 8) ||| b) a' l' ->
  a = a' /\ l = l'.
Proof.
  revert l' a a'. induction l as [|b l IH]; intros [|b' l'] a a'; try discriminate; cbn; [done|].
  intros Hl Hb Hb'. apply Forall_cons in Hb as [Hb0 Hb], Hb' as [Hb0' Hb'].
  intros H. apply IH in H as [H ->]; [|congruence|done..].
  apply cat_inj in H as [-> ->]; unfold is_byte in *; [done|lia..].
Qed.

Lemma sid_value_range s : stream_id_wf s -> 0 <= sid_value s < 2 ^ 128.
Proof.
  intros W. explode s. unfold sid_value. cbn [id foldl].
  split.
  - repeat (rewrite Z.lor_nonneg; split); try (rewrite Z.shiftl_nonneg);
      unfold is_byte in *; repeat (rewrite Z.lor_nonneg; split); try lia;
      repeat (rewrite ?Z.shiftl_nonneg, ?Z.lor_nonneg; try split); lia.
  - apply bits_lt; [lia| |].
    + repeat (rewrite ?Z.shiftl_nonneg, ?Z.lor_nonneg; try split); unfold is_byte in *; lia.
    + intros i Hi. autorewrite with jbits. bit_high.
      repeat (rewrite (testbit_high 8); [|assumption|lia]).
      by rewrite ?andb_false_r.
Qed.

Lemma sid_value_fields s : stream_id_wf s ->
  sid_value s =
  ((((((((ver (decode s) << 7) ||| fwd_dst (decode s)) << 7) ||| device_id (decode s)) << 54)
     ||| stream_path (decode s)) << 54) ||| stream_name (decode s)).
Proof.
  intros W. pose proof (sid_value_range s W). unfold decode.
  cbn [ver fwd_dst device_id stream_path stream_name]. generalize dependent (sid_value s).
  intros v Hv. bitwise.
Qed.

Lemma decode_range s : sid_int_wf (decode s).
Proof. unfold sid_int_wf, decode. cbn. split_and!; apply wrap_range; lia. Qed.

Lemma decode_inj s r : stream_id_wf s -> stream_id_wf r -> decode s = decode r -> s = r.
Proof.
  intros Ws Wr H.
  assert (Hv : sid_value s = sid_value r).
  { by rewrite (sid_value_fields s Ws), (sid_value_fields r Wr), H. }
  destruct s as [l], r as [l'], Ws as [Hl Hb], Wr as [Hl' Hb']. cbn in *. f_equal.
  apply (sid_value_app_inj l l' 0 0); [congruence|done..].
Qed.

(** ** Matching *)
Lemma subset_foldl l l' a a' :
  length l = length l' -> Forall is_byte l -> Forall is_byte l' ->
  subset (foldl (λ acc b, (acc << 8) ||| b) a l) (foldl (λ acc b, (acc << 8) ||| b) a' l') =
  subset a a' && forallb (λ p, subset p.1 p.2) (zip l l').
Proof.
  revert l' a a'. induction l as [|b l IH]; intros [|b' l'] a a'; try discriminate; cbn.
  { intros. by rewrite andb_true_r. }
  intros Hl Hb Hb'. apply Forall_cons in Hb as [Hb0 Hb], Hb' as [Hb0' Hb'].
  rewrite IH by (done || congruence). unfold is_byte in *.
  rewrite subset_cat by lia. by rewrite andb_assoc.
Qed.

Lemma subset_foldr l l' :
  length l = length l' -> Forall is_byte l -> Forall is_byte l' ->
  subset (foldr (λ b acc, (acc << 8) ||| b) 0 l) (foldr (λ b acc, (acc << 8) ||| b) 0 l') =
  forallb (λ p, subset p.1 p.2) (zip l l').
Proof.
  revert l'. induction l as [|b l IH]; intros [|b' l']; try discriminate; cbn; [done|].
  intros Hl Hb Hb'. apply Forall_cons in Hb as [Hb0 Hb], Hb' as [Hb0' Hb'].
  unfold is_byte in *. rewrite subset_cat by lia.
  rewrite IH by (done || congruence). apply andb_comm.
Qed.

(** The field by field reading of a match. *)
Definition fields_match (f g : jrtc_router_stream_id_int) : bool :=
  subset (ver f) (ver g) && subset (fwd_dst f) (fwd_dst g)
  && subset (device_id f) (device_id g) && subset (stream_path f) (stream_path g)
  && subset (stream_name f) (stream_name g).

Lemma matches_fields s r : stream_id_wf s -> stream_id_wf r ->
  jrtc_router_stream_id_matches_req s r = fields_match (decode s) (decode r).
Proof.
  intros Ws Wr.
  transitivity (subset (sid_value s) (sid_value r)).
  - destruct Ws as [Hl Hb], Wr as [Hl' Hb'].
    unfold sid_value. rewrite subset_foldl by (done || congruence). cbn [andb].
    change (subset 0 0) with true. cbn [andb].
    unfold jrtc_router_stream_id_matches_req. cbn [forallb].
    unfold int_at. rewrite !subset_foldr.
    2-13: try (apply Forall_take, Forall_drop; done); rewrite !length_take, !length_drop; lia.
    destruct (stream_id_explode s) as (?&?&?&?&?&?&?&?&?&?&?&?&?&?&?&?&->&_); [done|].
    destruct (stream_id_explode r) as (?&?&?&?&?&?&?&?&?&?&?&?&?&?&?&?&->&_); [done|].
    cbn. rewrite !andb_true_r, <- !andb_assoc. done.
  - rewrite (sid_value_fields s Ws), (sid_value_fields r Wr).
    pose proof (decode_range s) as (?&?&?&?&?). pose proof (decode_range r) as (?&?&?&?&?).
    rewrite !subset_cat by lia. done.
Qed.

(** C26: [jrtc_router_stream_id_matches_req], which compares the ids as four
    machine words, decides exactly that every documented field of the stream
    id is included, bit by bit, in the same field of the request. *)
Theorem matches_req_fields s r : stream_id_wf s -> stream_id_wf r ->
  jrtc_router_stream_id_matches_req s r = fields_match (decode s) (decode r).
Proof. apply matches_fields. Qed.

(** A one-line example: the request of the router test, [DEST_ANY, DEVICE_ID_ANY,
    NULL, NULL], is matched by any id. *)
Definition example_sid : jrtc_router_stream_id :=
  mk_stream_id [0x00;0x10;0x1e;0x30;0x97;0xb1;0x45;0x4b;0xfc;0xaf;0xca;0xc3;0x0c;0x22;0x35;0xd9].
Definition example_any : jrtc_router_stream_id :=
  mk_stream_id (0x03 :: replicate 15 0xFF).

Lemma example_sid_wf : stream_id_wf example_sid.
Proof. by apply (bool_decide_unpack _); vm_compute. Defined.
Lemma example_any_wf : stream_id_wf example_any.
Proof. by apply (bool_decide_unpack _); vm_compute. Defined.

Lemma matches_req_fields_witness :
  jrtc_router_stream_id_matches_req example_sid example_any =
  fields_match (decode example_sid) (decode example_any).
Proof. exact (matches_req_fields example_sid example_any example_sid_wf example_any_wf). Defined.

(** ** Accessors *)
Section Accessors.
Context {cs : CharSign}.

Lemma wrap_u16 w v : 0 <= w <= 16 -> wrap w (u16 v) = wrap w v.
Proof. intros. bitwise. Qed.
Lemma wrap_u64 w v : 0 <= w <= 64 -> wrap w (u64 v) = wrap w v.
Proof. intros. bitwise. Qed.
Lemma u16_wrap w v : 0 <= w <= 16 -> u16 (wrap w v) = wrap w v.
Proof. intros. bitwise. Qed.

(** Each exported setter keeps the id well formed, stores its argument,
    truncated to the field's width, in its own field and leaves the four
    others as they were, whatever the signedness of [char]. *)
Theorem setters_own_field s v : stream_id_wf s ->
  exists s1 s2 s3 s4 s5,
    jrtc_router_stream_id_set_ver (Some s) v = Some s1 /\
    jrtc_router_stream_id_set_fwd_dst (Some s) v = Some s2 /\
    jrtc_router_stream_id_set_device_id (Some s) v = Some s3 /\
    jrtc_router_stream_id_set_stream_path (Some s) v = Some s4 /\
    jrtc_router_stream_id_set_stream_name (Some s) v = Some s5 /\
    let d := decode s in
    decode s1 = mk_sid_int (wrap 6 v) (fwd_dst d) (device_id d) (stream_path d) (stream_name d) /\
    decode s2 = mk_sid_int (ver d) (wrap 7 v) (device_id d) (stream_path d) (stream_name d) /\
    decode s3 = mk_sid_int (ver d) (fwd_dst d) (wrap 7 v) (stream_path d) (stream_name d) /\
    decode s4 = mk_sid_int (ver d) (fwd_dst d) (device_id d) (wrap 54 v) (stream_name d) /\
    decode s5 = mk_sid_int (ver d) (fwd_dst d) (device_id d) (stream_path d) (wrap 54 v) /\
    Forall stream_id_wf [s1; s2; s3; s4; s5].
Proof.
  intros W. cbn. do 5 eexists. do 5 (split; [reflexivity|]).
  rewrite set_ver_decode, set_fwd_dst_decode, set_device_id_decode, set_stream_path_decode,
    set_stream_name_decode by done.
  rewrite !wrap_u16, !wrap_u64 by lia. split_and!; try reflexivity.
  destruct (set_wf s (u16 v) W) as (?&?&?&_). destruct (set_wf s (u64 v) W) as (_&_&_&?&?).
  repeat (apply Forall_cons_2; [done|]). apply Forall_nil_2.
Qed.

(** Reading the version, destination or device id back after setting it
    gives the value modulo the field width, on every platform. *)
Theorem small_fields_roundtrip s v : stream_id_wf s ->
  jrtc_router_stream_id_get_ver (jrtc_router_stream_id_set_ver (Some s) v) = v mod 2 ^ 6 /\
  jrtc_router_stream_id_get_fwd_dst (jrtc_router_stream_id_set_fwd_dst (Some s) v) = v mod 2 ^ 7 /\
  jrtc_router_stream_id_get_device_id (jrtc_router_stream_id_set_device_id (Some s) v) = v mod 2 ^ 7.
Proof.
  intros W. destruct (set_wf s (u16 v) W) as (W1&W2&W3&_).
  unfold jrtc_router_stream_id_get_ver, jrtc_router_stream_id_get_fwd_dst,
    jrtc_router_stream_id_get_device_id, jrtc_router_stream_id_set_ver,
    jrtc_router_stream_id_set_fwd_dst, jrtc_router_stream_id_set_device_id. cbn [fmap option_fmap option_map].
  destruct (get_small_decode _ W1) as (E1&_&_). destruct (get_small_decode _ W2) as (_&E2&_).
  destruct (get_small_decode _ W3) as (_&_&E3). rewrite E1, E2, E3.
  rewrite set_ver_decode, set_fwd_dst_decode, set_device_id_decode by done.
  cbn [ver fwd_dst device_id]. rewrite !wrap_u16, !u16_wrap by lia. done.
Qed.

Lemma char_val_small b : is_byte b -> char_signed = false \/ b < 128 -> char_val b = b.
Proof.
  unfold char_val, sext. intros Hb [->|H]; [done|]. destruct char_signed; [|done].
  by rewrite (proj2 (Z.ltb_lt b (2 ^ (8 - 1)))).
Qed.

Lemma char_u64_small b : is_byte b -> char_signed = false \/ b < 128 -> char_u64 b = b.
Proof.
  intros Hb H. unfold char_u64. rewrite char_val_small by done.
  apply wrap_small. unfold is_byte in Hb. lia.
Qed.

(** Reading byte [i] shifted left by [k <= 55] smears the sign of the byte up
    to bit 63 when [char] is signed. *)
Lemma rd64_top l i k : is_byte (l !!! i) -> 0 <= k <= 55 ->
  Z.testbit (rd64 l i k) 63 = char_signed && Z.testbit (l !!! i) 7.
Proof.
  intros Hb Hk. unfold rd64. rewrite testbit_wrap, testbit_shl, char_u64_bit by lia.
  rewrite (Zle_imp_le_bool k 63) by lia.
  replace (63 - k <? 64) with true by (symmetry; apply Z.ltb_lt; lia). cbn [Z.ltb Z.compare andb].
  apply char_val_high; [done|lia].
Qed.

Lemma byte_msb b : is_byte b -> Z.testbit b 7 = (128 <=? b).
Proof.
  intros Hb. unfold is_byte in *. destruct (Z.leb_spec 128 b).
  - apply Z.testbit_true; [lia|]. replace (b / 2 ^ 7) with 1; [done|].
    apply (Z.div_unique b 128 1 (b - 128)); lia.
  - apply (testbit_high 7); lia.
Qed.

(** The getters of the two wide fields agree with the documented fields when
    no byte they sign-extend is negative. *)
Lemma get_wide_small s : stream_id_wf s ->
  (char_signed = false \/ forall k, (3 <= k <= 8)%nat -> id s !!! k < 128) ->
  _jrtc_router_stream_id_get_stream_path (id s) = stream_path (decode s).
Proof.
  intros W H.
  assert (Hk : forall k, (3 <= k <= 8)%nat -> char_u64 (id s !!! k) = id s !!! k).
  { intros k Hk. apply char_u64_small; [apply id_byte; [done|lia]|destruct H; auto]. }
  unfold _jrtc_router_stream_id_get_stream_path, rd64.
  rewrite (Hk 3%nat), (Hk 4%nat), (Hk 5%nat), (Hk 6%nat), (Hk 7%nat), (Hk 8%nat) by lia. clear Hk H.
  explode s. sid_cbn. decode_step. char_bits.
Qed.

Lemma get_name_small s : stream_id_wf s ->
  (char_signed = false \/ forall k, (10 <= k <= 15)%nat -> id s !!! k < 128) ->
  _jrtc_router_stream_id_get_stream_name (id s) = stream_name (decode s).
Proof.
  intros W H.
  assert (Hk : forall k, (10 <= k <= 15)%nat -> char_u64 (id s !!! k) = id s !!! k).
  { intros k Hk. apply char_u64_small; [apply id_byte; [done|lia]|destruct H; auto]. }
  unfold _jrtc_router_stream_id_get_stream_name, rd64, rd. fold (char_u64 (id s !!! 15%nat)).
  rewrite (Hk 10%nat), (Hk 11%nat), (Hk 12%nat), (Hk 13%nat), (Hk 14%nat), (Hk 15%nat) by lia.
  clear Hk H. explode s. sid_cbn. decode_step. char_bits.
Qed.

(** C38: on a platform whose [char] is unsigned, the path and the name read back
    are the 54-bit values that were set. *)
Theorem wide_fields_roundtrip s v : stream_id_wf s -> char_signed = false ->
  jrtc_router_stream_id_get_stream_path (jrtc_router_stream_id_set_stream_path (Some s) v)
    = v mod 2 ^ 54 /\
  jrtc_router_stream_id_get_stream_name (jrtc_router_stream_id_set_stream_name (Some s) v)
    = v mod 2 ^ 54.
Proof.
  intros W Hcs. destruct (set_wf s (u64 v) W) as (_&_&_&W4&W5).
  pose proof (get_wide_small _ W4 (or_introl Hcs)) as E4.
  pose proof (get_name_small _ W5 (or_introl Hcs)) as E5.
  rewrite set_stream_path_decode in E4 by done. rewrite set_stream_name_decode in E5 by done.
  cbn [id stream_path stream_name] in E4, E5. rewrite wrap_u64 in E4, E5 by lia. by split.
Qed.

(** The stream path getter returns the stored 54-bit path exactly when
    [char] is unsigned or none of the bytes 3 to 8 has its top bit set: on a
    platform with a signed [char] the sign of such a byte is smeared over the
    high bits of the result. *)
Theorem get_stream_path_exact s : stream_id_wf s ->
  jrtc_router_stream_id_get_stream_path (Some s) = stream_path (decode s) <->
  char_signed = false \/ forall k, (3 <= k <= 8)%nat -> id s !!! k < 128.
Proof.
  intros W. split; [|by apply get_wide_small].
  intros E. destruct (char_signed) eqn:Hcs; [right|by left].
  assert (E63 : Z.testbit (jrtc_router_stream_id_get_stream_path (Some s)) 63 = false).
  { rewrite E. apply (testbit_high 54); [|lia]. apply decode_range. }
  intros k Hk. apply Z.nle_gt. intros Hge.
  assert (Hb : is_byte (id s !!! k)) by (apply id_byte; [done|lia]).
  assert (Ht : forall sh, 0 <= sh <= 55 -> Z.testbit (rd64 (id s) k sh) 63 = true).
  { intros sh Hs. rewrite rd64_top, Hcs, byte_msb by done. by apply Z.leb_le in Hge. }
  unfold jrtc_router_stream_id_get_stream_path, _jrtc_router_stream_id_get_stream_path in E63.
  rewrite !Z.lor_spec, !orb_false_iff in E63. destruct_and! E63.
  assert (k = 3 \/ k = 4 \/ k = 5 \/ k = 6 \/ k = 7 \/ k = 8)%nat as [->|[->|[->|[->|[->| ->]]]]] by lia;
    rewrite Ht in *; (discriminate || lia).
Qed.

End Accessors.

Lemma setters_own_field_witness :
  exists s1, @jrtc_router_stream_id_set_fwd_dst true (Some example_sid) 0x81 = Some s1 /\
             fwd_dst (decode s1) = 1.
Proof.
  destruct (@setters_own_field true example_sid 0x81 example_sid_wf)
    as (?&s2&?&?&?&_&E&_&_&_&_&D&_).
  exists s2. split; [exact E|]. rewrite D. reflexivity.
Defined.

Lemma small_fields_roundtrip_witness :
  @jrtc_router_stream_id_get_device_id true (@jrtc_router_stream_id_set_device_id true (Some example_sid) 200)
  = 72.
Proof. exact (proj2 (proj2 (@small_fields_roundtrip true example_sid 200 example_sid_wf))). Defined.

Lemma wide_fields_roundtrip_witness :
  @jrtc_router_stream_id_get_stream_path false
    (@jrtc_router_stream_id_set_stream_path false (Some example_sid) (2 ^ 54 + 5)) = 5.
Proof. exact (proj1 (@wide_fields_roundtrip false example_sid (2 ^ 54 + 5) example_sid_wf eq_refl)). Defined.

(** The id of the stream ("cpudist_percore/percpu_hist_map_t", "placeholder"),
    read on x86: byte 4 is 0x97, so the path that comes back is not the path. *)
Lemma get_stream_path_exact_witness :
  @jrtc_router_stream_id_get_stream_path true (Some example_sid) <> stream_path (decode example_sid).
Proof.
  intros E. apply (@get_stream_path_exact true example_sid example_sid_wf) in E as [E|E].
  - discriminate E.
  - specialize (E 4%nat ltac:(lia)). discriminate E.
Defined.

(** ** The predicates that go through the bit-field struct *)

(** [jrtc_router_stream_id_stream_name_matches_req] reads the eight bytes
    at offset 16 of a sixteen-byte object: it is out of bounds on every id. *)
Theorem stream_name_matches_req_oob s r : stream_id_wf s ->
  jrtc_router_stream_id_stream_name_matches_req s r = Fault OutOfBounds.
Proof.
  intros [Hl _]. unfold jrtc_router_stream_id_stream_name_matches_req, bf_matches, bf_stream_name.
  assert (E : array_get (id s) 16 = Fault OutOfBounds).
  { unfold array_get. by rewrite (lookup_ge_None_2 (id s)) by (rewrite Hl; done). }
  cbn [load]. by rewrite E.
Qed.

Lemma stream_name_matches_req_oob_witness :
  jrtc_router_stream_id_stream_name_matches_req example_sid example_sid = Fault OutOfBounds.
Proof. exact (stream_name_matches_req_oob example_sid example_sid example_sid_wf). Defined.

(** The destination predicate does not look at the destination: an id for
    UDP is said not to match a request whose destination is the wildcard. *)
Definition dst_request : jrtc_router_stream_id :=
  mk_stream_id [0x03;0xF8;0;0;0;0;0;0;0;0;0;0;0;0;0;0].
Definition dst_stream : jrtc_router_stream_id :=
  mk_stream_id [0x00;0x17;0;0;0;0;0;0;0;0;0;0;0;0;0;0].

Example fwd_dst_matches_req_wrong_bits :
  subset (fwd_dst (decode dst_stream)) (fwd_dst (decode dst_request)) = true /\
  jrtc_router_stream_id_fwd_dst_matches_req dst_stream dst_request = Ret false.
Proof. by vm_compute. Qed.
