(* ===== verification/Hash.v ===== *)
(** * Hash functions

    The Murmur hashes of [src/src/stream_id/stream_id_hash.h] on byte strings,
    with their 32- and 64-bit arithmetic. A key is the list of the [len] bytes
    at the pointer; words are loaded least significant byte first. *)
From S2P Require Import Prelude.

(** A word load of the first n bytes of the key. *)
Fixpoint getword (n : nat) (data : list Z) : Z :=
  match n, data with
  | S n, b :: data => b ||| (getword n data << 8)
  | _, _ => 0
  end.

Definition rotl32 (x r : Z) : Z := u32 (x << r) ||| (x >> (32 - r)).
Definition rotl64 (x r : Z) : Z := u64 (x << r) ||| (x >> (64 - r)).

(** [p[i]] of an array of 32-bit words. *)
Definition getblock (p : list Z) (i : nat) : Z := getword 4 (drop (4 * i) p).

Definition fmix (h : Z) : Z :=
  let h := h ^^^ (h >> 16) in
  let h := u32 (h * 0x85ebca6b) in
  let h := h ^^^ (h >> 13) in
  let h := u32 (h * 0xc2b2ae35) in
  h ^^^ (h >> 16).

(** ** MurmurHash3_x86_32 *)
Definition mm3_c1 : Z := 0xcc9e2d51.
Definition mm3_c2 : Z := 0x1b873593.

Definition mm3_scramble (k1 : Z) : Z :=
  let k1 := u32 (k1 * mm3_c1) in
  let k1 := rotl32 k1 15 in
  u32 (k1 * mm3_c2).

Definition mm3_body (h1 k1 : Z) : Z :=
  let h1 := h1 ^^^ mm3_scramble k1 in
  let h1 := rotl32 h1 13 in
  u32 (h1 * 5 + 0xe6546b64).

(** The loop runs over the nblocks words from the first to the last. *)
Definition mm3_blocks (key : list Z) (nblocks : nat) (seed : Z) : Z :=
  foldl (λ h1 i, mm3_body h1 (getblock key i)) seed (seq 0 nblocks).

Definition mm3_tail (tail : list Z) (h1 : Z) : Z :=
  match tail with
  | [] => h1
  | _ =>
      let k1 := match tail with _ :: _ :: t2 :: _ => t2 << 16 | _ => 0 end in
      let k1 := match tail with _ :: t1 :: _ => k1 ^^^ (t1 << 8) | _ => k1 end in
      let k1 := match tail with t0 :: _ => k1 ^^^ t0 | _ => k1 end in
      h1 ^^^ mm3_scramble k1
  end.

Definition MurmurHash3_x86_32 (key : list Z) (seed : Z) : Z :=
  let len := length key in
  let nblocks := (len / 4)%nat in
  let h1 := mm3_blocks key nblocks seed in
  let h1 := mm3_tail (drop (nblocks * 4) key) h1 in
  let h1 := h1 ^^^ u32 (Z.of_nat len) in
  fmix h1.

(** ** MurmurHash64A *)
Definition mm64_m : Z := 0xc6a4a7935bd1e995.
Definition mm64_r : Z := 47.

Definition mm64a_body (h k : Z) : Z :=
  let k := u64 (k * mm64_m) in
  let k := k ^^^ (k >> mm64_r) in
  let k := u64 (k * mm64_m) in
  u64 ((h ^^^ k) * mm64_m).

(** [while (data != end)]: both branches load the same eight bytes. *)
Fixpoint mm64a_loop (n : nat) (data : list Z) (h : Z) : Z * list Z :=
  match n with
  | O => (h, data)
  | S n => mm64a_loop n (drop 8 data) (mm64a_body h (getword 8 data))
  end.

(** The fall-through switch on [len & 7]: byte 6 first, down to byte 0, then
    one multiplication. *)
Definition mm64a_tail (data2 : list Z) (h : Z) : Z :=
  match data2 with
  | [] => h
  | _ =>
      let h := foldr (λ p h, h ^^^ (p.2 << (8 * Z.of_nat p.1))) h (imap pair data2) in
      u64 (h * mm64_m)
  end.

Definition MurmurHash64A (key : list Z) (seed : Z) : Z :=
  let len := length key in
  let h := seed ^^^ u64 (Z.of_nat len * mm64_m) in
  let '(h, data2) := mm64a_loop (len / 8) key h in
  let h := mm64a_tail data2 h in
  let h := h ^^^ (h >> mm64_r) in
  let h := u64 (h * mm64_m) in
  h ^^^ (h >> mm64_r).

(** ** MurmurHash64B *)
Definition mm64b_m : Z := 0x5bd1e995.
Definition mm64b_r : Z := 24.

Definition mm64b_mix (h k : Z) : Z :=
  let k := u32 (k * mm64b_m) in
  let k := k ^^^ (k >> mm64b_r) in
  let k := u32 (k * mm64b_m) in
  u32 (h * mm64b_m) ^^^ k.

(** [while (len >= 8)]: two words a round, [n] rounds for [len / 8]. *)
Fixpoint mm64b_loop (n : nat) (data : list Z) (h1 h2 : Z) : Z * Z * list Z :=
  match n with
  | O => (h1, h2, data)
  | S n =>
      let h1 := mm64b_mix h1 (getword 4 data) in
      let h2 := mm64b_mix h2 (getword 4 (drop 4 data)) in
      mm64b_loop n (drop 8 data) h1 h2
  end.

Definition mm64b_tail (data : list Z) (h2 : Z) : Z :=
  match data with
  | [] => h2
  | _ =>
      let h2 := match data with _ :: _ :: t2 :: _ => h2 ^^^ (t2 << 16) | _ => h2 end in
      let h2 := match data with _ :: t1 :: _ => h2 ^^^ (t1 << 8) | _ => h2 end in
      let h2 := match data with t0 :: _ => h2 ^^^ t0 | _ => h2 end in
      u32 (h2 * mm64b_m)
  end.

Definition MurmurHash64B (key : list Z) (seed : Z) : Z :=
  let len := length key in
  let h1 := u32 seed ^^^ u32 (Z.of_nat len) in
  let h2 := u32 (seed >> 32) in
  let '(h1, h2, data) := mm64b_loop (len / 8) key h1 h2 in
  let '(h1, data) :=
    if decide (4 <= length data)%nat
    then (mm64b_mix h1 (getword 4 data), drop 4 data)
    else (h1, data) in
  let h2 := mm64b_tail data h2 in
  let h1 := u32 ((h1 ^^^ (h2 >> 18)) * mm64b_m) in
  let h2 := u32 ((h2 ^^^ (h1 >> 22)) * mm64b_m) in
  let h1 := u32 ((h1 ^^^ (h2 >> 17)) * mm64b_m) in
  let h2 := u32 ((h2 ^^^ (h1 >> 19)) * mm64b_m) in
  u64 (h1 << 32) ||| h2.

(** The bytes of a C string, without its terminator. *)
Definition bytes_of_string (s : string) : list Z :=
  (λ a, Z.of_N (Ascii.N_of_ascii a)) <$> String.list_ascii_of_string s.

(** Reference values of the published algorithms. *)
Example mm3_hello : MurmurHash3_x86_32 (bytes_of_string "hello, world") 0 = 0x149bbb7f.
Proof. by vm_compute. Qed.
Example mm3_test : MurmurHash3_x86_32 (bytes_of_string "test") 0 = 0xba6bd213.
Proof. by vm_compute. Qed.
