(* ===== verification/Bitmap.v ===== *)
(** * Bit arrays

    [src/src/stream_id/jrtc_router_bitmap.h]: a bit array over 32-bit words,
    and its iterator. The two [malloc] calls of [jrtc_router_bitmap_create] are
    arguments that say whether they succeed. *)
From S2P Require Import Prelude.

Record jrtc_router_bitmap_t := mk_bitmap {
  size : Z;
  data : list Z
}.

Record jrtc_router_bitmap_iterator_t := mk_bitmap_iterator {
  bitmap : jrtc_router_bitmap_t;
  index : Z
}.

(** The number of words, computed in [uint32_t]. *)
Definition nwords (size : Z) : Z := u32 (size + 31) / 32.

Definition jrtc_router_bitmap_create (malloc_bitmap malloc_data : bool) (size : Z) :
    option jrtc_router_bitmap_t :=
  if malloc_bitmap then
    if malloc_data then Some (mk_bitmap size (replicate (Z.to_nat (nwords size)) 0))
    else None
  else None.

(** NULL pointers are [None]. *)
Definition jrtc_router_bitmap_set (b : option jrtc_router_bitmap_t) (idx : Z) :
    outcome (option jrtc_router_bitmap_t) :=
  match b with
  | None => Ret None
  | Some b =>
      if idx <? size b then
        w ← array_get (data b) (Z.to_nat (idx / 32));
        d ← array_set (data b) (Z.to_nat (idx / 32)) (w ||| u32 (1 << (idx mod 32)));
        Ret (Some (mk_bitmap (size b) d))
      else Ret (Some b)
  end.

Definition jrtc_router_bitmap_get (b : option jrtc_router_bitmap_t) (idx : Z) : outcome Z :=
  match b with
  | None => Ret (-1)
  | Some b =>
      if idx <? size b then
        w ← array_get (data b) (Z.to_nat (idx / 32));
        Ret (if (w &&& u32 (1 << (idx mod 32))) =? 0 then 0 else 1)
      else Ret (-1)
  end.

Definition jrtc_router_bitmap_init_iterator (b : jrtc_router_bitmap_t) :
    jrtc_router_bitmap_iterator_t := mk_bitmap_iterator b 0.

(** The scan both iterator functions run, from [idx] on: the first index whose
    bit is set, [n] steps at most. Each step moves the index towards the size,
    so [size - index] steps are enough. *)
Fixpoint scan (n : nat) (b : jrtc_router_bitmap_t) (idx : Z) : outcome (option Z) :=
  match n with
  | O => Ret None
  | S n =>
      if idx <? size b then
        v ← jrtc_router_bitmap_get (Some b) idx;
        if v =? 0 then scan n b (u32 (idx + 1)) else Ret (Some idx)
      else Ret None
  end.

Definition scan_from (it : jrtc_router_bitmap_iterator_t) : outcome (option Z) :=
  scan (Z.to_nat (size (bitmap it) - index it)) (bitmap it) (index it).

Definition jrtc_router_bitmap_iterator_has_next (it : jrtc_router_bitmap_iterator_t) : outcome Z :=
  r ← scan_from it; Ret (match r with Some _ => 1 | None => 0 end).

(** The returned index, and the iterator left behind. *)
Definition jrtc_router_bitmap_iterator_next (it : jrtc_router_bitmap_iterator_t) :
    outcome (Z * jrtc_router_bitmap_iterator_t) :=
  r ← scan_from it;
  Ret (match r with
       | Some i => (i, mk_bitmap_iterator (bitmap it) (u32 (i + 1)))
       | None => (u32 (-1), mk_bitmap_iterator (bitmap it) (Z.max (index it) (size (bitmap it))))
       end).

(** ** Abstraction: the set of bits *)
Definition bit (b : jrtc_router_bitmap_t) (i : Z) : bool :=
  Z.testbit (data b !!! Z.to_nat (i / 32)) (i mod 32).

(** What [jrtc_router_bitmap_create] establishes when the word count does not
    overflow. *)
Definition bitmap_wf (b : jrtc_router_bitmap_t) : Prop :=
  0 <= size b <= 2 ^ 32 - 32 /\
  Z.of_nat (length (data b)) = (size b + 31) / 32 /\
  Forall (λ w, 0 <= w < 2 ^ 32) (data b).

#[global] Instance bitmap_wf_dec b : Decision (bitmap_wf b).
Proof. unfold bitmap_wf. apply _. Defined.

Lemma nwords_small n : 0 <= n <= 2 ^ 32 - 32 -> nwords n = (n + 31) / 32.
Proof. intros. unfold nwords. rewrite wrap_small by lia. done. Qed.

Lemma word_index_lt b i : bitmap_wf b -> 0 <= i < size b ->
  (Z.to_nat (i / 32) < length (data b))%nat.
Proof.
  intros (?&Hl&_) Hi. assert (i / 32 < (size b + 31) / 32) by dlia. 
  assert (0 <= i / 32) by dlia. lia.
Qed.

Lemma word_get b i : bitmap_wf b -> 0 <= i < size b ->
  array_get (data b) (Z.to_nat (i / 32)) = Ret (data b !!! Z.to_nat (i / 32)).
Proof.
  intros W Hi. apply array_get_Some, list_lookup_lookup_total_lt. by apply word_index_lt.
Qed.

Lemma bitmask_small i : u32 (1 << (i mod 32)) = 1 << (i mod 32).
Proof.
  apply wrap_small. rewrite Z.shiftl_1_l. pose proof (Z.mod_pos_bound i 32 ltac:(lia)).
  split; [lia|]. apply Z.pow_lt_mono_r; lia.
Qed.

Lemma bitmask_bit i j : 0 <= j -> Z.testbit (1 << (i mod 32)) j = (j =? i mod 32).
Proof.
  intros Hj. pose proof (Z.mod_pos_bound i 32 ltac:(lia)).
  rewrite Z.shiftl_1_l, Z.pow2_bits_eqb by lia. apply Z.eqb_sym.
Qed.

Lemma land_bitmask w i : ((w &&& (1 << (i mod 32))) =? 0) = negb (Z.testbit w (i mod 32)).
Proof.
  pose proof (Z.mod_pos_bound i 32 ltac:(lia)).
  destruct (Z.testbit w (i mod 32)) eqn:E.
  - apply Z.eqb_neq. intros H0. apply (f_equal (λ z, Z.testbit z (i mod 32))) in H0.
    rewrite Z.land_spec, E, bitmask_bit, Z.eqb_refl, Z.bits_0 in H0 by lia. discriminate.
  - apply Z.eqb_eq, Z.bits_inj'. intros j Hj. rewrite Z.land_spec, bitmask_bit, Z.bits_0 by lia.
    destruct (Z.eqb_spec j (i mod 32)) as [->|]; [by rewrite E | apply andb_false_r].
Qed.

Lemma bitmap_get_spec b i : bitmap_wf b -> 0 <= i < size b ->
  jrtc_router_bitmap_get (Some b) i = Ret (if bit b i then 1 else 0).
Proof.
  intros W Hi. unfold jrtc_router_bitmap_get. rewrite (proj2 (Z.ltb_lt _ _)) by lia.
  rewrite word_get by done. cbn [mbind outcome_bind]. rewrite bitmask_small, land_bitmask.
  unfold bit. by destruct (Z.testbit _ _).
Qed.

(** Setting bit [i] sets it and no other, in bounds. *)
Lemma bitmap_set_spec b i : bitmap_wf b -> 0 <= i < size b ->
  exists b', jrtc_router_bitmap_set (Some b) i = Ret (Some b') /\ bitmap_wf b' /\
    size b' = size b /\
    forall j, 0 <= j < size b -> bit b' j = (j =? i) || bit b j.
Proof.
  intros W Hi. unfold jrtc_router_bitmap_set. rewrite (proj2 (Z.ltb_lt _ _)) by lia.
  rewrite word_get by done. cbn [mbind outcome_bind].
  pose proof (word_index_lt b i W Hi) as Hlt.
  rewrite array_set_lt by done. cbn. eexists. split; [reflexivity|].
  rewrite bitmask_small. destruct W as (Hs & Hl & Hw).
  assert (Hwi : 0 <= data b !!! Z.to_nat (i / 32) < 2 ^ 32)
    by (apply (Forall_lookup_total_1 _ _ _ Hw); done).
  unfold bitmap_wf. split_and!; cbn; try lia.
  - by rewrite length_insert.
  - apply Forall_insert; [done|]. apply lor_lt; [lia|done|].
    pose proof (wrap_range 32 (1 << (i mod 32)) ltac:(lia)) as H. by rewrite bitmask_small in H.
  - intros j Hj. unfold bit. cbn [data].
    pose proof (Z.mod_pos_bound j 32 ltac:(lia)).
    destruct (decide (Z.to_nat (i / 32) = Z.to_nat (j / 32))) as [E|E].
    + rewrite <- E, list_lookup_total_insert_eq by done.
      rewrite Z.lor_spec, bitmask_bit, orb_comm by lia. f_equal.
      assert (i / 32 = j / 32) by dlia.
      destruct (Z.eqb_spec (j mod 32) (i mod 32)), (Z.eqb_spec j i); try done; dlia.
    + rewrite list_lookup_total_insert_ne by done.
      destruct (Z.eqb_spec j i) as [->|]; [done|]. done.
Qed.

Lemma bitmap_set_out b i : size b <= i -> jrtc_router_bitmap_set (Some b) i = Ret (Some b).
Proof. intros H. unfold jrtc_router_bitmap_set. by rewrite (proj2 (Z.ltb_ge _ _)) by lia. Qed.

(** A fresh bit array is well formed and empty. *)
Lemma bitmap_create_wf n b : 0 <= n <= 2 ^ 32 - 32 ->
  jrtc_router_bitmap_create true true n = Some b ->
  bitmap_wf b /\ size b = n /\ forall i, 0 <= i < n -> bit b i = false.
Proof.
  intros Hn [= <-]. rewrite nwords_small by done. unfold bitmap_wf. split_and!; cbn; try lia.
  - rewrite length_replicate. assert (0 <= (n + 31) / 32) by dlia. lia.
  - apply Forall_replicate. lia.
  - intros i Hi. unfold bit. cbn [data].
    rewrite lookup_total_replicate_2, Z.bits_0; [done|].
    assert (i / 32 < (n + 31) / 32) by dlia. assert (0 <= i / 32) by dlia. lia.
Qed.

(** The scan returns the first set bit. *)
Lemma scan_spec n b i : bitmap_wf b -> 0 <= i -> n = Z.to_nat (size b - i) ->
  (exists j, scan n b i = Ret (Some j) /\ i <= j < size b /\ bit b j = true /\
             forall k, i <= k < j -> bit b k = false) \/
  (scan n b i = Ret None /\ forall k, i <= k < size b -> bit b k = false).
Proof.
  intros W. revert i. induction n as [|n IH]; intros i Hi Hn; cbn [scan].
  { right. split; [done|]. lia. }
  rewrite (proj2 (Z.ltb_lt _ _)) by lia. rewrite bitmap_get_spec by (done || lia).
  cbn [mbind outcome_bind]. destruct (bit b i) eqn:E; cbn.
  { left. exists i. split_and!; try done; lia. }
  assert (Hu : u32 (i + 1) = i + 1).
  { apply wrap_small. destruct W as (?&_). lia. }
  rewrite Hu. destruct (IH (i + 1)) as [(j & -> & Hj & Hb & Hk)|(-> & Hk)]; [lia..| |].
  - left. exists j. split_and!; try done; [lia..|]. intros k ?.
    destruct (decide (k = i)) as [->|]; [done|]. apply Hk. lia.
  - right. split; [done|]. intros k ?. destruct (decide (k = i)) as [->|]; [done|]. apply Hk. lia.
Qed.

(** On every bit array whose word count did not overflow, setting and
    reading never leave the words; a set bit reads 1, every other bit reads as
    before, and an index beyond the size changes nothing and reads -1. *)
Theorem bitmap_get_set b i j : bitmap_wf b -> 0 <= i -> 0 <= j ->
  exists b', jrtc_router_bitmap_set (Some b) i = Ret (Some b') /\ bitmap_wf b' /\
    jrtc_router_bitmap_get (Some b') j =
      (if j <? size b then
         if j =? i then Ret 1 else jrtc_router_bitmap_get (Some b) j
       else Ret (-1)).
Proof.
  intros W Hi Hj. destruct (Z.lt_ge_cases i (size b)) as [Hlt|Hge].
  - destruct (bitmap_set_spec b i W ltac:(lia)) as (b' & E & W' & Es & Hb).
    exists b'. split_and!; [done..|]. destruct (Z.ltb_spec j (size b)) as [Hjs|Hjs].
    + rewrite !bitmap_get_spec by (done || lia). rewrite Hb by lia.
      by destruct (j =? i).
    + unfold jrtc_router_bitmap_get. rewrite Es. by rewrite (proj2 (Z.ltb_ge _ _)) by lia.
  - exists b. rewrite bitmap_set_out by done. split_and!; [done..|].
    unfold jrtc_router_bitmap_get. destruct (Z.ltb_spec j (size b)); [|done].
    by rewrite (proj2 (Z.eqb_neq j i)) by lia.
Qed.

Lemma bitmap_get_set_witness :
  exists b', jrtc_router_bitmap_set (jrtc_router_bitmap_create true true 54) 33 = Ret (Some b') /\
             jrtc_router_bitmap_get (Some b') 33 = Ret 1.
Proof.
  destruct (bitmap_get_set (mk_bitmap 54 [0; 0]) 33 33) as (b' & E & _ & G).
  - apply (bool_decide_unpack _). vm_compute. exact I.
  - lia.
  - lia.
  - exists b'. split; [exact E|exact G].
Defined.

(** A requested size within 31 of 2^32 makes the 32-bit word count wrap to
    zero: the array has no words, and setting any of its bits is out of bounds. *)
Theorem bitmap_create_overflow n i :
  2 ^ 32 - 31 <= n < 2 ^ 32 -> 0 <= i < n ->
  exists b, jrtc_router_bitmap_create true true n = Some b /\
    jrtc_router_bitmap_set (Some b) i = Fault OutOfBounds.
Proof.
  intros Hn Hi. eexists. split; [reflexivity|].
  assert (Hw : nwords n = 0).
  { unfold nwords, wrap. replace (n + 31) with ((n + 31 - 2 ^ 32) + 1 * 2 ^ 32) by lia.
    rewrite Z.mod_add, Z.mod_small, Z.div_small by lia. done. }
  unfold jrtc_router_bitmap_set. cbn [size data]. rewrite (proj2 (Z.ltb_lt _ _)) by lia.
  rewrite Hw. reflexivity.
Qed.

Lemma bitmap_create_overflow_witness :
  exists b, jrtc_router_bitmap_create true true (2 ^ 32 - 1) = Some b /\
    jrtc_router_bitmap_set (Some b) 7 = Fault OutOfBounds.
Proof. exact (bitmap_create_overflow (2 ^ 32 - 1) 7 ltac:(lia) ltac:(lia)). Defined.
