(* ===== verification/Bloom.v ===== *)
(** * Bloom-filter names and stream id generation

    [src/src/stream_id/jrtc_router_stream_id.c]: a stream path or name is
    hashed into the 54-bit content of a Bloom filter, and
    [jrtc_router_generate_stream_id] packs the fields. *)
From S2P Require Import Prelude Hash Bitmap StreamId StreamIdFacts StreamIdSpec.

Definition JRTC_ROUTER_HASH_NUMBER_BITS : Z := 54.
Definition JRTC_ROUTER_NUM_HASH_FUNCTIONS : Z := 38.

Record jrtc_router_bf_t := mk_bf {
  bf_bitmap : option jrtc_router_bitmap_t;
  bit_size : Z;
  n_hash : Z
}.

(** The bits of the bytes, most significant first, that
    [jrtc_router_stream_id_print_bits] prints. *)
Definition jrtc_router_stream_id_print_bits (bytes : list Z) : list Z :=
  concat ((λ b, (λ j, (b >> j) &&& 1) <$> [7; 6; 5; 4; 3; 2; 1; 0]) <$> bytes).

Definition jrtc_router_bf_init (m : bool * bool) (bit_size n_hash : Z) : option jrtc_router_bf_t :=
  match jrtc_router_bitmap_create m.1 m.2 (u32 bit_size) with
  | None => None
  | Some b => Some (mk_bf (Some b) bit_size n_hash)
  end.

(** The bit position of hash function [i]: a [uint64_t] remainder, converted
    to the [uint32_t] parameter of the bit array. *)
Definition bf_index (bf : jrtc_router_bf_t) (elem : list Z) (i : Z) : Z :=
  u32 (MurmurHash64A elem i mod u64 (bit_size bf)).

Definition bf_with (bf : jrtc_router_bf_t) (b : option jrtc_router_bitmap_t) : jrtc_router_bf_t :=
  mk_bf b (bit_size bf) (n_hash bf).

(** [for (int i = 0; i < bf->n_hash; i++)]: n iterations left, next index i. *)
Fixpoint bf_add_loop (n : nat) (i : Z) (bf : jrtc_router_bf_t) (elem : list Z) :
    outcome jrtc_router_bf_t :=
  match n with
  | O => Ret bf
  | S n =>
      b ← jrtc_router_bitmap_set (bf_bitmap bf) (bf_index bf elem i);
      bf_add_loop n (i + 1) (bf_with bf b) elem
  end.

Definition jrtc_router_bf_add (bf : jrtc_router_bf_t) (elem : list Z) : outcome jrtc_router_bf_t :=
  bf_add_loop (Z.to_nat (n_hash bf)) 0 bf elem.

Fixpoint bf_contains_loop (n : nat) (i : Z) (bf : jrtc_router_bf_t) (elem : list Z) : outcome bool :=
  match n with
  | O => Ret true
  | S n =>
      v ← jrtc_router_bitmap_get (bf_bitmap bf) (bf_index bf elem i);
      if v =? 0 then Ret false else bf_contains_loop n (i + 1) bf elem
  end.

Definition jrtc_router_bf_contains (bf : jrtc_router_bf_t) (elem : list Z) : outcome bool :=
  bf_contains_loop (Z.to_nat (n_hash bf)) 0 bf elem.

(** [1L << i] in a signed 64-bit [long]. *)
Definition shl1L (i : Z) : outcome Z := if i <? 63 then Ret (1 << i) else Fault BadShift.

(** The [while] loop of [jrtc_router_bf_extract_bits]; running out of fuel is
    a divergence. *)
Fixpoint extract_loop (fuel : nat) (it : jrtc_router_bitmap_iterator_t) (bits n_bits result : Z) :
    outcome Z :=
  match fuel with
  | O => Fault Divergence
  | S fuel =>
      more ← jrtc_router_bitmap_iterator_has_next it;
      if more =? 0 then Ret result
      else
        let bits := u32 (bits + 1) in
        if u32 n_bits <? bits then Ret result
        else
          '(i, it) ← jrtc_router_bitmap_iterator_next it;
          m ← shl1L i;
          extract_loop fuel it bits n_bits (result ||| m)
  end.

Definition jrtc_router_bf_extract_bits (bf : jrtc_router_bf_t) (n_bits : Z) : outcome Z :=
  if (64 <? n_bits) || (bit_size bf <? n_bits) then Ret 0
  else
    match bf_bitmap bf with
    | None => Fault NullDeref
    | Some b =>
        extract_loop (S (Z.to_nat (size b))) (jrtc_router_bitmap_init_iterator b) 0 n_bits 0
    end.

Definition jrtc_router_get_hash (m : bool * bool) (name : string) : outcome Z :=
  match jrtc_router_bf_init m JRTC_ROUTER_HASH_NUMBER_BITS JRTC_ROUTER_NUM_HASH_FUNCTIONS with
  | None => Ret 0
  | Some bf =>
      bf ← jrtc_router_bf_add bf (bytes_of_string name);
      jrtc_router_bf_extract_bits bf JRTC_ROUTER_HASH_NUMBER_BITS
  end.

(** The C [int] parameters [fwd_dst] and [device_id] are stored in bit-fields;
    [None] is a NULL pointer. The result is the return value and the id left
    in [*stream_id]. [mp] and [mn] are the outcomes of the allocations for the
    path and the name. *)
Definition jrtc_router_generate_stream_id {cs : CharSign} (mp mn : bool * bool)
    (stream_id : option jrtc_router_stream_id) (fwd_dst device_id : Z)
    (stream_path stream_name : option string) : outcome (Z * option jrtc_router_stream_id) :=
  match stream_id with
  | None => Ret (-1, None)
  | Some _ =>
      let zero := mk_stream_id (replicate JRTC_ROUTER_STREAM_ID_BYTE_LEN 0) in
      path_hash ← match stream_path with
                  | None => Ret JRTC_ROUTER_STREAM_PATH_ANY
                  | Some p => jrtc_router_get_hash mp p
                  end;
      name_hash ← match stream_name with
                  | None => Ret JRTC_ROUTER_STREAM_NAME_ANY
                  | Some p => jrtc_router_get_hash mn p
                  end;
      if (path_hash =? 0) || (name_hash =? 0) then Ret (-1, Some zero)
      else
        let sid := sid_int_of JRTC_ROUTER_STREAM_ID_VERSION fwd_dst device_id path_hash name_hash in
        let l := _jrtc_router_stream_id_set_ver (id zero) (ver sid) in
        let l := _jrtc_router_stream_id_set_fwd_dst l (StreamId.fwd_dst sid) in
        let l := _jrtc_router_stream_id_set_device_id l (StreamId.device_id sid) in
        let l := _jrtc_router_stream_id_set_stream_path l (StreamId.stream_path sid) in
        let l := _jrtc_router_stream_id_set_stream_name l (StreamId.stream_name sid) in
        Ret (1, Some (mk_stream_id l))
  end.

(** The ids of the binding's own tests, on both kinds of [char]. *)
Example generate_reference (cs : CharSign) :
  jrtc_router_generate_stream_id (true, true) (true, true) (Some (mk_stream_id [])) JRTC_ROUTER_DEST_UDP 1
    (Some "cpudist_percore/percpu_hist_map_t") (Some "placeholder")
  = Ret (1, Some example_sid).
Proof. by destruct cs; vm_compute. Qed.

Example generate_reference2 (cs : CharSign) :
  jrtc_router_generate_stream_id (true, true) (true, true) (Some (mk_stream_id [])) JRTC_ROUTER_DEST_UDP 1
    (Some "cpudist_percore/percpu_hist_map_t2") (Some "placeholder")
  = Ret (1, Some (mk_stream_id [0x00;0x10;0x1f;0xd3;0x90;0x66;0xdb;0x03;0x2f;0x2f;0xca;0xc3;0x0c;0x22;0x35;0xd9])).
Proof. by destruct cs; vm_compute. Qed.
