(* ===== verification/BloomFacts.v ===== *)
(** * Facts about Bloom-filter names and generated ids *)
From S2P Require Import Prelude Hash Bitmap StreamId StreamIdFacts StreamIdSpec Bloom.

(** A filter as [jrtc_router_bf_init] leaves it, for the sizes the code uses. *)
Definition bf_wf (bf : jrtc_router_bf_t) (b : jrtc_router_bitmap_t) : Prop :=
  bf_bitmap bf = Some b /\ bitmap_wf b /\ size b = bit_size bf /\
  0 < bit_size bf <= 63 /\ 0 <= n_hash bf.

(** Whether one of the hash functions [i .. i+n-1] hits position [j]. *)
Definition hits (sz : Z) (elem : list Z) (i : Z) (n : nat) (j : Z) : bool :=
  existsb (λ k, MurmurHash64A elem k mod sz =? j) (seqZ i (Z.of_nat n)).

Lemma hits_S sz elem i n j :
  hits sz elem i (S n) j = (MurmurHash64A elem i mod sz =? j) || hits sz elem (i + 1) n j.
Proof.
  unfold hits. rewrite seqZ_cons by lia. cbn [existsb]. do 3 f_equal; lia.
Qed.

Lemma hits_spec sz elem i n j :
  hits sz elem i n j = true <->
  exists k, i <= k < i + Z.of_nat n /\ MurmurHash64A elem k mod sz = j.
Proof.
  unfold hits. rewrite existsb_exists. split.
  - intros (k & Hk & E). apply list_elem_of_In, elem_of_seqZ in Hk. apply Z.eqb_eq in E. eauto.
  - intros (k & Hk & E). exists k. split; [|by apply Z.eqb_eq].
    by apply list_elem_of_In, elem_of_seqZ.
Qed.

Lemma bf_index_mod bf b elem i : bf_wf bf b ->
  bf_index bf elem i = MurmurHash64A elem i mod bit_size bf /\ 0 <= bf_index bf elem i < bit_size bf.
Proof.
  intros (_&_&_&Hs&_). unfold bf_index.
  rewrite (wrap_small 64 (bit_size bf)) by lia.
  pose proof (Z.mod_pos_bound (MurmurHash64A elem i) (bit_size bf) ltac:(lia)).
  rewrite wrap_small by lia. done.
Qed.

Lemma bf_add_loop_spec n i bf b elem : bf_wf bf b ->
  exists bf' b', bf_add_loop n i bf elem = Ret bf' /\ bf_wf bf' b' /\
    bit_size bf' = bit_size bf /\ n_hash bf' = n_hash bf /\
    forall j, 0 <= j < bit_size bf -> bit b' j = hits (bit_size bf) elem i n j || bit b j.
Proof.
  revert i bf b. induction n as [|n IH]; intros i bf b W; cbn [bf_add_loop].
  { exists bf, b. split_and!; done. }
  destruct (bf_index_mod bf b elem i W) as [Ei Hi]. destruct W as (Eb & Wb & Es & Hs & Hn).
  destruct (bitmap_set_spec b (bf_index bf elem i) Wb ltac:(lia)) as (b1 & E1 & W1 & Es1 & Hb1).
  rewrite Eb, E1. cbn [mbind outcome_bind].
  destruct (IH (i + 1) (bf_with bf (Some b1)) b1) as (bf' & b' & -> & W' & ? & ? & Hb').
  { unfold bf_wf, bf_with. cbn. split_and!; try done; lia. }
  exists bf', b'. split_and!; [done..|]. cbn [bf_with bit_size] in Hb'.
  intros j Hj. rewrite Hb', Hb1 by lia. rewrite hits_S, Ei, (Z.eqb_sym j).
  rewrite orb_assoc. f_equal. apply orb_comm.
Qed.

Lemma bf_contains_loop_spec n i bf b elem : bf_wf bf b ->
  bf_contains_loop n i bf elem =
  Ret (forallb (λ k, bit b (MurmurHash64A elem k mod bit_size bf)) (seqZ i (Z.of_nat n))).
Proof.
  intros W. revert i. induction n as [|n IH]; intros i; [done|].
  cbn [bf_contains_loop]. destruct (bf_index_mod bf b elem i W) as [Ei Hi].
  pose proof W as (Eb & Wb & Es & Hs & Hn). rewrite Eb, bitmap_get_spec by (done || lia).
  cbn [mbind outcome_bind]. rewrite Ei, seqZ_cons by lia. cbn [forallb].
  destruct (bit b (MurmurHash64A elem i mod bit_size bf)); cbn; [|done].
  rewrite IH. do 3 f_equal; lia.
Qed.

(** No false negatives: once an element has been added to a Bloom filter,
    the filter contains it, also after any other element has been added. *)
Theorem bf_no_false_negative bf b elem other : bf_wf bf b ->
  exists bf1 bf2, jrtc_router_bf_add bf elem = Ret bf1 /\ jrtc_router_bf_contains bf1 elem = Ret true /\
    jrtc_router_bf_add bf1 other = Ret bf2 /\ jrtc_router_bf_contains bf2 elem = Ret true.
Proof.
  intros W. unfold jrtc_router_bf_add, jrtc_router_bf_contains.
  destruct (bf_add_loop_spec (Z.to_nat (n_hash bf)) 0 bf b elem W)
    as (bf1 & b1 & E1 & W1 & S1 & N1 & H1).
  destruct (bf_add_loop_spec (Z.to_nat (n_hash bf1)) 0 bf1 b1 other W1)
    as (bf2 & b2 & E2 & W2 & S2 & N2 & H2).
  exists bf1, bf2. pose proof W as (_&_&_&Hs&Hn).
  assert (Hin : forall k, 0 <= k < n_hash bf -> bit b1 (MurmurHash64A elem k mod bit_size bf) = true).
  { intros k Hk. rewrite H1 by (apply Z.mod_pos_bound; lia).
    apply orb_true_iff. left. apply hits_spec. exists k. split; [lia|done]. }
  split_and!; try done.
  - rewrite (bf_contains_loop_spec _ _ _ b1) by done. f_equal. apply forallb_forall.
    intros k Hk. apply list_elem_of_In, elem_of_seqZ in Hk. rewrite S1. apply Hin. lia.
  - rewrite (bf_contains_loop_spec _ _ _ b2) by done. f_equal. apply forallb_forall.
    intros k Hk. apply list_elem_of_In, elem_of_seqZ in Hk. rewrite S2, S1.
    rewrite H2 by (rewrite S1; apply Z.mod_pos_bound; lia). rewrite Hin by lia. apply orb_true_r.
Qed.

Definition example_bf : jrtc_router_bf_t := mk_bf (Some (mk_bitmap 54 [0; 0])) 54 38.

Lemma example_bf_wf : bf_wf example_bf (mk_bitmap 54 [0; 0]).
Proof.
  unfold bf_wf. split_and!; try done. apply (bool_decide_unpack _). vm_compute. exact I.
Defined.

Lemma bf_no_false_negative_witness :
  exists bf1, jrtc_router_bf_add example_bf (bytes_of_string "map1") = Ret bf1 /\
    jrtc_router_bf_contains bf1 (bytes_of_string "map1") = Ret true.
Proof.
  destruct (bf_no_false_negative example_bf _ (bytes_of_string "map1") (bytes_of_string "x") example_bf_wf)
    as (bf1 & _ & E & C & _).
  exists bf1. split; [exact E|exact C].
Defined.

(** ** Extraction: the value of the filter's bits *)
Lemma extract_loop_spec fuel b idx bits n_bits res :
  bitmap_wf b -> size b <= n_bits <= 63 -> 0 <= bits <= idx -> 0 <= res ->
  (Z.to_nat (size b - idx) < fuel)%nat ->
  exists v, extract_loop fuel (mk_bitmap_iterator b idx) bits n_bits res = Ret v /\ 0 <= v /\
    forall k, 0 <= k ->
      Z.testbit v k = Z.testbit res k || ((idx <=? k) && (k <? size b) && bit b k).
Proof.
  intros W Hn. revert idx bits res. induction fuel as [|fuel IH]; [lia|].
  intros idx bits res Hb Hr Hf. cbn [extract_loop].
  unfold jrtc_router_bitmap_iterator_has_next, jrtc_router_bitmap_iterator_next, scan_from.
  cbn [bitmap index]. pose proof W as (Hsz & _).
  destruct (scan_spec (Z.to_nat (size b - idx)) b idx W ltac:(lia) eq_refl)
    as [(j & -> & Hj & Hbj & Hlow)|(-> & Hnone)]; cbn [mbind outcome_bind Z.eqb].
  2: { exists res. split_and!; [done..|]. intros k Hk.
       destruct (Z.leb_spec idx k), (Z.ltb_spec k (size b)); cbn; try by rewrite orb_false_r.
       rewrite Hnone by lia. by rewrite orb_false_r. }
  rewrite !(wrap_small 32) by lia.
  destruct (Z.ltb_spec n_bits (bits + 1)); [lia|].
  unfold shl1L. destruct (Z.ltb_spec j 63); [|lia]. cbn [mbind outcome_bind].
  assert (Hr1 : 0 <= (res ||| (1 << j))).
  { apply Z.lor_nonneg. rewrite Z.shiftl_nonneg. lia. }
  destruct (IH (j + 1) (bits + 1) (res ||| (1 << j))) as (v & Ev & Hv & Ht); [lia..|].
  exists v. split_and!; [exact Ev|done|]. intros k Hk. rewrite (Ht k Hk).
  rewrite Z.lor_spec, Z.shiftl_1_l, Z.pow2_bits_eqb, <- orb_assoc by lia. f_equal.
  destruct (Z.eqb_spec j k) as [<-|Hne]; cbn.
  - rewrite (Zle_imp_le_bool idx j), (proj2 (Z.ltb_lt j (size b))), Hbj by lia. done.
  - destruct (Z.leb_spec (j + 1) k), (Z.leb_spec idx k); cbn; try done; try lia.
    rewrite Hlow by lia. by rewrite andb_false_r.
Qed.

Lemma MurmurHash64A_nonneg_mod elem i sz : 0 < sz -> 0 <= MurmurHash64A elem i mod sz < sz.
Proof. intros. by apply Z.mod_pos_bound. Qed.

(** A number whose bits are the hash positions below [sz]. *)
Section Positions.
Variables (elem : list Z) (n : nat) (sz v : Z).
Hypothesis Hsz : 0 < sz.
Hypothesis Hv : 0 <= v.
Hypothesis Hbits : forall k, 0 <= k -> Z.testbit v k = hits sz elem 0 n k.

Lemma hits_pos : (0 < n)%nat -> 0 < v.
Proof.
  intros Hn. apply Z.le_neq. split; [done|]. intros E.
  pose proof (Z.mod_pos_bound (MurmurHash64A elem 0) sz Hsz) as Hp.
  specialize (Hbits (MurmurHash64A elem 0 mod sz) ltac:(lia)).
  rewrite <- E, Z.bits_0 in Hbits. symmetry in Hbits. apply not_true_iff_false in Hbits.
  apply Hbits, hits_spec. exists 0. split; [lia|done].
Qed.

Lemma hits_below : v < 2 ^ sz.
Proof.
  apply bits_lt; [lia..|]. intros i Hi. rewrite Hbits by lia.
  apply not_true_iff_false. rewrite hits_spec. intros (k & _ & Ei).
  pose proof (Z.mod_pos_bound (MurmurHash64A elem k) sz Hsz). lia.
Qed.

(** Fewer hash functions than positions cannot set every position. *)
Lemma hits_not_all : Z.of_nat n < sz -> v <> Z.ones sz.
Proof.
  intros Hn E.
  assert (Hlen : (length (seqZ 0 sz) <=
                  length ((λ i, (MurmurHash64A elem i mod sz)%Z) <$> seqZ 0 (Z.of_nat n)))%nat).
  { apply submseteq_length, NoDup_submseteq; [apply NoDup_seqZ|].
    intros k Hin. apply elem_of_seqZ in Hin. apply list_elem_of_fmap.
    specialize (Hbits k ltac:(lia)). rewrite E, testbit_ones, (proj2 (Z.ltb_lt k sz)) in Hbits by lia.
    symmetry in Hbits. apply hits_spec in Hbits as (i & Hi & Ei). exists i.
    split; [done|]. apply elem_of_seqZ. lia. }
  rewrite length_fmap, !length_seqZ in Hlen. lia.
Qed.
End Positions.

Lemma get_hash_bits name :
  exists v, jrtc_router_get_hash (true, true) name = Ret v /\ 0 <= v /\
    forall k, 0 <= k -> Z.testbit v k = hits 54 (bytes_of_string name) 0 38 k.
Proof.
  unfold jrtc_router_get_hash, jrtc_router_bf_init.
  change (jrtc_router_bitmap_create _ _ _) with (Some (mk_bitmap 54 [0; 0])). cbn iota beta.
  change (mk_bf _ _ _) with example_bf. unfold jrtc_router_bf_add.
  destruct (bf_add_loop_spec 38 0 _ _ (bytes_of_string name) example_bf_wf)
    as (bf' & b' & E & (Eb & Wb & Es & _ & _) & S1 & _ & Hbits).
  change (Z.to_nat (n_hash example_bf)) with 38%nat. rewrite E. cbn [mbind outcome_bind].
  change (bit_size example_bf) with 54 in *. change JRTC_ROUTER_HASH_NUMBER_BITS with 54.
  unfold jrtc_router_bf_extract_bits. rewrite S1, Eb.
  cbn [Z.ltb Z.compare Pos.compare Pos.compare_cont orb].
  destruct (extract_loop_spec (S (Z.to_nat (size b'))) b' 0 0 54 0 Wb) as (v & Ev & Hv & Ht);
    [rewrite Es, S1; lia|lia..|].
  exists v. split_and!; [exact Ev|done|]. intros k Hk.
  rewrite Ht, Z.bits_0, Es, S1, (Zle_imp_le_bool 0 k) by done. cbn [orb andb].
  destruct (Z.ltb_spec k 54); cbn [andb].
  - rewrite Hbits by lia. replace (bit _ k) with false; [by rewrite orb_false_r|].
    symmetry. assert (k / 32 = 0 \/ k / 32 = 1) as [D|D] by dlia; unfold bit; rewrite D; apply Z.bits_0.
  - symmetry. apply not_true_iff_false. rewrite hits_spec. intros (i & _ & Ei).
    pose proof (Z.mod_pos_bound (MurmurHash64A (bytes_of_string name) i) 54). lia.
Qed.

Lemma get_hash_facts name :
  exists v, jrtc_router_get_hash (true, true) name = Ret v /\
    (forall k, 0 <= k -> Z.testbit v k = hits 54 (bytes_of_string name) 0 38 k) /\
    0 < v < 2 ^ 54 /\
    v <> JRTC_ROUTER_STREAM_PATH_ANY.
Proof.
  destruct (get_hash_bits name) as (v & E & Hv & Hk). exists v.
  split_and!; [exact E|exact Hk|..].
  - apply (hits_pos (bytes_of_string name) 38 54); try done; lia.
  - by apply (hits_below (bytes_of_string name) 38 54).
  - by apply (hits_not_all (bytes_of_string name) 38 54).
Qed.

(** With memory, the hash of a name exists (the extraction loop
    terminates and no access leaves the filter), its bits are exactly the 38
    Murmur positions modulo 54, so it is nonzero, fits the 54-bit field, and is
    never the all-ones wildcard. *)
Theorem get_hash_spec name :
  exists v, jrtc_router_get_hash (true, true) name = Ret v /\
    (forall k, 0 <= k -> Z.testbit v k = hits 54 (bytes_of_string name) 0 38 k) /\
    0 < v < 2 ^ 54 /\
    v <> JRTC_ROUTER_STREAM_PATH_ANY.
Proof. apply get_hash_facts. Qed.

(** Whichever allocations fail. *)
Lemma get_hash_total m name : exists v, jrtc_router_get_hash m name = Ret v.
Proof.
  destruct m as [[] []].
  - destruct (get_hash_facts name) as (v & E & _). by exists v.
  - by exists 0.
  - by exists 0.
  - by exists 0.
Qed.

(** ** Generated ids *)

(** The field a path or a name becomes. *)
Definition name_field (o : option string) (v : Z) : Prop :=
  match o with
  | None => v = 2 ^ 54 - 1
  | Some name => jrtc_router_get_hash (true, true) name = Ret v
  end.

Lemma name_field_range o v : name_field o v -> 0 < v < 2 ^ 54 /\ (v = 2 ^ 54 - 1 <-> o = None).
Proof.
  destruct o as [name|]; cbn [name_field]; [|intros ->; split; [lia|done]].
  intros E. destruct (get_hash_facts name) as (v' & E' & _ & Hr & Hne).
  rewrite E in E'. injection E' as <-. split; [lia|]. split; [|done].
  intros ->. by destruct Hne.
Qed.

Lemma name_field_exists (o : option string) (any : Z) : any = 2 ^ 54 - 1 ->
  exists v, name_field o v /\
    match o with None => Ret any | Some p => jrtc_router_get_hash (true, true) p end = Ret v.
Proof.
  intros ->. destruct o as [name|]; cbn [name_field]; [|by eexists].
  destruct (get_hash_facts name) as (v & E & _). eauto.
Qed.

Definition sid_zero : jrtc_router_stream_id := mk_stream_id (replicate JRTC_ROUTER_STREAM_ID_BYTE_LEN 0).

Lemma sid_zero_wf : stream_id_wf sid_zero.
Proof. apply (bool_decide_unpack _). vm_compute. exact I. Qed.

(** Packing all five fields of a zeroed id. *)
Lemma set_all_decode {cs : CharSign} f :
  let l := _jrtc_router_stream_id_set_ver (id sid_zero) (ver f) in
  let l := _jrtc_router_stream_id_set_fwd_dst l (fwd_dst f) in
  let l := _jrtc_router_stream_id_set_device_id l (device_id f) in
  let l := _jrtc_router_stream_id_set_stream_path l (stream_path f) in
  let l := _jrtc_router_stream_id_set_stream_name l (stream_name f) in
  stream_id_wf (mk_stream_id l) /\
  decode (mk_stream_id l) = sid_int_of (ver f) (fwd_dst f) (device_id f) (stream_path f) (stream_name f).
Proof.
  cbv zeta.
  destruct (set_wf sid_zero (ver f) sid_zero_wf) as (W1&_).
  destruct (set_wf _ (fwd_dst f) W1) as (_&W2&_). destruct (set_wf _ (device_id f) W2) as (_&_&W3&_).
  destruct (set_wf _ (stream_path f) W3) as (_&_&_&W4&_).
  destruct (set_wf _ (stream_name f) W4) as (_&_&_&_&W5). cbn [id] in *. split; [exact W5|].
  rewrite (set_stream_name_decode _ _ W4), (set_stream_path_decode _ _ W3),
    (set_device_id_decode _ _ W2), (set_fwd_dst_decode _ _ W1), (set_ver_decode _ _ sid_zero_wf).
  reflexivity.
Qed.

Lemma sid_int_of_idem v f d p n :
  let g := sid_int_of v f d p n in
  sid_int_of (ver g) (fwd_dst g) (device_id g) (stream_path g) (stream_name g) = g.
Proof. unfold sid_int_of. cbn. by rewrite !wrap_wrap by lia. Qed.

Lemma generate_stream_id_facts {cs : CharSign} s0 fd dv p n :
  exists sid vp vn,
    jrtc_router_generate_stream_id (true, true) (true, true) (Some s0) fd dv p n = Ret (1, Some sid) /\
    stream_id_wf sid /\
    decode sid = mk_sid_int 0 (fd mod 128) (dv mod 128) vp vn /\
    name_field p vp /\ name_field n vn /\
    (vp = JRTC_ROUTER_STREAM_PATH_ANY <-> p = None) /\
    (vn = JRTC_ROUTER_STREAM_NAME_ANY <-> n = None).
Proof.
  destruct (name_field_exists p JRTC_ROUTER_STREAM_PATH_ANY eq_refl) as (vp & Fp & Ep).
  destruct (name_field_exists n JRTC_ROUTER_STREAM_NAME_ANY eq_refl) as (vn & Fn & En).
  destruct (name_field_range _ _ Fp) as [Hp Ap]. destruct (name_field_range _ _ Fn) as [Hn An].
  unfold jrtc_router_generate_stream_id. rewrite Ep, En. cbn [mbind outcome_bind].
  rewrite (proj2 (Z.eqb_neq vp 0)), (proj2 (Z.eqb_neq vn 0)) by lia. cbn [orb].
  change (mk_stream_id (replicate _ 0)) with sid_zero.
  pose proof (set_all_decode (sid_int_of JRTC_ROUTER_STREAM_ID_VERSION fd dv vp vn)) as [W D].
  rewrite sid_int_of_idem in D.
  eexists _, vp, vn. split_and!; [reflexivity|exact W| |exact Fp|exact Fn|exact Ap|exact An].
  rewrite D. unfold sid_int_of. by rewrite !(wrap_small 54) by lia.
Qed.

(** When the allocations succeed, [jrtc_router_generate_stream_id]
    returns 1 and an id whose fields are the version 0, the destination and
    device modulo 128, and for path and name the hash of the string or the
    wildcard; a path or name field is the wildcard exactly when NULL was
    passed. *)
Theorem generate_stream_id_spec {cs : CharSign} s0 fd dv p n :
  exists sid vp vn,
    jrtc_router_generate_stream_id (true, true) (true, true) (Some s0) fd dv p n = Ret (1, Some sid) /\
    stream_id_wf sid /\
    decode sid = mk_sid_int 0 (fd mod 128) (dv mod 128) vp vn /\
    name_field p vp /\ name_field n vn /\
    (vp = JRTC_ROUTER_STREAM_PATH_ANY <-> p = None) /\
    (vn = JRTC_ROUTER_STREAM_NAME_ANY <-> n = None).
Proof. apply generate_stream_id_facts. Qed.

(** When an allocation needed to hash the path or the name fails, or the
    destination pointer is NULL, the result is -1 and the id, if there is
    one, is all zero. *)
Theorem generate_stream_id_error {cs : CharSign} mp mn s0 fd dv p n :
  (p <> None /\ mp.1 && mp.2 = false) \/ (n <> None /\ mn.1 && mn.2 = false) ->
  jrtc_router_generate_stream_id mp mn (Some s0) fd dv p n = Ret (-1, Some sid_zero) /\
  jrtc_router_generate_stream_id mp mn None fd dv p n = Ret (-1, None).
Proof.
  assert (Hfail : forall m name, m.1 && m.2 = false -> jrtc_router_get_hash m name = Ret 0).
  { intros [[] []] name; cbn; try discriminate; done. }
  assert (Hany : forall m name, exists v, jrtc_router_get_hash m name = Ret v).
  { intros [[] []] name; [destruct (get_hash_facts name) as (v & E & _); eauto| by eexists..]. }
  intros H. split; [|done]. unfold jrtc_router_generate_stream_id.
  destruct H as [[Hp Hm]|[Hn Hm]].
  - destruct p as [p|]; [|done]. rewrite (Hfail _ _ Hm). cbn [mbind outcome_bind].
    destruct n as [n|]; [destruct (Hany mn n) as [v ->]|]; done.
  - destruct n as [n|]; [|done]. rewrite (Hfail _ _ Hm).
    destruct p as [p|]; [destruct (Hany mp p) as [v ->]|]; cbn [mbind outcome_bind];
      by rewrite ?orb_true_r.
Qed.

(** Whatever the allocations do, the call returns -1 and a zeroed id, or what it
    returns when they succeed. *)
Lemma generate_stream_id_cases {cs : CharSign} mp mn s0 fd dv p n :
  jrtc_router_generate_stream_id mp mn (Some s0) fd dv p n = Ret (-1, Some sid_zero) \/
  jrtc_router_generate_stream_id mp mn (Some s0) fd dv p n =
    jrtc_router_generate_stream_id (true, true) (true, true) (Some s0) fd dv p n.
Proof.
  destruct (decide (p <> None /\ mp.1 && mp.2 = false)) as [Hp|Hp];
    [left; apply generate_stream_id_error; by left|].
  destruct (decide (n <> None /\ mn.1 && mn.2 = false)) as [Hn|Hn];
    [left; apply generate_stream_id_error; by right|]. right.
  destruct p, n, mp as [[] []], mn as [[] []]; cbn in Hp, Hn; try reflexivity; exfalso; intuition congruence.
Qed.

Lemma generate_stream_id_error_witness :
  @jrtc_router_generate_stream_id true (true, false) (true, true) (Some example_sid) 2 1
    (Some "codelet1"%string) None = Ret (-1, Some sid_zero).
Proof.
  refine (proj1 (@generate_stream_id_error true (true, false) (true, true) example_sid 2 1
    (Some "codelet1"%string) None _)).
  left. split; [discriminate|reflexivity].
Defined.
