(* ===== verification/Ext.v ===== *)
(** * Interfaces of the libraries the router is built on

    Concurrency Kit (bitmaps, hash tables, rings) and the jbpf memory pools are
    not part of this repository. Each is a class of operations, over which the
    router is written, and a class of the documented laws its theorems use.
    Module [Reference] instantiates them with lists, so that every theorem
    about the router can be run. *)
From S2P Require Import Prelude.

(** ** ck_bitmap: bits of a fixed-size bitmap, and iteration over the set ones *)
Class CkBitmap (B It : Type) := {
  ck_bitmap_init : nat -> bool -> B;
  ck_bitmap_bits : B -> nat;
  ck_bitmap_test : B -> nat -> bool;
  ck_bitmap_set : B -> nat -> B;
  ck_bitmap_reset : B -> nat -> B;
  ck_bitmap_bts : B -> nat -> bool * B;
  ck_bitmap_union : B -> B -> B;
  ck_bitmap_clear : B -> B;
  ck_bitmap_empty : B -> nat -> bool;
  ck_bitmap_iterator_init : B -> It;
  ck_bitmap_next : B -> It -> option nat * It
}.

(** [ck_rest b it] is what the iterator [it] on [b] still has to return. *)
Class CkBitmapLaws (B It : Type) `{CkBitmap B It} := {
  ck_rest : B -> It -> list nat;
  ck_init_bits n v : ck_bitmap_bits (ck_bitmap_init n v) = n;
  ck_init_test n v i : (i < n)%nat -> ck_bitmap_test (ck_bitmap_init n v) i = v;
  ck_set_bits b n : ck_bitmap_bits (ck_bitmap_set b n) = ck_bitmap_bits b;
  ck_set_test b n i : (n < ck_bitmap_bits b)%nat ->
    ck_bitmap_test (ck_bitmap_set b n) i = bool_decide (i = n) || ck_bitmap_test b i;
  ck_reset_bits b n : ck_bitmap_bits (ck_bitmap_reset b n) = ck_bitmap_bits b;
  ck_reset_test b n i : (n < ck_bitmap_bits b)%nat ->
    ck_bitmap_test (ck_bitmap_reset b n) i = negb (bool_decide (i = n)) && ck_bitmap_test b i;
  ck_bts_spec b n : (n < ck_bitmap_bits b)%nat ->
    ck_bitmap_bts b n = (ck_bitmap_test b n, ck_bitmap_set b n);
  ck_union_bits b b' : ck_bitmap_bits b = ck_bitmap_bits b' ->
    ck_bitmap_bits (ck_bitmap_union b b') = ck_bitmap_bits b;
  ck_union_test b b' i : ck_bitmap_bits b = ck_bitmap_bits b' ->
    ck_bitmap_test (ck_bitmap_union b b') i = ck_bitmap_test b i || ck_bitmap_test b' i;
  ck_clear_bits b : ck_bitmap_bits (ck_bitmap_clear b) = ck_bitmap_bits b;
  ck_clear_test b i : ck_bitmap_test (ck_bitmap_clear b) i = false;
  ck_empty_spec b n : (n <= ck_bitmap_bits b)%nat ->
    ck_bitmap_empty b n = true <-> forall i, (i < n)%nat -> ck_bitmap_test b i = false;
  ck_iterator_init_rest b :
    ck_rest b (ck_bitmap_iterator_init b) =
    filter (λ i, ck_bitmap_test b i = true) (seq 0 (ck_bitmap_bits b));
  ck_next_some b it n r : ck_rest b it = n :: r ->
    exists it', ck_bitmap_next b it = (Some n, it') /\ ck_rest b it' = r;
  ck_next_none b it : ck_rest b it = [] ->
    exists it', ck_bitmap_next b it = (None, it') /\ ck_rest b it' = []
}.

(** ** ck_ht in byte-string mode, for keys whose memory outlives their entry.
    [ck_ht_set_spmc] and [ck_ht_remove_spmc] return whether they succeeded. *)
Class CkHt (T V : Type) := {
  ck_ht_get_spmc : T -> list Z -> option V;
  ck_ht_set_spmc : T -> list Z -> V -> bool * T;
  ck_ht_remove_spmc : T -> list Z -> bool * T
}.

Class CkHtLaws (T V : Type) `{CkHt T V} := {
  ck_ht_set_ok t k v t' : ck_ht_set_spmc t k v = (true, t') ->
    forall k', ck_ht_get_spmc t' k' = if decide (k' = k) then Some v else ck_ht_get_spmc t k';
  ck_ht_set_fail t k v t' : ck_ht_set_spmc t k v = (false, t') ->
    forall k', ck_ht_get_spmc t' k' = ck_ht_get_spmc t k';
  ck_ht_remove_spec t k r t' : ck_ht_remove_spmc t k = (r, t') ->
    forall k', ck_ht_get_spmc t' k' = if decide (k' = k) then None else ck_ht_get_spmc t k'
}.

(** ** ck_ht in byte-string mode, as it is: the table stores the address of a
    key, not its bytes, and an operation compares its key with the bytes [mem]
    it finds at the stored addresses at that time. [ptr_ht_values] is what a
    loop on [ck_ht_next] enumerates. *)
Class CkPtrHt (C : Type) := {
  ptr_ht_values : C -> list nat;
  ptr_ht_set_spmc : C -> (nat -> list Z) -> nat -> nat -> bool * C;
  ptr_ht_remove_spmc : C -> (nat -> list Z) -> list Z -> bool * C
}.

(** The entries are pairs of a key address and a value. A new entry replaces
    one whose key has the same bytes, if any; a removal takes out one whose
    key has the given bytes, and fails without an effect otherwise. *)
Class CkPtrHtLaws (C : Type) `{CkPtrHt C} := {
  ptr_ht_entries : C -> list (nat * nat);
  ptr_ht_values_spec t : ptr_ht_values t = (ptr_ht_entries t).*2;
  ptr_ht_set_ok t mem k v t' : ptr_ht_set_spmc t mem k v = (true, t') ->
    exists l, Permutation (ptr_ht_entries t') ((k, v) :: l) /\
      (Permutation (ptr_ht_entries t) l \/
       exists e, mem e.1 = mem k /\ Permutation (ptr_ht_entries t) (e :: l));
  ptr_ht_set_fail t mem k v t' : ptr_ht_set_spmc t mem k v = (false, t') ->
    Permutation (ptr_ht_entries t') (ptr_ht_entries t);
  ptr_ht_remove_ok t mem bytes t' : ptr_ht_remove_spmc t mem bytes = (true, t') ->
    exists e, mem e.1 = bytes /\ Permutation (ptr_ht_entries t) (e :: ptr_ht_entries t');
  ptr_ht_remove_fail t mem bytes t' : ptr_ht_remove_spmc t mem bytes = (false, t') ->
    Permutation (ptr_ht_entries t') (ptr_ht_entries t)
}.

(** ** ck_ring, single producer and single consumer: a bounded FIFO of [size]
    slots that holds [size - 1] pointers. [ck_ring_slot] is the slot of the
    caller's buffer that the next enqueue writes. *)
Class CkRing (R : Type) := {
  ck_ring_init : Z -> R;
  ck_ring_slot : R -> Z;
  ck_ring_enqueue_spsc : R -> nat -> bool * R;
  ck_ring_dequeue_spsc : R -> option nat * R
}.

Class CkRingLaws (R : Type) `{CkRing R} := {
  ck_ring_cap : R -> Z;
  ck_ring_list : R -> list nat;
  ck_ring_init_cap n : 0 < n -> ck_ring_cap (ck_ring_init n) = n - 1;
  ck_ring_init_list n : ck_ring_list (ck_ring_init n) = [];
  ck_ring_slot_range r : 0 <= ck_ring_cap r -> 0 <= ck_ring_slot r <= ck_ring_cap r;
  ck_ring_enqueue_ok r x : Z.of_nat (length (ck_ring_list r)) < ck_ring_cap r ->
    exists r', ck_ring_enqueue_spsc r x = (true, r') /\
      ck_ring_list r' = ck_ring_list r ++ [x] /\ ck_ring_cap r' = ck_ring_cap r;
  ck_ring_enqueue_full r x : ck_ring_cap r <= Z.of_nat (length (ck_ring_list r)) ->
    ck_ring_enqueue_spsc r x = (false, r);
  ck_ring_dequeue_cons r x l : ck_ring_list r = x :: l ->
    exists r', ck_ring_dequeue_spsc r = (Some x, r') /\
      ck_ring_list r' = l /\ ck_ring_cap r' = ck_ring_cap r;
  ck_ring_dequeue_nil r : ck_ring_list r = [] -> ck_ring_dequeue_spsc r = (None, r)
}.

(** ** jbpf memory pools: a pool of [cap] elements hands out elements that are
    not in use. *)
Class Mempool (M : Type) := {
  jbpf_mbuf_alloc : M -> option (nat * M);
  jbpf_mbuf_free : M -> nat -> M
}.

Class MempoolLaws (M : Type) `{Mempool M} := {
  pool_cap : M -> Z;
  pool_used : M -> list nat;
  mbuf_alloc_ok m : Z.of_nat (length (pool_used m)) < pool_cap m ->
    exists b m', jbpf_mbuf_alloc m = Some (b, m') /\ (b ∉ pool_used m) /\
      Permutation (pool_used m') (b :: pool_used m) /\ pool_cap m' = pool_cap m;
  mbuf_alloc_full m : pool_cap m <= Z.of_nat (length (pool_used m)) -> jbpf_mbuf_alloc m = None;
  mbuf_free_spec m b l : Permutation (pool_used m) (b :: l) ->
    Permutation (pool_used (jbpf_mbuf_free m b)) l /\ pool_cap (jbpf_mbuf_free m b) = pool_cap m
}.

(** ** The jbpf IO library, as far as the router calls it: [share] takes a
    reference on a buffer and returns the pointer to hand out, [recv] takes at
    most [n] messages out of an input channel. [S] is the state of the IO. *)
Class JbpfIo (S : Type) := {
  jbpf_io_channel_share_data_ptr : Z -> Z;
  jbpf_io_channel_recv_data : S -> nat -> nat -> list Z * S
}.

Class JbpfIoLaws (S : Type) `{JbpfIo S} := {
  recv_data_bound s c n : (length (jbpf_io_channel_recv_data s c n).1 <= n)%nat
}.

(** ** Reference implementations *)
Module Reference.

Abbreviation bm := (list bool).

#[export] Instance ref_bitmap : CkBitmap bm nat := {
  ck_bitmap_init n v := replicate n v;
  ck_bitmap_bits b := length b;
  ck_bitmap_test b i := default false (b !! i);
  ck_bitmap_set b i := <[i := true]> b;
  ck_bitmap_reset b i := <[i := false]> b;
  ck_bitmap_bts b i := (default false (b !! i), <[i := true]> b);
  ck_bitmap_union b b' := zip_with orb b b';
  ck_bitmap_clear b := replicate (length b) false;
  ck_bitmap_empty b n := forallb negb (take n b);
  ck_bitmap_iterator_init b := 0%nat;
  ck_bitmap_next b it :=
    match list_find (λ i, default false (b !! i) = true) (seq it (length b - it)) with
    | Some (_, i) => (Some i, S i)
    | None => (None, length b)
    end
}.

Section Ht.
Context {V : Type}.

#[export] Instance ref_ht : CkHt (list (list Z * V)) V := {
  ck_ht_get_spmc t k := snd <$> (snd <$> list_find (λ e, e.1 = k) t);
  ck_ht_set_spmc t k v := (true, (k, v) :: filter (λ e, e.1 <> k) t);
  ck_ht_remove_spmc t k :=
    (bool_decide (is_Some (list_find (λ e, e.1 = k) t)), filter (λ e, e.1 <> k) t)
}.
End Ht.

Fixpoint drop_key (mem : nat -> list Z) (bytes : list Z) (t : list (nat * nat)) : option (list (nat * nat)) :=
  match t with
  | [] => None
  | e :: t => if decide (mem e.1 = bytes) then Some t else cons e <$> drop_key mem bytes t
  end.

#[export] Instance ref_ptr_ht : CkPtrHt (list (nat * nat)) := {
  ptr_ht_values t := t.*2;
  ptr_ht_set_spmc t mem k v := (true, (k, v) :: default t (drop_key mem (mem k) t));
  ptr_ht_remove_spmc t mem bytes :=
    match drop_key mem bytes t with Some t' => (true, t') | None => (false, t) end
}.

(** A ring: its capacity, how many pointers were ever enqueued, its content. *)
Record ring_ref := mk_ring { rcap : Z; rtail : Z; rlist : list nat }.

#[export] Instance ref_ring : CkRing ring_ref := {
  ck_ring_init n := mk_ring (n - 1) 0 [];
  ck_ring_slot r := rtail r mod (rcap r + 1);
  ck_ring_enqueue_spsc r x :=
    if Z.of_nat (length (rlist r)) <? rcap r
    then (true, mk_ring (rcap r) (rtail r + 1) (rlist r ++ [x])) else (false, r);
  ck_ring_dequeue_spsc r :=
    match rlist r with x :: l => (Some x, mk_ring (rcap r) (rtail r) l) | [] => (None, r) end
}.

(** Input channels as queues of pointers. *)
#[export] Instance ref_io : JbpfIo (gmap nat (list Z)) := {
  jbpf_io_channel_share_data_ptr p := p;
  jbpf_io_channel_recv_data s c n :=
    (take n (default [] (s !! c)), <[c := drop n (default [] (s !! c))]> s)
}.

Fixpoint remove1 (b : nat) (l : list nat) : list nat :=
  match l with
  | [] => []
  | x :: l => if decide (x = b) then l else x :: remove1 b l
  end.

(** The pool hands out the least index that is not in use. *)
#[export] Instance ref_pool : Mempool (Z * list nat) := {
  jbpf_mbuf_alloc m :=
    if Z.of_nat (length m.2) <? m.1 then
      match list_find (λ i, i ∉ m.2) (seq 0 (S (length m.2))) with
      | Some (_, b) => Some (b, (m.1, b :: m.2))
      | None => None
      end
    else None;
  jbpf_mbuf_free m b := (m.1, remove1 b m.2)
}.

#[export] Instance ref_io_laws : JbpfIoLaws (gmap nat (list Z)).
Proof. split. intros s c n. cbn. rewrite length_take. lia. Qed.

Lemma bm_test_set (b : bm) n i : (n < length b)%nat ->
  default false (<[n := true]> b !! i) = bool_decide (i = n) || default false (b !! i).
Proof.
  intros H. destruct (decide (i = n)) as [->|Hne].
  - by rewrite list_lookup_insert_eq, bool_decide_true.
  - by rewrite list_lookup_insert_ne, bool_decide_false by done.
Qed.

Lemma bm_test_reset (b : bm) n i : (n < length b)%nat ->
  default false (<[n := false]> b !! i) = negb (bool_decide (i = n)) && default false (b !! i).
Proof.
  intros H. destruct (decide (i = n)) as [->|Hne].
  - by rewrite list_lookup_insert_eq, bool_decide_true.
  - by rewrite list_lookup_insert_ne, bool_decide_false by done.
Qed.

Lemma bm_test_union (b b' : bm) i : length b = length b' ->
  default false (zip_with orb b b' !! i) = default false (b !! i) || default false (b' !! i).
Proof.
  intros Hl. rewrite lookup_zip_with.
  destruct (b !! i) eqn:E; cbn.
  - apply lookup_lt_Some in E. rewrite Hl in E. destruct (lookup_lt_is_Some_2 _ _ E) as [x ->]. done.
  - apply lookup_ge_None in E. by rewrite (lookup_ge_None_2 b') by lia.
Qed.

Lemma bm_empty (b : bm) n : (n <= length b)%nat ->
  forallb negb (take n b) = true <-> forall i, (i < n)%nat -> default false (b !! i) = false.
Proof.
  intros Hn. rewrite <- Is_true_true, forallb_True, Forall_lookup. split.
  - intros H i Hi. destruct (lookup_lt_is_Some_2 b i) as [x Hx]; [lia|].
    rewrite Hx. cbn. specialize (H i x). rewrite lookup_take_lt in H by done.
    specialize (H Hx). by destruct x.
  - intros H i x Hx. apply lookup_take_Some in Hx as [Hx Hi]. specialize (H i Hi).
    rewrite Hx in H. cbn in H. by rewrite H.
Qed.

(** The set bits from [it] on. *)
Definition bm_rest (b : bm) (it : nat) : list nat :=
  filter (λ i, default false (b !! i) = true) (seq it (length b - it)).

Lemma bm_find_rest (b : bm) it :
  match list_find (λ i, default false (b !! i) = true) (seq it (length b - it)) with
  | Some (_, i) => bm_rest b it = i :: bm_rest b (S i)
  | None => bm_rest b it = []
  end.
Proof.
  unfold bm_rest. remember (length b - it)%nat as n eqn:En. revert it En.
  induction n as [|n IH]; intros it En; cbn [seq list_find]; [done|].
  case_decide as H.
  - rewrite filter_cons_True by done. repeat f_equal. lia.
  - rewrite filter_cons_False by done. specialize (IH (S it) ltac:(lia)).
    destruct (list_find _ (seq (S it) n)) as [[k i]|]; cbn; done.
Qed.

Lemma bm_next_rest (b : bm) it n r : bm_rest b it = n :: r ->
  ck_bitmap_next b it = (Some n, S n) /\ bm_rest b (S n) = r.
Proof.
  intros H. cbn. pose proof (bm_find_rest b it) as F.
  destruct (list_find _ _) as [[k i]|]; rewrite H in F; [|discriminate].
  injection F as <- F. done.
Qed.

Lemma bm_next_end (b : bm) it : bm_rest b it = [] ->
  ck_bitmap_next b it = (None, length b) /\ bm_rest b (length b) = [].
Proof.
  intros H. cbn. pose proof (bm_find_rest b it) as F.
  destruct (list_find _ _) as [[k i]|]; rewrite H in F; [discriminate|].
  split; [done|]. unfold bm_rest. by rewrite Nat.sub_diag.
Qed.

#[export] Instance ref_bitmap_laws : CkBitmapLaws bm nat.
Proof.
  refine {| ck_rest := bm_rest |}; cbn -[ck_bitmap_next].
  - intros n v. apply length_replicate.
  - intros n v i H. by rewrite lookup_replicate_2.
  - intros. apply length_insert.
  - intros. by apply bm_test_set.
  - intros. apply length_insert.
  - intros. by apply bm_test_reset.
  - done.
  - intros b b' H. rewrite length_zip_with. lia.
  - intros. by apply bm_test_union.
  - intros. apply length_replicate.
  - intros b i. destruct (decide (i < length b)%nat).
    + by rewrite lookup_replicate_2.
    + by rewrite lookup_ge_None_2 by (rewrite length_replicate; lia).
  - intros. by apply bm_empty.
  - intros b. unfold bm_rest. by rewrite Nat.sub_0_r.
  - intros b it n r H. destruct (bm_next_rest b it n r H). eauto.
  - intros b it H. destruct (bm_next_end b it H). eauto.
Defined.

Lemma ht_find_filter {V} (t : list (list Z * V)) k k' :
  snd <$> (snd <$> list_find (λ e, e.1 = k') (filter (λ e, e.1 <> k) t)) =
  (if decide (k' = k) then None else snd <$> (snd <$> list_find (λ e, e.1 = k') t)).
Proof.
  induction t as [|[x v] t IH]; [by case_decide|].
  rewrite filter_cons. cbn [list_find fst snd].
  destruct (decide (x <> k)) as [Hx|Hx]; cbn [list_find fst snd].
  - destruct (decide (x = k')) as [->|Hx']; cbn.
    + by rewrite decide_False by done.
    + destruct (list_find _ (filter _ t)) as [[??]|], (list_find _ t) as [[??]|]; cbn in *; done.
  - apply dec_stable in Hx. subst x. rewrite IH. destruct (decide (k' = k)) as [->|Hne]; [done|].
    rewrite (decide_False (P := k = k')) by done.
    destruct (list_find _ t) as [[??]|]; done.
Qed.

#[export] Instance ref_ht_laws {V} : CkHtLaws (list (list Z * V)) V.
Proof.
  split; cbn.
  - intros t k v t' [= <-] k'. cbn. destruct (decide (k = k')) as [->|Hne]; cbn.
    + by rewrite decide_True.
    + rewrite (decide_False (P := k' = k)) by done.
      pose proof (ht_find_filter t k k') as F. rewrite decide_False in F by done. rewrite <- F.
      destruct (list_find _ (filter _ t)) as [[??]|]; done.
  - discriminate.
  - intros t k r t' [= _ <-] k'. apply ht_find_filter.
Qed.

Lemma drop_key_Some mem bytes t t' : drop_key mem bytes t = Some t' ->
  exists e, mem e.1 = bytes /\ Permutation t (e :: t').
Proof.
  revert t'. induction t as [|e t IH]; intros t'; cbn; [done|]. case_decide as H.
  - intros [= <-]. eauto.
  - destruct (drop_key mem bytes t) as [u|]; [|done]. intros [= <-].
    destruct (IH u eq_refl) as (e' & He & Hp). exists e'. split; [done|]. by rewrite Hp, Permutation_swap.
Qed.

#[export] Instance ref_ptr_ht_laws : CkPtrHtLaws (list (nat * nat)).
Proof.
  refine {| ptr_ht_entries := fun t => t |}; cbn.
  - done.
  - intros t mem k v t' [= <-]. eexists. split; [done|].
    destruct (drop_key mem (mem k) t) as [u|] eqn:E; [right; by apply drop_key_Some|by left].
  - done.
  - intros t mem bytes t'. destruct (drop_key mem bytes t) as [u|] eqn:E; [|done].
    intros [= <-]. by apply drop_key_Some.
  - intros t mem bytes t'. by destruct (drop_key mem bytes t); intros [= <-].
Defined.

#[export] Instance ref_ring_laws : CkRingLaws ring_ref.
Proof.
  refine {| ck_ring_cap := rcap; ck_ring_list := rlist |}; cbn.
  - done.
  - done.
  - intros r H. pose proof (Z.mod_pos_bound (rtail r) (rcap r + 1)). lia.
  - intros r x H. rewrite (proj2 (Z.ltb_lt _ _)) by done. by eexists.
  - intros r x H. by rewrite (proj2 (Z.ltb_ge _ _)).
  - intros r x l' H. rewrite H. by eexists.
  - intros r H. by rewrite H.
Defined.

Lemma remove1_perm b l k : Permutation l (b :: k) -> Permutation (remove1 b l) k.
Proof.
  intros H. apply (Permutation_cons_inv (a := b)). rewrite <- H.
  assert (Hin : b ∈ l) by (rewrite H; apply list_elem_of_here).
  clear H. induction l as [|x l IH]; [by apply not_elem_of_nil in Hin|]. cbn.
  case_decide as E; [by rewrite E|].
  apply elem_of_cons in Hin as [->|Hin]; [done|].
  rewrite Permutation_swap. by rewrite IH.
Qed.

Lemma fresh_index (l : list nat) :
  exists k b, list_find (λ i, i ∉ l) (seq 0 (S (length l))) = Some (k, b) /\ b ∉ l.
Proof.
  destruct (list_find (λ i, i ∉ l) (seq 0 (S (length l)))) as [[k b]|] eqn:E.
  - apply list_find_Some in E as (_ & Hb & _). eauto.
  - apply list_find_None in E. exfalso.
    assert (Hlen : (length (seq 0 (S (length l))) <= length l)%nat).
    { apply submseteq_length, NoDup_submseteq; [apply NoDup_seq|].
      intros x Hx. rewrite Forall_forall in E. specialize (E x Hx). by apply dec_stable in E. }
    rewrite length_seq in Hlen. lia.
Qed.

#[export] Instance ref_pool_laws : MempoolLaws (Z * list nat).
Proof.
  refine {| pool_cap := fst; pool_used := snd |}; cbn -[seq].
  - intros [n l] H. cbn -[seq] in *. rewrite (proj2 (Z.ltb_lt _ _)) by done.
    destruct (fresh_index l) as (k & b & -> & Hb). by eexists _, _.
  - intros [n l] H. cbn in *. by rewrite (proj2 (Z.ltb_ge _ _)).
  - intros [n l] b k H. cbn in *. split; [by apply remove1_perm|done].
Defined.

End Reference.
