(* ===== verification/Router.v ===== *)
(** * The stream router

    [src/src/router/jrtc_router.c]: applications register with the router and
    ask for streams, possibly with wildcards; the router thread forwards every
    message to the queues of the applications that asked for its stream.

    C pointers to heap objects are addresses in the maps of the router state;
    using an address whose object was freed is a fault. *)
From S2P Require Import Prelude StreamId Bloom Ext.

Definition JRTC_ROUTER_MAX_APP_QUEUE_SIZE : Z := 10000.
Definition JRTC_ROUTER_MAX_NUM_APPS : nat := 128.
Definition JRTC_ROUTER_NUM_REQ_LOOKUPS : nat := 16.
Definition JRTC_ROUTER_DATA_BATCH_SIZE : Z := 16.

(** The macro works on a [uint32_t] variable. *)
Definition round_up_pow_of_two (x : Z) : Z :=
  let v := u32 x in
  let v := u32 (v - 1) in
  let v := v ||| (v >> 1) in
  let v := v ||| (v >> 2) in
  let v := v ||| (v >> 4) in
  let v := v ||| (v >> 8) in
  let v := v ||| (v >> 16) in
  u32 (v + 1).

Definition mask (f d p n : bool) : jrtc_router_stream_id_int :=
  mk_sid_int 0
    (if f then JRTC_ROUTER_DEST_ANY else 0)
    (if d then JRTC_ROUTER_DEVICE_ID_ANY else 0)
    (if p then JRTC_ROUTER_STREAM_PATH_ANY else 0)
    (if n then JRTC_ROUTER_STREAM_NAME_ANY else 0).

(** The sixteen masks, in the order of the table. *)
Definition lookup_mask : list jrtc_router_stream_id_int := [
  mask false false false false;
  mask false false false true;
  mask false false true false;
  mask false true false false;
  mask true false false false;
  mask false false true true;
  mask false true false true;
  mask true false false true;
  mask false true true false;
  mask true false true false;
  mask true true false false;
  mask false true true true;
  mask true false true true;
  mask true true false true;
  mask true true true false;
  mask true true true true
].

Record jrtc_router_data_entry := mk_data_entry {
  de_stream_id : jrtc_router_stream_id;
  de_data : Z
}.

(** Calls into the IO library, in the order they are made. *)
Inductive io_event :=
| IoShare (buf : Z)
| IoRelease (buf : Z)
| IoRegisterThread
| IoDestroyChannel (io_channel : nat).

#[global] Instance io_event_eq_dec : EqDecision io_event.
Proof. solve_decision. Defined.

Section Router.
Context {cs : CharSign}.
Context {B It T C R M S : Type}.
Context `{HB : CkBitmap B It} `{HT : CkHt T nat} `{HC : CkPtrHt C} `{HR : CkRing R} `{HM : Mempool M} `{HS : JbpfIo S}.

(** ** State *)

(** [struct dapp_router_ctx]. The memory of the pool's elements is a map from
    the element to the entry stored in it; [ringbuffer] is the number of slots
    that were allocated for the ring. *)
Record dapp_router_ctx := mk_dapp {
  ring : R;
  ringbuffer : Z;
  data_entry_pool : M;
  pool_mem : gmap nat jrtc_router_data_entry;
  app_out_channel_list : C;
  app_in_channel_list : C;
  app_id : nat
}.

(** [struct jrtc_router_req_entry]. *)
Record jrtc_router_req_entry := mk_req_entry {
  re_stream_id : jrtc_router_stream_id;
  re_bitmap : B
}.

(** [struct dapp_channel_ctx]. *)
Record dapp_channel_ctx := mk_channel {
  io_channel : nat;
  ch_stream_id : jrtc_router_stream_id;
  ch_app_ctx : nat;
  is_output : bool
}.

(** [struct jrtc_router_ctx] with the objects its tables point to. *)
Record jrtc_router_ctx := mk_router {
  reqs : T;
  req_entries : gmap nat jrtc_router_req_entry;
  lookup_result : B;
  app_ctx : list (option nat);
  app_bitmap : B;
  dapps : gmap nat dapp_router_ctx;
  channels : gmap nat dapp_channel_ctx
}.

Definition upd_reqs (r : jrtc_router_ctx) (t : T) (e : gmap nat jrtc_router_req_entry) :=
  mk_router t e (lookup_result r) (app_ctx r) (app_bitmap r) (dapps r) (channels r).
Definition upd_lookup (r : jrtc_router_ctx) (b : B) :=
  mk_router (reqs r) (req_entries r) b (app_ctx r) (app_bitmap r) (dapps r) (channels r).
Definition upd_apps (r : jrtc_router_ctx) (c : list (option nat)) (b : B) (d : gmap nat dapp_router_ctx)
    (ch : gmap nat dapp_channel_ctx) :=
  mk_router (reqs r) (req_entries r) (lookup_result r) c b d ch.
Definition upd_dapp (r : jrtc_router_ctx) (p : nat) (d : dapp_router_ctx) :=
  upd_apps r (app_ctx r) (app_bitmap r) (<[p := d]> (dapps r)) (channels r).

Definition deref {A} (m : gmap nat A) (p : nat) : outcome A :=
  match m !! p with Some x => Ret x | None => Fault UseAfterFree end.

(** ** Forwarding *)

(** The id looked up with one mask. *)
Definition apply_mask (sid : jrtc_router_stream_id) (m : jrtc_router_stream_id_int) : jrtc_router_stream_id :=
  let l := _jrtc_router_stream_id_apply_fwd_dst_mask (id sid) (fwd_dst m) in
  let l := _jrtc_router_stream_id_apply_device_id_mask l (device_id m) in
  let l := _jrtc_router_stream_id_apply_stream_path_mask l (stream_path m) in
  let l := _jrtc_router_stream_id_apply_stream_name_mask l (stream_name m) in
  mk_stream_id l.

(** The sixteen lookups: the union of the bitmaps of the requests found. *)
Fixpoint lookup_loop (r : jrtc_router_ctx) (sid : jrtc_router_stream_id)
    (masks : list jrtc_router_stream_id_int) (res : B) : outcome B :=
  match masks with
  | [] => Ret res
  | m :: masks =>
      match ck_ht_get_spmc (reqs r) (id (apply_mask sid m)) with
      | Some p => e ← deref (req_entries r) p;
                  lookup_loop r sid masks (ck_bitmap_union res (re_bitmap e))
      | None => lookup_loop r sid masks res
      end
  end.

(** [ck_ring_enqueue_spsc(&dapp->ring, dapp->ringbuffer, data_entry)]: a ring
    that is not full writes a slot of [ringbuffer]. *)
Definition ring_enqueue (d : dapp_router_ctx) (mbuf : nat) : outcome (bool * R) :=
  match ck_ring_enqueue_spsc (ring d) mbuf with
  | (true, ring') => if ck_ring_slot (ring d) <? ringbuffer d then Ret (true, ring') else Fault OutOfBounds
  | (false, ring') => Ret (false, ring')
  end.

(** The body of the inner loop, for the application id the iterator returned. *)
Definition enqueue_app (r : jrtc_router_ctx) (sid : jrtc_router_stream_id) (buf : Z) (aid : nat) :
    outcome (jrtc_router_ctx * list io_event) :=
  slot ← array_get (app_ctx r) aid;
  match slot with
  | None => Ret (r, [])
  | Some p =>
      d ← deref (dapps r) p;
      match jbpf_mbuf_alloc (data_entry_pool d) with
      | None => Ret (r, [])
      | Some (mbuf, pool) =>
          let ptr := jbpf_io_channel_share_data_ptr buf in
          let mem := <[mbuf := mk_data_entry sid ptr]> (pool_mem d) in
          '(_, ring') ← ring_enqueue d mbuf;
          Ret (upd_dapp r p (mk_dapp ring' (ringbuffer d) pool mem (app_out_channel_list d)
                               (app_in_channel_list d) (app_id d)),
               [IoShare buf])
      end
  end.

(** [for (j = 0; ck_bitmap_next(...) == true; j++)]: the iterator it starts
    from is the one the previous buffer left. *)
Fixpoint app_loop (fuel : nat) (lr : B) (it : It) (r : jrtc_router_ctx) (sid : jrtc_router_stream_id)
    (buf : Z) : outcome (It * jrtc_router_ctx * list io_event) :=
  match fuel with
  | O => Fault Divergence
  | Datatypes.S fuel =>
      match ck_bitmap_next lr it with
      | (None, it) => Ret (it, r, [])
      | (Some aid, it) =>
          '(r, ev) ← enqueue_app r sid buf aid;
          '(it, r, ev') ← app_loop fuel lr it r sid buf;
          Ret (it, r, ev ++ ev')
      end
  end.

Fixpoint buf_loop (lr : B) (it : It) (r : jrtc_router_ctx) (sid : jrtc_router_stream_id)
    (bufs : list Z) : outcome (jrtc_router_ctx * list io_event) :=
  match bufs with
  | [] => Ret (r, [])
  | buf :: bufs =>
      '(it, r, ev) ← app_loop (Datatypes.S (ck_bitmap_bits lr)) lr it r sid buf;
      '(r, ev') ← buf_loop lr it r sid bufs;
      Ret (r, ev ++ [IoRelease buf] ++ ev')
  end.

(** [bufs] holds the [num_bufs] buffers; [has_channel] is [io_channel != NULL]. *)
Definition _jrtc_router_forward_msgs (r : jrtc_router_ctx) (has_channel : bool)
    (sid : jrtc_router_stream_id) (bufs : list Z) : outcome (jrtc_router_ctx * list io_event) :=
  if negb has_channel || (Z.of_nat (length bufs) <=? 0) then Ret (r, [])
  else
    lr ← lookup_loop r sid lookup_mask (ck_bitmap_clear (lookup_result r));
    buf_loop lr (ck_bitmap_iterator_init lr) (upd_lookup r lr) sid bufs.

(** ** Application ids *)

(** [for (i = 0; i < ck_bitmap_bits(...); i++)]: n iterations left, next i. *)
Fixpoint reserve_loop (n : nat) (b : B) (i : nat) : Z * B :=
  match n with
  | O => (-1, b)
  | Datatypes.S n =>
      let '(was, b) := ck_bitmap_bts b i in
      if was then reserve_loop n b (i + 1) else (Z.of_nat i, b)
  end.

Definition _jrtc_router_reserve_new_app (r : jrtc_router_ctx) : Z * jrtc_router_ctx :=
  let '(i, b) := reserve_loop (ck_bitmap_bits (app_bitmap r)) (app_bitmap r) 0 in
  (i, upd_apps r (app_ctx r) b (dapps r) (channels r)).

Definition _jrtc_router_release_app (r : jrtc_router_ctx) (aid : nat) : jrtc_router_ctx :=
  upd_apps r (app_ctx r) (ck_bitmap_reset (app_bitmap r) aid) (dapps r) (channels r).

(** What the calls that can fail return during one registration: the two
    [jbpf_calloc] (the address of the context, and whether the ring buffer was
    allocated), [jbpf_init_mempool] and the two [ck_ht_init]. *)
Record register_env := mk_register_env {
  calloc_dapp : option nat;
  calloc_ring : bool;
  init_mempool : option M;
  ht_init_out : option C;
  ht_init_in : option C
}.

(** The address of the new context or NULL. *)
Definition jrtc_router_register_app (r : jrtc_router_ctx) (env : register_env) (app_queue_size : Z) :
    outcome (jrtc_router_ctx * option nat * list io_event) :=
  if JRTC_ROUTER_MAX_APP_QUEUE_SIZE <? app_queue_size then Ret (r, None, [])
  else
    let '(aid, r) := _jrtc_router_reserve_new_app r in
    if aid <? 0 then Ret (r, None, [])
    else
      let aid := Z.to_nat aid in
      let error := Ret (_jrtc_router_release_app r aid, None, []) in
      match calloc_dapp env with
      | None => error
      | Some p =>
          if calloc_ring env then
            match init_mempool env with
            | None => error
            | Some pool =>
                match ht_init_out env with
                | None => error
                | Some out =>
                    match ht_init_in env with
                    | None => error
                    | Some inp =>
                        let rg := ck_ring_init (round_up_pow_of_two (app_queue_size + 1)) in
                        let d := mk_dapp rg (app_queue_size + 1) pool ∅ out inp aid in
                        slots ← array_set (app_ctx r) aid (Some p);
                        Ret (upd_apps r slots (app_bitmap r) (<[p := d]> (dapps r)) (channels r),
                             Some p, [IoRegisterThread])
                    end
                end
            end
          else error
      end.

(** Destroying the channels a table holds. *)
Fixpoint destroy_channels (ch : gmap nat dapp_channel_ctx) (ps : list nat) :
    outcome (gmap nat dapp_channel_ctx * list io_event) :=
  match ps with
  | [] => Ret (ch, [])
  | p :: ps =>
      c ← deref ch p;
      '(ch, ev) ← destroy_channels (delete p ch) ps;
      Ret (ch, IoDestroyChannel (io_channel c) :: ev)
  end.

Definition jrtc_router_deregister_app (r : jrtc_router_ctx) (ctx : option nat) :
    outcome (jrtc_router_ctx * list io_event) :=
  match ctx with
  | None => Ret (r, [])
  | Some p =>
      d ← deref (dapps r) p;
      '(ch, ev1) ← destroy_channels (channels r) (ptr_ht_values (app_out_channel_list d));
      '(ch, ev2) ← destroy_channels ch (ptr_ht_values (app_in_channel_list d));
      slots ← array_set (app_ctx r) (app_id d) None;
      let r := upd_apps r slots (app_bitmap r) (delete p (dapps r)) ch in
      Ret (_jrtc_router_release_app r (app_id d), ev1 ++ ev2)
  end.

(** ** Channels *)

(** What the calls that can fail return while a channel is created ([jbpf_malloc]
    and [jbpf_io_create_channel]), the address of the [stream_id] parameter on
    the stack, and the memory that stored key addresses point to. *)
Record channel_env := mk_channel_env {
  malloc_channel : option nat;
  create_channel : option nat;
  key_addr : nat;
  key_mem : nat -> list Z
}.

Definition upd_channel_list (d : dapp_router_ctx) (is_out : bool) (t : C) : dapp_router_ctx :=
  if is_out
  then mk_dapp (ring d) (ringbuffer d) (data_entry_pool d) (pool_mem d) t (app_in_channel_list d) (app_id d)
  else mk_dapp (ring d) (ringbuffer d) (data_entry_pool d) (pool_mem d) (app_out_channel_list d) t (app_id d).

Definition channel_list (d : dapp_router_ctx) (is_out : bool) : C :=
  if is_out then app_out_channel_list d else app_in_channel_list d.

(** The address of the new channel or NULL. *)
Definition jrtc_router_channel_create (r : jrtc_router_ctx) (env : channel_env) (ctx : option nat)
    (is_out : bool) (stream_id : jrtc_router_stream_id) :
    outcome (jrtc_router_ctx * option nat * list io_event) :=
  match ctx with
  | None => Ret (r, None, [])
  | Some a =>
      match malloc_channel env with
      | None => Ret (r, None, [])
      | Some c =>
          d ← deref (dapps r) a;
          match create_channel env with
          | None => Ret (r, None, [])
          | Some io =>
              let '(ok, t) := ptr_ht_set_spmc (channel_list d is_out) (key_mem env) (key_addr env) c in
              let dapps := <[a := upd_channel_list d is_out t]> (dapps r) in
              if ok then
                Ret (upd_apps r (app_ctx r) (app_bitmap r) dapps
                       (<[c := mk_channel io stream_id a is_out]> (channels r)), Some c, [])
              else
                Ret (upd_apps r (app_ctx r) (app_bitmap r) dapps (channels r), None, [IoDestroyChannel io])
          end
      end
  end.

Definition jrtc_router_channel_destroy (r : jrtc_router_ctx) (mem : nat -> list Z) (chan : option nat) :
    outcome (jrtc_router_ctx * list io_event) :=
  match chan with
  | None => Ret (r, [])
  | Some p =>
      c ← deref (channels r) p;
      d ← deref (dapps r) (ch_app_ctx c);
      let '(found, t) := ptr_ht_remove_spmc (channel_list d (is_output c)) mem (id (ch_stream_id c)) in
      let dapps := <[ch_app_ctx c := upd_channel_list d (is_output c) t]> (dapps r) in
      if found then
        Ret (upd_apps r (app_ctx r) (app_bitmap r) dapps (delete p (channels r)),
             [IoDestroyChannel (io_channel c)])
      else Ret (upd_apps r (app_ctx r) (app_bitmap r) dapps (channels r), [])
  end.

(** ** Requests *)

(** What the calls that can fail return during one request: the two
    [jbpf_malloc] (the address of the entry, and whether the bitmap was
    allocated). *)
Record request_env := mk_request_env {
  malloc_entry : option nat;
  malloc_bitmap : bool
}.

(** [ctx] is the application's context pointer; the result is the return value. *)
Definition jrtc_router_channel_register_stream_id_req (r : jrtc_router_ctx) (env : request_env)
    (ctx : option nat) (stream_id : jrtc_router_stream_id) : outcome (jrtc_router_ctx * Z) :=
  match ctx with
  | None => Ret (r, -1)
  | Some c =>
      d ← deref (dapps r) c;
      let aid := app_id d in
      if decide (JRTC_ROUTER_MAX_NUM_APPS <= aid)%nat then Ret (r, -1)
      else
        match ck_ht_get_spmc (reqs r) (id stream_id) with
        | None =>
            match malloc_entry env with
            | None => Ret (r, -1)
            | Some p =>
                if malloc_bitmap env then
                  let bm := ck_bitmap_set (ck_bitmap_init JRTC_ROUTER_MAX_NUM_APPS false) aid in
                  let entries := <[p := mk_req_entry stream_id bm]> (req_entries r) in
                  let '(ok, t) := ck_ht_set_spmc (reqs r) (id stream_id) p in
                  Ret (upd_reqs r t entries, if ok then 1 else -1)
                else Ret (r, -1)
            end
        | Some p =>
            e ← deref (req_entries r) p;
            let entries := <[p := mk_req_entry (re_stream_id e) (ck_bitmap_set (re_bitmap e) aid)]>
                             (req_entries r) in
            Ret (upd_reqs r (reqs r) entries, 1)
        end
  end.

Definition jrtc_router_channel_deregister_stream_id_req (r : jrtc_router_ctx) (ctx : option nat)
    (stream_id : jrtc_router_stream_id) : outcome jrtc_router_ctx :=
  match ctx with
  | None => Ret r
  | Some c =>
      d ← deref (dapps r) c;
      let aid := app_id d in
      if decide (JRTC_ROUTER_MAX_NUM_APPS <= aid)%nat then Ret r
      else
        match ck_ht_get_spmc (reqs r) (id stream_id) with
        | None => Ret r
        | Some p =>
            e ← deref (req_entries r) p;
            let bm := ck_bitmap_reset (re_bitmap e) aid in
            if ck_bitmap_empty bm JRTC_ROUTER_MAX_NUM_APPS then
              let '(_, t) := ck_ht_remove_spmc (reqs r) (id stream_id) in
              Ret (upd_reqs r t (delete p (req_entries r)))
            else
              Ret (upd_reqs r (reqs r) (<[p := mk_req_entry (re_stream_id e) bm]> (req_entries r)))
        end
  end.

(** Both convenience calls ignore the return value of the generator and go on
    with the id it left. *)
Definition generated_id (mp mn : bool * bool) (fwd_dst device_id : Z) (path name : option string) :
    outcome jrtc_router_stream_id :=
  '(_, o) ← jrtc_router_generate_stream_id mp mn (Some (mk_stream_id [])) fwd_dst device_id path name;
  match o with Some sid => Ret sid | None => Fault NullDeref end.

Definition jrtc_router_channel_register_req (r : jrtc_router_ctx) (env : request_env) (mp mn : bool * bool)
    (ctx : option nat) (fwd_dst device_id : Z) (path name : option string) :
    outcome (jrtc_router_ctx * Z) :=
  sid ← generated_id mp mn fwd_dst device_id path name;
  jrtc_router_channel_register_stream_id_req r env ctx sid.

Definition jrtc_router_channel_deregister_req (r : jrtc_router_ctx) (mp mn : bool * bool)
    (ctx : option nat) (fwd_dst device_id : Z) (path name : option string) : outcome jrtc_router_ctx :=
  sid ← generated_id mp mn fwd_dst device_id path name;
  jrtc_router_channel_deregister_stream_id_req r ctx sid.

(** ** Reception *)

(** The first loop: at most [n] entries out of the ring. *)
Fixpoint ring_loop (n : nat) (d : dapp_router_ctx) : outcome (dapp_router_ctx * list jrtc_router_data_entry) :=
  match n with
  | O => Ret (d, [])
  | Datatypes.S n =>
      match ck_ring_dequeue_spsc (ring d) with
      | (None, _) => Ret (d, [])
      | (Some mbuf, ring') =>
          de ← deref (pool_mem d) mbuf;
          let d := mk_dapp ring' (ringbuffer d) (jbpf_mbuf_free (data_entry_pool d) mbuf) (pool_mem d)
                     (app_out_channel_list d) (app_in_channel_list d) (app_id d) in
          '(d, des) ← ring_loop n d;
          Ret (d, de :: des)
      end
  end.

(** The second loop, over the input channels: [n] entries are still wanted, which
    [pending_reqs] holds as an [int]. A count that became negative asks for
    nothing. *)
Fixpoint channel_loop (n : Z) (ch : gmap nat dapp_channel_ctx) (ps : list nat) (io : S) :
    outcome (S * list jrtc_router_data_entry) :=
  match ps with
  | [] => Ret (io, [])
  | p :: ps =>
      if 0 <? n then
        c ← deref ch p;
        let pending_reqs := sext 32 (u32 n) in
        let nreqs := if pending_reqs <? JRTC_ROUTER_DATA_BATCH_SIZE then pending_reqs else JRTC_ROUTER_DATA_BATCH_SIZE in
        let '(ptrs, io) := jbpf_io_channel_recv_data io (io_channel c) (Z.to_nat nreqs) in
        let des := mk_data_entry (ch_stream_id c) <$> ptrs in
        '(io, des') ← channel_loop (n - Z.of_nat (length ptrs)) ch ps io;
        Ret (io, des ++ des')
      else Ret (io, [])
  end.

(** The entries written to [data_entries]; their number is the return value. *)
Definition jrtc_router_receive (r : jrtc_router_ctx) (io : S) (ctx : nat) (num_entries : nat) :
    outcome (jrtc_router_ctx * S * list jrtc_router_data_entry) :=
  d ← deref (dapps r) ctx;
  '(d, des) ← ring_loop num_entries d;
  '(io, des') ← channel_loop (Z.of_nat num_entries - Z.of_nat (length des)) (channels r)
                  (ptr_ht_values (app_in_channel_list d)) io;
  Ret (upd_dapp r ctx d, io, des ++ des').

End Router.

#[global] Arguments dapp_router_ctx : clear implicits.
#[global] Arguments jrtc_router_ctx : clear implicits.
#[global] Arguments jrtc_router_req_entry : clear implicits.
#[global] Arguments register_env : clear implicits.
