(* ===== verification/HashHeap.v ===== *)
(** * Names are hashed without a trace

    [Bitmap] and [Bloom] treat a bit array as a value. Here the same functions
    of [src/src/stream_id/jrtc_router_bitmap.h] and [jrtc_router_stream_id.c]
    work on pointers, with both allocations of a bit array on a heap, up to
    [jrtc_router_bitmap_destroy] and [jrtc_router_bf_destroy]. Hashing a name
    computes what [Bloom] says and leaves the heap as it was. *)
From S2P Require Import Prelude Hash Bitmap Bloom BloomFacts Router.

(** The objects [malloc] returned: the structures, with the address of their
    array, and the arrays. *)
Record bm_heap := mk_bm_heap { structs : gmap nat (Z * nat); words : gmap nat (list Z) }.

Definition free_struct (h : bm_heap) (p : nat) : outcome bm_heap :=
  match structs h !! p with Some _ => Ret (mk_bm_heap (delete p (structs h)) (words h)) | None => Fault DoubleFree end.
Definition free_words (h : bm_heap) (q : nat) : outcome bm_heap :=
  match words h !! q with Some _ => Ret (mk_bm_heap (structs h) (delete q (words h))) | None => Fault DoubleFree end.

(** [m] are the addresses the two calls of [malloc] return. *)
Definition bitmap_create (m : option nat * option nat) (size : Z) (h : bm_heap) : outcome (option nat * bm_heap) :=
  match m.1 with
  | None => Ret (None, h)
  | Some p =>
      match m.2 with
      | None => h ← free_struct (mk_bm_heap (<[p := (size, 0%nat)]> (structs h)) (words h)) p; Ret (None, h)
      | Some q => Ret (Some p, mk_bm_heap (<[p := (size, q)]> (structs h)) (<[q := replicate (Z.to_nat (nwords size)) 0]> (words h)))
      end
  end.

Definition bitmap_set (h : bm_heap) (b : option nat) (idx : Z) : outcome bm_heap :=
  match b with
  | None => Ret h
  | Some p =>
      '(size, q) ← deref (structs h) p;
      if idx <? size then
        d ← deref (words h) q;
        w ← array_get d (Z.to_nat (idx / 32));
        d ← array_set d (Z.to_nat (idx / 32)) (w ||| u32 (1 << (idx mod 32)));
        Ret (mk_bm_heap (structs h) (<[q := d]> (words h)))
      else Ret h
  end.

Definition bitmap_get (h : bm_heap) (b : option nat) (idx : Z) : outcome Z :=
  match b with
  | None => Ret (-1)
  | Some p =>
      '(size, q) ← deref (structs h) p;
      if idx <? size then
        d ← deref (words h) q;
        w ← array_get d (Z.to_nat (idx / 32));
        Ret (if (w &&& u32 (1 << (idx mod 32))) =? 0 then 0 else 1)
      else Ret (-1)
  end.

(** The iterator: the array it refers to, and the index. *)
Fixpoint bitmap_scan (n : nat) (h : bm_heap) (p : nat) (idx : Z) : outcome (option Z) :=
  match n with
  | O => Ret None
  | S n =>
      '(size, _) ← deref (structs h) p;
      if idx <? size then
        v ← bitmap_get h (Some p) idx;
        if v =? 0 then bitmap_scan n h p (u32 (idx + 1)) else Ret (Some idx)
      else Ret None
  end.

Definition iterator_has_next (h : bm_heap) (p : nat) (idx : Z) : outcome Z :=
  '(size, _) ← deref (structs h) p;
  r ← bitmap_scan (Z.to_nat (size - idx)) h p idx;
  Ret (match r with Some _ => 1 | None => 0 end).

Definition iterator_next (h : bm_heap) (p : nat) (idx : Z) : outcome (Z * Z) :=
  '(size, _) ← deref (structs h) p;
  r ← bitmap_scan (Z.to_nat (size - idx)) h p idx;
  Ret (match r with Some i => (i, u32 (i + 1)) | None => (u32 (-1), Z.max idx size) end).

Definition jrtc_router_bitmap_destroy (h : bm_heap) (b : option nat) : outcome bm_heap :=
  match b with
  | None => Fault NullDeref
  | Some p =>
      '(_, q) ← deref (structs h) p;
      h ← free_words h q;
      free_struct h p
  end.

(** [jrtc_router_bf_t] on the stack. *)
Record bf_ptr := mk_bf_ptr { bp_bitmap : option nat; bp_bit_size : Z; bp_n_hash : Z }.

Definition bf_init (m : option nat * option nat) (bit_size n_hash : Z) (h : bm_heap) : outcome (option bf_ptr * bm_heap) :=
  '(b, h) ← bitmap_create m (u32 bit_size) h;
  match b with
  | None => Ret (None, h)
  | Some p => Ret (Some (mk_bf_ptr (Some p) bit_size n_hash), h)
  end.

Definition jrtc_router_bf_destroy (h : bm_heap) (bf : option bf_ptr) : outcome bm_heap :=
  match bf with None => Ret h | Some bf => jrtc_router_bitmap_destroy h (bp_bitmap bf) end.

Fixpoint add_loop (n : nat) (i : Z) (h : bm_heap) (bf : bf_ptr) (elem : list Z) : outcome bm_heap :=
  match n with
  | O => Ret h
  | S n =>
      h ← bitmap_set h (bp_bitmap bf) (u32 (MurmurHash64A elem i mod u64 (bp_bit_size bf)));
      add_loop n (i + 1) h bf elem
  end.

Fixpoint take_loop (fuel : nat) (h : bm_heap) (p : nat) (idx bits n_bits result : Z) : outcome Z :=
  match fuel with
  | O => Fault Divergence
  | S fuel =>
      more ← iterator_has_next h p idx;
      if more =? 0 then Ret result
      else
        let bits := u32 (bits + 1) in
        if u32 n_bits <? bits then Ret result
        else
          '(i, idx) ← iterator_next h p idx;
          m ← shl1L i;
          take_loop fuel h p idx bits n_bits (result ||| m)
  end.

Definition bf_extract_bits (h : bm_heap) (bf : bf_ptr) (n_bits : Z) : outcome Z :=
  if (64 <? n_bits) || (bp_bit_size bf <? n_bits) then Ret 0
  else
    match bp_bitmap bf with
    | None => Fault NullDeref
    | Some p => '(size, _) ← deref (structs h) p; take_loop (S (Z.to_nat size)) h p 0 0 n_bits 0
    end.

(** [jrtc_router_get_hash]. *)
Definition get_hash (m : option nat * option nat) (name : string) (h : bm_heap) : outcome (Z * bm_heap) :=
  '(bf, h) ← bf_init m JRTC_ROUTER_HASH_NUMBER_BITS JRTC_ROUTER_NUM_HASH_FUNCTIONS h;
  match bf with
  | None => Ret (0, h)
  | Some bf =>
      h ← add_loop (Z.to_nat (bp_n_hash bf)) 0 h bf (bytes_of_string name);
      value ← bf_extract_bits h bf JRTC_ROUTER_HASH_NUMBER_BITS;
      h ← jrtc_router_bf_destroy h (Some bf);
      Ret (value, h)
  end.

(** ** The bit array behind a pointer *)

Definition points_to (h : bm_heap) (p q : nat) (b : jrtc_router_bitmap_t) : Prop :=
  structs h !! p = Some (size b, q) /\ words h !! q = Some (data b).

(** The heap with another array at [q]. *)
Definition with_words (h : bm_heap) (q : nat) (d : list Z) : bm_heap := mk_bm_heap (structs h) (<[q := d]> (words h)).

Section Pointer.
Context (h : bm_heap) (p q : nat) (b : jrtc_router_bitmap_t) (Hp : points_to h p q b).

Lemma bitmap_get_points idx : bitmap_get h (Some p) idx = jrtc_router_bitmap_get (Some b) idx.
Proof. destruct Hp as [E1 E2]. unfold bitmap_get, jrtc_router_bitmap_get, deref. rewrite E1. cbn. case_match; [|done]. by rewrite E2. Qed.

Lemma bitmap_set_points idx :
  match jrtc_router_bitmap_set (Some b) idx with
  | Ret (Some b') => size b' = size b /\ bitmap_set h (Some p) idx = Ret (with_words h q (data b'))
  | Ret None => False
  | Fault f => bitmap_set h (Some p) idx = Fault f
  end.
Proof.
  destruct Hp as [E1 E2]. unfold bitmap_set, jrtc_router_bitmap_set, deref. rewrite E1. cbn [mbind outcome_bind].
  destruct (idx <? size b).
  - rewrite E2. cbn [mbind outcome_bind]. destruct (array_get _ _) as [w|]; [|done]. cbn [mbind outcome_bind].
    by destruct (array_set _ _ _).
  - split; [done|]. unfold with_words. rewrite insert_id by done. by destruct h.
Qed.

Lemma bitmap_scan_points n idx : bitmap_scan n h p idx = scan n b idx.
Proof.
  revert idx. induction n as [|n IH]; intros idx; [done|]. cbn [bitmap_scan scan]. unfold deref. rewrite (proj1 Hp). cbn [mbind outcome_bind].
  case_match; [|done]. rewrite bitmap_get_points. destruct (jrtc_router_bitmap_get _ _) as [v|]; [|done]. cbn [mbind outcome_bind].
  case_match; [apply IH|done].
Qed.

Lemma take_loop_points fuel idx bits n_bits res :
  take_loop fuel h p idx bits n_bits res = extract_loop fuel (mk_bitmap_iterator b idx) bits n_bits res.
Proof.
  revert idx bits res. induction fuel as [|fuel IH]; intros idx bits res; [done|]. cbn [take_loop extract_loop].
  unfold iterator_has_next, jrtc_router_bitmap_iterator_has_next, iterator_next, jrtc_router_bitmap_iterator_next, scan_from, deref.
  rewrite (proj1 Hp). cbn [mbind outcome_bind bitmap index]. rewrite bitmap_scan_points.
  destruct (scan _ b idx) as [[i|]|]; [|done..]. cbn [mbind outcome_bind]. case_match; [done|]. case_match; [done|].
  destruct (shl1L i); [|done]. apply IH.
Qed.
End Pointer.

(** Adding the hashes changes only the array, and as the bit array as a value
    changes. *)
Lemma add_loop_points n : forall i h p q b sz nh elem, points_to h p q b ->
  match bf_add_loop n i (mk_bf (Some b) sz nh) elem with
  | Ret bf' => exists b', bf' = mk_bf (Some b') sz nh /\ size b' = size b /\
      add_loop n i h (mk_bf_ptr (Some p) sz nh) elem = Ret (with_words h q (data b'))
  | Fault f => add_loop n i h (mk_bf_ptr (Some p) sz nh) elem = Fault f
  end.
Proof.
  induction n as [|n IH]; intros i h p q b sz nh elem Hp; cbn [bf_add_loop add_loop].
  { exists b. split_and!; [done|done|]. unfold with_words. rewrite insert_id by apply Hp. by destruct h. }
  unfold bf_index. cbn [bf_bitmap bit_size bp_bitmap bp_bit_size]. set (idx := u32 _).
  pose proof (bitmap_set_points h p q b Hp idx) as Hs. destruct (jrtc_router_bitmap_set (Some b) idx) as [[b1|]|f]; cbn [mbind outcome_bind].
  - destruct Hs as [Hsz ->]. cbn [mbind outcome_bind bf_with]. unfold bf_with. cbn [bit_size n_hash].
    assert (Hp1 : points_to (with_words h q (data b1)) p q b1).
    { split; cbn; [rewrite Hsz; apply Hp|by rewrite lookup_insert_eq]. }
    specialize (IH (i + 1) (with_words h q (data b1)) p q b1 sz nh elem Hp1).
    destruct (bf_add_loop n (i + 1) (mk_bf (Some b1) sz nh) elem) as [bf'|f]; [|done].
    destruct IH as (b' & -> & Hsz' & ->). exists b'. split_and!; [done|congruence|]. unfold with_words. cbn. by rewrite insert_insert_eq.
  - done.
  - by rewrite Hs.
Qed.

Lemma destroy_points h p q b : points_to h p q b ->
  jrtc_router_bitmap_destroy h (Some p) = Ret (mk_bm_heap (delete p (structs h)) (delete q (words h))).
Proof.
  intros [E1 E2]. unfold jrtc_router_bitmap_destroy, deref. rewrite E1. cbn [mbind outcome_bind]. unfold free_words. rewrite E2.
  cbn [mbind outcome_bind]. unfold free_struct. cbn [structs]. by rewrite E1.
Qed.

(** The addresses [malloc] returns are not in use. *)
Definition malloc_ok (m : option nat * option nat) (h : bm_heap) : Prop :=
  (forall p, m.1 = Some p -> structs h !! p = None) /\ (forall q, m.2 = Some q -> words h !! q = None).

(** Both compute the same, and the heap is what it was. *)
Lemma get_hash_same m name h : malloc_ok m h ->
  get_hash m name h =
    (v ← jrtc_router_get_hash (bool_decide (is_Some m.1), bool_decide (is_Some m.2)) name; Ret (v, h)).
Proof.
  intros [H1 H2]. unfold get_hash, bf_init, bitmap_create, jrtc_router_get_hash, jrtc_router_bf_init, jrtc_router_bitmap_create.
  destruct h as [hs hw]. destruct m as [[p|] mq]; cbn [fst snd] in *; [|done]. specialize (H1 p eq_refl).
  rewrite (bool_decide_true (is_Some (Some p))) by done. destruct mq as [q|].
  - specialize (H2 q eq_refl). rewrite (bool_decide_true (is_Some (Some q))) by done. cbn [mbind outcome_bind structs words].
    set (b0 := mk_bitmap (u32 JRTC_ROUTER_HASH_NUMBER_BITS) (replicate (Z.to_nat (nwords (u32 JRTC_ROUTER_HASH_NUMBER_BITS))) 0)).
    set (h0 := mk_bm_heap _ _).
    assert (Hp : points_to h0 p q b0) by (split; cbn; by rewrite lookup_insert_eq).
    unfold jrtc_router_bf_add. cbn [bp_n_hash n_hash].
    pose proof (add_loop_points (Z.to_nat JRTC_ROUTER_NUM_HASH_FUNCTIONS) 0 h0 p q b0 JRTC_ROUTER_HASH_NUMBER_BITS
      JRTC_ROUTER_NUM_HASH_FUNCTIONS (bytes_of_string name) Hp) as Ha.
    destruct (bf_add_loop _ _ _ _) as [bf'|f]; [|by rewrite Ha]. destruct Ha as (b1 & -> & Hsz & ->). cbn [mbind outcome_bind].
    assert (Hp1 : points_to (with_words h0 q (data b1)) p q b1).
    { split; cbn; [rewrite Hsz; apply Hp|by rewrite lookup_insert_eq]. }
    unfold bf_extract_bits, jrtc_router_bf_extract_bits. cbn [bp_bit_size bit_size bp_bitmap bf_bitmap].
    destruct ((64 <? _) || _); cbn [mbind outcome_bind].
    + cbn [jrtc_router_bf_destroy bp_bitmap]. rewrite (destroy_points _ p q b1 Hp1). cbn. rewrite insert_insert_eq.
      by rewrite !delete_insert_id.
    + unfold deref at 1. rewrite (proj1 Hp1). cbn [mbind outcome_bind]. rewrite (take_loop_points _ p q b1 Hp1).
      unfold jrtc_router_bitmap_init_iterator. destruct (extract_loop _ _ _ _ _) as [v|]; [|done]. cbn [mbind outcome_bind].
      cbn [jrtc_router_bf_destroy bp_bitmap]. rewrite (destroy_points _ p q b1 Hp1). cbn. rewrite insert_insert_eq.
      by rewrite !delete_insert_id.
  - rewrite (bool_decide_false (is_Some None)) by (by intros []). cbn [mbind outcome_bind]. unfold free_struct. cbn [structs words].
    rewrite lookup_insert_eq. cbn. by rewrite delete_insert_id.
Qed.

(** C28: hashing a name on the heap: whichever of its allocations fail, the
    function returns, with the value that the Bloom filter as a value gives, and
    the heap is what it was before: everything allocated is freed, exactly once
    and not used afterwards. The value is 0 when an allocation failed, and
    otherwise has the bits that the 38 hashes of the name hit. *)
Theorem get_hash_frees m name h : malloc_ok m h ->
  exists v, get_hash m name h = Ret (v, h) /\
    jrtc_router_get_hash (bool_decide (is_Some m.1), bool_decide (is_Some m.2)) name = Ret v /\
    (if bool_decide (is_Some m.1 /\ is_Some m.2) then forall k, 0 <= k -> Z.testbit v k = hits 54 (bytes_of_string name) 0 38 k
     else v = 0).
Proof.
  intros Hm. rewrite (get_hash_same m name h Hm). destruct m as [[p|] [q|]].
  - destruct (get_hash_facts name) as (v & E & Hv & _). exists v. cbn [fst snd].
    rewrite !bool_decide_true by eauto. by rewrite E.
  - by exists 0.
  - by exists 0.
  - by exists 0.
Qed.

Lemma get_hash_frees_witness :
  (exists v, get_hash (Some 1%nat, Some 2%nat) "map1" (mk_bm_heap ∅ ∅) = Ret (v, mk_bm_heap ∅ ∅) /\
     jrtc_router_get_hash (true, true) "map1" = Ret v) /\
  get_hash (Some 1%nat, None) "map1" (mk_bm_heap ∅ ∅) = Ret (0, mk_bm_heap ∅ ∅).
Proof.
  split.
  - destruct (get_hash_frees (Some 1%nat, Some 2%nat) "map1" (mk_bm_heap ∅ ∅)) as (v & E & E' & _).
    + by split; intros x _; apply lookup_empty.
    + exists v. split; [exact E|exact E'].
  - destruct (get_hash_frees (Some 1%nat, None) "map1" (mk_bm_heap ∅ ∅)) as (v & E & _ & Hv).
    + by split; intros x _; apply lookup_empty.
    + cbn in Hv. subst v. exact E.
Defined.
