(* ===== verification/RouterLookup.v ===== *)
(** * Ring sizes and wildcard lookups

    The arithmetic the router relies on: the rounding macro, and the sixteen
    masked ids under which a message's stream is looked up. *)
From S2P Require Import Prelude StreamId StreamIdFacts StreamIdSpec Router.

(** ** round_up_pow_of_two *)

(** Bit [i] of [w] says whether [v] has a bit among the [n] from [i] on. *)
Definition smeared (n v w : Z) : Prop :=
  0 <= w /\ forall i, 0 <= i ->
    Z.testbit w i = true <-> exists j, 0 <= j < n /\ Z.testbit v (i + j) = true.

Lemma smeared_1 v : 0 <= v -> smeared 1 v v.
Proof.
  intros Hv. split; [done|]. intros i Hi. split.
  - intros H. exists 0. rewrite Z.add_0_r. split; [lia|done].
  - intros (j & Hj & H). replace (i + j) with i in H by lia. done.
Qed.

Lemma smeared_double n v w : 0 < n -> smeared n v w -> smeared (2 * n) v (w ||| (w >> n)).
Proof.
  intros Hn [Hw H]. split; [apply Z.lor_nonneg; rewrite Z.shiftr_nonneg; lia|].
  intros i Hi. rewrite Z.lor_spec, Z.shiftr_spec, orb_true_iff by done.
  rewrite (H i Hi), (H (i + n) ltac:(lia)). split.
  - intros [(j & Hj & E)|(j & Hj & E)]; [exists j|exists (n + j)]; (split; [lia|]).
    + done.
    + by rewrite Z.add_assoc.
  - intros (j & Hj & E). destruct (Z.lt_ge_cases j n); [left; exists j|right; exists (j - n)];
      (split; [lia|]); [done|]. by replace (i + n + (j - n)) with (i + j) by lia.
Qed.

Lemma smeared_ones n v w : smeared n v w -> 0 < v < 2 ^ n -> w = Z.ones (Z.log2 v + 1).
Proof.
  intros [Hw H] Hv. apply Z.bits_inj'. intros i Hi.
  pose proof (Z.log2_nonneg v). rewrite testbit_ones by lia.
  destruct (Z.lt_ge_cases n 0). { rewrite Z.pow_neg_r in Hv by done. lia. }
  assert (Z.log2 v < n) by (apply Z.log2_lt_pow2; lia).
  apply eq_bool_prop_intro. rewrite !Is_true_true, (H i Hi), Z.ltb_lt. split.
  - intros (j & Hj & E). apply Z.nle_gt. intros Hle.
    rewrite Z.bits_above_log2 in E by lia. discriminate.
  - intros Hlt. exists (Z.log2 v - i). split; [lia|].
    replace (i + (Z.log2 v - i)) with (Z.log2 v) by lia. apply Z.bit_log2. lia.
Qed.

Lemma round_up_facts x : 1 <= x <= 2 ^ 31 ->
  exists k, 0 <= k /\ round_up_pow_of_two x = 2 ^ k /\ x <= 2 ^ k /\
    forall j, 0 <= j -> x <= 2 ^ j -> 2 ^ k <= 2 ^ j.
Proof.
  intros Hx. unfold round_up_pow_of_two.
  rewrite (wrap_small 32 x), (wrap_small 32 (x - 1)) by lia.
  destruct (Z.eq_dec x 1) as [->|Hne].
  { exists 0. split_and!; vm_compute; congruence. }
  set (w := x - 1). assert (Hw : 0 < w < 2 ^ 31) by lia.
  assert (E : smeared 32 w
    (let v := w ||| (w >> 1) in let v := v ||| (v >> 2) in let v := v ||| (v >> 4) in
     let v := v ||| (v >> 8) in v ||| (v >> 16))).
  { cbv zeta. apply (smeared_double 16); [lia|]. apply (smeared_double 8); [lia|].
    apply (smeared_double 4); [lia|]. apply (smeared_double 2); [lia|].
    apply (smeared_double 1); [lia|]. apply smeared_1. lia. }
  cbv zeta in E. rewrite (smeared_ones 32 w _ E) by lia.
  assert (Hl : Z.log2 w < 31) by (apply Z.log2_lt_pow2; lia).
  pose proof (Z.log2_nonneg w). pose proof (Z.log2_spec w ltac:(lia)) as [Hlo Hhi].
  assert (Hp : 2 ^ (Z.log2 w + 1) <= 2 ^ 31) by (apply Z.pow_le_mono_r; lia).
  rewrite Z.ones_equiv. exists (Z.log2 w + 1). rewrite <- Z.add_1_r in Hhi.
  split_and!; [lia| |lia|].
  - replace (Z.pred (2 ^ (Z.log2 w + 1)) + 1) with (2 ^ (Z.log2 w + 1)) by lia.
    apply wrap_small. lia.
  - intros j Hj Hxj. apply Z.pow_le_mono_r; [lia|].
    assert (Z.log2 w < j) by (apply Z.log2_lt_pow2; lia). lia.
Qed.

(** For every argument from 1 to 2^31 the macro returns the least power
    of two that is not smaller. *)
Theorem round_up_pow_of_two_least x : 1 <= x <= 2 ^ 31 ->
  exists k, 0 <= k /\ round_up_pow_of_two x = 2 ^ k /\ x <= 2 ^ k /\
    forall j, 0 <= j -> x <= 2 ^ j -> 2 ^ k <= 2 ^ j.
Proof. apply round_up_facts. Qed.

Lemma round_up_pow_of_two_least_witness : exists k, round_up_pow_of_two 1001 = 2 ^ k /\ 1001 <= 2 ^ k.
Proof.
  destruct (round_up_pow_of_two_least 1001 ltac:(lia)) as (k & _ & E & H & _). eauto.
Defined.

(** ** Wildcards *)

(** [g] is a request for the stream with fields [f]: each field other than the
    version is the same or the wildcard. *)
Definition generalises (g f : jrtc_router_stream_id_int) : Prop :=
  ver g = ver f /\
  (fwd_dst g = fwd_dst f \/ fwd_dst g = JRTC_ROUTER_DEST_ANY) /\
  (device_id g = device_id f \/ device_id g = JRTC_ROUTER_DEVICE_ID_ANY) /\
  (stream_path g = stream_path f \/ stream_path g = JRTC_ROUTER_STREAM_PATH_ANY) /\
  (stream_name g = stream_name f \/ stream_name g = JRTC_ROUTER_STREAM_NAME_ANY).

Section Lookups.
Context {cs : CharSign}.

Lemma apply_mask_decode sid m : stream_id_wf sid ->
  stream_id_wf (apply_mask sid m) /\
  decode (apply_mask sid m) =
  mk_sid_int (ver (decode sid)) (fwd_dst (decode sid) ||| wrap 7 (fwd_dst m))
    (device_id (decode sid) ||| wrap 7 (device_id m))
    (stream_path (decode sid) ||| wrap 54 (stream_path m))
    (stream_name (decode sid) ||| wrap 54 (stream_name m)).
Proof.
  intros W. unfold apply_mask.
  destruct (apply_wf sid (fwd_dst m) W) as (W1&_).
  destruct (apply_wf _ (device_id m) W1) as (_&W2&_).
  destruct (apply_wf _ (stream_path m) W2) as (_&_&W3&_).
  destruct (apply_wf _ (stream_name m) W3) as (_&_&_&W4). cbn [id] in *. split; [exact W4|].
  rewrite (apply_stream_name_decode _ _ W3), (apply_stream_path_decode _ _ W2),
    (apply_device_id_decode _ _ W1), (apply_fwd_dst_decode _ _ W).
  reflexivity.
Qed.

Lemma lor_wildcard w x (b : bool) : 0 <= w -> 0 <= x < 2 ^ w ->
  x ||| wrap w (if b then Z.ones w else 0) = if b then Z.ones w else x.
Proof.
  intros Hw Hx. destruct b; [|by rewrite (wrap_small w 0), Z.lor_0_r by lia].
  rewrite wrap_small by (rewrite Z.ones_equiv; lia).
  apply Z.bits_inj'. intros i Hi. rewrite Z.lor_spec, testbit_ones by done.
  destruct (Z.ltb_spec i w); [by rewrite orb_true_r|]. by rewrite (testbit_high w).
Qed.

Lemma apply_mask_fields sid f d p n : stream_id_wf sid ->
  decode (apply_mask sid (mask f d p n)) =
  mk_sid_int (ver (decode sid))
    (if f then JRTC_ROUTER_DEST_ANY else fwd_dst (decode sid))
    (if d then JRTC_ROUTER_DEVICE_ID_ANY else device_id (decode sid))
    (if p then JRTC_ROUTER_STREAM_PATH_ANY else stream_path (decode sid))
    (if n then JRTC_ROUTER_STREAM_NAME_ANY else stream_name (decode sid)).
Proof.
  intros W. destruct (apply_mask_decode sid (mask f d p n) W) as [_ ->].
  destruct (decode_range sid) as (_&?&?&?&?). cbn [mask fwd_dst device_id stream_path stream_name].
  f_equal; apply lor_wildcard; done || lia.
Qed.

Lemma mask_in f d p n : mask f d p n ∈ lookup_mask.
Proof. apply list_elem_of_In. destruct f, d, p, n; cbn; tauto. Qed.

Lemma lookup_mask_inv m : m ∈ lookup_mask -> exists f d p n, m = mask f d p n.
Proof.
  intros H. apply list_elem_of_In in H. cbn in H. destruct_or! H; subst m; eauto.
Qed.

Lemma lookups_facts sid r : stream_id_wf sid ->
  r ∈ (apply_mask sid <$> lookup_mask) <->
  stream_id_wf r /\ generalises (decode r) (decode sid).
Proof.
  intros W. rewrite list_elem_of_fmap. split.
  - intros (m & -> & (f & d & p & n & ->)%lookup_mask_inv).
    split; [by apply apply_mask_decode|]. rewrite apply_mask_fields by done.
    unfold generalises. cbn. destruct f, d, p, n; tauto.
  - intros [Wr (Hv & Hf & Hd & Hp & Hn)].
    set (m := mask (bool_decide (fwd_dst (decode r) = JRTC_ROUTER_DEST_ANY))
                   (bool_decide (device_id (decode r) = JRTC_ROUTER_DEVICE_ID_ANY))
                   (bool_decide (stream_path (decode r) = JRTC_ROUTER_STREAM_PATH_ANY))
                   (bool_decide (stream_name (decode r) = JRTC_ROUTER_STREAM_NAME_ANY))).
    exists m. split; [|apply mask_in].
    apply decode_inj; [done|by apply apply_mask_decode|]. unfold m. rewrite apply_mask_fields by done.
    destruct (decode r) as [v1 f1 d1 p1 n1]. cbn in *.
    f_equal; [done|..]; case_bool_decide; intuition congruence.
Qed.

(** C18: the sixteen lookups of a message try exactly the requests that
    describe its stream, each field given or the wildcard. *)
Theorem lookups_are_generalisations sid r : stream_id_wf sid ->
  r ∈ (apply_mask sid <$> lookup_mask) <->
  stream_id_wf r /\ generalises (decode r) (decode sid).
Proof. apply lookups_facts. Qed.

(** A request under which a message is looked up is matched by the
    message's stream id in the sense of [jrtc_router_stream_id_matches_req]. *)
Theorem lookups_match sid r : stream_id_wf sid -> stream_id_wf r ->
  generalises (decode r) (decode sid) -> jrtc_router_stream_id_matches_req sid r = true.
Proof.
  intros W Wr (Hv & Hf & Hd & Hp & Hn). rewrite matches_fields by done. unfold fields_match.
  destruct (decode_range sid) as (_&?&?&?&?). rewrite Hv, subset_refl.
  assert (Hs : forall w x y, 0 <= x < 2 ^ w -> y = x \/ y = Z.ones w -> subset x y = true).
  { intros w x y Hx [->| ->]; [apply subset_refl|by apply subset_ones]. }
  rewrite (Hs 7 (fwd_dst (decode sid))), (Hs 7 (device_id (decode sid))),
    (Hs 54 (stream_path (decode sid))), (Hs 54 (stream_name (decode sid))); done.
Qed.
End Lookups.

Definition example_req : jrtc_router_stream_id :=
  mk_stream_id [0x00;0x17;0xfe;0x30;0x97;0xb1;0x45;0x4b;0xfc;0xbf;0xff;0xff;0xff;0xff;0xff;0xff].

Lemma example_req_wf : stream_id_wf example_req.
Proof. by apply (bool_decide_unpack _); vm_compute. Defined.

Lemma example_req_generalises : generalises (decode example_req) (decode example_sid).
Proof. vm_compute. split_and!; try (left; reflexivity); try (right; reflexivity); reflexivity. Defined.

Lemma lookups_are_generalisations_witness :
  example_req ∈ (@apply_mask true example_sid <$> lookup_mask).
Proof.
  apply (@lookups_are_generalisations true example_sid example_req example_sid_wf).
  split; [exact example_req_wf|exact example_req_generalises].
Defined.

Lemma lookups_match_witness : jrtc_router_stream_id_matches_req example_sid example_req = true.
Proof.
  exact (lookups_match example_sid example_req example_sid_wf example_req_wf example_req_generalises).
Defined.
