(* ===== verification/RouterInv.v ===== *)
(** * Router invariant, applications and requests

    The well-formedness of the router state, that every operation on
    applications and requests preserves it, and what each does to the set of
    registered applications and to the set of subscriptions. *)
From S2P Require Import Prelude StreamId Ext Router RouterLookup.

(** Follows a call through its branches to its returns. *)
Ltac open_calls :=
  repeat (intros; simplify_eq/=; try done; case_match || destruct (deref _ _)); intros; by simplify_eq/=.

Section Inv.
Context {cs : CharSign}.
Context {B It T C R M S : Type}.
Context `{HB : CkBitmap B It} `{HT : CkHt T nat} `{HC : CkPtrHt C} `{HR : CkRing R} `{HM : Mempool M} `{HS : JbpfIo S}.
Context `{LB : !CkBitmapLaws B It} `{LT : !CkHtLaws T nat} `{LC : !CkPtrHtLaws C} `{LR : !CkRingLaws R} `{LM : !MempoolLaws M}.

Abbreviation router := (jrtc_router_ctx B T C R M).
Abbreviation dapp := (dapp_router_ctx C R M).
Abbreviation entry := (jrtc_router_req_entry B).

(** The queue of an application: what its ring points to. *)
Definition queue (d : dapp) : list jrtc_router_data_entry :=
  omap (λ b, pool_mem d !! b) (ck_ring_list (ring d)).

(** The pool elements in use are those in the ring, each holds an entry, and
    the ring has room for all the pool can hand out. *)
Definition dapp_wf (d : dapp) : Prop :=
  Permutation (pool_used (data_entry_pool d)) (ck_ring_list (ring d)) /\
  (forall b, b ∈ ck_ring_list (ring d) -> is_Some (pool_mem d !! b)) /\
  0 <= pool_cap (data_entry_pool d) <= ck_ring_cap (ring d).

(** The channels in the two tables of the application at address [a]. *)
Definition channels_of (d : dapp) : list nat :=
  ptr_ht_values (app_out_channel_list d) ++ ptr_ht_values (app_in_channel_list d).

(** They are live, distinct, and belong to this application. *)
Definition channels_wf (ch : gmap nat dapp_channel_ctx) (a : nat) (d : dapp) : Prop :=
  NoDup (channels_of d) /\
  forall c, c ∈ channels_of d -> exists x, ch !! c = Some x /\ ch_app_ctx x = a.

Record router_wf (r : router) : Prop := {
  wf_ctx_len : length (app_ctx r) = JRTC_ROUTER_MAX_NUM_APPS;
  wf_app_bits : ck_bitmap_bits (app_bitmap r) = JRTC_ROUTER_MAX_NUM_APPS;
  wf_lookup_bits : ck_bitmap_bits (lookup_result r) = JRTC_ROUTER_MAX_NUM_APPS;
  wf_req : forall k p, ck_ht_get_spmc (reqs r) k = Some p ->
    exists e, req_entries r !! p = Some e /\ id (re_stream_id e) = k /\
      ck_bitmap_bits (re_bitmap e) = JRTC_ROUTER_MAX_NUM_APPS /\
      exists i, (i < JRTC_ROUTER_MAX_NUM_APPS)%nat /\ ck_bitmap_test (re_bitmap e) i = true;
  wf_app : forall i p, app_ctx r !! i = Some (Some p) ->
    ck_bitmap_test (app_bitmap r) i = true /\
    exists d, dapps r !! p = Some d /\ app_id d = i /\ dapp_wf d;
  wf_dapp : forall p d, dapps r !! p = Some d -> app_ctx r !! app_id d = Some (Some p);
  wf_taken : forall i, (i < JRTC_ROUTER_MAX_NUM_APPS)%nat -> ck_bitmap_test (app_bitmap r) i = true ->
    exists p, app_ctx r !! i = Some (Some p);
  wf_channels : forall a d, dapps r !! a = Some d -> channels_wf (channels r) a d
}.

(** The bitmap of the request for the key [k]. *)
Definition req_bitmap (r : router) (k : list Z) : option B :=
  match ck_ht_get_spmc (reqs r) k with
  | Some p => re_bitmap <$> req_entries r !! p
  | None => None
  end.

(** Application [i] has asked for the id [s]. *)
Definition subscribed (r : router) (i : nat) (s : jrtc_router_stream_id) : bool :=
  bool_decide (i < JRTC_ROUTER_MAX_NUM_APPS)%nat &&
  match req_bitmap r (id s) with Some b => ck_bitmap_test b i | None => false end.

Lemma wf_app_id r p d : router_wf r -> dapps r !! p = Some d -> (app_id d < JRTC_ROUTER_MAX_NUM_APPS)%nat.
Proof.
  intros W H. apply (wf_dapp _ W) in H. apply lookup_lt_Some in H. by rewrite <- (wf_ctx_len _ W).
Qed.

Lemma deref_Some {A} (m : gmap nat A) p x : m !! p = Some x -> deref m p = Ret x.
Proof. unfold deref. by intros ->. Qed.

Lemma id_inj s s' : id s = id s' -> s = s'.
Proof. destruct s, s'. cbn. by intros ->. Qed.

(** Two live requests are different entries. *)
Lemma req_entry_inj r k k' p : router_wf r ->
  ck_ht_get_spmc (reqs r) k = Some p -> ck_ht_get_spmc (reqs r) k' = Some p -> k = k'.
Proof.
  intros W H H'. destruct (wf_req _ W _ _ H) as (e & E & <- & _).
  destruct (wf_req _ W _ _ H') as (e' & E' & <- & _). congruence.
Qed.

Lemma fresh_unused r p k : router_wf r -> req_entries r !! p = None ->
  ck_ht_get_spmc (reqs r) k <> Some p.
Proof. intros W H Hk. destruct (wf_req _ W _ _ Hk) as (e & E & _). congruence. Qed.

(** ** Requests

    The table after a change that concerns the key [k] only: [t] and [es] hold
    [v] under [k], and what they held under the other keys. *)
Definition req_upd (r : router) (t : T) (es : gmap nat entry) (k : list Z)
    (v : option (nat * entry)) : Prop :=
  ck_ht_get_spmc t k = option_map fst v /\
  (forall p (e : entry), v = Some (p, e) -> es !! p = Some e) /\
  (forall k', k' <> k -> ck_ht_get_spmc t k' = ck_ht_get_spmc (reqs r) k') /\
  (forall k' p, k' <> k -> ck_ht_get_spmc (reqs r) k' = Some p -> es !! p = req_entries r !! p).

(** An entry the table may hold under [k]. *)
Definition req_ok (k : list Z) (e : entry) : Prop :=
  id (re_stream_id e) = k /\ ck_bitmap_bits (re_bitmap e) = JRTC_ROUTER_MAX_NUM_APPS /\
  exists i, (i < JRTC_ROUTER_MAX_NUM_APPS)%nat /\ ck_bitmap_test (re_bitmap e) i = true.

Lemma req_upd_wf r t es k v : router_wf r -> req_upd r t es k v ->
  (forall p e, v = Some (p, e) -> req_ok k e) -> router_wf (upd_reqs r t es).
Proof.
  intros [W1 W2 W3 W4 W5 W6 W7 W8] (H1 & H2 & H3 & H4) Hv. constructor; cbn; try done.
  intros k' q Hq. destruct (decide (k' = k)) as [Ek|Hne].
  - subst k'. rewrite H1 in Hq. destruct v as [[p e]|]; cbn in Hq; simplify_eq.
    exists e. split; [by apply H2|]. by apply (Hv q).
  - rewrite H3 in Hq by done. rewrite (H4 k' q) by done. by apply W4.
Qed.

Lemma req_upd_subscribed r t es k v i s : req_upd r t es k v ->
  subscribed (upd_reqs r t es) i s =
  if decide (id s = k)
  then bool_decide (i < JRTC_ROUTER_MAX_NUM_APPS)%nat &&
       match v with Some (_, e) => ck_bitmap_test (re_bitmap e) i | None => false end
  else subscribed r i s.
Proof.
  intros (H1 & H2 & H3 & H4). unfold subscribed, req_bitmap. cbn. destruct (decide (id s = k)) as [Ek|Hne].
  - rewrite Ek, H1. destruct v as [[p e]|]; cbn; [|done]. by rewrite (H2 p e).
  - rewrite H3 by done. destruct (ck_ht_get_spmc (reqs r) (id s)) as [q|] eqn:E; [|done].
    by rewrite (H4 (id s) q).
Qed.

(** Replacing the entry of a key, adding one, and removing one. *)
Lemma req_upd_replace r p k e : router_wf r -> ck_ht_get_spmc (reqs r) k = Some p ->
  req_upd r (reqs r) (<[p := e]> (req_entries r)) k (Some (p, e)).
Proof.
  intros W Hk. split_and!; [done| |done|].
  - intros ?? [= <- <-]. apply lookup_insert_eq.
  - intros k' q Hne Hq. rewrite lookup_insert_ne; [done|]. intros <-.
    by apply Hne, (req_entry_inj r _ _ p W).
Qed.

Lemma req_upd_add r p k e t : router_wf r -> req_entries r !! p = None ->
  ck_ht_set_spmc (reqs r) k p = (true, t) ->
  req_upd r t (<[p := e]> (req_entries r)) k (Some (p, e)).
Proof.
  intros W Hp Ht. pose proof (ck_ht_set_ok _ _ _ _ Ht) as Hg. split_and!.
  - by rewrite Hg, decide_True.
  - intros ?? [= <- <-]. apply lookup_insert_eq.
  - intros k' Hne. by rewrite Hg, decide_False.
  - intros k' q Hne Hq. rewrite lookup_insert_ne; [done|]. intros <-. by eapply fresh_unused.
Qed.

Lemma req_upd_remove r p k b t : router_wf r -> ck_ht_get_spmc (reqs r) k = Some p ->
  ck_ht_remove_spmc (reqs r) k = (b, t) -> req_upd r t (delete p (req_entries r)) k None.
Proof.
  intros W Hk Ht. pose proof (ck_ht_remove_spec _ _ _ _ Ht) as Hg. split_and!.
  - by rewrite Hg, decide_True.
  - done.
  - intros k' Hne. by rewrite Hg, decide_False.
  - intros k' q Hne Hq. rewrite lookup_delete_ne; [done|]. intros <-.
    by apply Hne, (req_entry_inj r _ _ p W).
Qed.

(** A new entry the table refused: the entry is leaked, the requests are the same. *)
Lemma req_upd_leak r p k e t : router_wf r -> req_entries r !! p = None ->
  ck_ht_get_spmc (reqs r) k = None -> ck_ht_set_spmc (reqs r) k p = (false, t) ->
  req_upd r t (<[p := e]> (req_entries r)) k None.
Proof.
  intros W Hp Hk Ht. pose proof (ck_ht_set_fail _ _ _ _ Ht) as Hg. split_and!.
  - by rewrite Hg, Hk.
  - done.
  - intros k' _. apply Hg.
  - intros k' q Hne Hq. rewrite lookup_insert_ne; [done|]. intros <-. by eapply fresh_unused.
Qed.

Definition request_env_fresh (r : router) (env : request_env) : Prop :=
  forall p, malloc_entry env = Some p -> req_entries r !! p = None.

Lemma subscribed_at r i s p e : ck_ht_get_spmc (reqs r) (id s) = Some p -> req_entries r !! p = Some e ->
  subscribed r i s = bool_decide (i < JRTC_ROUTER_MAX_NUM_APPS)%nat && ck_bitmap_test (re_bitmap e) i.
Proof. intros H H'. unfold subscribed, req_bitmap. by rewrite H, H'. Qed.

Lemma subscribed_absent r i s : ck_ht_get_spmc (reqs r) (id s) = None -> subscribed r i s = false.
Proof. intros H. unfold subscribed, req_bitmap. by rewrite H, andb_false_r. Qed.

(** The subscriptions of [r'] are those of [r] but for application [a] and id [s]. *)
Definition subscriptions_are (r r' : router) (a : nat) (s : jrtc_router_stream_id) (v : bool) : Prop :=
  forall i s', subscribed r' i s' = if decide (i = a /\ s' = s) then v else subscribed r i s'.

Lemma req_upd_subscriptions r t es s v a x : req_upd r t es (id s) v ->
  (forall i, (i < JRTC_ROUTER_MAX_NUM_APPS)%nat ->
     match v with Some (_, e) => ck_bitmap_test (re_bitmap e) i | None => false end =
     if decide (i = a) then x else subscribed r i s) ->
  (a < JRTC_ROUTER_MAX_NUM_APPS)%nat -> subscriptions_are r (upd_reqs r t es) a s x.
Proof.
  intros Hu Hv Ha i s'. rewrite (req_upd_subscribed _ _ _ _ _ _ _ Hu).
  destruct (decide (id s' = id s)) as [->%id_inj|Hne].
  - destruct (decide (i < JRTC_ROUTER_MAX_NUM_APPS)%nat) as [Hi|Hi].
    + rewrite bool_decide_true, Hv by done. cbn. by repeat case_decide; try tauto.
    + rewrite bool_decide_false by done. rewrite decide_False by (intros [-> _]; done).
      unfold subscribed. by rewrite bool_decide_false.
  - rewrite decide_False; [done|]. intros [_ ->]. done.
Qed.

(** A request of a well-formed table has a subscriber. *)
Lemma absent_of_unsubscribed r s : router_wf r -> (forall i, subscribed r i s = false) ->
  ck_ht_get_spmc (reqs r) (id s) = None.
Proof.
  intros W H. destruct (ck_ht_get_spmc (reqs r) (id s)) as [p|] eqn:E; [|done].
  destruct (wf_req _ W _ _ E) as (e & Ee & _ & _ & i & Hi & Ht). specialize (H i).
  by rewrite (subscribed_at r i s p e), Ht, bool_decide_true in H.
Qed.

Lemma not_empty_bit b n : (n <= ck_bitmap_bits b)%nat -> ck_bitmap_empty b n = false ->
  exists i, (i < n)%nat /\ ck_bitmap_test b i = true.
Proof.
  intros Hn He. destruct (list_find (λ i, ck_bitmap_test b i = true) (seq 0 n)) as [[k i]|] eqn:E.
  - apply list_find_Some in E as (H1 & H2 & _). apply lookup_seq in H1. exists i. split; [lia|done].
  - apply list_find_None in E. rewrite Forall_forall in E.
    assert (ck_bitmap_empty b n = true) as Ht; [|congruence].
    apply ck_empty_spec; [done|]. intros i Hi. apply not_true_is_false, E, elem_of_seq. lia.
Qed.

(** The three ways in which a request can end. *)
Lemma register_present r a p s e : router_wf r -> (a < JRTC_ROUTER_MAX_NUM_APPS)%nat ->
  ck_ht_get_spmc (reqs r) (id s) = Some p -> req_entries r !! p = Some e ->
  let r' := upd_reqs r (reqs r) (<[p := mk_req_entry (re_stream_id e) (ck_bitmap_set (re_bitmap e) a)]>
              (req_entries r)) in
  router_wf r' /\ subscriptions_are r r' a s true.
Proof.
  intros W Ha Hg He r'. destruct (wf_req _ W _ _ Hg) as (e0 & E0 & Hk & Hb & _). simplify_eq.
  assert (Ht : forall i, ck_bitmap_test (ck_bitmap_set (re_bitmap e) a) i =
                 bool_decide (i = a) || ck_bitmap_test (re_bitmap e) i)
    by (intros; apply ck_set_test; by rewrite Hb).
  pose proof (req_upd_replace r p (id s) (mk_req_entry (re_stream_id e) (ck_bitmap_set (re_bitmap e) a)) W Hg) as Hu.
  split.
  - apply (req_upd_wf _ _ _ _ _ W Hu). intros ?? [= <- <-]. split_and!; cbn; [done|by rewrite ck_set_bits|].
    exists a. by rewrite Ht, bool_decide_true.
  - apply (req_upd_subscriptions _ _ _ _ _ _ _ Hu); [|done]. intros i Hi. cbn.
    rewrite Ht, (subscribed_at r i s p e), (bool_decide_true (i < _)%nat) by done. by case_decide; case_bool_decide.
Qed.

Lemma register_absent r a p s t : router_wf r -> (a < JRTC_ROUTER_MAX_NUM_APPS)%nat ->
  ck_ht_get_spmc (reqs r) (id s) = None -> req_entries r !! p = None ->
  ck_ht_set_spmc (reqs r) (id s) p = (true, t) ->
  let bm := ck_bitmap_set (ck_bitmap_init JRTC_ROUTER_MAX_NUM_APPS false) a in
  let r' := upd_reqs r t (<[p := mk_req_entry s bm]> (req_entries r)) in
  router_wf r' /\ subscriptions_are r r' a s true.
Proof.
  intros W Ha Hg Hp Et bm r'.
  assert (Ht : forall i, (i < JRTC_ROUTER_MAX_NUM_APPS)%nat -> ck_bitmap_test bm i = bool_decide (i = a)).
  { intros i Hi. unfold bm. rewrite ck_set_test by (by rewrite ck_init_bits).
    by rewrite ck_init_test, orb_false_r. }
  pose proof (req_upd_add r p (id s) (mk_req_entry s bm) t W Hp Et) as Hu. split.
  - apply (req_upd_wf _ _ _ _ _ W Hu). intros ?? [= <- <-]. split_and!; cbn; [done| |].
    + unfold bm. by rewrite ck_set_bits, ck_init_bits.
    + exists a. by rewrite Ht, bool_decide_true.
  - apply (req_upd_subscriptions _ _ _ _ _ _ _ Hu); [|done]. intros i Hi. cbn.
    rewrite Ht, subscribed_absent by done. by case_decide; case_bool_decide.
Qed.

Lemma register_refused r p s e t : router_wf r ->
  ck_ht_get_spmc (reqs r) (id s) = None -> req_entries r !! p = None ->
  ck_ht_set_spmc (reqs r) (id s) p = (false, t) ->
  let r' := upd_reqs r t (<[p := e]> (req_entries r)) in
  router_wf r' /\ forall i s', subscribed r' i s' = subscribed r i s'.
Proof.
  intros W Hg Hp Et r'. pose proof (req_upd_leak r p (id s) e t W Hp Hg Et) as Hu. split.
  - by apply (req_upd_wf _ _ _ _ _ W Hu).
  - intros i s'. unfold r'. rewrite (req_upd_subscribed _ _ _ _ _ _ _ Hu), andb_false_r.
    case_decide as E; [|done]. by rewrite subscribed_absent by (by rewrite E).
Qed.

Lemma register_req_facts r env c d s : router_wf r -> request_env_fresh r env ->
  dapps r !! c = Some d ->
  exists r' res, jrtc_router_channel_register_stream_id_req r env (Some c) s = Ret (r', res) /\
    router_wf r' /\ dapps r' = dapps r /\ app_ctx r' = app_ctx r /\
    ((res = 1 /\ subscriptions_are r r' (app_id d) s true) \/
     (res = -1 /\ ck_ht_get_spmc (reqs r) (id s) = None /\
        forall i s', subscribed r' i s' = subscribed r i s')).
Proof.
  intros W Hf Hd. unfold jrtc_router_channel_register_stream_id_req.
  rewrite (deref_Some _ _ _ Hd). cbn [mbind outcome_bind].
  pose proof (wf_app_id _ _ _ W Hd) as Ha. rewrite decide_False by lia.
  destruct (ck_ht_get_spmc (reqs r) (id s)) as [p|] eqn:Eg.
  - destruct (wf_req _ W _ _ Eg) as (e & Ee & _). rewrite (deref_Some _ _ _ Ee).
    destruct (register_present r (app_id d) p s e W Ha Eg Ee). eexists _, _. split; [reflexivity|]. eauto 6.
  - destruct (malloc_entry env) as [p|] eqn:Em, (malloc_bitmap env); try (exists r, (-1); solve [eauto 12]).
    destruct (ck_ht_set_spmc (reqs r) (id s) p) as [[] t] eqn:Et; eexists _, _; (split; [reflexivity|]).
    + destruct (register_absent r (app_id d) p s t W Ha Eg (Hf p Em) Et). eauto 6.
    + destruct (register_refused r p s (mk_req_entry s
        (ck_bitmap_set (ck_bitmap_init JRTC_ROUTER_MAX_NUM_APPS false) (app_id d))) t W Eg (Hf p Em) Et).
      eauto 8.
Qed.

(** C27: asking for a stream id keeps the router well formed; when it returns
    1 the application, and nobody else, has gained this one subscription, and
    otherwise it returns -1 and no subscription has changed. It cannot fail on
    an id that is already in the table. *)
Theorem register_req_spec r env c d s : router_wf r -> request_env_fresh r env ->
  dapps r !! c = Some d ->
  exists r' res, jrtc_router_channel_register_stream_id_req r env (Some c) s = Ret (r', res) /\
    router_wf r' /\ dapps r' = dapps r /\ app_ctx r' = app_ctx r /\
    ((res = 1 /\ subscriptions_are r r' (app_id d) s true) \/
     (res = -1 /\ ck_ht_get_spmc (reqs r) (id s) = None /\
        forall i s', subscribed r' i s' = subscribed r i s')).
Proof. apply register_req_facts. Qed.

Lemma deregister_present r a p s e : router_wf r -> (a < JRTC_ROUTER_MAX_NUM_APPS)%nat ->
  ck_ht_get_spmc (reqs r) (id s) = Some p -> req_entries r !! p = Some e ->
  ck_bitmap_bits (re_bitmap e) = JRTC_ROUTER_MAX_NUM_APPS -> id (re_stream_id e) = id s ->
  let bm := ck_bitmap_reset (re_bitmap e) a in
  ck_bitmap_empty bm JRTC_ROUTER_MAX_NUM_APPS = false ->
  let r' := upd_reqs r (reqs r) (<[p := mk_req_entry (re_stream_id e) bm]> (req_entries r)) in
  router_wf r' /\ subscriptions_are r r' a s false.
Proof.
  intros W Ha Hg He Hb Hk bm Hem r'.
  assert (Ht : forall i, ck_bitmap_test bm i = negb (bool_decide (i = a)) && ck_bitmap_test (re_bitmap e) i)
    by (intros; apply ck_reset_test; by rewrite Hb).
  assert (Hbm : ck_bitmap_bits bm = JRTC_ROUTER_MAX_NUM_APPS) by (unfold bm; by rewrite ck_reset_bits).
  pose proof (req_upd_replace r p (id s) (mk_req_entry (re_stream_id e) bm) W Hg) as Hu. split.
  - apply (req_upd_wf _ _ _ _ _ W Hu). intros ?? [= <- <-]. split_and!; cbn; [done|done|].
    apply not_empty_bit; [by rewrite Hbm|done].
  - apply (req_upd_subscriptions _ _ _ _ _ _ _ Hu); [|done]. intros i Hi. cbn.
    rewrite Ht, (subscribed_at r i s p e), (bool_decide_true (i < _)%nat) by done. by case_decide; case_bool_decide.
Qed.

Lemma deregister_last r a p s e b t : router_wf r -> (a < JRTC_ROUTER_MAX_NUM_APPS)%nat ->
  ck_ht_get_spmc (reqs r) (id s) = Some p -> req_entries r !! p = Some e ->
  ck_bitmap_bits (re_bitmap e) = JRTC_ROUTER_MAX_NUM_APPS ->
  ck_bitmap_empty (ck_bitmap_reset (re_bitmap e) a) JRTC_ROUTER_MAX_NUM_APPS = true ->
  ck_ht_remove_spmc (reqs r) (id s) = (b, t) ->
  let r' := upd_reqs r t (delete p (req_entries r)) in
  router_wf r' /\ subscriptions_are r r' a s false.
Proof.
  intros W Ha Hg He Hb Hem Et r'.
  pose proof (req_upd_remove r p (id s) b t W Hg Et) as Hu. split.
  - by apply (req_upd_wf _ _ _ _ _ W Hu).
  - apply (req_upd_subscriptions _ _ _ _ _ _ _ Hu); [|done]. intros i Hi.
    case_decide as E; [done|]. rewrite (subscribed_at r i s p e), bool_decide_true by done. cbn.
    rewrite ck_empty_spec in Hem by (by rewrite ck_reset_bits, Hb). specialize (Hem i Hi).
    rewrite ck_reset_test, bool_decide_false in Hem by (done || by rewrite Hb). done.
Qed.

Lemma deregister_req_facts r c d s : router_wf r -> dapps r !! c = Some d ->
  exists r', jrtc_router_channel_deregister_stream_id_req r (Some c) s = Ret r' /\
    router_wf r' /\ dapps r' = dapps r /\ app_ctx r' = app_ctx r /\
    subscriptions_are r r' (app_id d) s false /\
    ((forall i, subscribed r' i s = false) -> ck_ht_get_spmc (reqs r') (id s) = None).
Proof.
  intros W Hd. unfold jrtc_router_channel_deregister_stream_id_req.
  rewrite (deref_Some _ _ _ Hd). cbn [mbind outcome_bind].
  pose proof (wf_app_id _ _ _ W Hd) as Ha. rewrite decide_False by lia.
  destruct (ck_ht_get_spmc (reqs r) (id s)) as [p|] eqn:Eg.
  - destruct (wf_req _ W _ _ Eg) as (e & Ee & Ek & Eb & _). rewrite (deref_Some _ _ _ Ee).
    cbn [mbind outcome_bind].
    destruct (ck_bitmap_empty (ck_bitmap_reset (re_bitmap e) (app_id d)) _) eqn:Em.
    + destruct (ck_ht_remove_spmc (reqs r) (id s)) as [b t] eqn:Et.
      destruct (deregister_last r (app_id d) p s e b t W Ha Eg Ee Eb Em Et) as [W' S'].
      eexists. split_and!; [reflexivity|done..|]. intros Hn. by eapply absent_of_unsubscribed.
    + destruct (deregister_present r (app_id d) p s e W Ha Eg Ee Eb Ek Em) as [W' S'].
      eexists. split_and!; [reflexivity|done..|]. intros Hn. by eapply absent_of_unsubscribed.
  - exists r. split_and!; try done. intros i s'. case_decide as E; [|done]. destruct E as [-> ->].
    by apply subscribed_absent.
Qed.

(** Withdrawing a request keeps the router well formed and removes
    exactly this application's subscription to this id; a request nobody is
    left on disappears from the table. *)
Theorem deregister_req_spec r c d s : router_wf r -> dapps r !! c = Some d ->
  exists r', jrtc_router_channel_deregister_stream_id_req r (Some c) s = Ret r' /\
    router_wf r' /\ dapps r' = dapps r /\ app_ctx r' = app_ctx r /\
    subscriptions_are r r' (app_id d) s false /\
    ((forall i, subscribed r' i s = false) -> ck_ht_get_spmc (reqs r') (id s) = None).
Proof. apply deregister_req_facts. Qed.

End Inv.
