(* ===== verification/RouterApps.v ===== *)
(** * Application ids, registration and deregistration

    What reserving, registering and deregistering do to the router, on the
    successful and on the failing paths, and that they keep it well formed. *)
From S2P Require Import Prelude StreamId Ext Router RouterLookup RouterInv.

Section Apps.
Context {cs : CharSign}.
Context {B It T C R M S : Type}.
Context `{HB : CkBitmap B It} `{HT : CkHt T nat} `{HC : CkPtrHt C} `{HR : CkRing R} `{HM : Mempool M} `{HS : JbpfIo S}.
Context `{LB : !CkBitmapLaws B It} `{LT : !CkHtLaws T nat} `{LC : !CkPtrHtLaws C} `{LR : !CkRingLaws R} `{LM : !MempoolLaws M}.

Abbreviation router := (jrtc_router_ctx B T C R M).
Abbreviation dapp := (dapp_router_ctx C R M).

(** ** Reserving an id *)

(** [k] is the first clear bit of [b] from [i] on. *)
Definition first_clear (b : B) (i k : nat) : Prop :=
  (i <= k < ck_bitmap_bits b)%nat /\ ck_bitmap_test b k = false /\
  forall j, (i <= j < k)%nat -> ck_bitmap_test b j = true.

Lemma set_set_bit b i : (i < ck_bitmap_bits b)%nat -> ck_bitmap_test b i = true ->
  forall j, ck_bitmap_test (ck_bitmap_set b i) j = ck_bitmap_test b j.
Proof. intros Hi Ht j. rewrite ck_set_test by done. by case_bool_decide; subst. Qed.

Lemma reserve_loop_spec n b i : (i + n = ck_bitmap_bits b)%nat ->
  exists res b', reserve_loop n b i = (res, b') /\ ck_bitmap_bits b' = ck_bitmap_bits b /\
  ((res = -1 /\ (forall j, ck_bitmap_test b' j = ck_bitmap_test b j) /\
      forall j, (i <= j < i + n)%nat -> ck_bitmap_test b j = true) \/
   (exists k, res = Z.of_nat k /\ first_clear b i k /\
      forall j, ck_bitmap_test b' j = bool_decide (j = k) || ck_bitmap_test b j)).
Proof.
  revert b i. induction n as [|n IH]; intros b i Hn; cbn [reserve_loop].
  { exists (-1), b. split_and!; [done|done|]. left. split_and!; [done|done|lia]. }
  rewrite ck_bts_spec by lia. destruct (ck_bitmap_test b i) eqn:Ei.
  - pose proof (set_set_bit b i ltac:(lia) Ei) as Hs.
    destruct (IH (ck_bitmap_set b i) (i + 1)%nat) as (res & b' & E & Eb & H).
    { rewrite ck_set_bits. lia. }
    exists res, b'. rewrite Eb, ck_set_bits. split_and!; [done|done|].
    destruct H as [(-> & H1 & H2)|(k & -> & (H1 & H2 & H3) & H4)]; [left|right; exists k].
    + split_and!; [done|intros; by rewrite H1, Hs|]. intros j Hj.
      destruct (decide (j = i)) as [->|]; [done|]. rewrite <- Hs. apply H2. lia.
    + rewrite ck_set_bits in H1. rewrite Hs in H2. split_and!; [done|split_and!; [lia|lia|done|]|].
      * intros j Hj. destruct (decide (j = i)) as [->|]; [done|]. rewrite <- Hs. apply H3. lia.
      * intros j. by rewrite H4, Hs.
  - exists (Z.of_nat i), (ck_bitmap_set b i). rewrite ck_set_bits. split_and!; [done|done|].
    right. exists i. split_and!; [done|split_and!; [lia|lia|done|lia]|]. intros j. by apply ck_set_test; lia.
Qed.

(** Two states of the id bitmap that agree on every id. *)
Definition same_ids (b b' : B) : Prop :=
  ck_bitmap_bits b' = ck_bitmap_bits b /\
  forall i, (i < JRTC_ROUTER_MAX_NUM_APPS)%nat -> ck_bitmap_test b' i = ck_bitmap_test b i.

(** The least id no application holds. *)
Definition least_free_id (r : router) (i : nat) : Prop :=
  app_ctx r !! i = Some None /\
  forall j, (j < i)%nat -> exists p, app_ctx r !! j = Some (Some p).

Lemma free_slot r i : router_wf r -> (i < JRTC_ROUTER_MAX_NUM_APPS)%nat ->
  ck_bitmap_test (app_bitmap r) i = false -> app_ctx r !! i = Some None.
Proof.
  intros W Hi Ht. destruct (lookup_lt_is_Some_2 (app_ctx r) i) as [[p|] E]; [by rewrite (wf_ctx_len _ W)| |done].
  destruct (wf_app _ W _ _ E) as [? _]. congruence.
Qed.

Lemma first_clear_free r i : router_wf r -> first_clear (app_bitmap r) 0 i ->
  least_free_id r i /\ (i < JRTC_ROUTER_MAX_NUM_APPS)%nat.
Proof.
  intros W (Hi & Hf & Hj). rewrite (wf_app_bits _ W) in Hi. split; [|lia]. split.
  - apply (free_slot _ _ W); [lia|done].
  - intros j Hlt. apply (wf_taken _ W); [lia|]. apply Hj. lia.
Qed.

(** Setting the bit of a free id and clearing it again. *)
Lemma release_reserved (b b' : B) i : ck_bitmap_bits b = JRTC_ROUTER_MAX_NUM_APPS ->
  ck_bitmap_bits b' = ck_bitmap_bits b -> first_clear b 0 i ->
  (forall j, ck_bitmap_test b' j = bool_decide (j = i) || ck_bitmap_test b j) ->
  same_ids b (ck_bitmap_reset b' i).
Proof.
  intros Hb Hb' (Hi & Hf & _) Ht. split; [by rewrite ck_reset_bits|]. intros j Hj.
  rewrite ck_reset_test by lia. rewrite Ht. by case_bool_decide; subst.
Qed.

Lemma same_ids_wf r b : router_wf r -> same_ids (app_bitmap r) b ->
  router_wf (upd_apps r (app_ctx r) b (dapps r) (channels r)).
Proof.
  intros [W1 W2 W3 W4 W5 W6 W7 W8] [Hb Ht]. constructor; cbn; try done.
  - by rewrite Hb.
  - intros i p Hi. destruct (W5 i p Hi) as [H1 H2]. split; [|done]. rewrite Ht; [done|].
    apply lookup_lt_Some in Hi. by rewrite <- W1.
  - intros i Hi. rewrite Ht by done. by apply W7.
Qed.

(** Reserving an id returns the least one that is free and marks it
    taken, or -1 when all 128 are taken. *)
Theorem reserve_new_app_spec r : router_wf r ->
  let '(res, r') := _jrtc_router_reserve_new_app r in
  (res = -1 /\ same_ids (app_bitmap r) (app_bitmap r') /\
     forall j, (j < JRTC_ROUTER_MAX_NUM_APPS)%nat -> exists p, app_ctx r !! j = Some (Some p)) \/
  (exists i, res = Z.of_nat i /\ (i < JRTC_ROUTER_MAX_NUM_APPS)%nat /\ least_free_id r i /\
     forall j, ck_bitmap_test (app_bitmap r') j = bool_decide (j = i) || ck_bitmap_test (app_bitmap r) j).
Proof.
  intros W. unfold _jrtc_router_reserve_new_app. pose proof (wf_app_bits _ W) as Hb.
  destruct (reserve_loop_spec (ck_bitmap_bits (app_bitmap r)) (app_bitmap r) 0 eq_refl)
    as (res & b' & -> & Hb' & [(-> & H1 & H2)|(k & -> & H1 & H2)]); cbn.
  - left. split_and!; [done|by split; auto|]. intros j Hj. apply (wf_taken _ W); [done|].
    apply H2. lia.
  - right. exists k. destruct (first_clear_free _ _ W H1). eauto.
Qed.

(** ** Registration *)

(** What a registration may rely on: [calloc] returns an address not in use,
    the pool has [q] free elements, a new table is empty. *)
Record register_env_ok (r : router) (env : register_env C M) (q : Z) : Prop := {
  env_fresh : forall p, calloc_dapp env = Some p -> dapps r !! p = None;
  env_pool : forall m, init_mempool env = Some m -> pool_cap m = q /\ pool_used m = [];
  env_out : forall t, ht_init_out env = Some t -> ptr_ht_values t = [];
  env_in : forall t, ht_init_in env = Some t -> ptr_ht_values t = []
}.

Definition env_fails (env : register_env C M) : Prop :=
  calloc_dapp env = None \/ calloc_ring env = false \/ init_mempool env = None \/
  ht_init_out env = None \/ ht_init_in env = None.

Lemma new_dapp_wf (m : M) (out inp : C) q i : 0 <= q <= JRTC_ROUTER_MAX_APP_QUEUE_SIZE ->
  pool_cap m = q -> pool_used m = [] ->
  dapp_wf (mk_dapp (ck_ring_init (round_up_pow_of_two (q + 1))) (q + 1) m ∅ out inp i).
Proof.
  unfold JRTC_ROUTER_MAX_APP_QUEUE_SIZE. intros Hq Hc Hu.
  destruct (round_up_facts (q + 1)) as (k & Hk & E & Hle & _); [lia|].
  unfold dapp_wf. cbn. rewrite ck_ring_init_list, Hu, Hc, ck_ring_init_cap by lia.
  split_and!; [done| |lia|lia]. intros b Hb. by apply not_elem_of_nil in Hb.
Qed.

(** Adding the application [d] at the free address [p] under the free id. *)
Lemma add_app_wf r b p d : router_wf r -> ck_bitmap_bits b = JRTC_ROUTER_MAX_NUM_APPS ->
  (app_id d < JRTC_ROUTER_MAX_NUM_APPS)%nat -> app_ctx r !! app_id d = Some None ->
  (forall j, ck_bitmap_test b j = bool_decide (j = app_id d) || ck_bitmap_test (app_bitmap r) j) ->
  dapps r !! p = None -> dapp_wf d -> channels_of d = [] ->
  router_wf (upd_apps r (<[app_id d := Some p]> (app_ctx r)) b (<[p := d]> (dapps r)) (channels r)).
Proof.
  intros [W1 W2 W3 W4 W5 W6 W7 W8] Hb Hi Hs Ht Hp Hd Hc. constructor; cbn; try done.
  - by rewrite length_insert.
  - intros i q. rewrite list_lookup_insert. case_decide as E.
    + destruct E as [<- _]. intros [= <-]. rewrite Ht, bool_decide_true by done.
      split; [done|]. exists d. by rewrite lookup_insert_eq.
    + intros Hq. destruct (W5 i q Hq) as (H1 & d' & H2 & H3). split; [by rewrite Ht, H1, orb_true_r|].
      exists d'. rewrite lookup_insert_ne; [done|]. intros ->. congruence.
  - intros q d'. rewrite lookup_insert_Some. intros [[<- <-]|[Hne Hq]].
    + rewrite list_lookup_insert_eq; [done|]. by rewrite W1.
    + rewrite list_lookup_insert_ne; [by apply W6|]. intros E. apply W6 in Hq. congruence.
  - intros i Hlt. rewrite Ht, list_lookup_insert. case_decide as E; [eauto|].
    rewrite bool_decide_false by (intros ->; apply E; rewrite W1; done). by apply W7.
  - intros a d'. rewrite lookup_insert_Some. intros [[<- <-]|[Hne Hq]]; [|by apply W8].
    unfold channels_wf. rewrite Hc. split; [apply NoDup_nil_2|]. intros c Hin. by apply not_elem_of_nil in Hin.
Qed.

Lemma register_app_facts r env q : router_wf r -> 0 <= q -> register_env_ok r env q ->
  exists r' res ev, jrtc_router_register_app r env q = Ret (r', res, ev) /\ router_wf r' /\
    reqs r' = reqs r /\ req_entries r' = req_entries r /\
    match res with
    | Some p => exists i d, least_free_id r i /\ app_ctx r' = <[i := Some p]> (app_ctx r) /\
        dapps r' = <[p := d]> (dapps r) /\ app_id d = i /\ queue d = [] /\ ev = [IoRegisterThread] /\
        ck_ring_cap (ring d) = round_up_pow_of_two (q + 1) - 1 /\ ringbuffer d = q + 1 /\
        q <= JRTC_ROUTER_MAX_APP_QUEUE_SIZE /\ pool_cap (data_entry_pool d) = q
    | None => app_ctx r' = app_ctx r /\ dapps r' = dapps r /\ same_ids (app_bitmap r) (app_bitmap r') /\
        (JRTC_ROUTER_MAX_APP_QUEUE_SIZE < q \/ (forall i, ~ least_free_id r i) \/ env_fails env)
    end.
Proof.
  intros W Hq [Ef Ep Eo Ei]. unfold jrtc_router_register_app. pose proof (wf_app_bits _ W) as Hb.
  destruct (Z.ltb_spec JRTC_ROUTER_MAX_APP_QUEUE_SIZE q) as [Hm|Hm].
  { exists r, None, []. split_and!; try done. by left. }
  unfold _jrtc_router_reserve_new_app.
  destruct (reserve_loop_spec (ck_bitmap_bits (app_bitmap r)) (app_bitmap r) 0 eq_refl)
    as (res & b' & -> & Hb' & [(-> & H1 & H2)|(k & -> & H1 & H2)]); cbn [fst snd].
  { eexists _, None, []. split; [reflexivity|]. assert (same_ids (app_bitmap r) b') by (split; auto).
    split_and!; [by apply same_ids_wf|done..|]. right; left. intros i [Hi _].
    pose proof (lookup_lt_Some _ _ _ Hi) as Hlt. rewrite (wf_ctx_len _ W) in Hlt.
    destruct (wf_taken _ W i Hlt) as [p' Hp']; [apply H2; lia|]. congruence. }
  rewrite (proj2 (Z.ltb_ge _ _)), Nat2Z.id by lia. cbv zeta.
  pose proof (release_reserved _ _ _ Hb Hb' H1 H2) as Hrel.
  destruct (first_clear_free _ _ W H1) as [Hl Hk].
  destruct (calloc_dapp env) as [p|] eqn:Ec, (calloc_ring env) eqn:Er, (init_mempool env) as [m|] eqn:Em,
    (ht_init_out env) as [out|] eqn:Eout, (ht_init_in env) as [inp|] eqn:Ein;
    try (eexists _, None, []; (split; [reflexivity|]);
         (split; [exact (same_ids_wf r _ W Hrel)|]); unfold env_fails; tauto).
  cbn [app_ctx upd_apps]. rewrite array_set_lt by (by rewrite (wf_ctx_len _ W)). cbn [mbind outcome_bind].
  destruct (Ep m eq_refl) as [Hc Hu].
  set (d := mk_dapp _ _ m ∅ out inp k). eexists _, (Some p), _. split; [reflexivity|].
  split; [|split_and!; [done|done|exists k, d; split_and!; try done]].
  - apply (add_app_wf r b' p d W); try done; [by rewrite Hb'|by destruct Hl|by apply Ef|by apply new_dapp_wf|].
    unfold channels_of. cbn. by rewrite (Eo out), (Ei inp).
  - unfold queue, d. cbn. by rewrite ck_ring_init_list.
  - cbn. apply ck_ring_init_cap. destruct (round_up_facts (q + 1)) as (j & Hj & -> & _); [|lia].
    unfold JRTC_ROUTER_MAX_APP_QUEUE_SIZE in Hm. lia.
Qed.

(** C29: registering an application either fails, with the ids, the
    applications and the requests as before, because the queue is too long, no
    id is free or a call failed; or gives it the least free id and an empty
    queue of the length it asked for. The router stays well formed. *)
Theorem register_app_spec r env q : router_wf r -> 0 <= q -> register_env_ok r env q ->
  exists r' res ev, jrtc_router_register_app r env q = Ret (r', res, ev) /\ router_wf r' /\
    reqs r' = reqs r /\ req_entries r' = req_entries r /\
    match res with
    | Some p => exists i d, least_free_id r i /\ app_ctx r' = <[i := Some p]> (app_ctx r) /\
        dapps r' = <[p := d]> (dapps r) /\ app_id d = i /\ queue d = [] /\ ev = [IoRegisterThread] /\
        ck_ring_cap (ring d) = round_up_pow_of_two (q + 1) - 1 /\ ringbuffer d = q + 1 /\
        q <= JRTC_ROUTER_MAX_APP_QUEUE_SIZE /\ pool_cap (data_entry_pool d) = q
    | None => app_ctx r' = app_ctx r /\ dapps r' = dapps r /\ same_ids (app_bitmap r) (app_bitmap r') /\
        (JRTC_ROUTER_MAX_APP_QUEUE_SIZE < q \/ (forall i, ~ least_free_id r i) \/ env_fails env)
    end.
Proof. apply register_app_facts. Qed.

(** The buffer of [q + 1] slots is as long as the ring exactly for powers of two. *)
Lemma ring_fits q : 0 <= q <= JRTC_ROUTER_MAX_APP_QUEUE_SIZE ->
  round_up_pow_of_two (q + 1) <= q + 1 <-> exists k, 0 <= k /\ q + 1 = 2 ^ k.
Proof.
  unfold JRTC_ROUTER_MAX_APP_QUEUE_SIZE. intros Hq.
  destruct (round_up_facts (q + 1)) as (k & Hk & E & Hle & Hmin); [lia|]. rewrite E. split.
  - intros H. exists k. lia.
  - intros (j & Hj & Ej). rewrite Ej. apply Hmin; lia.
Qed.

(** The ring of a new application has as many slots as were allocated for
    it exactly when its queue size plus one is a power of two; for any other
    size the ring reaches beyond its buffer. *)
Theorem register_app_ring_covered r env q r' p ev : router_wf r -> 0 <= q -> register_env_ok r env q ->
  jrtc_router_register_app r env q = Ret (r', Some p, ev) ->
  exists d, dapps r' !! p = Some d /\
    (ck_ring_cap (ring d) < ringbuffer d <-> exists k, 0 <= k /\ q + 1 = 2 ^ k).
Proof.
  intros W Hq He E. destruct (register_app_facts r env q W Hq He) as (r1 & res & ev1 & E1 & _ & _ & _ & H).
  rewrite E1 in E. simplify_eq. destruct H as (i & d & _ & _ & Hd & _ & _ & _ & Hc & Hb & Hm & _).
  exists d. rewrite Hd, lookup_insert_eq, Hc, Hb, <- (ring_fits q) by done. split; [done|]. lia.
Qed.

(** ** Deregistration *)

Lemma destroy_channels_spec ps ch : NoDup ps -> (forall c, c ∈ ps -> is_Some (ch !! c)) ->
  exists ch', destroy_channels ch ps =
      Ret (ch', omap (λ c, IoDestroyChannel ∘ io_channel <$> ch !! c) ps) /\
    forall c, ch' !! c = if decide (c ∈ ps) then None else ch !! c.
Proof.
  revert ch. induction ps as [|p ps IH]; intros ch Hnd Hl; cbn.
  { exists ch. split; [done|]. intros c. rewrite decide_False; [done|]. apply not_elem_of_nil. }
  apply NoDup_cons in Hnd as [Hp Hnd]. destruct (Hl p) as [x Hx]; [apply list_elem_of_here|].
  destruct (IH (delete p ch) Hnd) as (ch' & E & H).
  { intros c Hc. rewrite lookup_delete_ne by (by intros ->). apply Hl. by apply list_elem_of_further. }
  rewrite (deref_Some _ _ _ Hx). cbn. rewrite E. exists ch'. cbn. rewrite Hx. cbn. split.
  - do 3 f_equal. apply omap_ext_in. intros c Hc. rewrite lookup_delete_ne; [done|]. by intros ->.
  - intros c. rewrite H. destruct (decide (c = p)) as [->|Hne].
    + rewrite (decide_True (P := p ∈ p :: ps)) by apply list_elem_of_here.
      rewrite lookup_delete_eq. by case_decide.
    + rewrite lookup_delete_ne by done. apply decide_ext. rewrite elem_of_cons. naive_solver.
Qed.

(** Removing the application at [p], whose channels were destroyed. *)
Lemma remove_app_wf r p d ch : router_wf r -> dapps r !! p = Some d ->
  (forall c, ch !! c = if decide (c ∈ channels_of d) then None else channels r !! c) ->
  router_wf (upd_apps r (<[app_id d := None]> (app_ctx r)) (ck_bitmap_reset (app_bitmap r) (app_id d))
               (delete p (dapps r)) ch).
Proof.
  intros W Hd Hch. pose proof (wf_app_id _ _ _ W Hd) as Hi. destruct W as [W1 W2 W3 W4 W5 W6 W7 W8].
  assert (Ht : forall j, ck_bitmap_test (ck_bitmap_reset (app_bitmap r) (app_id d)) j =
    negb (bool_decide (j = app_id d)) && ck_bitmap_test (app_bitmap r) j) by (intros; apply ck_reset_test; lia).
  constructor; cbn; try done.
  - by rewrite length_insert.
  - by rewrite ck_reset_bits.
  - intros i q. rewrite list_lookup_insert. case_decide as E; [done|]. intros Hq.
    destruct (W5 i q Hq) as (H1 & d' & H2 & H3 & H4).
    assert (Hne : i <> app_id d) by (intros ->; apply E; by rewrite W1).
    rewrite Ht, H1, bool_decide_false by done. split; [done|]. exists d'.
    rewrite lookup_delete_ne; [done|]. intros ->. congruence.
  - intros q d' [Hne Hq]%lookup_delete_Some. rewrite list_lookup_insert_ne; [by apply W6|].
    intros E. apply W6 in Hq, Hd. congruence.
  - intros i Hlt. rewrite Ht. case_bool_decide; [done|]. rewrite list_lookup_insert_ne by done.
    by apply W7.
  - intros a d' [Hne Hq]%lookup_delete_Some. destruct (W8 a d' Hq) as [Hn Hc]. split; [done|].
    intros c Hin. destruct (Hc c Hin) as (x & Hx & Hax). exists x. split; [|done].
    rewrite Hch, decide_False; [done|]. intros Hin'.
    destruct (proj2 (W8 p d Hd) c Hin') as (x' & Hx' & Hpx'). congruence.
Qed.

Lemma deregister_app_facts r p d : router_wf r -> dapps r !! p = Some d ->
  exists r' ev, jrtc_router_deregister_app r (Some p) = Ret (r', ev) /\ router_wf r' /\
    dapps r' = delete p (dapps r) /\ app_ctx r' = <[app_id d := None]> (app_ctx r) /\
    (forall c, channels r' !! c = if decide (c ∈ channels_of d) then None else channels r !! c) /\
    ev = omap (λ c, IoDestroyChannel ∘ io_channel <$> channels r !! c) (channels_of d) /\
    forall i s, subscribed r' i s = subscribed r i s.
Proof.
  intros W Hd. unfold jrtc_router_deregister_app. rewrite (deref_Some _ _ _ Hd). cbn [mbind outcome_bind].
  pose proof (wf_app_id _ _ _ W Hd) as Hi. destruct (wf_channels _ W _ _ Hd) as [Hnd Hl].
  unfold channels_of in Hnd, Hl. apply NoDup_app in Hnd as (Hn1 & Hdis & Hn2).
  destruct (destroy_channels_spec _ (channels r) Hn1) as (ch1 & -> & H1).
  { intros c Hc. destruct (Hl c) as (x & -> & _); [|done]. apply elem_of_app. by left. }
  destruct (destroy_channels_spec _ ch1 Hn2) as (ch2 & E2 & H2).
  { intros c Hc. rewrite H1, decide_False by (intros Hc'; by apply (Hdis c)).
    destruct (Hl c) as (x & -> & _); [|done]. apply elem_of_app. by right. }
  cbn [mbind outcome_bind]. rewrite E2. cbn [mbind outcome_bind].
  rewrite array_set_lt by (by rewrite (wf_ctx_len _ W)). cbn [mbind outcome_bind].
  assert (Hch : forall c, ch2 !! c = if decide (c ∈ channels_of d) then None else channels r !! c).
  { intros c. rewrite H2, H1. unfold channels_of. pose proof (elem_of_app (ptr_ht_values (app_out_channel_list d))
      (ptr_ht_values (app_in_channel_list d)) c). repeat case_decide; naive_solver. }
  eexists _, _. split; [reflexivity|]. split_and!; try done; [by apply (remove_app_wf r p d)|].
  unfold channels_of. rewrite omap_app. f_equal. apply omap_ext_in. intros c Hc.
  rewrite H1, decide_False; [done|]. intros Hin. by apply (Hdis c Hin).
Qed.

(** C30: deregistering an application frees its slot and its id, destroys
    exactly its channels, and keeps the router well formed; it does not touch
    any subscription. *)
Theorem deregister_app_spec r p d : router_wf r -> dapps r !! p = Some d ->
  exists r' ev, jrtc_router_deregister_app r (Some p) = Ret (r', ev) /\ router_wf r' /\
    dapps r' = delete p (dapps r) /\ app_ctx r' = <[app_id d := None]> (app_ctx r) /\
    (forall c, channels r' !! c = if decide (c ∈ channels_of d) then None else channels r !! c) /\
    ev = omap (λ c, IoDestroyChannel ∘ io_channel <$> channels r !! c) (channels_of d) /\
    forall i s, subscribed r' i s = subscribed r i s.
Proof. apply deregister_app_facts. Qed.

(** An application that registers after another one left can inherit its
    subscriptions: the requests of a deregistered application stay in the
    table under its id, and the id is given out again. *)
Theorem stale_subscription r p d s env q r1 ev1 r2 p2 ev2 :
  router_wf r -> dapps r !! p = Some d -> subscribed r (app_id d) s = true ->
  jrtc_router_deregister_app r (Some p) = Ret (r1, ev1) ->
  0 <= q -> register_env_ok r1 env q -> least_free_id r1 (app_id d) ->
  jrtc_router_register_app r1 env q = Ret (r2, Some p2, ev2) ->
  exists d2, dapps r2 !! p2 = Some d2 /\ app_id d2 = app_id d /\ subscribed r2 (app_id d2) s = true.
Proof.
  intros W Hd Hs Hde Hq He Hf Hre.
  destruct (deregister_app_facts r p d W Hd) as (r1' & ev & E1 & W1 & _ & _ & _ & _ & Hsub).
  rewrite E1 in Hde. simplify_eq. destruct (register_app_facts r1 env q W1 Hq He) as (r2' & res & ev & E2 & _ & Hr & Hre' & Hres).
  rewrite E2 in Hre. simplify_eq. destruct Hres as (i & d2 & Hl & _ & Hd2 & <- & _). exists d2.
  rewrite Hd2, lookup_insert_eq. assert (Hid : app_id d2 = app_id d).
  { destruct Hl as [H1 H2], Hf as [H3 H4]. destruct (lt_eq_lt_dec (app_id d2) (app_id d)) as [[Hlt|]|Hlt]; [|done|].
    - destruct (H4 _ Hlt). congruence.
    - destruct (H2 _ Hlt). congruence. }
  split_and!; [done|done|]. rewrite Hid. unfold subscribed, req_bitmap in *. rewrite Hr, Hre'.
  specialize (Hsub (app_id d) s). unfold subscribed, req_bitmap in Hsub. by rewrite Hsub.
Qed.

End Apps.
