(* ===== verification/RouterChannels.v ===== *)
(** * Channels of an application

    Creating and destroying channels: the tables of the applications, the
    channel objects and the calls to the IO library. *)
From S2P Require Import Prelude StreamId Ext Router RouterLookup RouterInv.

Section Channels.
Context {cs : CharSign}.
Context {B It T C R M S : Type}.
Context `{HB : CkBitmap B It} `{HT : CkHt T nat} `{HC : CkPtrHt C} `{HR : CkRing R} `{HM : Mempool M} `{HS : JbpfIo S}.
Context `{LB : !CkBitmapLaws B It} `{LT : !CkHtLaws T nat} `{LC : !CkPtrHtLaws C} `{LR : !CkRingLaws R} `{LM : !MempoolLaws M}.

Abbreviation router := (jrtc_router_ctx B T C R M).
Abbreviation dapp := (dapp_router_ctx C R M).

(** The channels of an application are those of the table at hand and those of
    the other one. *)
Lemma channels_of_split (d : dapp) o :
  Permutation (channels_of d) (ptr_ht_values (channel_list d o) ++ ptr_ht_values (channel_list d (negb o))).
Proof. unfold channels_of. destruct o; [done|]. apply Permutation_app_comm. Qed.

Lemma channels_of_upd (d : dapp) o t :
  Permutation (channels_of (upd_channel_list d o t)) (ptr_ht_values t ++ ptr_ht_values (channel_list d (negb o))).
Proof. unfold channels_of. destruct o; cbn; [done|]. apply Permutation_app_comm. Qed.

Lemma channel_list_upd (d : dapp) o t : channel_list (upd_channel_list d o t) o = t.
Proof. by destruct o. Qed.

Lemma upd_channel_list_facts (d : dapp) o t :
  app_id (upd_channel_list d o t) = app_id d /\
  queue (upd_channel_list d o t) = queue d /\
  (dapp_wf d -> dapp_wf (upd_channel_list d o t)).
Proof. by destruct o. Qed.

(** Changing a table of the application at [a], and the channels. *)
Lemma upd_channels_wf r a d o t ch : router_wf r -> dapps r !! a = Some d ->
  channels_wf ch a (upd_channel_list d o t) ->
  (forall c x, channels r !! c = Some x -> ch_app_ctx x <> a -> ch !! c = Some x) ->
  router_wf (upd_apps r (app_ctx r) (app_bitmap r) (<[a := upd_channel_list d o t]> (dapps r)) ch).
Proof.
  intros [W1 W2 W3 W4 W5 W6 W7 W8] Hd Hc Hch.
  destruct (upd_channel_list_facts d o t) as (Hid & _ & Hwf). constructor; cbn; try done.
  - intros i p Hp. destruct (W5 i p Hp) as (H1 & d' & H2 & H3 & H4). split; [done|].
    destruct (decide (p = a)) as [->|Hne].
    + simplify_eq. eexists. rewrite lookup_insert_eq. eauto.
    + exists d'. by rewrite lookup_insert_ne.
  - intros p d'. rewrite lookup_insert_Some. intros [[<- <-]|[Hne Hp]]; [|by apply W6].
    rewrite Hid. by apply W6.
  - intros p d'. rewrite lookup_insert_Some. intros [[<- <-]|[Hne Hp]]; [done|].
    destruct (W8 p d' Hp) as [Hn Hl]. split; [done|]. intros c Hin.
    destruct (Hl c Hin) as (x & Hx & Hax). exists x. split; [|done]. apply Hch; [done|]. congruence.
Qed.

Lemma NoDup_submseteq_l {A} (l k : list A) : l ⊆+ k -> NoDup k -> NoDup l.
Proof. intros (z & ->)%submseteq_Permutation H. by apply NoDup_app in H as (? & _). Qed.

(** What is left of the channels when a table loses entries. *)
Lemma channels_wf_sub ch a (d d' : dapp) : channels_of d' ⊆+ channels_of d ->
  channels_wf ch a d -> channels_wf ch a d'.
Proof.
  intros Hs [Hn Hl]. split; [by eapply NoDup_submseteq_l|]. intros c Hc. apply Hl. by eapply elem_of_submseteq.
Qed.

Lemma channels_of_perm (d : dapp) o t :
  Permutation (ptr_ht_entries t) (ptr_ht_entries (channel_list d o)) ->
  channels_of (upd_channel_list d o t) ⊆+ channels_of d.
Proof.
  intros H. rewrite channels_of_upd, (channels_of_split d o), !ptr_ht_values_spec. by rewrite H.
Qed.

(** After a successful [ptr_ht_set_spmc] the table holds the new channel and
    nothing it did not hold before. *)
Lemma channels_of_set (d : dapp) o mem k c t :
  ptr_ht_set_spmc (channel_list d o) mem k c = (true, t) ->
  channels_of (upd_channel_list d o t) ⊆+ c :: channels_of d /\
  c ∈ ptr_ht_values t.
Proof.
  intros (l & H1 & H2)%ptr_ht_set_ok.
  assert (Hl : l ⊆+ ptr_ht_entries (channel_list d o)).
  { destruct H2 as [->|(e & _ & ->)]; [done|]. by apply submseteq_cons. }
  split.
  - rewrite channels_of_upd, (channels_of_split d o), !ptr_ht_values_spec, H1. cbn.
    apply submseteq_skip, submseteq_app; [|done]. by apply fmap_submseteq.
  - rewrite ptr_ht_values_spec, H1. cbn. apply list_elem_of_here.
Qed.

(** What the caller of the router gets from its environment. *)
Definition channel_env_fresh (r : router) (env : channel_env) : Prop :=
  forall c, malloc_channel env = Some c -> channels r !! c = None.

Lemma channel_create_facts r env a d o s : router_wf r -> channel_env_fresh r env ->
  dapps r !! a = Some d ->
  exists r' res ev, jrtc_router_channel_create r env (Some a) o s = Ret (r', res, ev) /\ router_wf r' /\
    (forall i s', subscribed r' i s' = subscribed r i s') /\
    (exists t, let d' := upd_channel_list d o t in dapps r' = <[a := d']> (dapps r) /\
       match res with
       | Some c => c ∈ ptr_ht_values (channel_list d' o) /\ malloc_channel env = Some c /\ ev = [] /\
           exists io, create_channel env = Some io /\ channels r' = <[c := mk_channel io s a o]> (channels r)
       | None => channels r' = channels r /\ channels_of d' ⊆+ channels_of d /\
           (ev = [] \/ exists io, create_channel env = Some io /\ ev = [IoDestroyChannel io])
       end).
Proof.
  intros W Hf Hd. unfold jrtc_router_channel_create. pose proof (wf_channels _ W _ _ Hd) as [Hn Hl].
  assert (Hid : upd_channel_list d o (channel_list d o) = d) by (by destruct d, o).
  assert (Hsame : <[a := d]> (dapps r) = dapps r) by (by apply insert_id).
  destruct (malloc_channel env) as [c|] eqn:Em.
  2: { exists r, None, []. split_and!; try done. exists (channel_list d o). cbv zeta. rewrite Hid, Hsame. split_and!; try done. by left. }
  rewrite (deref_Some _ _ _ Hd). cbn [mbind outcome_bind]. specialize (Hf c Em).
  destruct (create_channel env) as [io|].
  2: { exists r, None, []. split_and!; try done. exists (channel_list d o). cbv zeta. rewrite Hid, Hsame. split_and!; try done. by left. }
  destruct (ptr_ht_set_spmc (channel_list d o) (key_mem env) (key_addr env) c) as [[] t] eqn:Et;
    eexists _, _, _; (split; [reflexivity|]).
  - destruct (channels_of_set d o _ _ _ _ Et) as [Hs Hin].
    assert (Hc : c ∉ channels_of d) by (intros (x & Hx & _)%Hl; congruence). split_and!; [|done|].
    + apply upd_channels_wf; [done|done| |].
      * split; [by eapply NoDup_submseteq_l; [done|apply NoDup_cons]|]. intros c' Hc'.
        eapply elem_of_submseteq in Hc'; [|done]. apply elem_of_cons in Hc' as [->|Hc'].
        -- rewrite lookup_insert_eq. eauto.
        -- rewrite lookup_insert_ne by (by intros ->). by apply Hl.
      * intros c' x Hx _. rewrite lookup_insert_ne; [done|]. congruence.
    + eexists. split_and!; [reflexivity|by rewrite channel_list_upd|done|done|]. eauto.
  - pose proof (channels_of_perm d o t (ptr_ht_set_fail _ _ _ _ _ Et)) as Hs. split_and!; [|done|].
    + apply upd_channels_wf; [done|done|by eapply channels_wf_sub|done].
    + eexists. split_and!; [reflexivity|done|done|]. eauto.
Qed.

(** Creating a channel either registers a new channel object with the
    requested id, direction and owner in the table of its application, or
    returns NULL, in which case an IO channel that was created is destroyed
    again and the channels are as before. The router stays well formed. *)
Theorem channel_create_spec r env a d o s : router_wf r -> channel_env_fresh r env ->
  dapps r !! a = Some d ->
  exists r' res ev, jrtc_router_channel_create r env (Some a) o s = Ret (r', res, ev) /\ router_wf r' /\
    (forall i s', subscribed r' i s' = subscribed r i s') /\
    (exists d', dapps r' = <[a := d']> (dapps r) /\ queue d' = queue d /\
       match res with
       | Some c => c ∈ ptr_ht_values (channel_list d' o) /\ malloc_channel env = Some c /\ ev = [] /\
           exists io, create_channel env = Some io /\ channels r' = <[c := mk_channel io s a o]> (channels r)
       | None => channels r' = channels r /\ channels_of d' ⊆+ channels_of d /\
           (ev = [] \/ exists io, create_channel env = Some io /\ ev = [IoDestroyChannel io])
       end).
Proof.
  intros W Hf Hd. destruct (channel_create_facts r env a d o s W Hf Hd) as (r' & res & ev & E & W' & Hs & t & Ht & H).
  exists r', res, ev. split_and!; try done. exists (upd_channel_list d o t). split_and!; try done.
  apply upd_channel_list_facts.
Qed.

(** The stored key addresses under which [mem] holds the bytes of [s] are that
    of the channel [p]. *)
Definition keys_intact (mem : nat -> list Z) (t : C) (s : jrtc_router_stream_id) (p : nat) : Prop :=
  forall e, e ∈ ptr_ht_entries t -> mem e.1 = id s -> e.2 = p.

Lemma channel_destroy_facts r mem p x d : router_wf r -> channels r !! p = Some x ->
  dapps r !! ch_app_ctx x = Some d ->
  keys_intact mem (channel_list d (is_output x)) (ch_stream_id x) p ->
  exists r' ev, jrtc_router_channel_destroy r mem (Some p) = Ret (r', ev) /\ router_wf r' /\
    (exists t, dapps r' = <[ch_app_ctx x := upd_channel_list d (is_output x) t]> (dapps r) /\
       forall e, e ∈ ptr_ht_entries t -> e ∈ ptr_ht_entries (channel_list d (is_output x))) /\
    (forall i s', subscribed r' i s' = subscribed r i s') /\
    ((ev = [IoDestroyChannel (io_channel x)] /\ channels r' = delete p (channels r)) \/
     (ev = [] /\ channels r' = channels r)).
Proof.
  intros W Hx Hd Hk. unfold jrtc_router_channel_destroy.
  rewrite (deref_Some _ _ _ Hx). cbn [mbind outcome_bind]. rewrite (deref_Some _ _ _ Hd). cbn [mbind outcome_bind].
  pose proof (wf_channels _ W _ _ Hd) as Hc.
  destruct (ptr_ht_remove_spmc _ mem _) as [[] t] eqn:Et; eexists _, _; (split; [reflexivity|]).
  - destruct (ptr_ht_remove_ok _ _ _ _ Et) as (e & Hm & Hp).
    assert (He : e.2 = p) by (apply (Hk e); [rewrite Hp; apply list_elem_of_here|done]).
    assert (Hq : Permutation (channels_of d) (p :: channels_of (upd_channel_list d (is_output x) t))).
    { rewrite channels_of_upd, (channels_of_split d (is_output x)), !ptr_ht_values_spec, Hp. cbn. by rewrite He. }
    split_and!; [|exists t; split; [done|intros ? He'; rewrite Hp; by apply list_elem_of_further]|done|by left]. apply upd_channels_wf; [done|done| |].
    + destruct Hc as [Hn Hl]. rewrite Hq in Hn. apply NoDup_cons in Hn as [Hni Hn]. split; [done|].
      intros c Hin. rewrite lookup_delete_ne by (by intros <-). apply Hl. rewrite Hq. by apply list_elem_of_further.
    + intros c y Hy Hne. rewrite lookup_delete_ne; [done|]. congruence.
  - pose proof (channels_of_perm d _ t (ptr_ht_remove_fail _ _ _ _ Et)) as Hs.
    split_and!; [|exists t; split; [done|intros e He; by rewrite <- (ptr_ht_remove_fail _ _ _ _ Et)]|done|by right].
    apply upd_channels_wf; [done|done|by eapply channels_wf_sub|done].
Qed.

(** Destroying a channel whose table entry is found under its own key
    destroys the IO channel and the channel object and keeps the router well
    formed; when no entry is found nothing is destroyed. *)
Theorem channel_destroy_spec r mem p x d : router_wf r -> channels r !! p = Some x ->
  dapps r !! ch_app_ctx x = Some d ->
  keys_intact mem (channel_list d (is_output x)) (ch_stream_id x) p ->
  exists r' ev, jrtc_router_channel_destroy r mem (Some p) = Ret (r', ev) /\ router_wf r' /\
    (forall i s', subscribed r' i s' = subscribed r i s') /\
    ((ev = [IoDestroyChannel (io_channel x)] /\ channels r' = delete p (channels r)) \/
     (ev = [] /\ channels r' = channels r)).
Proof.
  intros W Hx Hd Hk. destruct (channel_destroy_facts r mem p x d W Hx Hd Hk) as (r' & ev & E & W' & _ & H).
  eauto.
Qed.

(** The tables keep the address of the [stream_id] parameter of
    [jrtc_router_channel_create], which is dead when that call returns: when
    the memory there no longer holds the id, destroying the channel does
    nothing and its entry stays in the table. *)
Theorem channel_destroy_dangling r mem p x d : router_wf r -> channels r !! p = Some x ->
  dapps r !! ch_app_ctx x = Some d ->
  (forall e, e ∈ ptr_ht_entries (channel_list d (is_output x)) -> mem e.1 <> id (ch_stream_id x)) ->
  exists r', jrtc_router_channel_destroy r mem (Some p) = Ret (r', []) /\ channels r' = channels r /\
    exists d', dapps r' !! ch_app_ctx x = Some d' /\ Permutation (channels_of d') (channels_of d).
Proof.
  intros W Hx Hd Hk. unfold jrtc_router_channel_destroy.
  rewrite (deref_Some _ _ _ Hx). cbn [mbind outcome_bind]. rewrite (deref_Some _ _ _ Hd). cbn [mbind outcome_bind].
  destruct (ptr_ht_remove_spmc _ mem _) as [[] t] eqn:Et.
  - destruct (ptr_ht_remove_ok _ _ _ _ Et) as (e & Hm & Hp). destruct (Hk e); [|done].
    rewrite Hp. apply list_elem_of_here.
  - eexists. split_and!; [reflexivity|done|]. cbn. rewrite lookup_insert_eq. eexists. split; [done|].
    rewrite channels_of_upd, (channels_of_split d (is_output x)), !ptr_ht_values_spec.
    by rewrite (ptr_ht_remove_fail _ _ _ _ Et).
Qed.

End Channels.
