(* ===== verification/RouterForward.v ===== *)
(** * Forwarding

    What [_jrtc_router_forward_msgs] does to the queues of the applications:
    which applications a message reaches, how often its buffer is shared and
    released, and what happens to a batch of buffers. *)
From S2P Require Import Prelude StreamId Ext Router RouterLookup RouterInv.

Section Forward.
Context {cs : CharSign}.
Context {B It T C R M S : Type}.
Context `{HB : CkBitmap B It} `{HT : CkHt T nat} `{HC : CkPtrHt C} `{HR : CkRing R} `{HM : Mempool M} `{HS : JbpfIo S}.
Context `{LB : !CkBitmapLaws B It} `{LT : !CkHtLaws T nat} `{LC : !CkPtrHtLaws C} `{LR : !CkRingLaws R} `{LM : !MempoolLaws M}.

Abbreviation router := (jrtc_router_ctx B T C R M).
Abbreviation dapp := (dapp_router_ctx C R M).

(** ** The abstract queues *)

(** The queue of the application with id [i], and how long it can get. *)
Definition app_queue (r : router) (i : nat) : option (list jrtc_router_data_entry * Z) :=
  match app_ctx r !! i with
  | Some (Some p) =>
      match dapps r !! p with
      | Some d => Some (queue d, pool_cap (data_entry_pool d))
      | None => None
      end
  | _ => None
  end.

Definition has_room (o : option (list jrtc_router_data_entry * Z)) : bool :=
  match o with Some (q, cap) => Z.of_nat (length q) <? cap | None => false end.

(** A full queue drops the entry. *)
Definition deliver (e : jrtc_router_data_entry) (o : option (list jrtc_router_data_entry * Z)) :=
  match o with
  | Some (q, cap) => Some (if Z.of_nat (length q) <? cap then q ++ [e] else q, cap)
  | None => None
  end.

(** Application [i] has a request that describes the stream [sid]. *)
Definition interested (r : router) (sid : jrtc_router_stream_id) (i : nat) : bool :=
  existsb (λ m, subscribed r i (apply_mask sid m)) lookup_mask.

Definition recipients (r : router) (sid : jrtc_router_stream_id) : list nat :=
  filter (λ i, interested r sid i = true) (seq 0 JRTC_ROUTER_MAX_NUM_APPS).

(** The queue of application [i] has room, and the slot of the ring that the
    next entry goes to lies behind the end of the ring's buffer. *)
Definition overflows (r : router) (i : nat) : bool :=
  match app_ctx r !! i with
  | Some (Some p) =>
      match dapps r !! p with
      | Some d => has_room (Some (queue d, pool_cap (data_entry_pool d))) && (ringbuffer d <=? ck_ring_slot (ring d))
      | None => false
      end
  | _ => false
  end.

(** Forwarding a message of the stream [sid] would write behind a buffer. *)
Definition overflow (r : router) (sid : jrtc_router_stream_id) : bool := existsb (overflows r) (recipients r sid).

(** The buffer behind every ring has a slot for each position of the ring; this
    is so when every application was registered with a queue size that is one
    less than a power of two ([register_app_ring_covered]). *)
Definition covered (r : router) : Prop :=
  forall p d, dapps r !! p = Some d -> ck_ring_cap (ring d) < ringbuffer d.

Lemma covered_overflows r i : router_wf r -> covered r -> overflows r i = false.
Proof.
  intros W Hc. unfold overflows. destruct (app_ctx r !! i) as [[p|]|] eqn:Ei; try done.
  destruct (dapps r !! p) as [d|] eqn:Hd; [|done]. apply andb_false_iff. right. apply Z.leb_gt.
  destruct (wf_app _ W _ _ Ei) as (_ & d' & Hd' & _ & (_ & _ & Hcap)). rewrite Hd in Hd'. injection Hd' as <-.
  assert (Hpos : 0 <= ck_ring_cap (ring d)) by lia. pose proof (ck_ring_slot_range (ring d) Hpos). specialize (Hc p d Hd). lia.
Qed.

Lemma covered_overflow r sid : router_wf r -> covered r -> overflow r sid = false.
Proof.
  intros W Hc. apply not_true_is_false. intros (i & _ & Hi)%existsb_exists. by rewrite covered_overflows in Hi.
Qed.

Lemma interested_spec r sid i : stream_id_wf sid ->
  interested r sid i = true <->
  exists g, stream_id_wf g /\ generalises (decode g) (decode sid) /\ subscribed r i g = true.
Proof.
  intros W. unfold interested. rewrite existsb_exists. split.
  - intros (m & Hm & Hs). exists (apply_mask sid m).
    assert (Hin : apply_mask sid m ∈ (apply_mask sid <$> lookup_mask))
      by (apply list_elem_of_fmap; exists m; split; [done|by apply list_elem_of_In]).
    apply (lookups_facts _ _ W) in Hin as [? ?]. done.
  - intros (g & Wg & Hg & Hs). assert (Hin : g ∈ (apply_mask sid <$> lookup_mask)) by (by apply (lookups_facts _ _ W)).
    apply list_elem_of_fmap in Hin as (m & -> & Hm). exists m. split; [by apply list_elem_of_In|done].
Qed.

(** ** The lookups *)

Lemma lookup_loop_spec r sid masks res : router_wf r ->
  ck_bitmap_bits res = JRTC_ROUTER_MAX_NUM_APPS ->
  exists lr, lookup_loop r sid masks res = Ret lr /\ ck_bitmap_bits lr = JRTC_ROUTER_MAX_NUM_APPS /\
    forall i, (i < JRTC_ROUTER_MAX_NUM_APPS)%nat -> ck_bitmap_test lr i =
      ck_bitmap_test res i || existsb (λ m, subscribed r i (apply_mask sid m)) masks.
Proof.
  intros W. revert res. induction masks as [|m masks IH]; intros res Hb; cbn [lookup_loop existsb].
  { exists res. split_and!; try done. intros. by rewrite orb_false_r. }
  destruct (ck_ht_get_spmc (reqs r) (id (apply_mask sid m))) as [p|] eqn:Eg.
  - destruct (wf_req _ W _ _ Eg) as (e & Ee & _ & Eb & _). rewrite (deref_Some _ _ _ Ee).
    cbn [mbind outcome_bind].
    destruct (IH (ck_bitmap_union res (re_bitmap e))) as (lr & -> & Hl & Ht); [by rewrite ck_union_bits; congruence|].
    exists lr. split_and!; try done. intros i Hi.
    rewrite Ht, ck_union_test, (subscribed_at r i _ p e), bool_decide_true by (done || congruence).
    by rewrite orb_assoc.
  - destruct (IH res Hb) as (lr & -> & Hl & Ht). exists lr. split_and!; try done. intros i Hi.
    by rewrite Ht, subscribed_absent.
Qed.

Lemma filter_seq_ext (P Q : nat -> bool) n : (forall i, (i < n)%nat -> P i = Q i) ->
  filter (λ i, P i = true) (seq 0 n) = filter (λ i, Q i = true) (seq 0 n).
Proof.
  intros H. apply filter_ext_in. intros i Hi.
  apply elem_of_seq in Hi. by rewrite H by lia.
Qed.

(** The iterator over the result of the lookups goes through the recipients. *)
Lemma lookup_rest r sid : router_wf r ->
  exists lr, lookup_loop r sid lookup_mask (ck_bitmap_clear (lookup_result r)) = Ret lr /\
    ck_bitmap_bits lr = JRTC_ROUTER_MAX_NUM_APPS /\
    ck_rest lr (ck_bitmap_iterator_init lr) = recipients r sid.
Proof.
  intros W. destruct (lookup_loop_spec r sid lookup_mask (ck_bitmap_clear (lookup_result r)) W) as (lr & E & Hb & Ht).
  { by rewrite ck_clear_bits, (wf_lookup_bits _ W). }
  exists lr. split_and!; [done|done|]. rewrite ck_iterator_init_rest, Hb. unfold recipients.
  apply filter_seq_ext. intros i Hi. by rewrite Ht, ck_clear_test.
Qed.

(** ** One application *)

Lemma queue_length (d : dapp) : dapp_wf d -> length (queue d) = length (pool_used (data_entry_pool d)).
Proof.
  intros (Hp & Hm & _). unfold queue. rewrite Hp.
  clear Hp. revert Hm. generalize (ck_ring_list (ring d)) as l.
  induction l as [|b l IH]; intros Hm; cbn; [done|].
  destruct (Hm b) as [e He]; [apply list_elem_of_here|]. rewrite He. cbn. f_equal. apply IH.
  intros b' Hb'. apply Hm. by apply list_elem_of_further.
Qed.

Lemma omap_insert_fresh {A} (m : gmap nat A) b x (l : list nat) : b ∉ l ->
  omap (λ k, <[b := x]> m !! k) l = omap (λ k, m !! k) l.
Proof.
  intros Hb. apply omap_ext_in. intros k Hk. rewrite lookup_insert_ne; [done|]. by intros ->.
Qed.

(** What enqueuing [e] does to an application that has room. *)
Lemma dapp_enqueue (d : dapp) e : dapp_wf d ->
  Z.of_nat (length (queue d)) < pool_cap (data_entry_pool d) ->
  exists b pool ring', jbpf_mbuf_alloc (data_entry_pool d) = Some (b, pool) /\
    ring_enqueue d b = (if ringbuffer d <=? ck_ring_slot (ring d) then Fault OutOfBounds else Ret (true, ring')) /\
    let d' := mk_dapp ring' (ringbuffer d) pool (<[b := e]> (pool_mem d)) (app_out_channel_list d)
                (app_in_channel_list d) (app_id d) in
    dapp_wf d' /\ queue d' = queue d ++ [e] /\ pool_cap pool = pool_cap (data_entry_pool d) /\
    ck_ring_cap ring' = ck_ring_cap (ring d).
Proof.
  intros W Hlt. rewrite (queue_length _ W) in Hlt. destruct W as (Hp & Hm & Hc).
  destruct (mbuf_alloc_ok _ Hlt) as (b & pool & Ea & Hb & Hperm & Hcap).
  destruct (ck_ring_enqueue_ok (ring d) b) as (ring' & Er & Hl & Hrc); [rewrite <- Hp; lia|].
  assert (Hb' : b ∉ ck_ring_list (ring d)) by (by rewrite <- Hp).
  exists b, pool, ring'. split; [done|]. split.
  { unfold ring_enqueue. rewrite Er. destruct (Z.ltb_spec (ck_ring_slot (ring d)) (ringbuffer d)).
    - by rewrite (proj2 (Z.leb_gt _ _)).
    - by rewrite (proj2 (Z.leb_le _ _)). }
  cbn. split_and!; [|unfold queue; cbn|done|done].
  - unfold dapp_wf. cbn. rewrite Hl, Hrc, Hcap, Hperm, Hp. split_and!; [|intros b0|lia|lia].
    + by rewrite Permutation_cons_append.
    + rewrite elem_of_app, list_elem_of_singleton. intros [Hin| ->]; [|by rewrite lookup_insert_eq].
      rewrite lookup_insert_ne by (by intros ->). by apply Hm.
  - rewrite Hl, omap_app. cbn. rewrite lookup_insert_eq. cbn. by rewrite omap_insert_fresh.
Qed.

(** [r'] is [r] but for the queues. *)
Definition same_registry (r r' : router) : Prop :=
  router_wf r' /\ (covered r -> covered r') /\ app_ctx r' = app_ctx r /\ reqs r' = reqs r /\
  req_entries r' = req_entries r /\ lookup_result r' = lookup_result r /\ channels r' = channels r.

Lemma same_registry_refl r : router_wf r -> same_registry r r.
Proof. by intros. Qed.

Lemma same_registry_trans r r' r'' : same_registry r r' -> same_registry r' r'' -> same_registry r r''.
Proof. unfold same_registry. intuition congruence. Qed.

(** Replacing the queue of an application. *)
Lemma upd_dapp_registry r p (d d' : dapp) : router_wf r -> dapps r !! p = Some d ->
  dapp_wf d' -> app_id d' = app_id d -> channels_of d' = channels_of d ->
  ck_ring_cap (ring d') = ck_ring_cap (ring d) -> ringbuffer d' = ringbuffer d ->
  same_registry r (upd_dapp r p d') /\
  forall i, app_queue (upd_dapp r p d') i =
      (if decide (i = app_id d) then Some (queue d', pool_cap (data_entry_pool d')) else app_queue r i) /\
    (i <> app_id d -> overflows (upd_dapp r p d') i = overflows r i).
Proof.
  intros W Hd W' Hid Hch Hrc Hrb. split.
  - split_and!; try done.
    + destruct W as [W1 W2 W3 W4 W5 W6 W7 W8]. constructor; cbn; try done.
      * intros i q Hq. destruct (W5 i q Hq) as (H1 & d0 & H2 & H3 & H4). split; [done|].
        destruct (decide (p = q)) as [->|Hne]; [|by exists d0; rewrite lookup_insert_ne].
        simplify_eq. exists d'. by rewrite lookup_insert_eq.
      * intros q d0. rewrite lookup_insert_Some. intros [[<- <-]|[Hne Hq]]; [|by apply W6].
        rewrite Hid. by apply W6.
      * intros q d0. rewrite lookup_insert_Some. intros [[<- <-]|[Hne Hq]]; [|by apply W8].
        unfold channels_wf. rewrite Hch. by apply W8.
    + intros Hcov q d0. cbn. rewrite lookup_insert_Some. intros [[<- <-]|[Hne Hq]]; [|by apply (Hcov q)].
      rewrite Hrc, Hrb. by apply (Hcov p).
  - intros i. unfold app_queue, overflows. cbn. pose proof (wf_dapp _ W _ _ Hd) as Hs. case_decide as E.
    + rewrite E, Hs. by rewrite lookup_insert_eq.
    + destruct (app_ctx r !! i) as [[q|]|] eqn:Ei; [|done|done].
      rewrite lookup_insert_ne; [done|]. intros <-.
      destruct (wf_app _ W _ _ Ei) as (_ & d0 & H2 & H3 & _). congruence.
Qed.

Lemma enqueue_app_spec r sid buf i : router_wf r -> (i < JRTC_ROUTER_MAX_NUM_APPS)%nat ->
  let e := mk_data_entry sid (jbpf_io_channel_share_data_ptr buf) in
  if overflows r i then enqueue_app r sid buf i = Fault OutOfBounds
  else exists r', enqueue_app r sid buf i = Ret (r', if has_room (app_queue r i) then [IoShare buf] else []) /\
    same_registry r r' /\
    forall j, app_queue r' j = (if decide (j = i) then deliver e (app_queue r i) else app_queue r j) /\
      (j <> i -> overflows r' j = overflows r j).
Proof.
  intros W Hi e. unfold enqueue_app, overflows at 1.
  destruct (lookup_lt_is_Some_2 (app_ctx r) i) as [slot Es]; [by rewrite (wf_ctx_len _ W)|].
  rewrite (array_get_Some _ _ _ Es), Es. cbn [mbind outcome_bind]. destruct slot as [p|].
  2: { exists r. assert (Hq : app_queue r i = None) by (unfold app_queue; by rewrite Es). rewrite Hq.
       split_and!; try done. intros j. by case_decide; subst. }
  destruct (wf_app _ W _ _ Es) as (_ & d & Hd & Hid & Wd). rewrite (deref_Some _ _ _ Hd), Hd. cbn [mbind outcome_bind].
  assert (Hq : app_queue r i = Some (queue d, pool_cap (data_entry_pool d)))
    by (unfold app_queue; by rewrite Es, Hd). rewrite Hq. cbn [has_room deliver].
  destruct (Z.ltb_spec (Z.of_nat (length (queue d))) (pool_cap (data_entry_pool d))) as [Hlt|Hge]; cbn [andb].
  - destruct (dapp_enqueue d e Wd Hlt) as (b & pool & ring' & Ea & Er & H1 & H2 & H3 & H4).
    rewrite Ea. cbv zeta. rewrite Er. destruct (ringbuffer d <=? ck_ring_slot (ring d)); [done|].
    cbn [mbind outcome_bind]. eexists. split; [reflexivity|]. rewrite <- Hid.
    destruct (upd_dapp_registry r p d _ W Hd H1 eq_refl eq_refl H4 eq_refl) as [Hr Hq'].
    split; [exact Hr|]. intros j. destruct (Hq' j) as [Hj ?]. split; [|done]. etransitivity; [exact Hj|].
    case_decide; [|done]. by rewrite H2, <- H3.
  - rewrite (queue_length _ Wd) in Hge. rewrite mbuf_alloc_full by done. exists r. split_and!; try done.
    intros j. by case_decide; subst.
Qed.

(** ** The loops *)

(** How many of the applications [l] take the message. *)
Definition takers (r : router) (l : list nat) : nat :=
  length (filter (λ i, has_room (app_queue r i) = true) l).

Lemma takers_ext r r' l : (forall i, i ∈ l -> app_queue r' i = app_queue r i) -> takers r' l = takers r l.
Proof.
  intros H. unfold takers. f_equal. apply filter_ext_in. intros i Hi. by rewrite H.
Qed.

Lemma app_loop_spec l fuel lr it r sid buf : router_wf r ->
  ck_rest lr it = l -> NoDup l -> Forall (λ i, i < JRTC_ROUTER_MAX_NUM_APPS)%nat l -> (length l < fuel)%nat ->
  let e := mk_data_entry sid (jbpf_io_channel_share_data_ptr buf) in
  if existsb (overflows r) l then app_loop fuel lr it r sid buf = Fault OutOfBounds
  else exists it' r', app_loop fuel lr it r sid buf = Ret (it', r', replicate (takers r l) (IoShare buf)) /\
    ck_rest lr it' = [] /\ same_registry r r' /\
    forall i, app_queue r' i = if decide (i ∈ l) then deliver e (app_queue r i) else app_queue r i.
Proof.
  intros W. revert fuel it r W.
  induction l as [|a l IH]; intros [|fuel] it r W Hr Hnd Hlt Hf; cbn in Hf; try lia; cbn [app_loop existsb].
  - destruct (ck_next_none _ _ Hr) as (it' & -> & Hr'). exists it', r. split_and!; try done.
  - destruct (ck_next_some _ _ _ _ Hr) as (it1 & -> & Hr1).
    apply NoDup_cons in Hnd as [Ha Hnd]. apply Forall_cons in Hlt as [Hla Hlt].
    pose proof (enqueue_app_spec r sid buf a W Hla) as Hen. cbv zeta in Hen.
    destruct (overflows r a); [by rewrite Hen|]. destruct Hen as (r1 & -> & Hs1 & Hq1). cbn [mbind outcome_bind orb].
    assert (Hne : forall i, i ∈ l -> i <> a) by (by intros i Hi ->).
    replace (existsb (overflows r) l) with (existsb (overflows r1) l).
    2: { clear -Hq1 Hne. induction l as [|b l IHl]; [done|]. cbn. f_equal.
         - apply Hq1, Hne, list_elem_of_here.
         - apply IHl. intros i Hi. apply Hne. by apply list_elem_of_further. }
    pose proof (IH fuel it1 r1 (proj1 Hs1) Hr1 Hnd Hlt ltac:(lia)) as H2. cbv zeta in H2.
    destruct (existsb (overflows r1) l); [by rewrite H2|].
    destruct H2 as (it2 & r2 & -> & Hr2 & Hs2 & Hq2).
    cbn [mbind outcome_bind]. exists it2, r2. split_and!; [|done|by eapply same_registry_trans|].
    + do 2 f_equal. rewrite (takers_ext r r1).
      2: { intros i Hi. rewrite (proj1 (Hq1 i)), decide_False; [done|]. by apply Hne. }
      unfold takers. rewrite filter_cons. by destruct (has_room (app_queue r a)).
    + intros i. rewrite Hq2, !(proj1 (Hq1 i)). destruct (decide (i = a)) as [->|Hia].
      * by rewrite (decide_False (P := a ∈ l)), (decide_True (P := a ∈ a :: l)) by (done || apply list_elem_of_here).
      * apply decide_ext. rewrite elem_of_cons. naive_solver.
Qed.

(** The buffers that come after the iterator is exhausted are only released. *)
Lemma buf_loop_exhausted lr it (r : router) sid bufs : ck_rest lr it = [] ->
  buf_loop lr it r sid bufs = Ret (r, IoRelease <$> bufs).
Proof.
  revert it. induction bufs as [|b bufs IH]; intros it Hr; cbn [buf_loop app_loop]; [done|].
  destruct (ck_next_none _ _ Hr) as (it' & -> & Hr'). cbn [mbind outcome_bind]. by rewrite (IH it').
Qed.

Lemma recipients_facts r sid : NoDup (recipients r sid) /\
  Forall (λ i, i < JRTC_ROUTER_MAX_NUM_APPS)%nat (recipients r sid) /\
  (length (recipients r sid) <= JRTC_ROUTER_MAX_NUM_APPS)%nat.
Proof.
  unfold recipients. split_and!.
  - apply NoDup_filter, NoDup_seq.
  - apply Forall_forall. intros i (_ & Hi)%list_elem_of_filter. apply elem_of_seq in Hi. lia.
  - rewrite <- (length_seq JRTC_ROUTER_MAX_NUM_APPS 0) at 2. apply length_filter.
Qed.

Lemma upd_lookup_wf r lr : router_wf r -> ck_bitmap_bits lr = JRTC_ROUTER_MAX_NUM_APPS -> router_wf (upd_lookup r lr).
Proof. intros [] Hb. by constructor. Qed.

(** What forwarding does, on every branch. *)
Lemma forward_facts r sid buf bufs : router_wf r ->
  let e := mk_data_entry sid (jbpf_io_channel_share_data_ptr buf) in
  if overflow r sid then _jrtc_router_forward_msgs r true sid (buf :: bufs) = Fault OutOfBounds
  else exists r', _jrtc_router_forward_msgs r true sid (buf :: bufs) =
      Ret (r', replicate (takers r (recipients r sid)) (IoShare buf) ++ IoRelease buf :: (IoRelease <$> bufs)) /\
    router_wf r' /\ (covered r -> covered r') /\ app_ctx r' = app_ctx r /\ (forall i s, subscribed r' i s = subscribed r i s) /\
    forall i, app_queue r' i =
      if decide (i ∈ recipients r sid) then deliver e (app_queue r i) else app_queue r i.
Proof.
  intros W e. unfold _jrtc_router_forward_msgs. cbn [negb orb length].
  rewrite (proj2 (Z.leb_gt _ _)) by lia.
  destruct (lookup_rest r sid W) as (lr & -> & Hb & Hr). cbn [mbind outcome_bind].
  destruct (recipients_facts r sid) as (Hnd & Hlt & Hlen). cbn [buf_loop].
  pose proof (app_loop_spec (recipients r sid) (Datatypes.S (ck_bitmap_bits lr)) lr (ck_bitmap_iterator_init lr)
    (upd_lookup r lr) sid buf (upd_lookup_wf _ _ W Hb) Hr Hnd Hlt ltac:(lia)) as H. cbv zeta in H.
  change (existsb (overflows (upd_lookup r lr)) (recipients r sid)) with (overflow r sid) in H.
  destruct (overflow r sid); [by rewrite H|]. destruct H as (it' & r' & -> & Hr' & Hs & Hq).
  cbn [mbind outcome_bind]. rewrite buf_loop_exhausted by done. cbn [mbind outcome_bind].
  exists r'. destruct Hs as (W' & Hcov' & Hc & Hre & Hen & _). split_and!; try done.
  intros i s. unfold subscribed, req_bitmap. by rewrite Hre, Hen.
Qed.

Lemma forward_returns r sid buf bufs : router_wf r -> overflow r sid = false ->
  let e := mk_data_entry sid (jbpf_io_channel_share_data_ptr buf) in
  exists r', _jrtc_router_forward_msgs r true sid (buf :: bufs) =
      Ret (r', replicate (takers r (recipients r sid)) (IoShare buf) ++ IoRelease buf :: (IoRelease <$> bufs)) /\
    router_wf r' /\ (covered r -> covered r') /\ app_ctx r' = app_ctx r /\ (forall i s, subscribed r' i s = subscribed r i s) /\
    forall i, app_queue r' i =
      if decide (i ∈ recipients r sid) then deliver e (app_queue r i) else app_queue r i.
Proof. intros W Ho. pose proof (forward_facts r sid buf bufs W) as H. cbv zeta in H. by rewrite Ho in H. Qed.


(** C16: of a batch of buffers only the first is forwarded. The iterator over
    the recipients is set up once, before the loop over the buffers, so it is
    exhausted when the second buffer's turn comes: the others are released
    without having reached any application. (The forwarding of the first must
    not write behind a ring's buffer.) *)
Theorem forward_batch_first_only r sid buf bufs : router_wf r -> overflow r sid = false ->
  exists r' ev, _jrtc_router_forward_msgs r true sid [buf] = Ret (r', ev) /\
    exists r'', _jrtc_router_forward_msgs r true sid (buf :: bufs) = Ret (r'', ev ++ (IoRelease <$> bufs)) /\
      forall i, app_queue r'' i = app_queue r' i.
Proof.
  intros W Ho. destruct (forward_returns r sid buf [] W Ho) as (r' & E & _ & _ & _ & _ & Hq).
  destruct (forward_returns r sid buf bufs W Ho) as (r'' & E' & _ & _ & _ & _ & Hq').
  exists r'. eexists. split; [exact E|]. exists r''. split.
  - rewrite E'. do 2 f_equal. by rewrite <- app_assoc.
  - intros i. by rewrite Hq, Hq'.
Qed.

End Forward.
