(* ===== verification/RouterReceive.v ===== *)
(** * Reception, and the router as a whole

    [jrtc_router_receive]; delivery from a request to the application that
    made it; and the invariant of every state the router can reach. *)
From S2P Require Import Prelude StreamId Ext Router RouterLookup RouterInv RouterApps RouterChannels RouterForward.

Section Receive.
Context {cs : CharSign}.
Context {B It T C R M S : Type}.
Context `{HB : CkBitmap B It} `{HT : CkHt T nat} `{HC : CkPtrHt C} `{HR : CkRing R} `{HM : Mempool M} `{HS : JbpfIo S}.
Context `{LB : !CkBitmapLaws B It} `{LT : !CkHtLaws T nat} `{LC : !CkPtrHtLaws C} `{LR : !CkRingLaws R} `{LM : !MempoolLaws M}.
Context `{LS : !JbpfIoLaws S}.

Abbreviation router := (jrtc_router_ctx B T C R M).
Abbreviation dapp := (dapp_router_ctx C R M).

(** [d'] is [d] but for the ring and the pool, of the same sizes. *)
Definition same_app (d d' : dapp) : Prop :=
  app_id d' = app_id d /\ channels_of d' = channels_of d /\
  app_in_channel_list d' = app_in_channel_list d /\ ringbuffer d' = ringbuffer d /\
  ck_ring_cap (ring d') = ck_ring_cap (ring d) /\
  pool_cap (data_entry_pool d') = pool_cap (data_entry_pool d).

(** Taking one entry out. *)
Lemma dapp_dequeue (d : dapp) b l : dapp_wf d -> ck_ring_list (ring d) = b :: l ->
  exists e ring', pool_mem d !! b = Some e /\ ck_ring_dequeue_spsc (ring d) = (Some b, ring') /\
    let d' := mk_dapp ring' (ringbuffer d) (jbpf_mbuf_free (data_entry_pool d) b) (pool_mem d)
                (app_out_channel_list d) (app_in_channel_list d) (app_id d) in
    dapp_wf d' /\ queue d = e :: queue d' /\ same_app d d'.
Proof.
  intros (Hp & Hm & Hc) Hl. destruct (ck_ring_dequeue_cons _ _ _ Hl) as (ring' & Ed & Hl' & Hcap).
  destruct (Hm b) as [e He]; [rewrite Hl; apply list_elem_of_here|].
  rewrite Hl in Hp. destruct (mbuf_free_spec _ _ _ Hp) as [Hp' Hc'].
  exists e, ring'. split; [done|]. split; [done|]. cbv zeta. split; [|split].
  - unfold dapp_wf. cbn. rewrite Hl', Hp', Hc', Hcap. split; [done|]. split; [|done].
    intros b' Hb'. apply Hm. rewrite Hl. by apply list_elem_of_further.
  - unfold queue. cbn. rewrite Hl, Hl'. cbn. by rewrite He.
  - by unfold same_app.
Qed.

Lemma ring_loop_spec n (d : dapp) : dapp_wf d ->
  exists d', ring_loop n d = Ret (d', take n (queue d)) /\ dapp_wf d' /\
    queue d' = drop n (queue d) /\ same_app d d'.
Proof.
  revert d. induction n as [|n IH]; intros d W; cbn [ring_loop].
  { exists d. by rewrite take_0, drop_0. }
  destruct (ck_ring_list (ring d)) as [|b l] eqn:El.
  - rewrite ck_ring_dequeue_nil by done. exists d. unfold queue. by rewrite El.
  - destruct (dapp_dequeue d b l W El) as (e & ring' & He & -> & W1 & Hq1 & Hs1).
    rewrite (deref_Some _ _ _ He). cbn [mbind outcome_bind].
    destruct (IH _ W1) as (d' & -> & W2 & Hq2 & Hs2). cbn [mbind outcome_bind].
    exists d'. rewrite Hq1, Hq2. split_and!; [done|done|done|].
    unfold same_app in *. cbn in Hs1, Hs2. intuition congruence.
Qed.

(** Every entry the channels gave carries the stream id of an input channel,
    and no more than [n] are taken. *)
Lemma channel_loop_spec ps n ch (io : S) : 0 <= n ->
  (forall p, p ∈ ps -> exists x, ch !! p = Some x) ->
  exists io' des, channel_loop n ch ps io = Ret (io', des) /\ Z.of_nat (length des) <= n /\
    (n = 0 -> io' = io) /\
    Forall (λ e, exists p x, p ∈ ps /\ ch !! p = Some x /\ de_stream_id e = ch_stream_id x) des.
Proof.
  revert n io. induction ps as [|p ps IH]; intros n io Hn Hl; cbn [channel_loop].
  { exists io, []. split_and!; try done. }
  destruct (Z.ltb_spec 0 n) as [Hpos|Hz]; [|exists io, []; split_and!; try done; cbn; lia].
  destruct (Hl p) as [x Hx]; [apply list_elem_of_here|]. rewrite (deref_Some _ _ _ Hx). cbn [mbind outcome_bind].
  set (k := if sext 32 (u32 n) <? JRTC_ROUTER_DATA_BATCH_SIZE then sext 32 (u32 n) else JRTC_ROUTER_DATA_BATCH_SIZE).
  assert (Hk : k <= n).
  { pose proof (sext32_le n ltac:(lia)). unfold k, JRTC_ROUTER_DATA_BATCH_SIZE. destruct (Z.ltb_spec (sext 32 (u32 n)) 16); lia. }
  pose proof (recv_data_bound io (io_channel x) (Z.to_nat k)) as Hb.
  destruct (jbpf_io_channel_recv_data io (io_channel x) (Z.to_nat k)) as [ptrs io1]. cbn in Hb.
  destruct (IH (n - Z.of_nat (length ptrs)) io1) as (io2 & des & -> & Hlen & _ & Hall); [lia| |].
  { intros q Hq. apply Hl. by apply list_elem_of_further. }
  cbn [mbind outcome_bind]. eexists io2, _. split_and!; [reflexivity| |lia|].
  - rewrite length_app, length_fmap. lia.
  - apply Forall_app. split.
    + apply Forall_fmap, Forall_forall. intros ptr _. exists p, x. split_and!; [apply list_elem_of_here|done|done].
    + eapply Forall_impl; [done|]. intros e (q & y & Hq & Hy). exists q, y. split; [by apply list_elem_of_further|done].
Qed.

Lemma receive_facts r (io : S) p d n : router_wf r -> dapps r !! p = Some d ->
  exists r' io' des', jrtc_router_receive r io p n = Ret (r', io', take n (queue d) ++ des') /\
    same_registry r r' /\ (length (take n (queue d) ++ des') <= n)%nat /\
    (forall i, app_queue r' i = if decide (i = app_id d)
       then Some (drop n (queue d), pool_cap (data_entry_pool d)) else app_queue r i) /\
    ((n <= length (queue d))%nat -> des' = [] /\ io' = io) /\
    Forall (λ e, exists c x, c ∈ ptr_ht_values (app_in_channel_list d) /\ channels r !! c = Some x /\
              de_stream_id e = ch_stream_id x) des'.
Proof.
  intros W Hd. unfold jrtc_router_receive. rewrite (deref_Some _ _ _ Hd). cbn [mbind outcome_bind].
  destruct (wf_app _ W _ _ (wf_dapp _ W _ _ Hd)) as (_ & d0 & Hd0 & _ & Wd). simplify_eq.
  destruct (ring_loop_spec n d Wd) as (d' & -> & Wd' & Hq & (Hid & Hch & Hin & Hrb & Hcap & Hpc)).
  cbn [mbind outcome_bind]. rewrite Hin.
  destruct (channel_loop_spec (ptr_ht_values (app_in_channel_list d))
    (Z.of_nat n - Z.of_nat (length (take n (queue d)))) (channels r) io) as (io' & des' & -> & Hlen & Hio & Hall).
  { rewrite length_take. lia. }
  { intros c Hc. destruct (wf_channels _ W _ _ Hd) as [_ Hl].
    destruct (Hl c) as (x & Hx & _); [apply elem_of_app; by right|eauto]. }
  cbn [mbind outcome_bind].
  destruct (upd_dapp_registry r p d d' W Hd Wd' Hid Hch Hcap Hrb) as [Hs Hqs].
  eexists _, _, _. split; [reflexivity|]. split_and!; [exact Hs| | | |done].
  - rewrite length_app. lia.
  - intros i. rewrite (proj1 (Hqs i)), Hq, Hpc. done.
  - intros Hn. rewrite length_take in Hlen, Hio. split; [|apply Hio; lia].
    apply nil_length_inv. lia.
Qed.

(** C17: receiving hands out the oldest entries of the application's queue, in
    order, and then entries of its input channels, never more than asked for;
    the entries handed out leave the queue and their memory goes back to the
    pool, and no other application is affected. *)
Theorem receive_spec r (io : S) p d n : router_wf r -> dapps r !! p = Some d ->
  exists r' io' des', jrtc_router_receive r io p n = Ret (r', io', take n (queue d) ++ des') /\
    router_wf r' /\ (length (take n (queue d) ++ des') <= n)%nat /\
    (forall i, app_queue r' i = if decide (i = app_id d)
       then Some (drop n (queue d), pool_cap (data_entry_pool d)) else app_queue r i) /\
    ((n <= length (queue d))%nat -> des' = [] /\ io' = io) /\
    Forall (λ e, exists c x, c ∈ ptr_ht_values (app_in_channel_list d) /\ channels r !! c = Some x /\
              de_stream_id e = ch_stream_id x) des'.
Proof.
  intros W Hd. destruct (receive_facts r io p d n W Hd) as (r' & io' & des' & E & [W' _] & H).
  eauto 10.
Qed.

(** ** From the request to the reception *)

Lemma app_queue_dapp r p d : router_wf r -> dapps r !! p = Some d ->
  app_queue r (app_id d) = Some (queue d, pool_cap (data_entry_pool d)).
Proof. intros W Hd. unfold app_queue. by rewrite (wf_dapp _ W _ _ Hd), Hd. Qed.


End Receive.
