(* ===== verification/RouterInit.v ===== *)
(** * Router life cycle

    [jrtc_router_init] with its error paths, the polling step of the router
    thread, and the states the router can reach through its interface. *)
From stdpp Require Import relations.
From S2P Require Import Prelude StreamId Ext Router RouterLookup RouterInv RouterApps RouterChannels RouterForward RouterReceive.

(** What [jrtc_router_init] acquires. *)
Inductive resource :=
| IoLibrary
| ThreadArgs
| LookupResult
| ReqTable
| AppBitmap
| RouterThread.

#[global] Instance resource_eq_dec : EqDecision resource.
Proof. solve_decision. Defined.

(** The [io_type] of the context the IO library returned. *)
Inductive jbpf_io_type :=
| JBPF_IO_IPC_PRIMARY
| JBPF_IO_IPC_SECONDARY
| JBPF_IO_LOCAL_PRIMARY.

#[global] Instance jbpf_io_type_eq_dec : EqDecision jbpf_io_type.
Proof. solve_decision. Defined.

Section Init.
Context {cs : CharSign}.
Context {B It T C R M S : Type}.
Context `{HB : CkBitmap B It} `{HT : CkHt T nat} `{HC : CkPtrHt C} `{HR : CkRing R} `{HM : Mempool M} `{HS : JbpfIo S}.

Abbreviation router := (jrtc_router_ctx B T C R M).

(** What the calls that can fail return. *)
Record init_env := mk_init_env {
  ie_config : bool;
  ie_io_init : bool;
  ie_malloc_args : bool;
  ie_malloc_lookup : bool;
  ie_ht_init : option T;
  ie_malloc_bitmap : bool;
  ie_pthread_create : Z
}.

Definition release (x : resource) (live : list resource) : list resource := filter (λ y, y <> x) live.

(** The labels of the function, each falling through to the next. *)
Definition error_router_thread (live : list resource) := release IoLibrary live.
Definition error_thread_init (live : list resource) := error_router_thread (release ThreadArgs live).
Definition error_lookup_res (live : list resource) := error_thread_init (release LookupResult live).
Definition error_app_metadata_init (live : list resource) := error_lookup_res (release ReqTable live).

(** The return value, the resources held afterwards, and the state of the
    global context when it is usable. *)
Definition jrtc_router_init (env : init_env) : Z * list resource * option router :=
  if negb (ie_config env) then (-1, [], None)
  else if negb (ie_io_init env) then (-1, [], None)
  else
    let live := [IoLibrary] in
    if negb (ie_malloc_args env) then (-1, error_router_thread live, None)
    else
      let live := ThreadArgs :: live in
      if negb (ie_malloc_lookup env) then (-1, error_thread_init live, None)
      else
        let live := LookupResult :: live in
        let lookup := ck_bitmap_init JRTC_ROUTER_MAX_NUM_APPS false in
        match ie_ht_init env with
        | None => (-1, error_lookup_res live, None)
        | Some reqs =>
            let live := ReqTable :: live in
            if negb (ie_malloc_bitmap env) then (-1, error_app_metadata_init live, None)
            else
              let live := AppBitmap :: live in
              let bits := ck_bitmap_init JRTC_ROUTER_MAX_NUM_APPS false in
              if negb (ie_pthread_create env =? 0) then (-1, error_thread_init live, None)
              else
                (0, RouterThread :: live,
                 Some (mk_router reqs ∅ lookup (replicate JRTC_ROUTER_MAX_NUM_APPS None) bits ∅ ∅))
        end.

(** [jbpf_io_channel_handle_out_bufs] hands the router the buffers of one
    output channel after the other. *)
Fixpoint handle_out_bufs (r : router) (batches : list (jrtc_router_stream_id * list Z)) :
    outcome (router * list io_event) :=
  match batches with
  | [] => Ret (r, [])
  | (sid, bufs) :: batches =>
      '(r, ev) ← _jrtc_router_forward_msgs r true sid bufs;
      '(r, ev') ← handle_out_bufs r batches;
      Ret (r, ev ++ ev')
  end.

(** [io_ctx] is [None] for NULL. *)
Definition _jrtc_router_handle_incoming_msgs (io_ctx : option jbpf_io_type) (r : router)
    (batches : list (jrtc_router_stream_id * list Z)) : outcome (router * list io_event) :=
  match io_ctx with
  | None => Ret (r, [])
  | Some ty => if decide (ty = JBPF_IO_IPC_SECONDARY) then Ret (r, []) else handle_out_bufs r batches
  end.

Context `{LB : !CkBitmapLaws B It} `{LT : !CkHtLaws T nat} `{LC : !CkPtrHtLaws C} `{LR : !CkRingLaws R} `{LM : !MempoolLaws M}.
Context `{LS : !JbpfIoLaws S}.

(** ** Initialisation *)

(** A new request table is empty. *)
Definition init_env_ok (env : init_env) : Prop :=
  forall t, ie_ht_init env = Some t -> forall k, ck_ht_get_spmc t k = None.

Lemma initial_wf (t : T) : (forall k, ck_ht_get_spmc t k = None) ->
  let r : router := mk_router t ∅ (ck_bitmap_init JRTC_ROUTER_MAX_NUM_APPS false)
    (replicate JRTC_ROUTER_MAX_NUM_APPS None) (ck_bitmap_init JRTC_ROUTER_MAX_NUM_APPS false) ∅ ∅ in
  router_wf r /\ covered r.
Proof.
  intros Ht r. split; [|intros p d; cbn; by rewrite lookup_empty].
  constructor; cbn -[JRTC_ROUTER_MAX_NUM_APPS].
  - apply length_replicate.
  - apply ck_init_bits.
  - apply ck_init_bits.
  - intros k p. by rewrite Ht.
  - intros i p. rewrite lookup_replicate. by intros [? _].
  - intros p d. by rewrite lookup_empty.
  - intros i Hi. by rewrite ck_init_test.
  - intros a d. by rewrite lookup_empty.
Qed.

Lemma init_facts env : init_env_ok env ->
  match jrtc_router_init env with
  | (res, live, Some r) => res = 0 /\ router_wf r /\ covered r /\
      (forall i s, subscribed r i s = false) /\ (forall i, app_queue r i = None) /\
      forall x, x ∈ live
  | (res, live, None) => res = -1 /\
      live = (if bool_decide (ie_config env && ie_io_init env && ie_malloc_args env && ie_malloc_lookup env &&
                              ie_malloc_bitmap env = true /\ is_Some (ie_ht_init env))
              then [AppBitmap; ReqTable; LookupResult] else [])
  end.
Proof.
  intros Hok. unfold jrtc_router_init.
  destruct (ie_config env) eqn:E1, (ie_io_init env) eqn:E2, (ie_malloc_args env) eqn:E3, (ie_malloc_lookup env) eqn:E4;
    cbn [negb andb]; try (rewrite bool_decide_false by (by intros [? _]); by split).
  destruct (ie_ht_init env) as [t|] eqn:E5.
  2: { rewrite bool_decide_false by (by intros [_ [? ?]]). by split. }
  destruct (ie_malloc_bitmap env) eqn:E6; cbn [negb].
  2: { rewrite bool_decide_false by (by intros [? _]). by split. }
  destruct (ie_pthread_create env =? 0); cbn [negb].
  2: { rewrite bool_decide_true by (by split; [|eexists]). by split. }
  destruct (initial_wf t (Hok t E5)) as [W Hc]. split_and!; [done|exact W|exact Hc| | |].
  - intros i s. apply subscribed_absent. cbn. by apply Hok.
  - intros i. unfold app_queue. cbn -[JRTC_ROUTER_MAX_NUM_APPS].
    by destruct (replicate _ _ !! i) as [[p|]|] eqn:E; [apply lookup_replicate in E as [? _]| |].
  - intros x. apply list_elem_of_In. destruct x; cbn; tauto.
Qed.

(** Initialisation returns 0 with a well-formed router that has no
    application and no subscription, or -1; on failure it holds nothing,
    except when the router thread could not be started: then the lookup
    bitmap, the request table and the id bitmap are leaked. *)
Theorem router_init_spec env : init_env_ok env ->
  match jrtc_router_init env with
  | (res, live, Some r) => res = 0 /\ router_wf r /\ covered r /\
      (forall i s, subscribed r i s = false) /\ (forall i, app_queue r i = None) /\
      forall x, x ∈ live
  | (res, live, None) => res = -1 /\
      live = (if bool_decide (ie_config env && ie_io_init env && ie_malloc_args env && ie_malloc_lookup env &&
                              ie_malloc_bitmap env = true /\ is_Some (ie_ht_init env))
              then [AppBitmap; ReqTable; LookupResult] else [])
  end.
Proof. apply init_facts. Qed.

(** ** The router thread *)

(** The buffers released, in order. *)
Definition released (ev : list io_event) : list Z :=
  omap (λ e, match e with IoRelease b => Some b | _ => None end) ev.

Lemma released_app ev ev' : released (ev ++ ev') = released ev ++ released ev'.
Proof. apply omap_app. Qed.

Lemma released_shares n b : released (replicate n (IoShare b)) = [].
Proof. by induction n. Qed.

Lemma released_bufs bufs : released (IoRelease <$> bufs) = bufs.
Proof. induction bufs as [|b bufs IH]; [done|]. cbn. by f_equal. Qed.

Lemma forward_any r sid bufs : router_wf r ->
  (exists r' ev, _jrtc_router_forward_msgs r true sid bufs = Ret (r', ev) /\ router_wf r' /\ (covered r -> covered r') /\
     app_ctx r' = app_ctx r /\ (forall i s, subscribed r' i s = subscribed r i s) /\ released ev = bufs) \/
  (_jrtc_router_forward_msgs r true sid bufs = Fault OutOfBounds /\ ~ covered r).
Proof.
  intros W. destruct bufs as [|b bufs].
  { left. exists r, []. split_and!; done. }
  pose proof (forward_facts r sid b bufs W) as H. cbv zeta in H. destruct (overflow r sid) eqn:Ho.
  { right. split; [done|]. intros Hc. by rewrite covered_overflow in Ho. }
  left. destruct H as (r' & E & W' & Hc' & Ha & Hs & _). eexists r', _. split; [exact E|]. split_and!; try done.
  rewrite released_app, released_shares. cbn. f_equal. apply released_bufs.
Qed.

Lemma handle_out_bufs_spec batches r : router_wf r ->
  (exists r' ev, handle_out_bufs r batches = Ret (r', ev) /\ router_wf r' /\ (covered r -> covered r') /\
     app_ctx r' = app_ctx r /\ (forall i s, subscribed r' i s = subscribed r i s) /\
     released ev = concat batches.*2) \/
  (handle_out_bufs r batches = Fault OutOfBounds /\ ~ covered r).
Proof.
  revert r. induction batches as [|[sid bufs] batches IH]; intros r W; cbn [handle_out_bufs].
  { left. exists r, []. split_and!; done. }
  destruct (forward_any r sid bufs W) as [(r1 & ev1 & -> & W1 & Hc1 & Ha1 & Hs1 & Hr1)|[-> Hc]]; [|by right].
  cbn [mbind outcome_bind]. destruct (IH r1 W1) as [(r2 & ev2 & -> & W2 & Hc2 & Ha2 & Hs2 & Hr2)|[-> Hc]].
  2: { right. split; [done|]. auto. }
  left. cbn [mbind outcome_bind]. eexists r2, _. split; [reflexivity|]. split_and!; try done.
  - auto.
  - congruence.
  - intros i s. by rewrite Hs2.
  - rewrite released_app. cbn. by rewrite Hr1, Hr2.
Qed.

(** One polling step of the router thread goes through all the buffers of
    all the output channels, keeps the router well formed and the registrations
    and subscriptions as they are, and releases every buffer exactly once and in
    order; or it writes behind the buffer of a ring that is longer than its
    buffer. *)
Theorem handle_incoming_releases r ty batches : router_wf r -> ty <> JBPF_IO_IPC_SECONDARY ->
  (exists r' ev, _jrtc_router_handle_incoming_msgs (Some ty) r batches = Ret (r', ev) /\
     router_wf r' /\ (covered r -> covered r') /\ app_ctx r' = app_ctx r /\
     (forall i s, subscribed r' i s = subscribed r i s) /\ released ev = concat batches.*2) \/
  (_jrtc_router_handle_incoming_msgs (Some ty) r batches = Fault OutOfBounds /\ ~ covered r).
Proof.
  intros W Ht. unfold _jrtc_router_handle_incoming_msgs. rewrite decide_False by done.
  by apply handle_out_bufs_spec.
Qed.

(** ** Reachable states *)

(** The calls applications and the router thread make, each with what it may
    rely on: addresses that the allocator returns are not in use; the arguments
    are live; a channel is destroyed when no other channel of its application is
    found under its id (see [channel_destroy_dangling]). *)
Inductive router_step : router -> router -> Prop :=
| step_register r env q r' res ev : 0 <= q -> register_env_ok r env q ->
    jrtc_router_register_app r env q = Ret (r', res, ev) -> router_step r r'
| step_deregister r p r' ev : is_Some (dapps r !! p) ->
    jrtc_router_deregister_app r (Some p) = Ret (r', ev) -> router_step r r'
| step_request r env p s r' res : is_Some (dapps r !! p) -> request_env_fresh r env ->
    jrtc_router_channel_register_stream_id_req r env (Some p) s = Ret (r', res) -> router_step r r'
| step_withdraw r p s r' : is_Some (dapps r !! p) ->
    jrtc_router_channel_deregister_stream_id_req r (Some p) s = Ret r' -> router_step r r'
| step_create r env p o s r' res ev : is_Some (dapps r !! p) -> channel_env_fresh r env ->
    jrtc_router_channel_create r env (Some p) o s = Ret (r', res, ev) -> router_step r r'
| step_destroy r mem p x d r' ev : channels r !! p = Some x -> dapps r !! ch_app_ctx x = Some d ->
    keys_intact mem (channel_list d (is_output x)) (ch_stream_id x) p ->
    jrtc_router_channel_destroy r mem (Some p) = Ret (r', ev) -> router_step r r'
| step_poll r ty batches r' ev :
    _jrtc_router_handle_incoming_msgs (Some ty) r batches = Ret (r', ev) -> router_step r r'
| step_receive r (io : S) p n r' io' des : is_Some (dapps r !! p) ->
    jrtc_router_receive r io p n = Ret (r', io', des) -> router_step r r'.

(** In the state [r] no call of the interface faults, with one exception: a
    polling step can write behind the buffer of a ring, if there is a ring that
    is longer than its buffer. *)
Record no_fault (r : router) : Prop := {
  nf_register env q : 0 <= q -> register_env_ok r env q -> is_ret (jrtc_router_register_app r env q) = true;
  nf_deregister p : is_Some (dapps r !! p) -> is_ret (jrtc_router_deregister_app r (Some p)) = true;
  nf_request env p s : is_Some (dapps r !! p) -> request_env_fresh r env ->
    is_ret (jrtc_router_channel_register_stream_id_req r env (Some p) s) = true;
  nf_withdraw p s : is_Some (dapps r !! p) -> is_ret (jrtc_router_channel_deregister_stream_id_req r (Some p) s) = true;
  nf_create env p o s : is_Some (dapps r !! p) -> channel_env_fresh r env ->
    is_ret (jrtc_router_channel_create r env (Some p) o s) = true;
  nf_destroy mem p x d : channels r !! p = Some x -> dapps r !! ch_app_ctx x = Some d ->
    keys_intact mem (channel_list d (is_output x)) (ch_stream_id x) p ->
    is_ret (jrtc_router_channel_destroy r mem (Some p)) = true;
  nf_receive (io : S) p n : is_Some (dapps r !! p) -> is_ret (jrtc_router_receive r io p n) = true;
  nf_poll ty batches : is_ret (_jrtc_router_handle_incoming_msgs (Some ty) r batches) = true \/
    (_jrtc_router_handle_incoming_msgs (Some ty) r batches = Fault OutOfBounds /\ ~ covered r)
}.

Lemma wf_no_fault r : router_wf r -> no_fault r.
Proof.
  intros W. constructor.
  - intros env q Hq He. by destruct (register_app_facts r env q W Hq He) as (? & ? & ? & -> & _).
  - intros p [d Hd]. by destruct (deregister_app_facts r p d W Hd) as (? & ? & -> & _).
  - intros env p s [d Hd] He. by destruct (register_req_facts r env p d s W He Hd) as (? & ? & -> & _).
  - intros p s [d Hd]. by destruct (deregister_req_facts r p d s W Hd) as (? & -> & _).
  - intros env p o s [d Hd] He. by destruct (channel_create_facts r env p d o s W He Hd) as (? & ? & ? & -> & _).
  - intros mem p x d Hx Hd Hk. by destruct (channel_destroy_facts r mem p x d W Hx Hd Hk) as (? & ? & -> & _).
  - intros io p n [d Hd]. by destruct (receive_facts r io p d n W Hd) as (? & ? & ? & -> & _).
  - intros ty batches. unfold _jrtc_router_handle_incoming_msgs. case_decide; [by left|].
    destruct (handle_out_bufs_spec batches r W) as [(? & ? & -> & _)|[-> ?]]; [by left|by right].
Qed.

Lemma router_step_wf r r' : router_wf r -> router_step r r' -> router_wf r'.
Proof.
  intros W Hstep. destruct Hstep.
  - destruct (register_app_facts r env q W H H0) as (r1 & res1 & ev1 & E1 & W1 & _). rewrite E1 in H1. by simplify_eq.
  - destruct H as [d Hd]. destruct (deregister_app_facts r p d W Hd) as (r1 & ev1 & E1 & W1 & _). rewrite E1 in H0. by simplify_eq.
  - destruct H as [d Hd]. destruct (register_req_facts r env p d s W H0 Hd) as (r1 & res1 & E1 & W1 & _).
    rewrite E1 in H1. by simplify_eq.
  - destruct H as [d Hd]. destruct (deregister_req_facts r p d s W Hd) as (r1 & E1 & W1 & _). rewrite E1 in H0. by simplify_eq.
  - destruct H as [d Hd]. destruct (channel_create_facts r env p d o s W H0 Hd) as (r1 & res1 & ev1 & E1 & W1 & _).
    rewrite E1 in H1. by simplify_eq.
  - destruct (channel_destroy_facts r mem p x d W H H0 H1) as (r1 & ev1 & E1 & W1 & _). rewrite E1 in H2. by simplify_eq.
  - unfold _jrtc_router_handle_incoming_msgs in H. case_decide; [by simplify_eq|].
    destruct (handle_out_bufs_spec batches r W) as [(r1 & ev1 & E1 & W1 & _)|[E1 _]]; rewrite E1 in H; by simplify_eq.
  - destruct H as [d Hd]. destruct (receive_facts r io p d n W Hd) as (r1 & io1 & des1 & E1 & (W1 & _) & _).
    rewrite E1 in H0. by simplify_eq.
Qed.

Lemma router_steps_wf r r' : rtc router_step r r' -> router_wf r -> router_wf r'.
Proof. induction 1 as [|r r1 r' Hs _ IH]; [done|]. intros W. apply IH. by eapply router_step_wf. Qed.

(** Rings stay as long as they are, and so do their buffers, unless one is
    registered that does not fit. *)
Lemma covered_insert (r r' : router) p d d' : covered r -> dapps r !! p = Some d ->
  dapps r' = <[p := d']> (dapps r) -> ring d' = ring d -> ringbuffer d' = ringbuffer d -> covered r'.
Proof.
  intros Hc Hd Hr Hring Hbuf q e. rewrite Hr, lookup_insert_Some. intros [[<- <-]|[_ Hq]]; [|by apply (Hc q)].
  rewrite Hring, Hbuf. by apply (Hc p).
Qed.

Lemma register_covered r env q k r' res ev : router_wf r -> covered r -> q + 1 = 2 ^ k -> 0 <= k -> register_env_ok r env q ->
  jrtc_router_register_app r env q = Ret (r', res, ev) -> covered r'.
Proof.
  intros W Hc Hq Hk He E. assert (0 < 2 ^ k) by lia.
  destruct (register_app_facts r env q W ltac:(lia) He) as (r1 & res1 & ev1 & E1 & W1 & _ & _ & H1).
  rewrite E1 in E. simplify_eq. destruct res as [p|].
  - destruct H1 as (i & d & _ & _ & Hd & _ & _ & _ & Hcap & Hb & Hm & _). intros p' d'.
    rewrite Hd, lookup_insert_Some. intros [[<- <-]|[_ Hp]]; [|by apply (Hc p')].
    assert (round_up_pow_of_two (q + 1) <= q + 1) by (apply ring_fits; [lia|eauto]). lia.
  - destruct H1 as (_ & Hd & _). intros p d. rewrite Hd. apply Hc.
Qed.


End Init.
