(* ===== verification/PubSub.v ===== *)
(** * The router as a publish/subscribe service

    What the router promises, without its tables, rings and pools: bounded
    queues, a set of subscriptions, and one rule per operation. The router
    refines it: what it does can be observed of the service too, step by step
    and so trace by trace ([router_refines]); what holds of the service's
    traces therefore holds of the router ([router_delivery]). *)
From stdpp Require Import relations.
From S2P Require Import Prelude StreamId Ext Router RouterLookup RouterInv RouterApps RouterChannels RouterForward RouterReceive RouterInit.

(** ** The service *)

Abbreviation entry := jrtc_router_data_entry.

(** For each application id the queue and its bound, and who asked for what. *)
Record hub := mk_hub {
  hq : nat -> option (list entry * Z);
  hs : nat -> jrtc_router_stream_id -> bool
}.

#[global] Instance hub_equiv : Equiv hub :=
  λ h h', (forall i, hq h i = hq h' i) /\ (forall i s, hs h i s = hs h' i s).
#[global] Instance hub_equivalence : Equivalence (≡@{hub}).
Proof.
  split.
  - by intros h.
  - intros h h' [H1 H2]. by split.
  - intros h1 h2 h3 [H1 H2] [H3 H4]. split; intros; [by rewrite H1|by rewrite H2].
Qed.

Definition set_queue (h : hub) (i : nat) (o : option (list entry * Z)) : hub :=
  mk_hub (λ j, if decide (j = i) then o else hq h j) (hs h).
Definition set_sub (h : hub) (i : nat) (s : jrtc_router_stream_id) (v : bool) : hub :=
  mk_hub (hq h) (λ j s', if decide (j = i /\ s' = s) then v else hs h j s').

#[global] Instance set_queue_proper i o : Proper ((≡) ==> (≡)) (λ h, set_queue h i o).
Proof. intros h h' [H1 H2]. split; cbn; intros; [by rewrite H1|done]. Qed.
#[global] Instance set_sub_proper i s v : Proper ((≡) ==> (≡)) (λ h, set_sub h i s v).
Proof. intros h h' [H1 H2]. split; cbn; intros; [done|by rewrite H2]. Qed.

(** Application [i] asked for a request that describes the stream. *)
Definition wants (h : hub) (sid : jrtc_router_stream_id) (i : nat) : Prop :=
  exists g, stream_id_wf g /\ generalises (decode g) (decode sid) /\ hs h i g = true.

#[global] Instance wants_proper : Proper ((≡) ==> (=) ==> (=) ==> iff) wants.
Proof. intros h h' [_ H] sid _ <- i _ <-. unfold wants. by setoid_rewrite H. Qed.

(** The entry of a batch: its first buffer (see [forward_batch_first_only]). *)
Definition published (share : Z -> Z) (batch : jrtc_router_stream_id * list Z) : list entry :=
  match batch.2 with [] => [] | b :: _ => [mk_data_entry batch.1 (share b)] end.

(** What an observer sees. A reception is split into what came out of the
    queue and what came from input channels, which the service does not know. *)
Inductive label :=
| LRegister (res : option (nat * Z))
| LDeregister (i : nat)
| LRequest (i : nat) (s : jrtc_router_stream_id) (ok : bool)
| LWithdraw (i : nat) (s : jrtc_router_stream_id)
| LPublish (e : entry)
| LReceive (i n : nat) (queued extra : list entry)
| LChannel.

Inductive hub_step (h : hub) : label -> hub -> Prop :=
| hub_register i cap : hq h i = None -> (forall j, (j < i)%nat -> is_Some (hq h j)) -> 0 <= cap ->
    hub_step h (LRegister (Some (i, cap))) (set_queue h i (Some ([], cap)))
| hub_register_fails : hub_step h (LRegister None) h
| hub_deregister i : is_Some (hq h i) -> hub_step h (LDeregister i) (set_queue h i None)
| hub_request i s : is_Some (hq h i) -> hub_step h (LRequest i s true) (set_sub h i s true)
| hub_request_fails i s : (forall j, hs h j s = false) -> hub_step h (LRequest i s false) h
| hub_withdraw i s : is_Some (hq h i) -> hub_step h (LWithdraw i s) (set_sub h i s false)
| hub_publish e h' : stream_id_wf (de_stream_id e) ->
    (forall i, (wants h (de_stream_id e) i /\ hq h' i = deliver e (hq h i)) \/
               (~ wants h (de_stream_id e) i /\ hq h' i = hq h i)) ->
    (forall i s, hs h' i s = hs h i s) -> hub_step h (LPublish e) h'
| hub_receive i n q cap extra : hq h i = Some (q, cap) -> (length (take n q ++ extra) <= n)%nat ->
    ((n <= length q)%nat -> extra = []) ->
    hub_step h (LReceive i n (take n q) extra) (set_queue h i (Some (drop n q, cap)))
| hub_channel : hub_step h LChannel h.

Definition hub_empty : hub := mk_hub (λ _, None) (λ _ _, false).

#[global] Instance data_entry_eq_dec : EqDecision entry.
Proof. solve_decision. Defined.
#[global] Instance label_eq_dec : EqDecision label.
Proof. solve_decision. Defined.

(** Finite traces of a labelled transition relation. *)
Inductive traces {St : Type} (step : St -> label -> St -> Prop) : St -> list label -> St -> Prop :=
| traces_nil s : traces step s [] s
| traces_cons s l s1 tr s2 : step s l s1 -> traces step s1 tr s2 -> traces step s (l :: tr) s2.

(** Equivalent hubs can do the same. *)
Lemma hub_step_equiv h k l h' : h ≡ k -> hub_step h l h' -> exists k', hub_step k l k' /\ h' ≡ k'.
Proof.
  intros E Hs. pose proof E as [Hq Hh]. destruct Hs.
  - eexists. split; [apply hub_register|by apply set_queue_proper]; [by rewrite <- Hq| |done].
    intros j Hj. rewrite <- Hq. auto.
  - eexists. by split; [constructor|].
  - eexists. split; [apply hub_deregister; by rewrite <- Hq|by apply set_queue_proper].
  - eexists. split; [apply hub_request; by rewrite <- Hq|by apply set_sub_proper].
  - eexists. split; [apply hub_request_fails; intros; by rewrite <- Hh|done].
  - eexists. split; [apply hub_withdraw; by rewrite <- Hq|by apply set_sub_proper].
  - exists h'. split; [|done]. apply hub_publish; [done|..].
    + intros i. rewrite <- Hq, <- E. auto.
    + intros i s. rewrite <- Hh. auto.
  - eexists. split; [apply hub_receive; [by rewrite <- Hq|done|done]|by apply set_queue_proper].
  - eexists. by split; [constructor|].
Qed.

(** ** A property of the service: order, no duplicates, no inventions *)

Definition received (i : nat) (l : label) : list entry :=
  match l with LReceive j _ queued _ => if decide (j = i) then queued else [] | _ => [] end.
Definition offered (l : label) : list entry := match l with LPublish e => [e] | _ => [] end.

#[global] Instance generalises_dec g f : Decision (generalises g f).
Proof. unfold generalises. apply _. Defined.

(** The entries that the request [g] describes. *)
Definition described (g : jrtc_router_stream_id) (l : list entry) : list entry :=
  filter (λ e, generalises (decode g) (decode (de_stream_id e))) l.

(** [e] is described by a request among [subs]. *)
Definition asked (subs : jrtc_router_stream_id -> bool) (e : entry) : Prop :=
  exists g, stream_id_wf g /\ generalises (decode g) (decode (de_stream_id e)) /\ subs g = true.

(** The labels that are about neither the requests nor the queue of [i]. *)
Definition aside (i : nat) (l : label) : Prop :=
  match l with
  | LRequest j _ ok => j <> i \/ ok = false
  | LWithdraw j _ => j <> i
  | LReceive j _ _ _ => j <> i
  | LDeregister j => j <> i
  | LPublish _ => False
  | LRegister _ | LChannel => True
  end.

(** Which of the publications of a trace application [i] gets, when it starts
    with the requests [subs] and [len] entries in a queue of at most [cap]: those
    that are described by a request it has at that moment and that find room. *)
Inductive accepts (i : nat) (cap : Z) : (jrtc_router_stream_id -> bool) -> nat -> list label -> list entry -> Prop :=
| accepts_nil subs len : accepts i cap subs len [] []
| accepts_taken subs len e tr acc : asked subs e -> Z.of_nat len < cap -> accepts i cap subs (S len) tr acc ->
    accepts i cap subs len (LPublish e :: tr) (e :: acc)
| accepts_unasked subs len e tr acc : ~ asked subs e -> accepts i cap subs len tr acc ->
    accepts i cap subs len (LPublish e :: tr) acc
| accepts_full subs len e tr acc : cap <= Z.of_nat len -> accepts i cap subs len tr acc ->
    accepts i cap subs len (LPublish e :: tr) acc
| accepts_receive subs len n queued extra tr acc : accepts i cap subs (len - length queued) tr acc ->
    accepts i cap subs len (LReceive i n queued extra :: tr) acc
| accepts_request subs subs' len s tr acc : (forall s', subs' s' = if decide (s' = s) then true else subs s') ->
    accepts i cap subs' len tr acc -> accepts i cap subs len (LRequest i s true :: tr) acc
| accepts_withdraw subs subs' len s tr acc : (forall s', subs' s' = if decide (s' = s) then false else subs s') ->
    accepts i cap subs' len tr acc -> accepts i cap subs len (LWithdraw i s :: tr) acc
| accepts_aside subs len l tr acc : aside i l -> accepts i cap subs len tr acc -> accepts i cap subs len (l :: tr) acc.

(** Nothing is invented, and nothing that a standing request describes is lost
    as long as there is room. *)
Lemma accepts_offered i cap subs len tr acc : accepts i cap subs len tr acc ->
  acc `sublist_of` concat (offered <$> tr).
Proof.
  induction 1; cbn [fmap list_fmap concat offered app]; try done; try (by constructor).
  destruct l; try done.
Qed.

Lemma accepts_lossless i cap subs len tr acc g : accepts i cap subs len tr acc -> LWithdraw i g ∉ tr ->
  stream_id_wf g -> subs g = true -> Z.of_nat (len + length (concat (offered <$> tr))) <= cap ->
  described g (concat (offered <$> tr)) `sublist_of` acc.
Proof.
  intros Ha. induction Ha; intros Hw Wg Hg; cbn [fmap list_fmap concat offered app length]; intros Hroom;
    try (apply not_elem_of_cons in Hw as [Hl Hw]); try lia.
  - constructor.
  - unfold described. rewrite filter_cons. case_decide; [apply sublist_skip|apply sublist_cons]; apply IHHa; auto; lia.
  - unfold described. rewrite filter_cons_False; [apply IHHa; auto; lia|]. intros Hd. apply H. by exists g.
  - apply IHHa; auto. lia.
  - apply IHHa; auto. rewrite H. by case_decide.
  - apply IHHa; auto. rewrite H, decide_False; [done|]. congruence.
  - destruct l; try (by destruct H); apply IHHa; auto.
Qed.

(** Only what is asked for matters. *)
Lemma asked_ext subs subs' e : (forall s, subs s = subs' s) -> asked subs e <-> asked subs' e.
Proof. intros H. unfold asked. by setoid_rewrite H. Qed.

Lemma accepts_ext i cap subs subs' len tr acc : (forall s, subs s = subs' s) ->
  accepts i cap subs len tr acc -> accepts i cap subs' len tr acc.
Proof.
  intros E Ha. revert subs' E. induction Ha; intros subs1 E.
  - constructor.
  - apply accepts_taken; [by apply (asked_ext subs)|done|auto].
  - apply accepts_unasked; [by rewrite <- (asked_ext subs)|auto].
  - apply accepts_full; auto.
  - apply accepts_receive; auto.
  - eapply accepts_request; [|exact Ha]. intros s'. by rewrite H, E.
  - eapply accepts_withdraw; [|exact Ha]. intros s'. by rewrite H, E.
  - apply accepts_aside; auto.
Qed.

(** The queue of [i] along a trace: its front is handed out, and what is put at
    its end is what [accepts] says. *)
Lemma hub_delivery h tr h' i q cap : traces hub_step h tr h' -> LDeregister i ∉ tr -> hq h i = Some (q, cap) ->
  exists q' acc, hq h' i = Some (q', cap) /\ concat (received i <$> tr) ++ q' = q ++ acc /\
    accepts i cap (hs h i) (length q) tr acc.
Proof.
  intros Htr. revert q. induction Htr as [h|h l h1 tr h2 Hs _ IH]; intros q Hni Hq.
  { exists q, []. rewrite app_nil_r. split_and!; try done. constructor. }
  apply not_elem_of_cons in Hni as [Hl Hni]. specialize (λ q, IH q Hni) as IH'. clear IH. rename IH' into IH.
  destruct Hs as [j c Hj| |j Hj|j s Hj|j s|j s Hj|e h' _ Hp Hsub|j n q1 cap1 extra Hj|]; cbn [fmap list_fmap concat received app].
  - destruct (IH q) as (q' & acc & H1 & H2 & H3); [cbn; by rewrite decide_False by congruence|].
    exists q', acc. split_and!; [done..|]. by apply accepts_aside.
  - destruct (IH q Hq) as (q' & acc & H1 & H2 & H3). exists q', acc. split_and!; [done..|]. by apply accepts_aside.
  - destruct (IH q) as (q' & acc & H1 & H2 & H3); [cbn; by rewrite decide_False by congruence|].
    exists q', acc. split_and!; [done..|]. apply accepts_aside; [|done]. cbn. congruence.
  - destruct (IH q Hq) as (q' & acc & H1 & H2 & H3). exists q', acc. split_and!; [done..|].
    destruct (decide (j = i)) as [->|Hji].
    + eapply accepts_request; [|exact H3]. intros s'. cbn. destruct (decide (s' = s)) as [->|Hs'].
      * by rewrite decide_True.
      * rewrite decide_False; [done|]. by intros [_ ?].
    + apply accepts_aside; [by left|]. eapply accepts_ext; [|exact H3]. intros s'. cbn. rewrite decide_False; [done|].
      intros [? _]. congruence.
  - destruct (IH q Hq) as (q' & acc & H1 & H2 & H3). exists q', acc. split_and!; [done..|]. apply accepts_aside; [by right|done].
  - destruct (IH q Hq) as (q' & acc & H1 & H2 & H3). exists q', acc. split_and!; [done..|].
    destruct (decide (j = i)) as [->|Hji].
    + eapply accepts_withdraw; [|exact H3]. intros s'. cbn. destruct (decide (s' = s)) as [->|Hs'].
      * by rewrite decide_True.
      * rewrite decide_False; [done|]. by intros [_ ?].
    + apply accepts_aside; [done|]. eapply accepts_ext; [|exact H3]. intros s'. cbn. rewrite decide_False; [done|].
      intros [? _]. congruence.
  - destruct (Hp i) as [[Hw Hq']|[Hn Hq']]; rewrite Hq in Hq'; cbn [deliver] in Hq'.
    + destruct (Z.ltb_spec (Z.of_nat (length q)) cap) as [Hlt|Hge]; destruct (IH _ Hq') as (q' & acc & H1 & H2 & H3).
      * exists q', (e :: acc). split_and!; [done|rewrite H2; by rewrite <- app_assoc|]. apply accepts_taken; [done|done|].
        rewrite length_app, Nat.add_1_r in H3. eapply accepts_ext; [exact (Hsub i)|exact H3].
      * exists q', acc. split_and!; [done..|]. apply accepts_full; [lia|]. eapply accepts_ext; [exact (Hsub i)|exact H3].
    + destruct (IH _ Hq') as (q' & acc & H1 & H2 & H3). exists q', acc. split_and!; [done..|].
      apply accepts_unasked; [done|]. eapply accepts_ext; [exact (Hsub i)|exact H3].
  - destruct (decide (j = i)) as [->|Hji].
    + rewrite Hq in Hj. simplify_eq. destruct (IH (drop n q1)) as (q' & acc & H1 & H2 & H3); [cbn; by rewrite decide_True|].
      exists q', acc. split_and!; [done| |].
      * by rewrite <- app_assoc, H2, app_assoc, take_drop.
      * apply accepts_receive. rewrite length_drop in H3. rewrite length_take.
        replace (length q1 - n `min` length q1)%nat with (length q1 - n)%nat by lia. done.
    + destruct (IH q) as (q' & acc & H1 & H2 & H3); [cbn; by rewrite decide_False by congruence|].
      exists q', acc. split_and!; [done..|]. by apply accepts_aside.
  - destruct (IH q Hq) as (q' & acc & H1 & H2 & H3). exists q', acc. split_and!; [done..|]. by apply accepts_aside.
Qed.

(** ** The router *)

Section Refinement.
Context {cs : CharSign}.
Context {B It T C R M S : Type}.
Context `{HB : CkBitmap B It} `{HT : CkHt T nat} `{HC : CkPtrHt C} `{HR : CkRing R} `{HM : Mempool M} `{HS : JbpfIo S}.
Context `{LB : !CkBitmapLaws B It} `{LT : !CkHtLaws T nat} `{LC : !CkPtrHtLaws C} `{LR : !CkRingLaws R} `{LM : !MempoolLaws M}.
Context `{LS : !JbpfIoLaws S}.

Abbreviation router := (jrtc_router_ctx B T C R M).

(** The service a router is. *)
Definition abs (r : router) : hub := mk_hub (app_queue r) (subscribed r).

(** The entries a polling step offers. *)
Definition batch_entries (batches : list (jrtc_router_stream_id * list Z)) : list entry :=
  concat (published jbpf_io_channel_share_data_ptr <$> batches).

(** The calls of [router_step], with what is observed of them. A reception is
    observed as the list [jrtc_router_receive] returned, cut after as many
    entries as were queued. *)
Inductive router_call (r : router) : list label -> router -> Prop :=
| call_register env q r' res ev : 0 <= q -> register_env_ok r env q ->
    jrtc_router_register_app r env q = Ret (r', res, ev) ->
    router_call r [LRegister (p ← res; d ← dapps r' !! p; Some (app_id d, q))] r'
| call_deregister p d r' ev : dapps r !! p = Some d ->
    jrtc_router_deregister_app r (Some p) = Ret (r', ev) -> router_call r [LDeregister (app_id d)] r'
| call_request env p d s r' res : dapps r !! p = Some d -> request_env_fresh r env ->
    jrtc_router_channel_register_stream_id_req r env (Some p) s = Ret (r', res) ->
    router_call r [LRequest (app_id d) s (res =? 1)] r'
| call_withdraw p d s r' : dapps r !! p = Some d ->
    jrtc_router_channel_deregister_stream_id_req r (Some p) s = Ret r' -> router_call r [LWithdraw (app_id d) s] r'
| call_create env p o s r' res ev : is_Some (dapps r !! p) -> channel_env_fresh r env ->
    jrtc_router_channel_create r env (Some p) o s = Ret (r', res, ev) -> router_call r [LChannel] r'
| call_destroy mem p x d r' ev : channels r !! p = Some x -> dapps r !! ch_app_ctx x = Some d ->
    keys_intact mem (channel_list d (is_output x)) (ch_stream_id x) p ->
    jrtc_router_channel_destroy r mem (Some p) = Ret (r', ev) -> router_call r [LChannel] r'
| call_poll ty batches r' ev : Forall (λ b, stream_id_wf b.1) batches ->
    _jrtc_router_handle_incoming_msgs (Some ty) r batches = Ret (r', ev) ->
    router_call r (if decide (ty = JBPF_IO_IPC_SECONDARY) then [] else LPublish <$> batch_entries batches) r'
| call_receive (io : S) p d n r' io' des : dapps r !! p = Some d ->
    jrtc_router_receive r io p n = Ret (r', io', des) ->
    router_call r [LReceive (app_id d) n (take (length (queue d)) des) (drop (length (queue d)) des)] r'.

(** Sequences of calls. *)
Inductive router_traces : router -> list label -> router -> Prop :=
| rt_nil r : router_traces r [] r
| rt_call r tr r1 tr' r2 : router_call r tr r1 -> router_traces r1 tr' r2 -> router_traces r (tr ++ tr') r2.

(** ** Simulation, call by call *)

(** [tr] is a trace of the service from [r] to [r']. *)
Definition simulated (r : router) (tr : list label) (r' : router) : Prop :=
  exists h, traces hub_step (abs r) tr h /\ h ≡ abs r'.

Lemma simulated_step r l h r' : hub_step (abs r) l h -> h ≡ abs r' -> simulated r [l] r'.
Proof. intros H1 H2. exists h. split; [|done]. econstructor; [done|constructor]. Qed.

Lemma traces_equiv h k tr h' : h ≡ k -> traces hub_step h tr h' -> exists k', traces hub_step k tr k' /\ h' ≡ k'.
Proof.
  intros E H. revert k E. induction H as [h|h l h1 tr h2 Hs _ IH]; intros k E.
  { exists k. by split; [constructor|]. }
  destruct (hub_step_equiv h k l h1 E Hs) as (k1 & Hk & E1). destruct (IH k1 E1) as (k2 & Hk2 & E2).
  exists k2. split; [by econstructor|done].
Qed.

Lemma traces_app {St} (step : St -> label -> St -> Prop) s tr s1 tr' s2 :
  traces step s tr s1 -> traces step s1 tr' s2 -> traces step s (tr ++ tr') s2.
Proof. induction 1; [done|]. intros H'. econstructor; eauto. Qed.

Lemma simulated_app r tr r1 tr' r2 : simulated r tr r1 -> simulated r1 tr' r2 -> simulated r (tr ++ tr') r2.
Proof.
  intros (h & H1 & E1) (h' & H2 & E2). destruct (traces_equiv (abs r1) h tr' h' (symmetry E1) H2) as (k & Hk & E).
  exists k. split; [by eapply traces_app|]. by rewrite <- E.
Qed.
(** Registration: a new queue under the least free id. *)
Lemma register_simulated r env q r' res ev : router_wf r -> 0 <= q -> register_env_ok r env q ->
  jrtc_router_register_app r env q = Ret (r', res, ev) ->
  simulated r [LRegister (p ← res; d ← dapps r' !! p; Some (app_id d, q))] r'.
Proof.
  intros W Hq He E.
  destruct (register_app_facts r env q W Hq He) as (r1 & res1 & ev1 & E1 & W1 & Hr & Hre & H1).
  rewrite E1 in E. simplify_eq. destruct res as [p|].
  - destruct H1 as (i & d & [Hfree Hless] & Hctx & Hd & <- & Hqd & _ & _ & _ & _ & Hcap).
    cbn [mbind option_bind]. rewrite Hd, lookup_insert_eq. cbn [mbind option_bind].
    eapply simulated_step; [apply hub_register|split; cbn; intros i].
    + cbn. unfold app_queue. by rewrite Hfree.
    + intros j Hj. destruct (Hless j Hj) as [p' Hp']. destruct (wf_app _ W _ _ Hp') as (_ & d' & Hd' & _).
      cbn. unfold app_queue. rewrite Hp', Hd'. eauto.
    + lia.
    + pose proof (lookup_lt_Some _ _ _ Hfree) as Hlt. unfold app_queue at 2. rewrite Hctx. case_decide as Hi.
      * subst i. rewrite list_lookup_insert_eq, Hd, lookup_insert_eq by done. by rewrite Hqd, Hcap.
      * rewrite list_lookup_insert_ne by done. unfold app_queue. destruct (app_ctx r !! i) as [[p'|]|] eqn:Ei; try done.
        rewrite Hd, lookup_insert_ne; [done|]. intros ->.
        destruct (wf_app _ W _ _ Ei) as (_ & d' & Hd' & Hid & _).
        pose proof (wf_dapp _ W1 p' d) as H'. rewrite Hd, lookup_insert_eq in H'. specialize (H' eq_refl).
        assert (Hi' : app_ctx r' !! i = Some (Some p')) by (by rewrite Hctx, list_lookup_insert_ne).
        destruct (wf_app _ W1 _ _ Hi') as (_ & d1 & Hd1 & Hid1 & _). rewrite Hd, lookup_insert_eq in Hd1. congruence.
    + intros s. symmetry. unfold subscribed, req_bitmap. by rewrite Hr, Hre.
  - destruct H1 as (Hctx & Hd & _). eapply simulated_step; [apply hub_register_fails|].
    split; cbn; intros i; [unfold app_queue; by rewrite Hctx, Hd|].
    intros s. unfold subscribed, req_bitmap. by rewrite Hr, Hre.
Qed.

(** The queues depend on the slots and the contexts only. *)
Lemma app_queue_ctx (r r' : router) : app_ctx r' = app_ctx r -> dapps r' = dapps r -> forall i, app_queue r' i = app_queue r i.
Proof. intros H1 H2 i. unfold app_queue. by rewrite H1, H2. Qed.

Lemma app_queue_some r p d : router_wf r -> dapps r !! p = Some d -> is_Some (app_queue r (app_id d)).
Proof. intros W Hd. rewrite (app_queue_dapp r p d W Hd). eauto. Qed.

Lemma deregister_simulated r p d r' ev : router_wf r -> dapps r !! p = Some d ->
  jrtc_router_deregister_app r (Some p) = Ret (r', ev) -> simulated r [LDeregister (app_id d)] r'.
Proof.
  intros W Hd E. destruct (deregister_app_facts r p d W Hd) as (r1 & ev1 & E1 & W1 & Hd1 & Hctx & _ & _ & Hs).
  rewrite E1 in E. simplify_eq. eapply simulated_step; [apply hub_deregister; cbn; by eapply app_queue_some|].
  split; cbn; intros i; [|done]. pose proof (wf_dapp _ W _ _ Hd) as Hslot. unfold app_queue at 2. rewrite Hctx. case_decide as Hi.
  - subst i. rewrite list_lookup_insert_eq; [done|]. by eapply lookup_lt_Some.
  - rewrite list_lookup_insert_ne by done. unfold app_queue. destruct (app_ctx r !! i) as [[p'|]|] eqn:Ei; try done.
    rewrite Hd1, lookup_delete_ne; [done|]. intros ->. destruct (wf_app _ W _ _ Ei) as (_ & d' & Hd' & Hid & _). congruence.
Qed.

Lemma request_simulated r env p d s r' res : router_wf r -> dapps r !! p = Some d -> request_env_fresh r env ->
  jrtc_router_channel_register_stream_id_req r env (Some p) s = Ret (r', res) ->
  simulated r [LRequest (app_id d) s (res =? 1)] r'.
Proof.
  intros W Hd Hf E. destruct (register_req_facts r env p d s W Hf Hd) as (r1 & res1 & E1 & W1 & Hd1 & Hctx & Hres).
  rewrite E1 in E. simplify_eq. destruct Hres as [[-> Hs]|(-> & Hnone & Hs)]; cbn [Z.eqb Pos.eqb].
  - eapply simulated_step; [apply hub_request; cbn; by eapply app_queue_some|].
    split; cbn; intros i; [by rewrite (app_queue_ctx r r')|]. intros s'. by rewrite (Hs i s').
  - eapply simulated_step; [apply hub_request_fails|].
    + intros j. cbn. unfold subscribed, req_bitmap. rewrite Hnone. apply andb_false_r.
    + split; cbn; intros i; [by rewrite (app_queue_ctx r r')|]. intros s'. by rewrite (Hs i s').
Qed.

Lemma withdraw_simulated r p d s r' : router_wf r -> dapps r !! p = Some d ->
  jrtc_router_channel_deregister_stream_id_req r (Some p) s = Ret r' -> simulated r [LWithdraw (app_id d) s] r'.
Proof.
  intros W Hd E. destruct (deregister_req_facts r p d s W Hd) as (r1 & E1 & W1 & Hd1 & Hctx & Hs & _).
  rewrite E1 in E. simplify_eq. eapply simulated_step; [apply hub_withdraw; cbn; by eapply app_queue_some|].
  split; cbn; intros i; [by rewrite (app_queue_ctx r r')|]. intros s'. by rewrite (Hs i s').
Qed.

(** The channel operations are not visible. *)
Lemma channel_simulated r a d o t r' : app_ctx r' = app_ctx r -> dapps r !! a = Some d ->
  dapps r' = <[a := upd_channel_list d o t]> (dapps r) -> (forall i s, subscribed r' i s = subscribed r i s) ->
  simulated r [LChannel] r'.
Proof.
  intros Hctx Hd Hr Hs. eapply simulated_step; [apply hub_channel|]. split; cbn; intros i; [|done].
  unfold app_queue. rewrite Hctx. destruct (app_ctx r !! i) as [[p|]|]; try done. rewrite Hr, lookup_insert.
  case_decide as Hp; [subst p|done]. rewrite Hd. by destruct o.
Qed.

Lemma channel_create_ctx (r : router) env a o s r' c ev :
  jrtc_router_channel_create r env (Some a) o s = Ret (r', c, ev) -> app_ctx r' = app_ctx r.
Proof. unfold jrtc_router_channel_create. open_calls. Qed.

Lemma channel_destroy_ctx (r : router) mem p r' ev :
  jrtc_router_channel_destroy r mem (Some p) = Ret (r', ev) -> app_ctx r' = app_ctx r.
Proof. unfold jrtc_router_channel_destroy. open_calls. Qed.

Lemma receive_simulated r (io : S) p d n r' io' des : router_wf r -> dapps r !! p = Some d ->
  jrtc_router_receive r io p n = Ret (r', io', des) ->
  simulated r [LReceive (app_id d) n (take (length (queue d)) des) (drop (length (queue d)) des)] r'.
Proof.
  intros W Hd E. destruct (receive_facts r io p d n W Hd)
    as (r1 & io1 & des' & E1 & (_ & _ & _ & Hr & Hre & _) & Hlen & Hq & Hfull & _).
  rewrite E1 in E. simplify_eq.
  assert (Hcut : take (length (queue d)) (take n (queue d) ++ des') = take n (queue d) /\
                 drop (length (queue d)) (take n (queue d) ++ des') = des').
  { destruct (decide (n <= length (queue d))%nat) as [Hn|Hn].
    - destruct (Hfull Hn) as [-> _]. rewrite app_nil_r. split; [apply take_ge|apply drop_ge]; rewrite length_take; lia.
    - rewrite (take_ge (queue d)) by lia. by rewrite take_app_length, drop_app_length. }
  destruct Hcut as [-> ->].
  eapply simulated_step; [apply (hub_receive _ (app_id d) n (queue d) (pool_cap (data_entry_pool d)) des')|].
  - cbn. by apply (app_queue_dapp r p).
  - done.
  - intros Hn. by apply Hfull.
  - split; cbn; intros i; [by rewrite Hq|]. intros s. unfold subscribed, req_bitmap. by rewrite Hr, Hre.
Qed.

(** A polling step is one publication per channel that has buffers. *)
Lemma forward_simulated r sid bufs r' ev : router_wf r -> stream_id_wf sid ->
  _jrtc_router_forward_msgs r true sid bufs = Ret (r', ev) ->
  router_wf r' /\ simulated r (LPublish <$> published jbpf_io_channel_share_data_ptr (sid, bufs)) r'.
Proof.
  intros W Ws E. destruct bufs as [|b bufs].
  { injection E as <- <-. split; [done|]. exists (abs r). by split; [constructor|]. }
  pose proof (forward_facts r sid b bufs W) as H. cbv zeta in H. destruct (overflow r sid); [congruence|].
  destruct H as (r1 & E1 & W1 & _ & _ & Hs & Hq). rewrite E1 in E. simplify_eq.
  split; [done|]. cbn. eapply simulated_step; [|reflexivity]. apply hub_publish; cbn; [done| |done].
  intros i. rewrite Hq. case_decide as Hi.
  - left. split; [|done]. apply list_elem_of_filter in Hi as [Hi _]. by apply (interested_spec r sid i Ws).
  - right. split; [|done]. intros (g & Wg & Hg & Hsub). apply Hi. apply list_elem_of_filter.
    split; [apply (interested_spec r sid i Ws); eauto|]. apply elem_of_seq.
    cbn in Hsub. unfold subscribed in Hsub. apply andb_true_iff in Hsub as [Hlt%bool_decide_eq_true _]. lia.
Qed.

Lemma poll_simulated batches r r' ev : router_wf r -> Forall (λ b, stream_id_wf b.1) batches ->
  handle_out_bufs r batches = Ret (r', ev) -> simulated r (LPublish <$> batch_entries batches) r'.
Proof.
  intros I Hw. revert r r' ev I. induction Hw as [|[sid bufs] batches Ws _ IH]; intros r r' ev I; cbn [handle_out_bufs].
  { intros [= <- <-]. exists (abs r). by split; [constructor|]. }
  destruct (_jrtc_router_forward_msgs r true sid bufs) as [[r1 ev1]|] eqn:E1; cbn [mbind outcome_bind]; [|done].
  destruct (forward_simulated r sid bufs r1 ev1 I Ws E1) as [I1 S1].
  destruct (handle_out_bufs r1 batches) as [[r2 ev2]|] eqn:E2; cbn [mbind outcome_bind]; [|done].
  intros [= <- <-]. unfold batch_entries. cbn [fmap list_fmap concat]. rewrite fmap_app.
  eapply simulated_app; [exact S1|]. by eapply IH.
Qed.

Lemma router_call_simulated r tr r' : router_wf r -> router_call r tr r' -> router_wf r' /\ simulated r tr r'.
Proof.
  intros W Hcall. destruct Hcall.
  - split; [eapply router_step_wf; [done|by eapply (step_register (S := S))]|by eapply register_simulated].
  - split; [eapply router_step_wf; [done|by eapply (step_deregister (S := S))]|by eapply deregister_simulated].
  - split; [eapply router_step_wf; [done|by eapply (step_request (S := S))]|by eapply request_simulated].
  - split; [eapply router_step_wf; [done|by eapply (step_withdraw (S := S))]|by eapply withdraw_simulated].
  - split; [eapply router_step_wf; [done|by eapply (step_create (S := S))]|]. destruct H as [d Hd].
    destruct (channel_create_facts r env p d o s W H0 Hd) as (r1 & res1 & ev1 & E1 & _ & Hs & t & Ht & _).
    pose proof (channel_create_ctx _ _ _ _ _ _ _ _ H1). rewrite E1 in H1. simplify_eq. by eapply channel_simulated.
  - split; [eapply router_step_wf; [done|by eapply (step_destroy (S := S))]|].
    destruct (channel_destroy_facts r mem p x d W H H0 H1) as (r1 & ev1 & E1 & _ & (t & Ht & _) & Hs & _).
    pose proof (channel_destroy_ctx _ _ _ _ _ H2). rewrite E1 in H2. simplify_eq. by eapply channel_simulated.
  - split; [eapply router_step_wf; [done|by eapply (step_poll (S := S))]|].
    unfold _jrtc_router_handle_incoming_msgs in H0. case_decide; [|by eapply poll_simulated].
    simplify_eq. exists (abs r'). by split; [constructor|].
  - split; [eapply router_step_wf; [done|by eapply step_receive]|by eapply receive_simulated].
Qed.
(** ** Refinement *)

Lemma router_traces_simulated r tr r' : router_wf r -> router_traces r tr r' -> router_wf r' /\ simulated r tr r'.
Proof.
  intros I H. induction H as [r|r tr r1 tr' r2 Hc _ IH].
  { split; [done|]. exists (abs r). by split; [constructor|]. }
  destruct (router_call_simulated r tr r1 I Hc) as [I1 S1]. destruct (IH I1) as [I2 S2].
  split; [done|by eapply simulated_app].
Qed.

(** C2: the router refines the publish/subscribe service. Whatever sequence of
    calls that return is made of it after a successful initialisation, with any
    queue sizes, everything that can be observed (who is registered under which
    id and with which bound, which requests were accepted, what was published,
    and the lists [jrtc_router_receive] returned) is a trace of the service from
    its empty state, and the router ends in a state that the service's final
    state describes. (Each call is atomic; arguments are live, addresses from the
    allocator are not in use, and no channel is destroyed while the dead key of
    another one shows its id.) *)
Theorem router_refines env live r0 tr r : init_env_ok env -> jrtc_router_init env = (0, live, Some r0) ->
  router_traces r0 tr r -> exists h, traces hub_step hub_empty tr h /\ h ≡ abs r.
Proof.
  intros Hok E0 Htr. pose proof (init_facts env Hok) as H0. rewrite E0 in H0. destruct H0 as (_ & W & _ & Hs & Hq & _).
  destruct (router_traces_simulated r0 tr r W Htr) as [_ (h & Hh & Eh)].
  destruct (traces_equiv (abs r0) hub_empty tr h) as (k & Hk & Ek); [split; cbn; auto|done|].
  exists k. split; [done|]. by rewrite <- Ek.
Qed.

(** C3: exact delivery. Over any sequence of calls that return during which
    application [i] is not deregistered, what [jrtc_router_receive] returned to
    it from its queue followed by what is still queued is what was queued at
    the start followed by exactly those entries published since, in order, which
    a request it had at that moment describes and for which its queue had room
    ([accepts]). So nothing is invented or duplicated; and when the queue has
    room for all that is published, nothing that a request kept throughout
    describes is missing. *)
Theorem router_delivery r tr r' i q cap : router_wf r -> router_traces r tr r' ->
  LDeregister i ∉ tr -> app_queue r i = Some (q, cap) ->
  exists q' acc, app_queue r' i = Some (q', cap) /\ concat (received i <$> tr) ++ q' = q ++ acc /\
    accepts i cap (subscribed r i) (length q) tr acc /\ acc `sublist_of` concat (offered <$> tr) /\
    forall g, stream_id_wf g -> subscribed r i g = true -> LWithdraw i g ∉ tr ->
      Z.of_nat (length q + length (concat (offered <$> tr))) <= cap ->
      described g (concat (offered <$> tr)) `sublist_of` acc.
Proof.
  intros W Htr Hni Hq. destruct (router_traces_simulated r tr r' W Htr) as [_ (h & Hh & [Eq _])].
  destruct (hub_delivery (abs r) tr h i q cap Hh Hni Hq) as (q' & acc & Hq' & E & Ha).
  exists q', acc. split_and!; [by rewrite <- Hq', Eq|done|exact Ha|by eapply accepts_offered|].
  intros g Wg Hg Hw Hroom. by eapply accepts_lossless.
Qed.
End Refinement.
