(* ===== verification/RouterExample.v ===== *)
(** * A router at work

    Concrete states of the router over the reference libraries, computed by
    running its operations, at which its theorems apply. *)
From stdpp Require Import relations.
From S2P Require Import Prelude StreamId StreamIdSpec Ext Router RouterLookup RouterInv RouterApps RouterChannels RouterForward RouterReceive RouterInit.
Import Reference.

#[local] Instance signed_char : CharSign := true.

Abbreviation ex_router := (jrtc_router_ctx (list bool) (list (list Z * nat)) (list (nat * nat)) ring_ref (Z * list nat)).
Abbreviation ex_io := (gmap nat (list Z)).

Definition ret_or {A} (x : A) (o : outcome A) : A := match o with Ret a => a | Fault _ => x end.

(** The router after initialisation. *)
Definition ex_init : init_env := mk_init_env true true true true (Some ([] : list (list Z * nat))) true 0.
Definition r0 : ex_router :=
  mk_router [] ∅ (replicate 128 false) (replicate 128 None) (replicate 128 false) ∅ ∅.

(** An application with a queue of three entries, at address 10. *)
Definition ex_register (p : nat) : register_env (list (nat * nat)) (Z * list nat) :=
  mk_register_env (Some p) true (Some (3, [])) (Some []) (Some []).
Definition r1 : ex_router := (ret_or (r0, None, []) (jrtc_router_register_app r0 (ex_register 10) 3)).1.1.

(** It asks for all the streams of one path of one destination. *)
Definition ex_request : request_env := mk_request_env (Some 20%nat) true.
Definition r2 : ex_router :=
  (ret_or (r1, 0) (jrtc_router_channel_register_stream_id_req r1 ex_request (Some 10%nat) example_req)).1.

(** It creates an input channel, 30, whose key is at address 5. *)
Definition ex_key (k : nat) : list Z := if decide (k = 5)%nat then id example_sid else [].
Definition ex_channel (c : nat) : channel_env := mk_channel_env (Some c) (Some 40%nat) 5 ex_key.
Definition r3 : ex_router :=
  (ret_or (r2, None, []) (jrtc_router_channel_create r2 (ex_channel 30) (Some 10%nat) false example_sid)).1.1.

Lemma ex_init_ok : init_env_ok ex_init.
Proof. intros t [= <-] k. reflexivity. Qed.

Lemma ex_init_r0 : exists live, jrtc_router_init ex_init = (0, live, Some r0).
Proof. by eexists. Qed.

Lemma r0_inv : router_wf r0.
Proof.
  exact (proj1 (initial_wf (B := list bool) (C := list (nat * nat)) (R := ring_ref) (M := Z * list nat)
           (T := list (list Z * nat)) [] (fun _ => eq_refl))).
Qed.

Lemma ex_register_ok (r : ex_router) p : dapps r !! p = None -> register_env_ok r (ex_register p) 3.
Proof. intros H. constructor; by intros ? [= <-]. Qed.

Lemma step_r1 : router_step r0 r1.
Proof.
  apply (step_register (S := ex_io) r0 (ex_register 10) 3 r1 (Some 10%nat) [IoRegisterThread]);
    [done|by apply ex_register_ok|by vm_compute].
Qed.

Lemma r1_inv : router_wf r1.
Proof. exact (router_step_wf r0 r1 r0_inv step_r1). Qed.

Lemma r1_app : is_Some (dapps r1 !! 10%nat).
Proof. eexists. vm_compute. reflexivity. Qed.

Lemma r1_fresh : request_env_fresh r1 ex_request.
Proof. by intros p [= <-]. Qed.

Lemma step_r2 : router_step r1 r2.
Proof.
  apply (step_request (S := ex_io) r1 ex_request 10 example_req r2 1 r1_app r1_fresh). by vm_compute.
Qed.

Lemma r2_inv : router_wf r2.
Proof. exact (router_step_wf r1 r2 r1_inv step_r2). Qed.

Definition d1 : dapp_router_ctx (list (nat * nat)) ring_ref (Z * list nat) :=
  mk_dapp (mk_ring 3 0 []) 4 (3, []) ∅ [] [] 0.
Definition d3 : dapp_router_ctx (list (nat * nat)) ring_ref (Z * list nat) :=
  mk_dapp (mk_ring 3 0 []) 4 (3, []) ∅ [] [(5, 30)]%nat 0.
Definition x3 : dapp_channel_ctx := mk_channel 40 example_sid 10 false.

Lemma r1_d1 : dapps r1 !! 10%nat = Some d1.
Proof. reflexivity. Qed.
Lemma r2_d1 : dapps r2 !! 10%nat = Some d1.
Proof. reflexivity. Qed.
Lemma r3_d3 : dapps r3 !! 10%nat = Some d3.
Proof. vm_compute. reflexivity. Qed.
Lemma r3_x3 : channels r3 !! 30%nat = Some x3.
Proof. vm_compute. reflexivity. Qed.
Lemma r2_fresh_channel : channel_env_fresh r2 (ex_channel 30).
Proof. by intros c [= <-]. Qed.

Lemma step_r3 : router_step r2 r3.
Proof.
  apply (step_create (S := ex_io) r2 (ex_channel 30) 10 false example_sid r3 (Some 30%nat) []);
    [by rewrite r2_d1|exact r2_fresh_channel|by vm_compute].
Qed.

Lemma r3_inv : router_wf r3.
Proof. exact (router_step_wf r2 r3 r2_inv step_r3). Qed.

(** ** Requests *)

Lemma register_req_spec_witness : exists r' res,
  jrtc_router_channel_register_stream_id_req r1 ex_request (Some 10%nat) example_req = Ret (r', res) /\ router_wf r'.
Proof.
  destruct (register_req_spec r1 ex_request 10 d1 example_req r1_inv r1_fresh r1_d1)
    as (r' & res & E & W & _). eauto.
Defined.

Lemma deregister_req_spec_witness : exists r',
  jrtc_router_channel_deregister_stream_id_req r2 (Some 10%nat) example_req = Ret r' /\ router_wf r'.
Proof.
  destruct (deregister_req_spec r2 10 d1 example_req r2_inv r2_d1) as (r' & E & W & _). eauto.
Defined.

(** ** Applications *)

Lemma reserve_new_app_spec_witness : (_jrtc_router_reserve_new_app r1).1 = 1 /\ least_free_id r1 1.
Proof.
  split; [by vm_compute|].
  pose proof (reserve_new_app_spec r1 r1_inv) as H.
  destruct (_jrtc_router_reserve_new_app r1) as [res r'] eqn:E.
  assert (res = 1) as -> by (vm_compute in E; congruence).
  destruct H as [[? _]|(i & Hi & _ & Hl & _)]; [lia|]. by replace 1%nat with i by lia.
Defined.

Lemma register_app_spec_witness : exists r' res ev,
  jrtc_router_register_app r0 (ex_register 10) 3 = Ret (r', res, ev) /\ router_wf r'.
Proof.
  destruct (register_app_spec r0 (ex_register 10) 3 r0_inv ltac:(lia) (ex_register_ok r0 10 eq_refl))
    as (r' & res & ev & E & W & _). eauto.
Defined.

(** A queue of two entries: four ring slots, three of them allocated. *)
Definition ex_register2 : register_env (list (nat * nat)) (Z * list nat) :=
  mk_register_env (Some 10%nat) true (Some (2, [])) (Some []) (Some []).
Definition r_short : ex_router := (ret_or (r0, None, []) (jrtc_router_register_app r0 ex_register2 2)).1.1.

Lemma ex_register2_ok : register_env_ok r0 ex_register2 2.
Proof. constructor; by intros ? [= <-]. Qed.

Lemma register_app_ring_covered_witness : exists d,
  dapps r_short !! 10%nat = Some d /\ ~ ck_ring_cap (ring d) < ringbuffer d.
Proof.
  destruct (register_app_ring_covered r0 ex_register2 2 r_short 10 [IoRegisterThread] r0_inv
              ltac:(lia) ex_register2_ok eq_refl) as (d & Hd & Hc).
  exists d. split; [exact Hd|]. rewrite Hc. intros (k & Hk & E).
  assert (k < 1 \/ k = 1 \/ 2 <= k) as [?|[->|?]] by lia; [|lia|].
  - replace k with 0 in E by lia. lia.
  - assert (2 ^ 2 <= 2 ^ k) by (apply Z.pow_le_mono_r; lia). lia.
Defined.

Lemma deregister_app_spec_witness : exists r' ev,
  jrtc_router_deregister_app r3 (Some 10%nat) = Ret (r', ev) /\ router_wf r' /\ dapps r' = delete 10%nat (dapps r3).
Proof.
  destruct (deregister_app_spec r3 10 d3 r3_inv r3_d3) as (r' & ev & E & W & Hd & _). eauto.
Defined.

Definition r4 : ex_router := (ret_or (r2, []) (jrtc_router_deregister_app r2 (Some 10%nat))).1.
Definition r5 : ex_router := (ret_or (r4, None, []) (jrtc_router_register_app r4 (ex_register 11) 3)).1.1.

Lemma stale_subscription_witness : exists d2, dapps r5 !! 11%nat = Some d2 /\ subscribed r5 (app_id d2) example_req = true.
Proof.
  destruct (stale_subscription r2 10 d1 example_req (ex_register 11) 3 r4 [] r5 11 [IoRegisterThread]
    r2_inv r2_d1 ltac:(by vm_compute) ltac:(by vm_compute) ltac:(lia) (ex_register_ok r4 11 ltac:(by vm_compute))
    ltac:(split; [by vm_compute|intros j Hj; cbn in Hj; lia]) ltac:(by vm_compute)) as (d2 & H1 & _ & H2). eauto.
Defined.

(** ** Channels *)

Lemma channel_create_spec_witness : exists r' res ev,
  jrtc_router_channel_create r2 (ex_channel 30) (Some 10%nat) false example_sid = Ret (r', res, ev) /\ router_wf r'.
Proof.
  destruct (channel_create_spec r2 (ex_channel 30) 10 d1 false example_sid r2_inv r2_fresh_channel r2_d1)
    as (r' & res & ev & E & W & _). eauto.
Defined.

Lemma channel_destroy_spec_witness : exists r' ev,
  jrtc_router_channel_destroy r3 ex_key (Some 30%nat) = Ret (r', ev) /\ router_wf r'.
Proof.
  destruct (channel_destroy_spec r3 ex_key 30 x3 d3 r3_inv r3_x3 r3_d3) as (r' & ev & E & W & _).
  - intros e He _. apply list_elem_of_singleton in He. by rewrite He.
  - eauto.
Defined.

Lemma channel_destroy_dangling_witness : exists r',
  jrtc_router_channel_destroy r3 (fun _ => []) (Some 30%nat) = Ret (r', []) /\ channels r' = channels r3.
Proof.
  destruct (channel_destroy_dangling r3 (fun _ => []) 30 x3 d3 r3_inv r3_x3 r3_d3) as (r' & E & Hc & _).
  - intros e _. by vm_compute.
  - eauto.
Defined.

(** ** Messages *)

(** A message goes through the queue of the application and is received,
    [n] times over. *)
Fixpoint ping (n : nat) (r : ex_router) : outcome ex_router :=
  match n with
  | O => Ret r
  | Datatypes.S n =>
      '(r, _) ← _jrtc_router_forward_msgs r true example_sid [77];
      '(r, _, _) ← jrtc_router_receive r (∅ : ex_io) 10 1;
      ping n r
  end.

Definition r_short_req : ex_router :=
  (ret_or (r_short, 0) (jrtc_router_channel_register_stream_id_req r_short ex_request (Some 10%nat) example_req)).1.

Lemma step_r_short : router_step r0 r_short.
Proof.
  apply (step_register (S := ex_io) r0 ex_register2 2 r_short (Some 10%nat) [IoRegisterThread]);
    [done|exact ex_register2_ok|by vm_compute].
Qed.

Lemma step_r_short_req : router_step r_short r_short_req.
Proof.
  apply (step_request (S := ex_io) r_short ex_request 10 example_req r_short_req 1);
    [eexists; by vm_compute|by intros p [= <-]|by vm_compute].
Qed.

(** Each round is two calls of the interface. *)
Lemma ping_steps n r r' : router_wf r -> app_ctx r !! 0%nat = Some (Some 10%nat) ->
  ping n r = Ret r' -> router_wf r'.
Proof.
  revert r. induction n as [|n IH]; intros r W Ha; cbn [ping]; [by intros [= <-]|].
  destruct (forward_any (S := ex_io) r example_sid [77] W) as [(r1 & ev & -> & W1 & _ & Hc & _)|[-> _]]; [|done].
  cbn [mbind outcome_bind]. destruct (wf_app _ W1 0%nat 10%nat) as (_ & d & Hd & _); [by rewrite Hc|].
  destruct (receive_facts r1 (∅ : ex_io) 10 d 1 W1 Hd) as (r2 & io & des & -> & (W2 & _ & Hc2 & _) & _).
  cbn [mbind outcome_bind]. apply (IH r2 W2); by rewrite Hc2, Hc.
Qed.

Definition r_full : ex_router := ret_or r_short_req (ping 3 r_short_req).

Lemma r_short_req_wf : router_wf r_short_req.
Proof. exact (router_step_wf r_short r_short_req (router_step_wf r0 r_short r0_inv step_r_short) step_r_short_req). Qed.

Lemma r_full_wf : router_wf r_full.
Proof. apply (ping_steps 3 r_short_req r_full r_short_req_wf); by vm_compute. Qed.


Lemma r2_no_overflow : overflow r2 example_sid = false.
Proof. by vm_compute. Qed.
Lemma r2_subscribed : subscribed r2 0 example_req = true.
Proof. by vm_compute. Qed.

Lemma forward_batch_first_only_witness : exists r',
  _jrtc_router_forward_msgs r2 true example_sid [77; 78] = Ret (r', [IoShare 77; IoRelease 77; IoRelease 78]).
Proof.
  destruct (forward_batch_first_only (S := ex_io) r2 example_sid 77 [78] r2_inv r2_no_overflow)
    as (r' & ev & E & r'' & E' & _).
  exists r''. rewrite E'. do 2 f_equal. vm_compute in E. injection E as _ <-. reflexivity.
Defined.

Lemma receive_spec_witness : exists r' io' des',
  jrtc_router_receive r3 ({[40%nat := [5; 6]]} : ex_io) 10 4 = Ret (r', io', des') /\ (length des' <= 4)%nat.
Proof.
  destruct (receive_spec r3 ({[40%nat := [5; 6]]} : ex_io) 10 d3 4 r3_inv r3_d3)
    as (r' & io' & des' & E & _ & Hl & _). eauto.
Defined.


(** ** Life cycle *)

Lemma router_init_spec_witness : (jrtc_router_init ex_init : Z * list resource * option ex_router).1.1 = 0 /\ router_wf r0.
Proof.
  pose proof (router_init_spec (B := list bool) (C := list (nat * nat)) (R := ring_ref) (M := Z * list nat)
    ex_init ex_init_ok) as H.
  destruct ex_init_r0 as [live E]. rewrite E in H. destruct H as (_ & W & _). split; [by rewrite E|exact W].
Defined.

Lemma handle_incoming_releases_witness : exists r' ev,
  _jrtc_router_handle_incoming_msgs (Some JBPF_IO_IPC_PRIMARY) r2 [(example_sid, [77; 78]); (example_any, [79])] =
    Ret (r', ev) /\ released ev = [77; 78; 79].
Proof.
  destruct (handle_incoming_releases (S := ex_io) r2 JBPF_IO_IPC_PRIMARY [(example_sid, [77; 78]); (example_any, [79])]
    r2_inv ltac:(done)) as [(r' & ev & E & _ & _ & _ & _ & Hr)|[E _]]; [eauto|]. vm_compute in E. discriminate E.
Defined.


(** ** The ring that is longer than its buffer *)

(** With a queue of two entries the fourth message an application gets is
    written past the end of its ring buffer, however fast it receives. *)
Theorem ring_overflow : is_ret (ping 3 r_short_req) = true /\ ping 4 r_short_req = Fault OutOfBounds.
Proof. by vm_compute. Qed.
