(* ===== verification/PubSubExample.v ===== *)
(** * The router and the service, side by side

    A run of the router of [RouterExample], and the trace of the service it
    refines to. *)
From stdpp Require Import relations.
From S2P Require Import Prelude StreamId StreamIdSpec Ext Router RouterLookup RouterInv RouterApps RouterChannels RouterForward RouterReceive RouterInit PubSub RouterExample.
Import Reference.

#[local] Instance signed_char_p : CharSign := true.

(** One polling step with a batch of two buffers, and a reception. *)
Definition ex_batches : list (jrtc_router_stream_id * list Z) := [(example_sid, [77; 78])].
Definition r_polled : ex_router :=
  (ret_or (r2, []) (_jrtc_router_handle_incoming_msgs (Some JBPF_IO_IPC_PRIMARY) r2 ex_batches)).1.
Definition r_read : ex_router := (ret_or (r2, ∅, []) (jrtc_router_receive r_polled (∅ : ex_io) 10 3)).1.1.
Definition ex_entry : jrtc_router_data_entry := mk_data_entry example_sid 77.

Lemma r_polled_eq : _jrtc_router_handle_incoming_msgs (Some JBPF_IO_IPC_PRIMARY) r2 ex_batches =
  Ret (r_polled, [IoShare 77; IoRelease 77; IoRelease 78]).
Proof. vm_compute. reflexivity. Qed.
Lemma r_read_eq : jrtc_router_receive r_polled (∅ : ex_io) 10 3 = Ret (r_read, ∅, [ex_entry]).
Proof. vm_compute. reflexivity. Qed.

Definition d_polled : dapp_router_ctx (list (nat * nat)) ring_ref (Z * list nat) :=
  mk_dapp (mk_ring 3 1 [0%nat]) 4 (3, [0%nat]) {[0%nat := ex_entry]} [] [] 0.
Lemma r_polled_app : dapps r_polled !! 10%nat = Some d_polled.
Proof. vm_compute. reflexivity. Qed.

Definition ex_tail : list label := [LPublish ex_entry; LReceive 0 3 [ex_entry] []].

Lemma ex_tail_run : router_traces (S := ex_io) r2 ex_tail r_read.
Proof.
  change ex_tail with ((if decide (JBPF_IO_IPC_PRIMARY = JBPF_IO_IPC_SECONDARY) then [] else LPublish <$> batch_entries (S := ex_io) ex_batches) ++
    ([LReceive (app_id d_polled) 3 (take (length (queue d_polled)) [ex_entry]) (drop (length (queue d_polled)) [ex_entry])] ++ [])).
  eapply rt_call; [apply (call_poll r2 JBPF_IO_IPC_PRIMARY ex_batches r_polled [IoShare 77; IoRelease 77; IoRelease 78])|].
  - constructor; [exact example_sid_wf|constructor].
  - exact r_polled_eq.
  - eapply rt_call; [exact (call_receive r_polled ∅ 10 d_polled 3 r_read ∅ [ex_entry] r_polled_app r_read_eq)|constructor].
Qed.

Definition ex_trace : list label := LRegister (Some (0%nat, 3)) :: LRequest 0 example_req true :: ex_tail.

Lemma r1_eq : jrtc_router_register_app r0 (ex_register 10) 3 = Ret (r1, Some 10%nat, [IoRegisterThread]).
Proof. vm_compute. reflexivity. Qed.
Lemma r2_eq : jrtc_router_channel_register_stream_id_req r1 ex_request (Some 10%nat) example_req = Ret (r2, 1).
Proof. vm_compute. reflexivity. Qed.

Lemma ex_trace_run : router_traces (S := ex_io) r0 ex_trace r_read.
Proof.
  eapply (rt_call r0 [LRegister (Some (0%nat, 3))] r1).
  { exact (call_register r0 (ex_register 10) 3 r1 (Some 10%nat) [IoRegisterThread] ltac:(lia)
      (ex_register_ok r0 10 eq_refl) r1_eq). }
  eapply (rt_call r1 [LRequest 0 example_req true] r2); [|exact ex_tail_run].
  exact (call_request r1 ex_request 10 d1 example_req r2 1 r1_d1 r1_fresh r2_eq).
Qed.

Lemma router_refines_witness : exists h, traces hub_step hub_empty ex_trace h /\ h ≡ abs r_read.
Proof.
  destruct ex_init_r0 as [live E].
  exact (router_refines (S := ex_io) ex_init live r0 ex_trace r_read ex_init_ok E ex_trace_run).
Defined.

Lemma r2_queue : app_queue r2 0 = Some ([], 3).
Proof. vm_compute. reflexivity. Qed.

(** The application gets the message, and it is the one its request lets in. *)
Lemma router_delivery_witness : exists q' acc,
  app_queue r_read 0 = Some (q', 3) /\ [ex_entry] ++ q' = acc /\ acc = [ex_entry] /\
  accepts 0 3 (subscribed r2 0) 0 ex_tail acc.
Proof.
  destruct (router_delivery (S := ex_io) r2 ex_tail r_read 0 [] 3 r2_inv ex_tail_run
    ltac:(by apply (bool_decide_unpack _); vm_compute) r2_queue) as (q' & acc & H1 & H2 & H3 & H4 & H5).
  exists q', acc. split_and!; [exact H1|exact H2| |exact H3].
  specialize (H5 example_req example_req_wf r2_subscribed ltac:(by apply (bool_decide_unpack _); vm_compute)
    ltac:(by vm_compute)).
  apply (anti_symm sublist); [exact H4|exact H5].
Defined.
