(* ===== verification/Sched.v ===== *)
(** * Scheduling and affinity of threads

    [jrtc_router_set_scheduler], [jrtc_router_set_cpu_affinity] and the
    prologue of the router thread ([src/src/router/jrtc_router.c]), and
    [jrtc_thread_set_scheduler] for applications
    ([src/src/controller/jrtc_sched.c]). The calls into the system are values;
    what the system answers is an argument. *)
From S2P Require Import Prelude.

Definition SCHED_FIFO : Z := 1.
Definition SCHED_DEADLINE : Z := 6.

(** [struct sched_attr]; [sizeof] of it is 48 on the supported platforms. *)
Record sched_attr := mk_sched_attr {
  sa_size : Z;
  sa_policy : Z;
  sa_flags : Z;
  sa_nice : Z;
  sa_priority : Z;
  sa_runtime : Z;
  sa_deadline : Z;
  sa_period : Z
}.

Inductive sched_call :=
| PthreadSetschedparam (policy priority : Z)
| SchedSetattr (attr : sched_attr)
| PthreadSetaffinity (cpus : list nat).

(** [jrtc_router_sched_policy_e] and [jrtc_sched_policy_e] have the same
    enumerators; any other value takes the default branch. *)
Definition JRTC_ROUTER_NORMAL : Z := 0.
Definition JRTC_ROUTER_FIFO : Z := 1.
Definition JRTC_ROUTER_DEADLINE : Z := 2.
Definition JRTC_SCHED_NORMAL : Z := 0.
Definition JRTC_SCHED_FIFO : Z := 1.
Definition JRTC_SCHED_DEADLINE : Z := 2.

(** [struct jrtc_router_sched_config]: times in nanoseconds. *)
Record jrtc_router_sched_config := mk_router_sched {
  sched_policy : Z;
  sched_priority : Z;
  sched_runtime : Z;
  sched_deadline : Z;
  sched_period : Z
}.

(** [struct jrtc_sched_config]: times in microseconds. *)
Record jrtc_sched_config := mk_sched {
  t_sched_policy : Z;
  t_sched_priority : Z;
  sched_runtime_us : Z;
  sched_deadline_us : Z;
  sched_period_us : Z
}.

Record jrtc_router_thread_config := mk_thread_config {
  has_affinity_mask : bool;
  affinity_mask : Z;
  has_sched_config : bool;
  sched_config : jrtc_router_sched_config
}.

Section Sched.
Variable os : sched_call -> Z.

(** The return value and the calls made. *)
Definition jrtc_router_set_scheduler (ctx : bool) (cfg : option jrtc_router_sched_config) : Z * list sched_call :=
  match cfg with
  | Some c =>
      if negb ctx then (-1, [])
      else if sched_policy c =? JRTC_ROUTER_NORMAL then (0, [])
      else if sched_policy c =? JRTC_ROUTER_FIFO then
        let call := PthreadSetschedparam SCHED_FIFO (sched_priority c) in (os call, [call])
      else if sched_policy c =? JRTC_ROUTER_DEADLINE then
        let call := SchedSetattr (mk_sched_attr 48 SCHED_DEADLINE 0 0 0 (sched_runtime c)
                                    (sched_deadline c) (sched_period c)) in (os call, [call])
      else (-2, [])
  | None => (-1, [])
  end.

Definition jrtc_thread_set_scheduler (cfg : option jrtc_sched_config) : Z * list sched_call :=
  match cfg with
  | Some c =>
      if t_sched_policy c =? JRTC_SCHED_NORMAL then (0, [])
      else if t_sched_policy c =? JRTC_SCHED_FIFO then
        let call := PthreadSetschedparam SCHED_FIFO (t_sched_priority c) in (os call, [call])
      else if t_sched_policy c =? JRTC_SCHED_DEADLINE then
        let call := SchedSetattr (mk_sched_attr 48 SCHED_DEADLINE 0 0 0 (u64 (sched_runtime_us c * 1000))
                                    (u64 (sched_deadline_us c * 1000)) (u64 (sched_period_us c * 1000))) in
        (os call, [call])
      else (-2, [])
  | None => (-1, [])
  end.

(** [for (int i = 0; i < 64; i++)]: [n] iterations left, next [i]. *)
Fixpoint cpu_loop (cpu_mask : Z) (n i : nat) : list nat :=
  match n with
  | O => []
  | S n =>
      if negb ((cpu_mask &&& u64 (1 << Z.of_nat i)) =? 0) then i :: cpu_loop cpu_mask n (i + 1)
      else cpu_loop cpu_mask n (i + 1)
  end.

Definition jrtc_router_set_cpu_affinity (ctx : bool) (cpu_mask : Z) : Z * list sched_call :=
  if negb ctx then (-1, [])
  else
    let call := PthreadSetaffinity (cpu_loop cpu_mask 64 0) in
    (if negb (os call =? 0) then -1 else 0, [call]).

(** What the router thread does before it starts to poll: a warning when both
    are configured, affinity first, then the scheduler. *)
Definition thread_prologue (c : jrtc_router_thread_config) : bool * list sched_call :=
  let warn := has_sched_config c && has_affinity_mask c &&
              (sched_policy (sched_config c) =? JRTC_ROUTER_DEADLINE) in
  let a := if has_affinity_mask c then (jrtc_router_set_cpu_affinity true (affinity_mask c)).2 else [] in
  let s := if has_sched_config c then (jrtc_router_set_scheduler true (Some (sched_config c))).2 else [] in
  (warn, a ++ s).

(** ** Theorems *)

Lemma bit_test x i : 0 <= i < 64 -> negb ((x &&& u64 (1 << i)) =? 0) = Z.testbit x i.
Proof.
  intros Hi. rewrite Z.shiftl_1_l, wrap_small.
  2: { split; [lia|]. apply Z.pow_lt_mono_r; lia. }
  destruct (Z.testbit x i) eqn:E.
  - apply negb_true_iff, Z.eqb_neq. intros H. apply (f_equal (λ z, Z.testbit z i)) in H.
    rewrite Z.land_spec, E, Z.pow2_bits_true, Z.bits_0 in H by lia. done.
  - apply negb_false_iff, Z.eqb_eq, Z.bits_inj'. intros j Hj. rewrite Z.land_spec, Z.bits_0.
    destruct (Z.eq_dec j i) as [->|]; [by rewrite E|]. rewrite Z.pow2_bits_false by lia. apply andb_false_r.
Qed.

Lemma cpu_loop_spec x n i j : (i + n <= 64)%nat ->
  j ∈ cpu_loop x n i <-> (i <= j < i + n)%nat /\ Z.testbit x (Z.of_nat j) = true.
Proof.
  revert i. induction n as [|n IH]; intros i Hn; cbn [cpu_loop].
  { split; [by intros ?%not_elem_of_nil|lia]. }
  rewrite bit_test by lia. destruct (Z.testbit x (Z.of_nat i)) eqn:E.
  - rewrite elem_of_cons, IH by lia. split.
    + intros [->|[? ?]]; [split; [lia|done]|split; [lia|done]].
    + intros [? ?]. destruct (decide (j = i)); [by left|right; split; [lia|done]].
  - rewrite IH by lia. split; [intros [? ?]; split; [lia|done]|].
    intros [? Hj]. destruct (decide (j = i)) as [->|]; [congruence|split; [lia|done]].
Qed.

(** The affinity handed to the system is exactly the set of CPUs whose
    bit is set in the mask; the call returns 0 when the system accepts it and
    -1 otherwise, and is not made at all without a router. *)
Theorem set_cpu_affinity_spec ctx mask :
  exists res calls, jrtc_router_set_cpu_affinity ctx mask = (res, calls) /\
    if ctx
    then exists cpus, calls = [PthreadSetaffinity cpus] /\
      (forall i, i ∈ cpus <-> (i < 64)%nat /\ Z.testbit mask (Z.of_nat i) = true) /\
      res = (if os (PthreadSetaffinity cpus) =? 0 then 0 else -1)
    else res = -1 /\ calls = [].
Proof.
  unfold jrtc_router_set_cpu_affinity. destruct ctx; cbn [negb]; eexists _, _; (split; [reflexivity|]); [|done].
  eexists. split; [done|]. split; [|by destruct (os _ =? 0)].
  intros i. rewrite cpu_loop_spec by lia. split; intros [? ?]; (split; [lia|done]).
Qed.

(** The deadline scheduler of an application gets its microseconds as
    nanoseconds, exactly for every 32-bit request and modulo 2^64 in general;
    an unknown policy is refused with -2 without a call. *)
Theorem thread_set_scheduler_spec c :
  match jrtc_thread_set_scheduler (Some c) with
  | (res, [SchedSetattr a]) => t_sched_policy c = JRTC_SCHED_DEADLINE /\ res = os (SchedSetattr a) /\
      (0 <= sched_runtime_us c < 2 ^ 32 -> sa_runtime a = sched_runtime_us c * 1000) /\
      (0 <= sched_deadline_us c < 2 ^ 32 -> sa_deadline a = sched_deadline_us c * 1000) /\
      (0 <= sched_period_us c < 2 ^ 32 -> sa_period a = sched_period_us c * 1000)
  | (res, [PthreadSetschedparam p prio]) => t_sched_policy c = JRTC_SCHED_FIFO /\ p = SCHED_FIFO /\
      prio = t_sched_priority c /\ res = os (PthreadSetschedparam p prio)
  | (res, calls) => calls = [] /\
      (res = 0 /\ t_sched_policy c = JRTC_SCHED_NORMAL \/ res = -2 /\ ~ 0 <= t_sched_policy c <= 2)
  end.
Proof.
  unfold jrtc_thread_set_scheduler, JRTC_SCHED_NORMAL, JRTC_SCHED_FIFO, JRTC_SCHED_DEADLINE.
  destruct (Z.eqb_spec (t_sched_policy c) 0); [by split; [|left]|].
  destruct (Z.eqb_spec (t_sched_policy c) 1); [done|].
  destruct (Z.eqb_spec (t_sched_policy c) 2); [|split; [done|right; lia]].
  cbn [sa_runtime sa_deadline sa_period]. split_and!; try done; intros; apply wrap_small; lia.
Qed.

End Sched.
