(* ===== verification/RouterThread.v ===== *)
(** * The thread of the router

    [jrtc_router_thread_start] of [src/src/router/jrtc_router.c]: the settings
    it applies, and its endless loop of polling steps, between which the other
    threads use the router; [jrtc_router_stop]. *)
From stdpp Require Import relations.
From S2P Require Import Prelude StreamId Ext Router RouterLookup RouterInv RouterApps RouterChannels RouterForward RouterReceive RouterInit RouterExample Sched.

Inductive thread_event :=
| FreeArgs
| WarnAffinity
| SchedCall (c : sched_call)
| SetName
| RegisterThread
| Io (e : io_event)
| Usleep (us : Z).

Section Thread.
Context {cs : CharSign}.
Context {B It T C R M S : Type}.
Context `{HB : CkBitmap B It} `{HT : CkHt T nat} `{HC : CkPtrHt C} `{HR : CkRing R} `{HM : Mempool M} `{HS : JbpfIo S}.

Abbreviation router := (jrtc_router_ctx B T C R M).

(** One turn of the loop: the buffers it finds, and what the other threads have
    done to the router when it starts. *)
Record turn := mk_turn {
  tn_others : router -> router;
  tn_batches : list (jrtc_router_stream_id * list Z)
}.

(** The first turns of [while (1)]. *)
Fixpoint thread_loop (io_ctx : option jbpf_io_type) (r : router) (turns : list turn) : outcome (router * list thread_event) :=
  match turns with
  | [] => Ret (r, [])
  | t :: turns =>
      '(r, ev) ← _jrtc_router_handle_incoming_msgs io_ctx (tn_others t r) (tn_batches t);
      '(r, ev') ← thread_loop io_ctx r turns;
      Ret (r, (Io <$> ev) ++ [Usleep 5] ++ ev')
  end.

(** The arguments are freed first; the settings are made before the first turn. *)
Definition jrtc_router_thread_start (os : sched_call -> Z) (cfg : jrtc_router_thread_config) (io_ctx : option jbpf_io_type)
    (r : router) (turns : list turn) : outcome (router * list thread_event) :=
  let '(warn, calls) := thread_prologue os cfg in
  '(r, ev) ← thread_loop io_ctx r turns;
  Ret (r, [FreeArgs] ++ (if warn : bool then [WarnAffinity] else []) ++ (SchedCall <$> calls) ++ [SetName; RegisterThread] ++ ev).

(** The thread is neither stopped nor joined. *)
Definition jrtc_router_stop : Z := 0.

Context `{LB : !CkBitmapLaws B It} `{LT : !CkHtLaws T nat} `{LC : !CkPtrHtLaws C} `{LR : !CkRingLaws R} `{LM : !MempoolLaws M}.
Context `{LS : !JbpfIoLaws S}.

(** What the events of the thread release. *)
Definition io_of (ev : list thread_event) : list io_event :=
  omap (λ e, match e with Io e => Some e | _ => None end) ev.

Lemma io_of_io ev : io_of (Io <$> ev) = ev.
Proof. induction ev as [|e ev IH]; [done|]. cbn. by f_equal. Qed.

Lemma io_of_sched calls : io_of (SchedCall <$> calls) = [].
Proof. by induction calls. Qed.

Definition others_ok (t : turn) : Prop := forall r, rtc (router_step (S := S)) r (tn_others t r).

(** The other threads do not register an application whose ring is longer than
    its buffer. *)
Definition others_covered (t : turn) : Prop := forall r, router_wf r -> covered r -> covered (tn_others t r).

(** The buffers a thread polls: none in a secondary process. *)
Definition polled (io_ctx : option jbpf_io_type) (turns : list turn) : list Z :=
  match io_ctx with
  | None | Some JBPF_IO_IPC_SECONDARY => []
  | Some _ => concat ((λ t, concat (tn_batches t).*2) <$> turns)
  end.

Lemma handle_incoming_any io_ctx r batches : router_wf r ->
  (exists r' ev, _jrtc_router_handle_incoming_msgs io_ctx r batches = Ret (r', ev) /\ router_wf r' /\ (covered r -> covered r') /\
    released ev = match io_ctx with None | Some JBPF_IO_IPC_SECONDARY => [] | Some _ => concat batches.*2 end) \/
  (_jrtc_router_handle_incoming_msgs io_ctx r batches = Fault OutOfBounds /\ ~ covered r).
Proof.
  intros W. unfold _jrtc_router_handle_incoming_msgs. destruct io_ctx as [ty|]; [|by left; exists r, []].
  case_decide as Hty; [subst ty; left; by exists r, []|].
  destruct (handle_out_bufs_spec batches r W) as [(r' & ev & E & W' & Hc' & _ & _ & Hr)|[E Hc]]; [left|by right].
  exists r', ev. split_and!; [done..|]. by destruct ty.
Qed.

Lemma thread_loop_spec io_ctx turns r : router_wf r -> Forall others_ok turns ->
  (exists r' ev, thread_loop io_ctx r turns = Ret (r', ev) /\ router_wf r' /\ released (io_of ev) = polled io_ctx turns) \/
  (thread_loop io_ctx r turns = Fault OutOfBounds /\ ~ (covered r /\ Forall others_covered turns)).
Proof.
  revert r. induction turns as [|t turns IH]; intros r Hr Ho; cbn [thread_loop].
  { left. exists r, []. split_and!; [done|done|]. by destruct io_ctx as [[]|]. }
  apply Forall_cons in Ho as [Ht Ho]. pose proof (router_steps_wf _ _ (Ht r) Hr) as Hr1.
  destruct (handle_incoming_any io_ctx (tn_others t r) (tn_batches t) Hr1) as [(r1 & ev1 & -> & H1 & Hc1 & E1)|[-> Hc]].
  2: { right. split; [done|]. intros [Hcr [Hct _]%Forall_cons]. by apply Hc, Hct. }
  cbn [mbind outcome_bind]. destruct (IH r1 H1 Ho) as [(r2 & ev2 & -> & H2 & E3)|[-> Hc]].
  2: { right. split; [done|]. intros [Hcr [Hct ?]%Forall_cons]. apply Hc. split; [by apply Hc1, Hct|done]. }
  left. cbn [mbind outcome_bind].
  eexists r2, _. split; [reflexivity|]. split; [done|]. unfold io_of in *. rewrite !omap_app. fold (io_of (Io <$> ev1)).
  rewrite io_of_io. cbn. rewrite released_app, E1, E3. by destruct io_ctx as [[]|].
Qed.

End Thread.

Import Reference.

#[local] Instance signed_char_t : CharSign := true.

(** Between two turns the application receives what the first has queued, and
    withdraws its request. *)
Definition app_receives (r : ex_router) : ex_router :=
  match dapps r !! 10%nat with
  | Some _ => (ret_or (r, ∅, []) (jrtc_router_receive r (∅ : ex_io) 10 1)).1.1
  | None => r
  end.
Definition app_withdraws (r : ex_router) : ex_router :=
  match dapps r !! 10%nat with
  | Some _ => ret_or r (jrtc_router_channel_deregister_stream_id_req r (Some 10%nat) example_req)
  | None => r
  end.

Lemma app_receives_step r : rtc (router_step (S := ex_io)) r (app_receives r).
Proof.
  unfold app_receives. destruct (dapps r !! 10%nat) eqn:Ed; [|done].
  destruct (jrtc_router_receive r (∅ : ex_io) 10 1) as [[[r' io'] des]|] eqn:E; cbn; [|done].
  apply rtc_once. apply (step_receive r (∅ : ex_io) 10 1 r' io' des); [by rewrite Ed|exact E].
Qed.

Lemma app_withdraws_step r : rtc (router_step (S := ex_io)) r (app_withdraws r).
Proof.
  unfold app_withdraws. destruct (dapps r !! 10%nat) eqn:Ed; [|done].
  destruct (jrtc_router_channel_deregister_stream_id_req r (Some 10%nat) example_req) as [r'|] eqn:E; cbn; [|done].
  apply rtc_once. apply (step_withdraw (S := ex_io) r 10 example_req r'); [by rewrite Ed|exact E].
Qed.

Definition ex_turns : list (turn (B := list bool) (T := list (list Z * nat)) (C := list (nat * nat))
    (R := ring_ref) (M := Z * list nat)) :=
  [mk_turn (fun r => r) [(StreamIdSpec.example_sid, [7; 8])];
   mk_turn app_receives [(StreamIdSpec.example_sid, [9])];
   mk_turn (fun r => app_withdraws (app_receives r)) [(StreamIdSpec.example_sid, [10])]].

Definition ex_cfg_thread : jrtc_router_thread_config := mk_thread_config false 0 false (mk_router_sched 0 0 0 0 0).

