(* ===== verification/RouterEpoch.v ===== *)
(** * The request table under concurrency

    The router thread reads the request table while the threads of the
    applications change it. The updates hold a spin lock; the reads hold no
    lock, only an epoch section ([ck_epoch_begin], [ck_epoch_end]), and an entry
    that is removed is freed after a grace period ([ck_epoch_call],
    [ck_epoch_barrier]). The contexts of the applications have no such
    protection. Here the steps of [_jrtc_router_forward_msgs],
    [jrtc_router_channel_register_stream_id_req],
    [jrtc_router_channel_deregister_stream_id_req], [jrtc_router_register_app]
    and [jrtc_router_deregister_app] ([src/src/router/jrtc_router.c]) that touch
    shared memory are transitions of their own, and interleave in every order. *)
From stdpp Require Import relations.
From S2P Require Import Prelude StreamId Router.

(** ** State *)

(** Where the router thread is: outside, between two lookups (with the keys
    still to try and the applications found), holding the entry it has just
    found, going through the applications, or holding the context of one. *)
Inductive reader :=
| RIdle
| RSection (todo : list (list Z)) (found : gset nat)
| RHold (p : nat) (todo : list (list Z)) (found : gset nat)
| RForward (apps : list nat)
| RUse (d : nat) (apps : list nat).

(** Where the thread of an application is: outside; inside the lock, with the
    request to make or to withdraw; about to remove the entry it has emptied;
    waiting for the end of the section that was open when it removed it; about
    to unlock; leaving, with its context freed and its slot still set. *)
Inductive writer :=
| WIdle
| WRequest (k : list Z)
| WWithdraw (k : list Z)
| WRemove (k : list Z) (p : nat)
| WBarrier (p : nat) (since : option nat)
| WUnlock
| WFreed.

(** The table and its entries (the bitmaps as sets; the map in which the table
    keeps them is below, with [grown]), the lock, the number of
    the current or last section, the slots and the contexts that are not freed.
    The thread of the application with id [i] is the writer [i]. *)
Record shared := mk_shared {
  table : gmap (list Z) nat;
  entries : gmap nat (gset nat);
  spinlock : option nat;
  section : nat;
  router_thread : reader;
  app_thread : nat -> writer;
  slots : gmap nat nat;
  contexts : gset nat
}.

Definition initial : shared := mk_shared ∅ ∅ None 0 RIdle (fun _ => WIdle) ∅ ∅.

(** The section the router thread is in. *)
Definition in_section (s : shared) : option nat :=
  match router_thread s with RSection _ _ | RHold _ _ _ => Some (section s) | _ => None end.

Definition set_reader (s : shared) (n : nat) (r : reader) : shared :=
  mk_shared (table s) (entries s) (spinlock s) n r (app_thread s) (slots s) (contexts s).

Definition set_writer (f : nat -> writer) (i : nat) (w : writer) : nat -> writer :=
  fun j => if decide (j = i) then w else f j.

(** A step of the writer [i] to [w] inside the lock. *)
Definition update (s : shared) (i : nat) (w : writer) (t : gmap (list Z) nat) (e : gmap nat (gset nat)) : shared :=
  mk_shared t e (spinlock s) (section s) (router_thread s) (set_writer (app_thread s) i w) (slots s) (contexts s).

Definition set_lock (s : shared) (i : nat) (w : writer) (l : option nat) : shared :=
  mk_shared (table s) (entries s) l (section s) (router_thread s) (set_writer (app_thread s) i w) (slots s) (contexts s).

Definition set_slots (s : shared) (i : nat) (w : writer) (m : gmap nat nat) (c : gset nat) : shared :=
  mk_shared (table s) (entries s) (spinlock s) (section s) (router_thread s) (set_writer (app_thread s) i w) m c.

Section Steps.
Context {cs : CharSign}.

(** The keys of the sixteen lookups of a message. *)
Definition lookup_keys (sid : jrtc_router_stream_id) : list (list Z) := (fun m => id (apply_mask sid m)) <$> lookup_mask.

(** ** Steps *)

(** [_jrtc_router_forward_msgs]: the lookups inside the epoch section, then the
    applications found. Holding an entry or a context that was freed, it is
    stuck. *)
Inductive reader_step : shared -> shared -> Prop :=
| ck_epoch_begin s sid : router_thread s = RIdle ->
    reader_step s (set_reader s (S (section s)) (RSection (lookup_keys sid) ∅))
| lookup_miss s k ks found : router_thread s = RSection (k :: ks) found -> table s !! k = None ->
    reader_step s (set_reader s (section s) (RSection ks found))
| lookup_hit s k ks found p : router_thread s = RSection (k :: ks) found -> table s !! k = Some p ->
    reader_step s (set_reader s (section s) (RHold p ks found))
| ck_bitmap_union s p ks found b : router_thread s = RHold p ks found -> entries s !! p = Some b ->
    reader_step s (set_reader s (section s) (RSection ks (found ∪ b)))
| ck_epoch_end s found : router_thread s = RSection [] found ->
    reader_step s (set_reader s (section s) (RForward (elements found)))
| load_none s a apps : router_thread s = RForward (a :: apps) -> slots s !! a = None ->
    reader_step s (set_reader s (section s) (RForward apps))
| load_some s a apps d : router_thread s = RForward (a :: apps) -> slots s !! a = Some d ->
    reader_step s (set_reader s (section s) (RUse d apps))
| enqueue s d apps : router_thread s = RUse d apps -> d ∈ contexts s ->
    reader_step s (set_reader s (section s) (RForward apps))
| forward_end s : router_thread s = RForward [] -> reader_step s (set_reader s (section s) RIdle).

(** [jrtc_router_channel_register_stream_id_req]: lock; a new entry, an entry
    that is there already, or no memory; unlock. *)
Inductive request_step (i : nat) : shared -> shared -> Prop :=
| request_lock s k : app_thread s i = WIdle -> spinlock s = None ->
    request_step i s (set_lock s i (WRequest k) (Some i))
| request_new s k p : app_thread s i = WRequest k -> table s !! k = None -> entries s !! p = None ->
    request_step i s (update s i WUnlock (<[k := p]> (table s)) (<[p := {[ i ]}]> (entries s)))
| request_old s k p b : app_thread s i = WRequest k -> table s !! k = Some p -> entries s !! p = Some b ->
    request_step i s (update s i WUnlock (table s) (<[p := b ∪ {[ i ]}]> (entries s)))
| request_no_memory s k : app_thread s i = WRequest k -> table s !! k = None ->
    request_step i s (update s i WUnlock (table s) (entries s))
| unlock s : app_thread s i = WUnlock -> request_step i s (set_lock s i WIdle None).

(** [jrtc_router_channel_deregister_stream_id_req]: lock; reset the bit; remove
    an entry that is empty, wait for the grace period and free it; unlock, by
    [unlock] above. *)
Inductive withdraw_step (i : nat) : shared -> shared -> Prop :=
| withdraw_lock s k : app_thread s i = WIdle -> spinlock s = None ->
    withdraw_step i s (set_lock s i (WWithdraw k) (Some i))
| withdraw_none s k : app_thread s i = WWithdraw k -> table s !! k = None ->
    withdraw_step i s (update s i WUnlock (table s) (entries s))
| withdraw_keep s k p b : app_thread s i = WWithdraw k -> table s !! k = Some p -> entries s !! p = Some b ->
    b ∖ {[ i ]} ≠ ∅ -> withdraw_step i s (update s i WUnlock (table s) (<[p := b ∖ {[ i ]}]> (entries s)))
| withdraw_empty s k p b : app_thread s i = WWithdraw k -> table s !! k = Some p -> entries s !! p = Some b ->
    b ∖ {[ i ]} = ∅ -> withdraw_step i s (update s i (WRemove k p) (table s) (<[p := ∅]> (entries s)))
| ck_ht_remove s k p : app_thread s i = WRemove k p ->
    withdraw_step i s (update s i (WBarrier p (in_section s)) (delete k (table s)) (entries s))
| ck_epoch_barrier s p since : app_thread s i = WBarrier p since -> since = None \/ in_section s ≠ since ->
    withdraw_step i s (update s i WUnlock (table s) (delete p (entries s))).

(** [jrtc_router_register_app] sets the slot; [jrtc_router_deregister_app] frees
    the context first and clears the slot then. *)
Inductive app_step (i : nat) : shared -> shared -> Prop :=
| register_app s d : app_thread s i = WIdle -> slots s !! i = None -> d ∉ contexts s ->
    app_step i s (set_slots s i WIdle (<[i := d]> (slots s)) (contexts s ∪ {[ d ]}))
| free_context s d : app_thread s i = WIdle -> slots s !! i = Some d ->
    app_step i s (set_slots s i WFreed (slots s) (contexts s ∖ {[ d ]}))
| clear_slot s : app_thread s i = WFreed ->
    app_step i s (set_slots s i WIdle (delete i (slots s)) (contexts s)).

Definition step (s s' : shared) : Prop :=
  reader_step s s' \/ exists i, request_step i s s' \/ withdraw_step i s s' \/ app_step i s s'.

Definition reachable : shared -> Prop := rtc step initial.

(** ** Invariant *)

(** Whether a thread holds the lock. *)
Definition holds_lock (w : writer) : bool := match w with WIdle | WFreed => false | _ => true end.

Record inv (s : shared) : Prop := {
  inv_lock : forall i, holds_lock (app_thread s i) = true <-> spinlock s = Some i;
  inv_table : forall k p, table s !! k = Some p -> is_Some (entries s !! p);
  inv_inj : forall k k' p, table s !! k = Some p -> table s !! k' = Some p -> k = k';
  inv_remove : forall i k p, app_thread s i = WRemove k p -> table s !! k = Some p;
  inv_barrier : forall i p n, app_thread s i = WBarrier p n ->
    is_Some (entries s !! p) /\ (forall k, table s !! k ≠ Some p) /\
    (forall ks f, router_thread s = RHold p ks f -> n = Some (section s));
  inv_hold : forall p ks f, router_thread s = RHold p ks f ->
    is_Some (entries s !! p) /\ ((exists k, table s !! k = Some p) \/ exists i, app_thread s i = WBarrier p (Some (section s)))
}.

Lemma inv_initial : inv initial.
Proof. split; simpl; intros; try done; try (by rewrite lookup_empty in * ). Qed.

Lemma set_writer_eq f i w : set_writer f i w i = w.
Proof. unfold set_writer. by rewrite decide_True. Qed.
Lemma set_writer_ne f i j w : j ≠ i -> set_writer f i w j = f j.
Proof. intros. unfold set_writer. by rewrite decide_False. Qed.

(** Steps of the router thread leave table, entries and writers alone. *)
Lemma inv_set_reader s n r : inv s ->
  (forall p ks f, r = RHold p ks f -> exists k, table s !! k = Some p) -> inv (set_reader s n r).
Proof.
  intros [L T J Rm Br Hd] Hr. split; simpl; try done.
  - intros i p m Hi. destruct (Br i p m Hi) as (? & Ht & _). split_and!; try done.
    intros ks f E. destruct (Hr p ks f E) as [k Hk]. by destruct (Ht k).
  - intros p ks f E. destruct (Hr p ks f E) as [k Hk]. split; [by eapply T|]. left. by exists k.
Qed.

Lemma reader_step_inv s s' : inv s -> reader_step s s' -> inv s'.
Proof. intros Hs. destruct 1; apply inv_set_reader; try done. intros p' ks' f' [= -> _ _]. by exists k. Qed.

(** Only one thread is inside the lock. *)
Lemma others_out s i j : inv s -> holds_lock (app_thread s i) = true -> j ≠ i -> holds_lock (app_thread s j) = false.
Proof.
  intros [L _ _ _ _ _] Hi Hne. destruct (holds_lock (app_thread s j)) eqn:Hj; [|done].
  apply L in Hi, Hj. congruence.
Qed.

(** A step inside the lock. *)
Lemma inv_update s i w t e : inv s -> holds_lock (app_thread s i) = true -> holds_lock w = true ->
  (forall k p, t !! k = Some p -> is_Some (e !! p)) ->
  (forall k k' p, t !! k = Some p -> t !! k' = Some p -> k = k') ->
  (forall k p, w = WRemove k p -> t !! k = Some p) ->
  (forall p n, w = WBarrier p n -> is_Some (e !! p) /\ (forall k, t !! k ≠ Some p) /\
     (forall ks f, router_thread s = RHold p ks f -> n = Some (section s))) ->
  (forall p ks f, router_thread s = RHold p ks f ->
     is_Some (e !! p) /\ ((exists k, t !! k = Some p) \/ w = WBarrier p (Some (section s)))) ->
  inv (update s i w t e).
Proof.
  intros Hs Hi Hw Ht Hj Hrm Hbr Hhd.
  assert (Hout : forall j, j ≠ i -> holds_lock (set_writer (app_thread s) i w j) = false)
    by (intros j Hne; rewrite set_writer_ne by done; by eapply others_out).
  split; simpl; [|exact Ht|exact Hj| | |].
  - intros j. destruct (decide (j = i)) as [->|Hne].
    + rewrite set_writer_eq, Hw, <- (inv_lock s Hs i). by rewrite Hi.
    + rewrite set_writer_ne by done. apply (inv_lock s Hs).
  - intros j k p Ej. destruct (decide (j = i)) as [->|Hne]; [rewrite set_writer_eq in Ej; by apply Hrm|].
    apply Hout in Hne. by rewrite Ej in Hne.
  - intros j p n Ej. destruct (decide (j = i)) as [->|Hne]; [rewrite set_writer_eq in Ej; by apply Hbr|].
    apply Hout in Hne. by rewrite Ej in Hne.
  - intros p ks f E. destruct (Hhd p ks f E) as [He [Hk|Hb]]; split; [done|by left|done|right].
    exists i. by rewrite set_writer_eq, Hb.
Qed.

(** A step outside the lock, into it, or out of it, that leaves the table alone. *)
Lemma inv_set_lock s i w l : inv s -> (forall p n, app_thread s i ≠ WBarrier p n) ->
  (forall k p, w ≠ WRemove k p) -> (forall p n, w ≠ WBarrier p n) ->
  (forall j, holds_lock (set_writer (app_thread s) i w j) = true <-> l = Some j) ->
  inv (set_lock s i w l).
Proof.
  intros [L T J Rm Br Hd] Hb W1 W2 Hl. split; simpl; try done.
  - intros j k p. destruct (decide (j = i)) as [->|]; [rewrite set_writer_eq; by intros ?%W1|].
    rewrite set_writer_ne by done. apply Rm.
  - intros j p n. destruct (decide (j = i)) as [->|]; [rewrite set_writer_eq; by intros ?%W2|].
    rewrite set_writer_ne by done. apply Br.
  - intros p ks f E. destruct (Hd p ks f E) as [He [Hk|[j Hj]]]; split; [done|by left|done|right].
    exists j. rewrite set_writer_ne; [done|]. intros ->. by apply Hb in Hj.
Qed.

Lemma lock_free s i w : inv s -> app_thread s i = WIdle -> spinlock s = None -> holds_lock w = true ->
  forall j, holds_lock (set_writer (app_thread s) i w j) = true <-> Some i = Some j.
Proof.
  intros Hs Hi Hl Hw j. destruct (decide (j = i)) as [->|Hne]; [by rewrite set_writer_eq|].
  rewrite set_writer_ne, (inv_lock s Hs j), Hl by done. split; [done|congruence].
Qed.

(** While the thread inside the lock is not waiting, the entry the router
    thread holds is in the table. *)
Lemma hold_in_table s i p ks f : inv s -> holds_lock (app_thread s i) = true -> (forall q n, app_thread s i ≠ WBarrier q n) ->
  router_thread s = RHold p ks f -> is_Some (entries s !! p) /\ exists k, table s !! k = Some p.
Proof.
  intros Hs Hi Hb E. destruct (inv_hold s Hs p ks f E) as [He [Hk|[j Hj]]]; [done|].
  destruct (decide (j = i)) as [->|Hne]; [by apply Hb in Hj|].
  pose proof (others_out s i j Hs Hi Hne) as Ho. by rewrite Hj in Ho.
Qed.

(** An entry of the table gets a new bitmap. *)
Lemma inv_set_bitmap s i w k p b : inv s -> holds_lock (app_thread s i) = true -> (forall q n, app_thread s i ≠ WBarrier q n) ->
  holds_lock w = true -> (forall k' q, w = WRemove k' q -> k' = k /\ q = p) -> (forall q n, w ≠ WBarrier q n) ->
  table s !! k = Some p -> inv (update s i w (table s) (<[p := b]> (entries s))).
Proof.
  intros Hs Hi Hb Hw W1 W2 Hk.
  assert (He : forall q, is_Some (entries s !! q) -> is_Some (<[p := b]> (entries s) !! q)).
  { intros q Hq. destruct (decide (q = p)) as [->|]; [by rewrite lookup_insert_eq|by rewrite lookup_insert_ne]. }
  apply inv_update; try done.
  - intros k' q Hq. by eapply He, inv_table.
  - by apply inv_inj.
  - by intros k' q [-> ->]%W1.
  - by intros q n ?%W2.
  - intros q ks f E. destruct (hold_in_table s i q ks f Hs Hi Hb E). split; [by apply He|by left].
Qed.

Lemma request_step_inv i s s' : inv s -> request_step i s s' -> inv s'.
Proof.
  intros Hs. destruct 1 as [s k Hi Hl|s k p Hi Hk Hp|s k p b Hi Hk Hp|s k Hi Hk|s Hi].
  - apply inv_set_lock; try done; [by intros p n; rewrite Hi|]. by apply lock_free.
  - assert (Hnp : forall k', table s !! k' ≠ Some p).
    { intros k' E. apply (inv_table s Hs) in E. rewrite Hp in E. by destruct E. }
    apply inv_update; try done; [by rewrite Hi| | |].
    + intros k' q [[_ <-]|[_ E]]%lookup_insert_Some; [by rewrite lookup_insert_eq|].
      rewrite lookup_insert_ne; [by eapply inv_table|]. intros ->. by eapply Hnp.
    + intros k1 k2 q [[<- <-]|[_ E1]]%lookup_insert_Some [[<- E]|[_ E2]]%lookup_insert_Some; try done.
      * by apply Hnp in E2.
      * subst. by apply Hnp in E1.
      * by eapply inv_inj.
    + intros q ks f E. destruct (hold_in_table s i q ks f Hs) as [[x Hx] [k' Hk']]; [by rewrite Hi|by intros; rewrite Hi|done|].
      split; [rewrite lookup_insert_ne by congruence; by eexists|]. left. exists k'. rewrite lookup_insert_ne; congruence.
  - apply (inv_set_bitmap s i _ k); try done; [by rewrite Hi|by intros; rewrite Hi].
  - apply inv_update; try done; [by rewrite Hi|apply inv_table|apply inv_inj|]; try done.
    intros q ks f E. destruct (hold_in_table s i q ks f Hs); [by rewrite Hi|by intros; rewrite Hi|done|]. by split; [|left].
  - apply inv_set_lock; try done; [by intros; rewrite Hi|]. intros j.
    destruct (decide (j = i)) as [->|Hne]; [by rewrite set_writer_eq|]. rewrite set_writer_ne by done.
    rewrite (others_out s i j); [done|done|by rewrite Hi|done].
Qed.

Lemma withdraw_step_inv i s s' : inv s -> withdraw_step i s s' -> inv s'.
Proof.
  intros Hs. destruct 1 as [s k Hi Hl|s k Hi Hk|s k p b Hi Hk Hp Hb|s k p b Hi Hk Hp Hb|s k p Hi|s p n Hi Hn].
  - apply inv_set_lock; try done; [by intros p n; rewrite Hi|]. by apply lock_free.
  - apply inv_update; try done; [by rewrite Hi|apply inv_table|apply inv_inj|]; try done.
    intros q ks f E. destruct (hold_in_table s i q ks f Hs); [by rewrite Hi|by intros; rewrite Hi|done|]. by split; [|left].
  - apply (inv_set_bitmap s i _ k); try done; [by rewrite Hi|by intros; rewrite Hi].
  - apply (inv_set_bitmap s i _ k); try done; [by rewrite Hi|by intros; rewrite Hi|]. by intros k' q [= -> ->].
  - pose proof (inv_remove s Hs i k p Hi) as Hk.
    assert (Hd : forall k' q, delete k (table s) !! k' = Some q <-> k' ≠ k /\ table s !! k' = Some q).
    { intros k' q. rewrite lookup_delete_Some. naive_solver. }
    apply inv_update; try done; [by rewrite Hi| | | |].
    + intros k' q [_ E]%Hd. by eapply inv_table.
    + intros k1 k2 q [_ E1]%Hd [_ E2]%Hd. by eapply inv_inj.
    + intros q m [= <- <-]. split_and!; [by eapply inv_table| |].
      * intros k' [Hne E]%Hd. apply Hne. by eapply inv_inj.
      * intros ks f E. unfold in_section. by rewrite E.
    + intros q ks f E. destruct (hold_in_table s i q ks f Hs) as [He [k' Hk']]; [by rewrite Hi|by intros; rewrite Hi|done|].
      split; [done|]. destruct (decide (k' = k)) as [->|Hne]; [right|left; exists k'; by apply Hd].
      unfold in_section. rewrite E. congruence.
  - destruct (inv_barrier s Hs i p n Hi) as (He & Ht & Hr).
    assert (Hnp : forall ks f, router_thread s ≠ RHold p ks f).
    { intros ks f E. pose proof (Hr ks f E) as ->. unfold in_section in Hn. rewrite E in Hn. naive_solver. }
    apply inv_update; try done; [by rewrite Hi| |apply inv_inj; done|].
    + intros k q E. rewrite lookup_delete_ne; [by eapply inv_table|]. intros ->. by eapply Ht.
    + intros q ks f E. destruct (inv_hold s Hs q ks f E) as [Hq Ho]. assert (q ≠ p) by (intros ->; by eapply Hnp).
      rewrite lookup_delete_ne by done. split; [done|]. destruct Ho as [?|[j Hj]]; [by left|].
      destruct (decide (j = i)) as [->|Hne]; [congruence|].
      pose proof (others_out s i j Hs) as Ho. rewrite Hi, Hj in Ho. naive_solver.
Qed.

Lemma app_step_inv i s s' : inv s -> app_step i s s' -> inv s'.
Proof.
  intros Hs. enough (H : forall w m c, holds_lock w = false -> holds_lock (app_thread s i) = false -> inv (set_slots s i w m c)).
  { destruct 1; apply H; try done; by rewrite H0. }
  intros w m c Hw Hi. destruct Hs as [L T J Rm Br Hd]. split; simpl; try done.
  - intros j. destruct (decide (j = i)) as [->|]; [rewrite set_writer_eq, Hw, <- L; by rewrite Hi|]. rewrite set_writer_ne by done. apply L.
  - intros j k p. destruct (decide (j = i)) as [->|]; [rewrite set_writer_eq; by intros ->|]. rewrite set_writer_ne by done. apply Rm.
  - intros j p n. destruct (decide (j = i)) as [->|]; [rewrite set_writer_eq; by intros ->|]. rewrite set_writer_ne by done. apply Br.
  - intros p ks f E. destruct (Hd p ks f E) as [He [Hk|[j Hj]]]; split; [done|by left|done|right].
    exists j. rewrite set_writer_ne; [done|]. intros ->. by rewrite Hj in Hi.
Qed.

Lemma reachable_invariant s : reachable s -> inv s.
Proof.
  unfold reachable. generalize inv_initial. intros H Hr. revert H.
  induction Hr as [s|s s1 s2 Hs _ IH]; [done|]. intros H. apply IH.
  destruct Hs as [Hs|(i & [Hs|[Hs|Hs]])]; [by eapply reader_step_inv|by eapply request_step_inv|by eapply withdraw_step_inv|by eapply app_step_inv].
Qed.

(** ** Theorems *)

(** C4: in every interleaving, the router thread never uses a request entry
    that was freed, an application that finds an entry in the table finds one
    that is not freed, and at most one application is inside the lock: the lock
    and the grace period make the request table safe. *)
Theorem epoch_safe s : reachable s ->
  (forall p ks f, router_thread s = RHold p ks f -> is_Some (entries s !! p)) /\
  (forall k p, table s !! k = Some p -> is_Some (entries s !! p)) /\
  (forall i j, holds_lock (app_thread s i) = true -> holds_lock (app_thread s j) = true -> i = j).
Proof.
  intros Hs%reachable_invariant. split_and!.
  - intros p ks f E. by apply (inv_hold s Hs p ks f).
  - apply (inv_table s Hs).
  - intros i j Hi%(inv_lock s Hs) Hj%(inv_lock s Hs). congruence.
Qed.

(** The router thread reaches the end of its section. *)
Lemma section_ends s : inv s -> exists s', rtc reader_step s s' /\ in_section s' = None /\ app_thread s' = app_thread s.
Proof.
  enough (H : forall ks s f, inv s -> router_thread s = RSection ks f ->
            exists s', rtc reader_step s s' /\ in_section s' = None /\ app_thread s' = app_thread s).
  { intros Hs. destruct (router_thread s) as [|ks f|p ks f|l|d l] eqn:E;
      try (exists s; split_and!; [apply rtc_refl|unfold in_section; by rewrite E|done]); [by eapply H|].
    destruct (proj1 (inv_hold s Hs p ks f E)) as [b Hb]. pose proof (ck_bitmap_union s p ks f b E Hb) as Hu.
    destruct (H ks _ (f ∪ b) (reader_step_inv _ _ Hs Hu) eq_refl) as (s' & H1 & H2 & H3).
    exists s'. split_and!; [by eapply rtc_l|done|done]. }
  clear s. induction ks as [|k ks IH]; intros s f Hs E.
  - eexists. split; [eapply rtc_once, ck_epoch_end, E|done].
  - destruct (table s !! k) as [p|] eqn:Ek.
    + pose proof (lookup_hit s k ks f p E Ek) as Hh. pose proof (reader_step_inv _ _ Hs Hh) as Hs1.
      destruct (proj1 (inv_hold _ Hs1 p ks f eq_refl)) as [b Hb]. pose proof (ck_bitmap_union (set_reader s (section s) (RHold p ks f)) p ks f b eq_refl Hb) as Hu.
      destruct (IH _ (f ∪ b) (reader_step_inv _ _ Hs1 Hu) eq_refl) as (s' & H1 & H2 & H3).
      exists s'. split_and!; [by eapply rtc_l; [|eapply rtc_l]|done|done].
    + pose proof (lookup_miss s k ks f E Ek) as Hm.
      destruct (IH _ f (reader_step_inv _ _ Hs Hm) eq_refl) as (s' & H1 & H2 & H3).
      exists s'. split_and!; [by eapply rtc_l|done|done].
Qed.

(** C15: an application that waits for the grace period, with the lock held,
    does not wait for ever: the router thread needs no lock, finishes its
    section by itself, and then the wait is over. *)
Theorem barrier_ends s i p since : reachable s -> app_thread s i = WBarrier p since ->
  exists s' s'', rtc reader_step s s' /\ withdraw_step i s' s'' /\ app_thread s'' i = WUnlock.
Proof.
  intros Hs%reachable_invariant Hi. destruct (section_ends s Hs) as (s' & H1 & H2 & H3).
  assert (Hi' : app_thread s' i = WBarrier p since) by (by rewrite H3).
  exists s'. eexists. split_and!; [done|eapply ck_epoch_barrier; [exact Hi'|]|apply set_writer_eq].
  rewrite H2. destruct since; [by right|by left].
Qed.

(** The application [i] has requested the key [k]. *)
Definition requested (s : shared) (k : list Z) (i : nat) : Prop :=
  exists p b, table s !! k = Some p /\ entries s !! p = Some b /\ i ∈ b.

(** A step within one section of the router thread during which the request
    stays in place. *)
Definition during (k : list Z) (i : nat) (s s' : shared) : Prop :=
  step s s' /\ requested s k i /\ requested s' k i /\ section s' = section s.

(** What the router thread has still to find. *)
Definition hunt (k : list Z) (i : nat) (s : shared) : Prop :=
  match router_thread s with
  | RSection todo found => k ∈ todo \/ i ∈ found
  | RHold p todo found => k ∈ todo \/ i ∈ found \/ table s !! k = Some p
  | _ => True
  end.

(** The entry of a request that stays in place is not replaced. *)
Lemma table_stays s s' k i p : step s s' -> requested s k i -> requested s' k i ->
  table s !! k = Some p -> table s' !! k = Some p.
Proof.
  intros Hs (q & b & Hq & Hb & Hi) (q' & b' & Hq' & Hb' & Hi') Hp.
  destruct Hs as [Hs|(j & [Hs|[Hs|Hs]])]; destruct Hs; simpl in *; try done.
  - rewrite lookup_insert_ne; [done|]. congruence.
  - apply lookup_delete_Some in Hq' as [? _]. by rewrite lookup_delete_ne.
Qed.

Lemma hunt_step k i s s' : during k i s s' -> hunt k i s -> hunt k i s'.
Proof.
  intros (Hs & R & R' & Hn). pose proof (fun p => table_stays s s' k i p Hs R R') as Ht.
  destruct R as (q & b & Hq & Hb & Hi). unfold hunt. destruct Hs as [Hs|(j & Hs)].
  - destruct Hs as [? sid E|? k' ks f E Ek|? k' ks f p E Ek|? p ks f b' E Eb|? f E|? a l E Ea|? a l d E Ea|? d l E Ed|? E];
      rewrite E; simpl in *; try done.
    + lia.
    + rewrite elem_of_cons. intros [[->|?]|?]; [congruence|auto|auto].
    + rewrite elem_of_cons. intros [[->|?]|?]; auto.
    + intros [?|[?|Hp]]; [auto|right; set_solver|]. right. assert (p = q) as -> by congruence. set_solver.
  - assert (Er : router_thread s' = router_thread s) by (by destruct Hs as [Hs|[Hs|Hs]]; destruct Hs).
    rewrite Er. destruct (router_thread s); try done. intros [?|[?|?]]; auto.
Qed.

(** ** The map of the table

    [ck_ht_get_spmc] reads the address of the table's map and then probes this
    map, without a lock. [ck_ht_set_spmc] moves a table that is too full to a
    new map and hands the old one to [ht_free], which ignores that freeing is to
    be deferred and frees it at once. [map] is the address of the current map,
    [probe] the address the router thread has read. With an address whose map was
    freed its lookup is stuck. *)
Record grown := mk_grown { base : shared; map : nat; probe : option nat }.

Definition looking_up (r : reader) : bool := match r with RSection (_ :: _) _ => true | _ => false end.

Inductive grow_step : grown -> grown -> Prop :=
| load_map s m : looking_up (router_thread s) = true -> grow_step (mk_grown s m None) (mk_grown s m (Some m))
| probe_map s s' m : looking_up (router_thread s) = true -> reader_step s s' ->
    grow_step (mk_grown s m (Some m)) (mk_grown s' m None)
| no_lookup s s' m : looking_up (router_thread s) = false -> reader_step s s' ->
    grow_step (mk_grown s m None) (mk_grown s' m None)
| app_acts s s' i m pr : request_step i s s' \/ withdraw_step i s s' \/ app_step i s s' ->
    grow_step (mk_grown s m pr) (mk_grown s' m pr)
| ck_ht_grow s i k p m m' pr : app_thread s i = WRequest k -> table s !! k = None -> entries s !! p = None -> m' ≠ m ->
    grow_step (mk_grown s m pr)
      (mk_grown (update s i WUnlock (<[k := p]> (table s)) (<[p := {[ i ]}]> (entries s))) m' pr).

(** Growing aside, these are the steps above. *)
Lemma grow_projects g g' : grow_step g g' -> base g' = base g \/ step (base g) (base g').
Proof.
  destruct 1 as [s m H|s s' m H Hs|s s' m H Hs|s s' i m pr Hs|s i k p m m' pr H1 H2 H3 H4]; simpl.
  - by left.
  - right. by left.
  - right. by left.
  - right. right. by exists i.
  - right. right. exists i. left. by apply request_new.
Qed.

(** A map that was replaced stops the lookup that has read its address. *)
Lemma freed_map_stuck s m pr g' : pr ≠ m -> looking_up (router_thread s) = true ->
  grow_step (mk_grown s m (Some pr)) g' -> router_thread (base g') = router_thread s /\ probe g' = Some pr.
Proof.
  intros Hne Hl H. inversion H as [| | |? ? i ? ? Hs|]; subst; simpl; try done.
  split; [|done]. by destruct Hs as [Hs|[Hs|Hs]]; destruct Hs.
Qed.

(** A step during which the request stays in place, within one section. *)
Definition grow_during (k : list Z) (i : nat) (g g' : grown) : Prop :=
  grow_step g g' /\ requested (base g) k i /\ requested (base g') k i /\ section (base g') = section (base g).

End Steps.
