(* ===== verification/RouterEpochExample.v ===== *)
(** * Interleavings of the router thread and the applications

    Concrete runs of the transitions of [RouterEpoch]: an application asks for a
    stream, the router thread looks it up, and the application withdraws its
    request, or leaves, at the worst moment. *)
From stdpp Require Import relations.
From S2P Require Import Prelude StreamId StreamIdSpec Router RouterEpoch.

#[local] Instance signed_char_e : CharSign := true.

(** The key of the first lookup is that of the message itself. *)
Definition ex_key0 : list Z := id example_sid.
Definition ex_keys : list (list Z) := tail (lookup_keys example_sid).

Lemma ex_keys_eq : lookup_keys example_sid = ex_key0 :: ex_keys.
Proof. vm_compute. reflexivity. Qed.

Lemma ex_keys_other : ex_key0 ∉ ex_keys.
Proof. apply (bool_decide_unpack _). vm_compute. exact I. Qed.

(** Lookups that find nothing. *)
Lemma misses s ks f : router_thread s = RSection ks f -> (forall k, k ∈ ks -> table s !! k = None) ->
  rtc reader_step s (set_reader s (section s) (RSection [] f)).
Proof.
  revert s. induction ks as [|k ks IH]; intros s E Hk.
  - assert (set_reader s (section s) (RSection [] f) = s) as -> by (destruct s; unfold set_reader; simpl in *; by subst).
    apply rtc_refl.
  - eapply rtc_l; [eapply lookup_miss; [exact E|apply Hk; set_solver]|].
    apply (IH (set_reader s (section s) (RSection ks f)) eq_refl). intros k' ?. apply Hk. set_solver.
Qed.

(** The application 0, with context 7, has requested the key. *)
Definition e_registered : shared := set_slots initial 0 WIdle {[ 0%nat := 7%nat ]} {[ 7%nat ]}.
Definition e_locked : shared := set_lock e_registered 0 (WRequest ex_key0) (Some 0%nat).
Definition e_requested : shared := set_lock (update e_locked 0 WUnlock {[ ex_key0 := 1%nat ]} {[ 1%nat := {[ 0%nat ]} ]}) 0 WIdle None.

(** The router thread has begun a section, and holds the entry. *)
Definition e_begun : shared := set_reader e_requested 1 (RSection (ex_key0 :: ex_keys) ∅).
Definition e_hold : shared := set_reader e_begun 1 (RHold 1 ex_keys ∅).

Lemma step_reader s s' : reader_step s s' -> step s s'.
Proof. by left. Qed.
Lemma step_request i s s' : request_step i s s' -> step s s'.
Proof. right. exists i. by left. Qed.
Lemma step_withdraw i s s' : withdraw_step i s s' -> step s s'.
Proof. right. exists i. by right; left. Qed.
Lemma step_app i s s' : app_step i s s' -> step s s'.
Proof. right. exists i. by right; right. Qed.

Lemma e_requested_reachable : reachable e_requested.
Proof.
  eapply rtc_l; [apply (step_app 0); exact (register_app 0 initial 7 eq_refl eq_refl ltac:(set_solver))|].
  eapply rtc_l; [apply (step_request 0); apply (request_lock 0 _ ex_key0); reflexivity|].
  eapply rtc_l; [apply (step_request 0); apply (request_new 0 _ ex_key0 1); reflexivity|].
  eapply rtc_l; [apply (step_request 0); apply (unlock 0); reflexivity|]. apply rtc_refl.
Qed.

Lemma e_begun_reachable : reachable e_begun.
Proof.
  eapply rtc_r; [exact e_requested_reachable|]. apply step_reader. unfold e_begun. rewrite <- ex_keys_eq.
  exact (ck_epoch_begin e_requested example_sid eq_refl).
Qed.

Lemma e_table k : k ∈ ex_keys -> table e_requested !! k = None.
Proof. intros Hk. apply lookup_singleton_ne. intros <-. by apply ex_keys_other. Qed.

(** From the beginning of the section to the last lookup, by the router thread alone. *)
Definition e_looked_up : shared := set_reader e_begun 1 (RSection [] (∅ ∪ {[ 0%nat ]})).

Lemma e_lookups : rtc reader_step e_begun e_looked_up.
Proof.
  eapply rtc_l; [apply (lookup_hit e_begun ex_key0 ex_keys ∅ 1 eq_refl); apply lookup_singleton_eq|].
  eapply rtc_l; [apply (ck_bitmap_union e_hold 1 ex_keys ∅ {[ 0%nat ]} eq_refl); reflexivity|].
  apply (misses (set_reader e_begun 1 (RSection ex_keys (∅ ∪ {[ 0%nat ]}))) ex_keys _ eq_refl). exact e_table.
Qed.

Lemma readers_reachable s s' : reachable s -> rtc reader_step s s' -> reachable s'.
Proof. unfold reachable. intros H Hr. etrans; [exact H|]. eapply rtc_subrel; [|exact Hr]. apply step_reader. Qed.

(** Nothing protects the contexts of the applications: when an
    application leaves while the router thread is about to put a message into
    its queue, the router thread uses the context after it was freed. *)
Theorem context_used_after_free :
  exists s d apps, reachable s /\ router_thread s = RUse d apps /\ d ∉ contexts s.
Proof.
  set (s1 := set_reader e_begun 1 (RForward [0%nat])). set (s2 := set_reader e_begun 1 (RUse 7 [])).
  exists (set_slots s2 0 WFreed (slots s2) (contexts s2 ∖ {[ 7%nat ]})), 7%nat, [].
  split_and!; [|reflexivity|simpl; set_solver].
  eapply rtc_r; [|apply (step_app 0), (free_context 0 s2 7); reflexivity].
  eapply (readers_reachable e_begun); [exact e_begun_reachable|]. etrans; [exact e_lookups|].
  eapply rtc_l; [exact (ck_epoch_end e_looked_up _ eq_refl)|]. apply rtc_once.
  exact (load_some s1 0 [] 7 eq_refl eq_refl).
Qed.

(** ** Witnesses *)

Lemma epoch_safe_witness : reachable e_looked_up /\ (forall k p, table e_looked_up !! k = Some p -> is_Some (entries e_looked_up !! p)).
Proof.
  assert (H : reachable e_looked_up) by exact (readers_reachable _ _ e_begun_reachable e_lookups).
  split; [exact H|]. apply (epoch_safe e_looked_up H).
Defined.


Lemma barrier_ends_witness : exists s s' s'', app_thread s 0%nat = WBarrier 1 (Some 1%nat) /\ router_thread s = RHold 1 ex_keys ∅ /\
  rtc reader_step s s' /\ withdraw_step 0 s' s'' /\ app_thread s'' 0%nat = WUnlock.
Proof.
  set (l1 := set_lock e_hold 0 (WWithdraw ex_key0) (Some 0%nat)).
  set (l2 := update l1 0 (WRemove ex_key0 1) (table l1) (<[1%nat := ∅]> (entries l1))).
  set (l3 := update l2 0 (WBarrier 1 (in_section l2)) (delete ex_key0 (table l2)) (entries l2)).
  assert (H : reachable l3).
  { eapply rtc_r; [|apply (step_withdraw 0), (ck_ht_remove 0 l2 ex_key0 1); reflexivity].
    eapply rtc_r; [|apply (step_withdraw 0), (withdraw_empty 0 l1 ex_key0 1 {[ 0%nat ]}); [reflexivity|apply lookup_singleton_eq|reflexivity|set_solver]].
    eapply rtc_r; [|apply (step_withdraw 0), (withdraw_lock 0 e_hold ex_key0); reflexivity].
    eapply rtc_r; [exact e_begun_reachable|]. apply step_reader.
    apply (lookup_hit e_begun ex_key0 ex_keys ∅ 1 eq_refl), lookup_singleton_eq. }
  destruct (barrier_ends l3 0 1 (Some 1%nat) H eq_refl) as (s' & s'' & H1 & H2 & H3).
  exists l3, s', s''. split_and!; [reflexivity|reflexivity|exact H1|exact H2|exact H3].
Defined.

(** ** A table that grows during the lookups *)

(** The application 1 asks for another key while the router thread holds the
    entry it has found with its first lookup; the table grows from the map 0 to
    the map 5. *)
Definition g_asking : shared := set_lock e_begun 1 (WRequest []) (Some 1%nat).
Definition g_hold : shared := set_reader g_asking 1 (RHold 1 ex_keys ∅).
Definition g_added : shared := update g_hold 1 WUnlock (<[[] := 2%nat]> (table g_hold)) (<[2%nat := {[ 1%nat ]}]> (entries g_hold)).
Definition g_found : shared := set_reader g_added 1 (RSection ex_keys (∅ ∪ {[ 0%nat ]})).

Lemma ex_keys_long : [] ∉ ex_keys.
Proof. apply (bool_decide_unpack _). vm_compute. exact I. Qed.

Lemma g_table k : k ∈ ex_keys -> table g_found !! k = None.
Proof. intros Hk. change (table g_found) with (<[[] := 2%nat]> (table e_requested)). rewrite lookup_insert_ne by (intros <-; by apply ex_keys_long). by apply e_table. Qed.

Lemma requested_0 s : table s !! ex_key0 = Some 1%nat -> entries s !! 1%nat = Some {[ 0%nat ]} -> requested s ex_key0 0.
Proof. intros H1 H2. exists 1%nat, {[ 0%nat ]}. split_and!; [done|done|set_solver]. Qed.

(** Lookups that find nothing, each with the map it reads. *)
Lemma grow_misses s m ks f : router_thread s = RSection ks f -> (forall k, k ∈ ks -> table s !! k = None) -> requested s ex_key0 0 ->
  rtc (grow_during ex_key0 0) (mk_grown s m None) (mk_grown (set_reader s (section s) (RSection [] f)) m None).
Proof.
  revert s. induction ks as [|k ks IH]; intros s E Hk Hq.
  - assert (set_reader s (section s) (RSection [] f) = s) as -> by (destruct s; unfold set_reader; simpl in *; by subst).
    apply rtc_refl.
  - assert (Hl : looking_up (router_thread s) = true) by (by rewrite E).
    eapply rtc_l; [split_and!; [by apply load_map|exact Hq|exact Hq|reflexivity]|].
    eapply rtc_l; [split_and!; [apply probe_map; [exact Hl|eapply lookup_miss; [exact E|apply Hk; set_solver]]|exact Hq|exact Hq|reflexivity]|].
    apply (IH (set_reader s (section s) (RSection ks f)) eq_refl); [|exact Hq]. intros k' ?. apply Hk. set_solver.
Qed.

Lemma g_lookups : rtc (grow_during ex_key0 0) (mk_grown e_begun 0 None) (mk_grown (set_reader g_found 1 (RSection [] (∅ ∪ {[ 0%nat ]}))) 5 None).
Proof.
  assert (Hq : forall s, table s = {[ ex_key0 := 1%nat ]} -> entries s = {[ 1%nat := {[ 0%nat ]} ]} -> requested s ex_key0 0).
  { intros s Ht He. apply requested_0; [rewrite Ht; apply lookup_singleton_eq|by rewrite He]. }
  assert (Hq' : forall s, table s = table g_added -> entries s = entries g_added -> requested s ex_key0 0).
  { intros s Ht He. apply requested_0; [|by rewrite He]. rewrite Ht. change (table g_added) with (<[[] := 2%nat]> ({[ ex_key0 := 1%nat ]} : gmap (list Z) nat)).
    rewrite lookup_insert_ne by (vm_compute; discriminate).
    apply lookup_singleton_eq. }
  eapply rtc_l; [split_and!; [apply (app_acts e_begun g_asking 1 0 None); left; apply (request_lock 1 _ []); reflexivity|by apply Hq|by apply Hq|reflexivity]|].
  eapply rtc_l; [split_and!; [by apply (load_map g_asking 0)|by apply Hq|by apply Hq|reflexivity]|].
  eapply rtc_l; [split_and!; [apply (probe_map g_asking g_hold 0); [reflexivity|]; apply (lookup_hit g_asking ex_key0 ex_keys ∅ 1 eq_refl), lookup_singleton_eq
                             |by apply Hq|by apply Hq|reflexivity]|].
  eapply rtc_l; [split_and!; [apply (ck_ht_grow g_hold 1 [] 2 0 5 None); [reflexivity|apply lookup_singleton_ne; vm_compute; discriminate|reflexivity|lia]
                             |by apply Hq|by apply Hq'|reflexivity]|].
  eapply rtc_l; [split_and!; [apply (no_lookup g_added g_found 5); [reflexivity|]; apply (ck_bitmap_union g_added 1 ex_keys ∅ {[ 0%nat ]} eq_refl); reflexivity
                             |by apply Hq'|by apply Hq'|reflexivity]|].
  apply (grow_misses g_found 5 ex_keys); [reflexivity|exact g_table|by apply Hq'].
Qed.

(** When it grows one step earlier, the lookup that has read its address is left
    with a map that was freed. *)
Theorem map_used_after_free : exists g pr, rtc grow_step (mk_grown initial 0 None) g /\ probe g = Some pr /\ pr ≠ map g /\
  looking_up (router_thread (base g)) = true.
Proof.
  set (added := update g_asking 1 WUnlock (<[[] := 2%nat]> (table g_asking)) (<[2%nat := {[ 1%nat ]}]> (entries g_asking))).
  exists (mk_grown added 5 (Some 0%nat)), 0%nat. split_and!; [|reflexivity|done|reflexivity].
  eapply rtc_l; [apply (app_acts initial e_registered 0 0 None); right; right; exact (register_app 0 initial 7 eq_refl eq_refl ltac:(set_solver))|].
  eapply rtc_l; [apply (app_acts _ e_locked 0 0 None); left; apply (request_lock 0 _ ex_key0); reflexivity|].
  eapply rtc_l; [eapply (app_acts _ _ 0 0 None); left; apply (request_new 0 _ ex_key0 1); reflexivity|].
  eapply rtc_l; [eapply (app_acts _ _ 0 0 None); left; apply (unlock 0); reflexivity|].
  eapply rtc_l; [apply (no_lookup e_requested e_begun 0); [reflexivity|]; unfold e_begun; rewrite <- ex_keys_eq; exact (ck_epoch_begin e_requested example_sid eq_refl)|].
  eapply rtc_l; [apply (app_acts e_begun g_asking 1 0 None); left; apply (request_lock 1 _ []); reflexivity|].
  eapply rtc_l; [by apply (load_map g_asking 0)|].
  apply rtc_once, (ck_ht_grow g_asking 1 [] 2 0 5 (Some 0%nat)); [reflexivity|apply lookup_singleton_ne; vm_compute; discriminate|reflexivity|lia].
Qed.

