(* ===== verification/Logging.v ===== *)
(** * The logger

    [src/src/logger/jrtc_logging.c] and the inline helpers of
    [jrtc_logging.h]. A C string is the list of its characters before the
    terminating NUL. *)
From stdpp Require Import pretty.
From S2P Require Import Prelude.
From Stdlib Require Import Ascii.

Definition chars (s : string) : list ascii := String.list_ascii_of_string s.

#[global] Instance ascii_eqdec : EqDecision ascii := ascii_dec.

(** [toupper] and [tolower] in the C locale. *)
Definition toupper (c : ascii) : ascii :=
  let n := nat_of_ascii c in if decide (97 <= n <= 122)%nat then ascii_of_nat (n - 32) else c.
Definition tolower (c : ascii) : ascii :=
  let n := nat_of_ascii c in if decide (65 <= n <= 90)%nat then ascii_of_nat (n + 32) else c.

(** [strcasecmp(a, b) == 0]. *)
Definition strcaseeq (a b : list ascii) : bool := bool_decide (tolower <$> a = tolower <$> b).

Inductive jrtc_logging_level :=
| JRTC_DEBUG_LEVEL
| JRTC_INFO_LEVEL
| JRTC_WARN_LEVEL
| JRTC_ERROR_LEVEL
| JRTC_CRITICAL_LEVEL.

#[global] Instance level_eq_dec : EqDecision jrtc_logging_level.
Proof. solve_decision. Defined.

Definition level_index (l : jrtc_logging_level) : nat :=
  match l with
  | JRTC_DEBUG_LEVEL => 0
  | JRTC_INFO_LEVEL => 1
  | JRTC_WARN_LEVEL => 2
  | JRTC_ERROR_LEVEL => 3
  | JRTC_CRITICAL_LEVEL => 4
  end.

(** The table [STR]. *)
Definition STR : list (list ascii) :=
  [chars "[DEBUG]: "; chars "[INFO]: "; chars "[WARN]: "; chars "[ERROR]: "; chars "[CRITICAL]: "].

Definition jrtc_get_logging_level (level_str : list ascii) : jrtc_logging_level :=
  if strcaseeq level_str (chars "DEBUG") then JRTC_DEBUG_LEVEL
  else if strcaseeq level_str (chars "INFO") then JRTC_INFO_LEVEL
  else if strcaseeq level_str (chars "WARN") || strcaseeq level_str (chars "WARNING") then JRTC_WARN_LEVEL
  else if strcaseeq level_str (chars "ERROR") then JRTC_ERROR_LEVEL
  else if strcaseeq level_str (chars "CRITICAL") || strcaseeq level_str (chars "FATAL") then JRTC_CRITICAL_LEVEL
  else JRTC_DEBUG_LEVEL.

(** The globals of the module: the level, and below the two function
    pointers. *)
Record logger_state := mk_logger { jrtc_logger_level : jrtc_logging_level }.

Definition logger_init : logger_state := mk_logger JRTC_DEBUG_LEVEL.
Definition jrtc_set_logging_level (st : logger_state) (level : jrtc_logging_level) : logger_state := mk_logger level.
Definition jrtc_get_current_logging_level (st : logger_state) : jrtc_logging_level := jrtc_logger_level st.

Inductive log_stream := Stdout | Stderr.

Definition LOGGING_BUFFER_LEN : nat := Z.to_nat 8192.

(** [snprintf] into a buffer of [n] bytes keeps [n - 1] characters. *)
Definition snprintf (n : nat) (s : list ascii) : list ascii := take (n - 1) s.

(** The format string handed to [vfprintf] and the stream it goes to, if the
    message is printed at all; [timestamp] is the formatted time. *)
Definition jrtc_default_logging (st : logger_state) (timestamp domain : list ascii) (level : jrtc_logging_level)
    (s : list ascii) : outcome (option (log_stream * list ascii)) :=
  if decide (level_index (jrtc_logger_level st) <= level_index level)%nat then
    name ← array_get STR (level_index level);
    let output := snprintf LOGGING_BUFFER_LEN (timestamp ++ chars " " ++ domain ++ name ++ s) in
    let stream := if decide (level_index JRTC_INFO_LEVEL <= level_index level)%nat then Stderr else Stdout in
    Ret (Some (stream, output))
  else Ret None.

(** [jrtc_default_va_logging] has the same body, with the arguments in a
    [va_list]. *)
Definition jrtc_default_va_logging := jrtc_default_logging.

(** A logging function prints, or not, what it makes of the time, the domain,
    the level and the format. *)
Abbreviation log_function :=
  (logger_state -> list ascii -> list ascii -> jrtc_logging_level -> list ascii -> outcome (option (log_stream * list ascii))).

Record logger_functions := mk_functions { jrtc_logger : log_function; jrtc_va_logger : log_function }.

Definition functions_init : logger_functions := mk_functions jrtc_default_logging jrtc_default_va_logging.
Definition jrtc_set_logging_function (st : logger_functions) (func : log_function) : logger_functions :=
  mk_functions func (jrtc_va_logger st).
Definition jrtc_set_va_logging_function (st : logger_functions) (func : log_function) : logger_functions :=
  mk_functions (jrtc_logger st) func.

(** [strrchr(file, '/')]: what follows the last separator. *)
Fixpoint after_last (c : ascii) (s : list ascii) : option (list ascii) :=
  match s with
  | [] => None
  | x :: s =>
      match after_last c s with
      | Some t => Some t
      | None => if decide (x = c) then Some s else None
      end
  end.

Definition get_file_name_jrtc (file : list ascii) : list ascii :=
  match after_last "/" file with Some p => p | None => file end.

(** [strstr]: what follows the first occurrence of [pat]. *)
Fixpoint after_first (pat s : list ascii) : option (list ascii) :=
  if decide (take (length pat) s = pat) then Some (drop (length pat) s)
  else match s with [] => None | _ :: s => after_first pat s end.

(** [strchr]: what precedes the first occurrence. *)
Fixpoint before_first (c : ascii) (s : list ascii) : option (list ascii) :=
  match s with
  | [] => None
  | x :: s => if decide (x = c) then Some [] else cons x <$> before_first c s
  end.

(** [None] is NULL; [malloc_ok] is whether the allocation succeeds. *)
Definition get_domain_jrtc (malloc_ok : bool) (file : list ascii) : option (list ascii) :=
  match after_first (chars "src/") file with
  | None => None
  | Some p =>
      match before_first "/" p with
      | None => None
      | Some d => if malloc_ok then Some (toupper <$> d) else None
      end
  end.

(** [snprintf] of the prefix into the static buffer of 256 bytes; [verbose] is
    whether [JRTC_VERBOSE_LOGGING] is set. *)
Definition get_log_prefix_jrtc (malloc_ok verbose : bool) (file func : list ascii) (line : Z) : list ascii :=
  let domain := get_domain_jrtc malloc_ok file in
  let place := chars ":" ++ get_file_name_jrtc file ++ chars ":" ++ func ++ chars ":" ++ chars (pretty line) in
  let prefix := match domain with
                | Some d => chars "[JRTC][" ++ d ++ chars "]"
                | None => chars "[JRTC]"
                end in
  snprintf 256 (if verbose then prefix ++ place else prefix).

(** ** Theorems *)

Lemma strcaseeq_lower a a' b : tolower <$> a = tolower <$> a' -> strcaseeq a b = strcaseeq a' b.
Proof. unfold strcaseeq. by intros ->. Qed.

(** The level a configuration names does not depend on the case of its
    letters, the seven names give their levels, and every other string gives
    DEBUG. *)
Theorem get_logging_level_spec s :
  (forall s', tolower <$> s' = tolower <$> s -> jrtc_get_logging_level s' = jrtc_get_logging_level s) /\
  (jrtc_get_logging_level s = JRTC_INFO_LEVEL <-> tolower <$> s = chars "info") /\
  (jrtc_get_logging_level s = JRTC_WARN_LEVEL <-> tolower <$> s = chars "warn" \/ tolower <$> s = chars "warning") /\
  (jrtc_get_logging_level s = JRTC_ERROR_LEVEL <-> tolower <$> s = chars "error") /\
  (jrtc_get_logging_level s = JRTC_CRITICAL_LEVEL <->
     tolower <$> s = chars "critical" \/ tolower <$> s = chars "fatal").
Proof.
  split.
  - intros s' H. unfold jrtc_get_logging_level. by rewrite !(strcaseeq_lower s' s) by done.
  - unfold jrtc_get_logging_level, strcaseeq. generalize (tolower <$> s) as l. intros l.
    repeat match goal with
    | |- context [bool_decide (l = fmap tolower ?x)] =>
        let v := eval vm_compute in (tolower <$> x) in change (fmap tolower x) with v
    | |- context [chars ?x] => let v := eval vm_compute in (chars x) in change (chars x) with v
    end.
    repeat case_bool_decide; subst; cbn; split_and!; split; intros; destruct_or?; try done; auto.
Qed.

(** A message is printed exactly when its level is not below the current
    one; setting the level changes the threshold; the printed text is cut to
    the buffer, and only DEBUG goes to the standard output. *)
Theorem default_logging_spec st lvl ts domain level s :
  exists o, jrtc_default_logging (jrtc_set_logging_level st lvl) ts domain level s = Ret o /\
    (is_Some o <-> (level_index lvl <= level_index level)%nat) /\
    match o with
    | Some (stream, out) => (length out < LOGGING_BUFFER_LEN)%nat /\
        (stream = Stdout <-> level = JRTC_DEBUG_LEVEL) /\
        exists rest, ts ++ chars " " ++ domain ++ default [] (STR !! level_index level) ++ s = out ++ rest
    | None => True
    end.
Proof.
  unfold jrtc_default_logging. cbn [jrtc_logger_level jrtc_set_logging_level].
  case_decide as H; [|exists None; split_and!; [done| |done]; split; [by intros [? ?]|done]].
  destruct (array_get_lt STR (level_index level)) as (name & -> & Hn); [destruct level; cbn; lia|].
  cbn [mbind outcome_bind]. eexists. split; [reflexivity|]. split; [done|]. rewrite Hn. cbn [default from_option].
  unfold snprintf. split_and!.
  - rewrite length_take. unfold LOGGING_BUFFER_LEN. lia.
  - destruct level; cbn; split; done || congruence.
  - eexists. symmetry. apply take_drop.
Qed.

Lemma after_last_spec c s :
  match after_last c s with
  | Some t => (c ∉ t) /\ exists p, s = p ++ c :: t
  | None => c ∉ s
  end.
Proof.
  induction s as [|x s IH]; cbn; [apply not_elem_of_nil|].
  destruct (after_last c s) as [t|].
  - destruct IH as (Hc & p & ->). split; [done|]. by exists (x :: p).
  - case_decide as E; [subst; split; [done|by exists []]|]. by rewrite not_elem_of_cons.
Qed.

Lemma before_first_spec c s :
  match before_first c s with
  | Some d => (c ∉ d) /\ exists q, s = d ++ c :: q
  | None => c ∉ s
  end.
Proof.
  induction s as [|x s IH]; cbn; [apply not_elem_of_nil|]. case_decide as E.
  - subst. split; [apply not_elem_of_nil|]. by exists s.
  - destruct (before_first c s) as [d|]; cbn.
    + destruct IH as (Hc & q & ->). split; [by rewrite not_elem_of_cons|]. by exists q.
    + by rewrite not_elem_of_cons.
Qed.

Lemma after_first_spec pat s :
  match after_first pat s with
  | Some t => exists p, s = p ++ pat ++ t /\ forall p' t', s = p' ++ pat ++ t' -> (length p <= length p')%nat
  | None => forall p' t', s <> p' ++ pat ++ t'
  end.
Proof.
  induction s as [|x s IH]; cbn [after_first]; case_decide as E.
  - exists []. split; [|intros; cbn; lia]. by rewrite <- E at 1; rewrite app_nil_l, take_drop.
  - intros p' t' H. apply E. destruct p'; [|done]. cbn in H. by destruct pat.
  - exists []. split; [|intros; cbn; lia]. rewrite app_nil_l. rewrite <- E at 1. by rewrite take_drop.
  - assert (Hx : forall t', x :: s <> pat ++ t').
    { intros t' H. apply E. by rewrite H, take_app_length. }
    destruct (after_first pat s) as [t|].
    + destruct IH as (p & -> & Hmin). exists (x :: p). split; [done|]. intros [|y p'] t' H.
      * by destruct (Hx t').
      * cbn in H. injection H as _ H. apply Hmin in H. cbn. lia.
    + intros [|y p'] t' H; [by destruct (Hx t')|]. injection H as _ H. by destruct (IH p' t').
Qed.

(** The file name in a log prefix is the path's last component; the
    domain is the component after the first "src/", in capitals, and there is
    none when the path has no such component. *)
Theorem log_prefix_parts file :
  (("/"%char ∉ get_file_name_jrtc file) /\
     (get_file_name_jrtc file = file \/ exists p, file = p ++ "/"%char :: get_file_name_jrtc file)) /\
  match get_domain_jrtc true file with
  | Some dom => exists p d q, file = p ++ chars "src/" ++ d ++ "/"%char :: q /\ ("/"%char ∉ d) /\
      dom = toupper <$> d /\ forall p' t, file = p' ++ chars "src/" ++ t -> (length p <= length p')%nat
  | None => forall p d q, file = p ++ chars "src/" ++ d ++ "/"%char :: q ->
      exists p' t, file = p' ++ chars "src/" ++ t /\ "/"%char ∉ t
  end.
Proof.
  split.
  - unfold get_file_name_jrtc. pose proof (after_last_spec "/" file) as H.
    destruct (after_last "/" file) as [t|]; [|by auto]. destruct H as (Hc & p & ->). split; [done|]. eauto.
  - unfold get_domain_jrtc. pose proof (after_first_spec (chars "src/") file) as H.
    destruct (after_first (chars "src/") file) as [t|].
    + destruct H as (p & -> & Hmin). pose proof (before_first_spec "/" t) as Hb.
      destruct (before_first "/" t) as [d|].
      * destruct Hb as (Hc & q & ->). exists p, d, q. split_and!; try done.
      * intros p' d q _. exists p, t. done.
    + intros p d q E. by destruct (H p (d ++ "/"%char :: q)).
Qed.

(** The prefix of a message always fits its buffer; it begins with [JRTC] and,
    when it fits, with the domain of the file; only verbose prefixes name the
    place. *)
Theorem log_prefix_spec malloc_ok verbose file func line :
  let p := get_log_prefix_jrtc malloc_ok verbose file func line in
  (length p < 256)%nat /\ take 6 p = chars "[JRTC]" /\
  (verbose = false -> forall d, get_domain_jrtc malloc_ok file = Some d -> (length d < 248)%nat -> p = chars "[JRTC][" ++ d ++ chars "]").
Proof.
  unfold get_log_prefix_jrtc, snprintf. split_and!.
  - rewrite length_take. lia.
  - rewrite take_take. by destruct verbose, (get_domain_jrtc malloc_ok file).
  - intros -> d -> Hl. apply take_ge. rewrite !length_app. cbn. lia.
Qed.

Example domain_of_router :
  get_domain_jrtc true (chars "/build/src/router/jrtc_router.c") = Some (chars "ROUTER") /\
  get_file_name_jrtc (chars "/build/src/router/jrtc_router.c") = chars "jrtc_router.c".
Proof. by vm_compute. Qed.
