(* ===== verification/Config.v ===== *)
(** * Configuration

    [src/src/controller/jrtc_config.c]: expansion of environment variables,
    the default configuration, and the state machine that reads a YAML file
    event by event. The environment, the allocator, the YAML parser (as the
    sequence of events it returns) and the sizes the jbpf headers fix are
    arguments. *)
From S2P Require Import Prelude Logging Sched.
From Stdlib Require Import Ascii.

Definition NUL : ascii := ascii_of_nat 0.

(** The string in a buffer: what precedes the first NUL. *)
Fixpoint cstr (b : list ascii) : list ascii :=
  match b with
  | [] => []
  | c :: b => if decide (c = NUL) then [] else c :: cstr b
  end.

(** [strncpy(dst, src, n)]: copies at most [n] characters of the string and
    fills up with NUL; the cells from [n] on are kept. *)
Definition strncpy (dst src : list ascii) (n : nat) : outcome (list ascii) :=
  if decide (n <= length dst)%nat then Ret (take n (src ++ replicate n NUL) ++ drop n dst)
  else Fault OutOfBounds.

Definition streq (buf : list ascii) (s : string) : bool := bool_decide (cstr buf = chars s).

(** [strtol] in base ten, saturating at the range of a 64-bit integer; [atoi]
    cuts the result to an [int], [atoll] keeps it. *)
Definition isspace (c : ascii) : bool :=
  let n := nat_of_ascii c in bool_decide (n = 32 \/ 9 <= n <= 13)%nat.
Fixpoint skip_spaces (s : list ascii) : list ascii :=
  match s with c :: t => if isspace c then skip_spaces t else s | [] => [] end.
Fixpoint digits (acc : Z) (s : list ascii) : Z :=
  match s with
  | c :: s =>
      let d := Z.of_nat (nat_of_ascii c) - 48 in
      if (0 <=? d) && (d <=? 9) then digits (acc * 10 + d) s else acc
  | [] => acc
  end.
Definition strtol (s : list ascii) : Z :=
  let v := match skip_spaces s with
           | "-"%char :: t => - digits 0 t
           | "+"%char :: t => digits 0 t
           | t => digits 0 t
           end in
  Z.max (- 2 ^ 63) (Z.min (2 ^ 63 - 1) v).
Definition atoi (s : list ascii) : Z := sext 32 (u32 (strtol s)).
Definition atoll (s : list ascii) : Z := strtol s.

(** ** expand_env_vars *)

(** The characters before and from the first [c] on. *)
Fixpoint span (c : ascii) (s : list ascii) : list ascii * list ascii :=
  match s with
  | [] => ([], [])
  | x :: t => if decide (x = c) then ([], s) else let '(a, b) := span c t in (x :: a, b)
  end.

(** The leftmost match of [\$\{([^}]+)\}]: what precedes it, the name and what
    follows. *)
Fixpoint find_var (s : list ascii) : option (list ascii * list ascii * list ascii) :=
  match s with
  | [] => None
  | c :: t =>
      let later := match find_var t with Some (p, n, q) => Some (c :: p, n, q) | None => None end in
      match t with
      | x :: u =>
          if decide (c = "$"%char /\ x = "{"%char) then
            match span "}" u with
            | ((_ :: _) as n, _ :: q) => Some ([], n, q)
            | _ => later
            end
          else later
      | [] => later
      end
  end.

Definition VAR_NAME_LEN : nat := 256.

Section Config.
Variable getenv : list ascii -> option (list ascii).
(** Whether the [i]-th allocation of a call succeeds. *)
Variable alloc : nat -> bool.
Variable regcomp_ok : bool.

(** A name that leaves no room for the terminating NUL of [var_name] makes
    [strncpy] or [getenv] leave the array. *)
Fixpoint expand_loop (fuel i : nat) (s : list ascii) : outcome (option (list ascii)) :=
  match fuel with
  | O => Fault Divergence
  | S fuel =>
      match find_var s with
      | None => Ret (Some s)
      | Some (p, n, q) =>
          if decide (VAR_NAME_LEN <= length n)%nat then Fault OutOfBounds
          else
            let v := default [] (getenv n) in
            if alloc i then expand_loop fuel (S i) (p ++ v ++ q) else Ret None
      end
  end.

(** [None] is NULL, as the argument and as the result. *)
Definition expand_env_vars (fuel : nat) (input : option (list ascii)) : outcome (option (list ascii)) :=
  match input with
  | None => Ret None
  | Some s => if alloc 0 && regcomp_ok then expand_loop fuel 1 s else Ret None
  end.

(** ** The configuration *)

(** [jrtc_config_t], with the fields of the jbpf structure the code sets. *)
Record jrtc_config := mk_config {
  thread_config : jrtc_router_thread_config;
  ipc_name : list ascii;
  jbpf_io_is_primary : bool;
  memory_size : Z;
  jbpf_path : list ascii;
  jbpf_namespace : list ascii;
  jbpf_io_ipc_name : list ascii;
  port : Z
}.

Variables JBPF_RUN_PATH_LEN JBPF_NAMESPACE_LEN JBPF_IO_IPC_MAX_NAMELEN : nat.
Variables JBPF_DEFAULT_RUN_PATH JBPF_DEFAULT_NAMESPACE : list ascii.

Definition DEFAULT_JRTC_NAME : list ascii := chars "jrt_controller".
Definition DEFAULT_PORT : Z := 3001.
Definition ROUTER_IPC_NAME_LEN : nat := 32.

(** [strncpy(dst, src, n - 1); dst[n - 1] = 0]. *)
Definition copy_name (dst src : list ascii) (n : nat) : outcome (list ascii) :=
  b ← strncpy dst src (n - 1);
  array_set b (n - 1) NUL.

Definition init_jrtc_config : outcome jrtc_config :=
  path ← copy_name (replicate JBPF_RUN_PATH_LEN NUL) JBPF_DEFAULT_RUN_PATH JBPF_RUN_PATH_LEN;
  ns ← copy_name (replicate JBPF_NAMESPACE_LEN NUL) JBPF_DEFAULT_NAMESPACE JBPF_NAMESPACE_LEN;
  name ← copy_name (replicate ROUTER_IPC_NAME_LEN NUL) DEFAULT_JRTC_NAME JBPF_IO_IPC_MAX_NAMELEN;
  io_name ← copy_name (replicate JBPF_IO_IPC_MAX_NAMELEN NUL) DEFAULT_JRTC_NAME JBPF_IO_IPC_MAX_NAMELEN;
  Ret (mk_config
         (mk_thread_config false 2 false
            (mk_router_sched 0 99 (10 * 1000 * 1000) (30 * 1000 * 1000) (30 * 1000 * 1000)))
         name true (1024 * 1024 * 1024) path ns io_name DEFAULT_PORT).

(** What [yaml_parser_parse] returns; a scalar as the C string of its value. *)
Inductive yaml_event :=
| YAML_SCALAR (value : list ascii)
| YAML_MAPPING_START
| YAML_MAPPING_END
| YAML_STREAM_END
| YAML_OTHER.

(** The local variables of [set_config_values], with what it updates: the
    configuration and the two log levels. *)
Record parse_state := mk_parse {
  key : list ascii;
  in_jrtc_router_config : bool;
  in_thread_config : bool;
  in_sched_config : bool;
  in_jbpf_io_config : bool;
  in_logging : bool;
  config : jrtc_config;
  logger : logger_state;
  jbpf_level : jrtc_logging_level
}.

Definition upd_key (st : parse_state) (k : list ascii) :=
  mk_parse k (in_jrtc_router_config st) (in_thread_config st) (in_sched_config st) (in_jbpf_io_config st)
    (in_logging st) (config st) (logger st) (jbpf_level st).
Definition upd_config (st : parse_state) (c : jrtc_config) :=
  mk_parse (key st) (in_jrtc_router_config st) (in_thread_config st) (in_sched_config st) (in_jbpf_io_config st)
    (in_logging st) c (logger st) (jbpf_level st).
Definition upd_flags (st : parse_state) (r t s i l : bool) :=
  mk_parse (key st) r t s i l (config st) (logger st) (jbpf_level st).
Definition upd_levels (st : parse_state) (lg : logger_state) (jl : jrtc_logging_level) :=
  mk_parse (key st) (in_jrtc_router_config st) (in_thread_config st) (in_sched_config st) (in_jbpf_io_config st)
    (in_logging st) (config st) lg jl.

Definition upd_thread (c : jrtc_config) (t : jrtc_router_thread_config) :=
  mk_config t (ipc_name c) (jbpf_io_is_primary c) (memory_size c) (jbpf_path c) (jbpf_namespace c)
    (jbpf_io_ipc_name c) (port c).
Definition upd_sched (c : jrtc_config) (s : jrtc_router_sched_config) :=
  upd_thread c (mk_thread_config (has_affinity_mask (thread_config c)) (affinity_mask (thread_config c))
                  (has_sched_config (thread_config c)) s).
Definition upd_names (c : jrtc_config) (name path ns io_name : list ascii) :=
  mk_config (thread_config c) name (jbpf_io_is_primary c) (memory_size c) path ns io_name (port c).
Definition upd_port (c : jrtc_config) (p : Z) :=
  mk_config (thread_config c) (ipc_name c) (jbpf_io_is_primary c) (memory_size c) (jbpf_path c)
    (jbpf_namespace c) (jbpf_io_ipc_name c) p.

(** Using a value that [expand_env_vars] could not allocate. *)
Definition value (v : option (list ascii)) : outcome (list ascii) :=
  match v with Some s => Ret s | None => Fault NullDeref end.

Definition set_thread (k : list ascii) (v : option (list ascii)) (c : jrtc_config) : outcome jrtc_config :=
  let t := thread_config c in
  if streq k "affinity_mask" then
    s ← value v;
    Ret (upd_thread c (mk_thread_config (has_affinity_mask t) (u64 (atoi s)) (has_sched_config t) (sched_config t)))
  else if streq k "has_sched_config" then
    s ← value v;
    Ret (upd_thread c (mk_thread_config (has_affinity_mask t) (affinity_mask t) (bool_decide (s = chars "true"))
                         (sched_config t)))
  else Ret c.

Definition set_sched (k : list ascii) (v : option (list ascii)) (c : jrtc_config) : outcome jrtc_config :=
  let s := sched_config (thread_config c) in
  if streq k "sched_policy" then
    x ← value v; Ret (upd_sched c (mk_router_sched (u32 (atoi x)) (sched_priority s) (sched_runtime s)
                                     (sched_deadline s) (sched_period s)))
  else if streq k "sched_priority" then
    x ← value v; Ret (upd_sched c (mk_router_sched (sched_policy s) (atoi x) (sched_runtime s)
                                     (sched_deadline s) (sched_period s)))
  else if streq k "sched_deadline" then
    x ← value v; Ret (upd_sched c (mk_router_sched (sched_policy s) (sched_priority s) (sched_runtime s)
                                     (u64 (atoll x)) (sched_period s)))
  else if streq k "sched_runtime" then
    x ← value v; Ret (upd_sched c (mk_router_sched (sched_policy s) (sched_priority s) (u64 (atoll x))
                                     (sched_deadline s) (sched_period s)))
  else if streq k "sched_period" then
    x ← value v; Ret (upd_sched c (mk_router_sched (sched_policy s) (sched_priority s) (sched_runtime s)
                                     (sched_deadline s) (u64 (atoll x))))
  else Ret c.

Definition set_jbpf_io (k : list ascii) (v : option (list ascii)) (c : jrtc_config) : outcome jrtc_config :=
  if streq k "jbpf_namespace" then
    s ← value v; b ← strncpy (jbpf_namespace c) s (JBPF_NAMESPACE_LEN - 1);
    Ret (upd_names c (ipc_name c) (jbpf_path c) b (jbpf_io_ipc_name c))
  else if streq k "jbpf_path" then
    s ← value v; b ← strncpy (jbpf_path c) s (JBPF_RUN_PATH_LEN - 1);
    Ret (upd_names c (ipc_name c) b (jbpf_namespace c) (jbpf_io_ipc_name c))
  else Ret c.

Definition set_router (k : list ascii) (v : option (list ascii)) (c : jrtc_config) : outcome jrtc_config :=
  if streq k "ipc_name" then
    s ← value v;
    b ← strncpy (ipc_name c) s (ROUTER_IPC_NAME_LEN - 1);
    b' ← strncpy (jbpf_io_ipc_name c) s (JBPF_IO_IPC_MAX_NAMELEN - 1);
    Ret (upd_names c b (jbpf_path c) (jbpf_namespace c) b')
  else if streq k "port" then s ← value v; Ret (upd_port c (atoi s))
  else Ret c.

Definition set_logging (st : parse_state) (v : option (list ascii)) : outcome parse_state :=
  if streq (key st) "jrtc_level" then
    s ← value v; Ret (upd_levels st (jrtc_set_logging_level (logger st) (jrtc_get_logging_level s)) (jbpf_level st))
  else if streq (key st) "jbpf_level" then
    s ← value v; Ret (upd_levels st (logger st) (jrtc_get_logging_level s))
  else Ret st.

(** A scalar that follows a key. *)
Definition scalar_value (st : parse_state) (v : option (list ascii)) : outcome parse_state :=
  let k := key st in
  if in_thread_config st && negb (in_sched_config st) then c ← set_thread k v (config st); Ret (upd_config st c)
  else if in_sched_config st then c ← set_sched k v (config st); Ret (upd_config st c)
  else if in_jbpf_io_config st then c ← set_jbpf_io k v (config st); Ret (upd_config st c)
  else if in_jrtc_router_config st then c ← set_router k v (config st); Ret (upd_config st c)
  else if in_logging st then set_logging st v
  else Ret st.

(** [key[0] = '\0'] and [key[0] == '\0']. *)
Definition reset_key (st : parse_state) : outcome parse_state :=
  k ← array_set (key st) 0 NUL; Ret (upd_key st k).

Definition on_scalar (fuel : nat) (st : parse_state) (s : list ascii) : outcome parse_state :=
  c ← array_get (key st) 0;
  if decide (c = NUL) then
    k ← strncpy (key st) s (256 - 1); Ret (upd_key st k)
  else
    v ← expand_env_vars fuel (Some s);
    st ← scalar_value st v;
    reset_key st.

Definition on_mapping_start (st : parse_state) : outcome parse_state :=
  let '(r, t, s, i, l) := (in_jrtc_router_config st, in_thread_config st, in_sched_config st,
                           in_jbpf_io_config st, in_logging st) in
  reset_key
    (if streq (key st) "jrtc_router_config" then upd_flags st true t s i l
     else if streq (key st) "thread_config" && r then upd_flags st r true s i l
     else if streq (key st) "sched_config" && t then upd_flags st r t true i l
     else if streq (key st) "jbpf_io_config" then upd_flags st r t s true l
     else if streq (key st) "logging" then upd_flags st r t s i true
     else st).

Definition on_mapping_end (st : parse_state) : parse_state :=
  let '(r, t, s, i, l) := (in_jrtc_router_config st, in_thread_config st, in_sched_config st,
                           in_jbpf_io_config st, in_logging st) in
  if s then upd_flags st r t false i l
  else if t then upd_flags st r false s i l
  else if r then upd_flags st false t s i l
  else if i then upd_flags st r t s false l
  else st.

Definition on_event (fuel : nat) (st : parse_state) (e : yaml_event) : outcome parse_state :=
  match e with
  | YAML_SCALAR s => on_scalar fuel st s
  | YAML_MAPPING_START => on_mapping_start st
  | YAML_MAPPING_END => Ret (on_mapping_end st)
  | _ => Ret st
  end.

(** [None] is a parse error; a parser that never reports the end of the stream
    keeps the loop going. *)
Fixpoint parse_loop (fuel : nat) (st : parse_state) (events : list (option yaml_event)) :
    outcome (Z * parse_state) :=
  match events with
  | [] => Fault Divergence
  | None :: _ => Ret (-1, st)
  | Some YAML_STREAM_END :: _ => Ret (0, st)
  | Some e :: events => st ← on_event fuel st e; parse_loop fuel st events
  end.

(** The file: not given, or the result of [fopen] and, if it is open, of
    [yaml_parser_initialize] and of the parser. *)
Inductive yaml_file :=
| NoFilename
| CannotOpen
| CannotParse
| Events (events : list (option yaml_event)).

Definition set_config_values (fuel : nat) (file : yaml_file) (lg : logger_state) (jl : jrtc_logging_level) :
    outcome (Z * jrtc_config * logger_state * jrtc_logging_level) :=
  c ← init_jrtc_config;
  match file with
  | NoFilename => Ret (0, c, lg, jl)
  | CannotOpen | CannotParse => Ret (-1, c, lg, jl)
  | Events events =>
      '(res, st) ← parse_loop fuel (mk_parse (replicate 256 NUL) false false false false false c lg jl) events;
      Ret (res, config st, logger st, jbpf_level st)
  end.

End Config.
