(* ===== verification/ConfigFacts.v ===== *)
(** * Properties of the configuration reader

    What [expand_env_vars] computes and when it stops; that the configuration
    stays well formed whatever the file holds; and how sections of the file
    open and close. *)
From S2P Require Import Prelude Logging Sched Config.
From Stdlib Require Import Ascii.

Abbreviation dollar := "$"%char.

(** ** Expansion *)

(** A string with variables, what is written for it, and what it stands for. *)
Inductive seg :=
| Lit (l : list ascii)
| Var (n : list ascii).

Definition render_seg (x : seg) : list ascii :=
  match x with Lit l => l | Var n => chars "${" ++ n ++ chars "}" end.
Definition render (l : list seg) : list ascii := concat (render_seg <$> l).

Section Expand.
Variable getenv : list ascii -> option (list ascii).
Variable alloc : nat -> bool.

Definition subst_seg (x : seg) : list ascii :=
  match x with Lit l => l | Var n => default [] (getenv n) end.
Definition substitute (l : list seg) : list ascii := concat (subst_seg <$> l).

Definition seg_ok (x : seg) : Prop :=
  match x with
  | Lit l => dollar ∉ l
  | Var n => n <> [] /\ ("}"%char ∉ n) /\ (length n < VAR_NAME_LEN)%nat /\ (dollar ∉ default [] (getenv n))
  end.

Lemma span_spec c s : s = (span c s).1 ++ (span c s).2 /\ (c ∉ (span c s).1) /\
  ((span c s).2 = [] \/ exists q, (span c s).2 = c :: q).
Proof.
  induction s as [|x s IH]; cbn; [split_and!; [done|apply not_elem_of_nil|by left]|].
  case_decide as E; [subst; cbn; split_and!; [done|apply not_elem_of_nil|eauto]|].
  destruct (span c s) as [a b]. cbn in *. destruct IH as (-> & Ha & Hb).
  split_and!; [done|by rewrite not_elem_of_cons|done].
Qed.

Lemma span_app c n q : c ∉ n -> span c (n ++ c :: q) = (n, c :: q).
Proof.
  induction n as [|x n IH]; cbn; [by rewrite decide_True|]. rewrite not_elem_of_cons. intros [Hx Hn].
  rewrite decide_False by congruence. by rewrite IH.
Qed.

Lemma find_var_skip p s : dollar ∉ p ->
  find_var (p ++ s) = match find_var s with Some (p', n, q) => Some (p ++ p', n, q) | None => None end.
Proof.
  induction p as [|c p IH]; cbn [app]; [by destruct (find_var s) as [[[? ?] ?]|]|].
  rewrite not_elem_of_cons. intros [Hc Hp]. cbn [find_var]. rewrite IH by done.
  destruct (p ++ s) as [|x u]; [by destruct (find_var s) as [[[? ?] ?]|]|].
  rewrite decide_False by (intros [-> _]; done). by destruct (find_var s) as [[[? ?] ?]|].
Qed.

Lemma find_var_here n q : n <> [] -> "}"%char ∉ n -> find_var (chars "${" ++ n ++ "}"%char :: q) = Some ([], n, q).
Proof.
  intros Hn Hb. cbn [chars String.list_ascii_of_string app]. cbn [find_var]. rewrite decide_True by done.
  rewrite span_app by done. destruct n as [|x n]; [congruence|reflexivity].
Qed.

Lemma find_var_Some s p n q : find_var s = Some (p, n, q) -> s = p ++ chars "${" ++ n ++ "}"%char :: q.
Proof.
  revert p. induction s as [|c t IH]; intros p; cbn [find_var]; [done|].
  assert (Hlater : match find_var t with Some (p, n, q) => Some (c :: p, n, q) | None => None end = Some (p, n, q) ->
            c :: t = p ++ chars "${" ++ n ++ "}"%char :: q).
  { destruct (find_var t) as [[[p' n'] q']|]; [|done]. intros [= <- -> ->]. cbn. f_equal. by apply IH. }
  destruct t as [|x u]; [exact Hlater|]. case_decide as E; [|exact Hlater]. destruct E as [-> ->].
  pose proof (span_spec "}" u) as (Hu & _ & Hq). destruct (span "}" u) as [[|n0 ns] [|b q']]; try exact Hlater.
  intros [= <- <- <-]. cbn in Hu, Hq. destruct Hq as [?|[q [= -> ->]]]; [done|]. by rewrite Hu.
Qed.

Lemma expand_template_loop segs pre i fuel : (forall j, alloc j = true) -> dollar ∉ pre -> Forall seg_ok segs ->
  (length segs < fuel)%nat ->
  expand_loop getenv alloc fuel i (pre ++ render segs) = Ret (Some (pre ++ substitute segs)).
Proof.
  intros Ha. revert pre i fuel. induction segs as [|x segs IH]; intros pre i fuel Hp Hok Hf.
  - destruct fuel; cbn in Hf; [lia|]. cbn [expand_loop]. rewrite find_var_skip by done. reflexivity.
  - apply Forall_cons in Hok as [Hx Hok]. cbn in Hf. unfold render, substitute. cbn [fmap list_fmap concat].
    destruct x as [l|n]; cbn [render_seg subst_seg].
    + rewrite !app_assoc. apply IH; [by rewrite not_elem_of_app|done|lia].
    + destruct Hx as (Hn & Hb & Hlen & Hv). destruct fuel; [lia|]. cbn [expand_loop].
      rewrite find_var_skip by done. rewrite <- !app_assoc. change (chars "}" ++ ?q) with ("}"%char :: q).
      cbn [app]. rewrite find_var_here by done. rewrite decide_False by lia. rewrite Ha, app_nil_r, !app_assoc.
      apply IH; [by rewrite not_elem_of_app|done|lia].
Qed.

(** When every literal part is free of "$", every name is non-empty and
    fits its buffer, and no value of the environment has a "$", expansion
    returns the string with each variable replaced by its value, or by nothing
    when it is not set. *)
Theorem expand_env_vars_template segs fuel : (forall i, alloc i = true) -> Forall seg_ok segs ->
  (length segs < fuel)%nat ->
  expand_env_vars getenv alloc true fuel (Some (render segs)) = Ret (Some (substitute segs)).
Proof.
  intros Ha Hok Hf. unfold expand_env_vars. rewrite Ha. cbn [andb].
  apply (expand_template_loop segs [] 1 fuel); [done|apply not_elem_of_nil|done|done].
Qed.

Definition dollars (s : list ascii) : nat := length (filter (λ c, c = dollar) s).

Lemma dollars_app s t : dollars (s ++ t) = (dollars s + dollars t)%nat.
Proof. unfold dollars. by rewrite filter_app, length_app. Qed.

Lemma dollars_none s : dollar ∉ s -> dollars s = 0%nat.
Proof.
  intros H. unfold dollars. induction s as [|c s IH]; [done|]. apply not_elem_of_cons in H as [Hc Hs].
  rewrite filter_cons_False by congruence. by apply IH.
Qed.

(** C39: expansion stops on every input when no value of the environment has a
    "$": one round more than the number of "$" in the input is enough; and
    what it returns has no variable left. *)
Theorem expand_env_vars_terminates s fuel :
  (forall n v, getenv n = Some v -> dollar ∉ v) -> (dollars s < fuel)%nat ->
  expand_env_vars getenv alloc true fuel (Some s) <> Fault Divergence /\
  forall s', expand_env_vars getenv alloc true fuel (Some s) = Ret (Some s') -> find_var s' = None.
Proof.
  intros Henv. unfold expand_env_vars. destruct (alloc 0); cbn [andb]; [|done]. generalize 1%nat as i.
  revert s. induction fuel as [|fuel IH]; intros s i Hf; [lia|]. cbn [expand_loop].
  destruct (find_var s) as [[[p n] q]|] eqn:E.
  2: { split; [done|]. by intros s' [= <-]. }
  case_decide; [done|]. destruct (alloc i); [|done]. apply IH.
  apply find_var_Some in E. rewrite E in Hf. rewrite !dollars_app in *.
  assert (Hv : dollars (default [] (getenv n)) = 0%nat).
  { apply dollars_none. destruct (getenv n) as [v|] eqn:En; [by apply (Henv n)|apply not_elem_of_nil]. }
  rewrite Hv. change (dollars (chars "${")) with 1%nat in Hf.
  assert (dollars q <= dollars ("}"%char :: q))%nat
    by (change ("}"%char :: q) with (["}"%char] ++ q); rewrite dollars_app; lia).
  lia.
Qed.

(** A variable whose value refers to itself keeps the expansion going for
    ever. *)
Theorem expand_env_vars_diverges fuel : (forall i, alloc i = true) ->
  getenv (chars "X") = Some (chars "${X}") ->
  expand_env_vars getenv alloc true fuel (Some (chars "${X}")) = Fault Divergence.
Proof.
  intros Ha He. unfold expand_env_vars. rewrite Ha. cbn [andb]. generalize 1%nat as i.
  induction fuel as [|fuel IH]; intros i; [done|]. cbn [expand_loop].
  change (find_var (chars "${X}")) with (Some ([] : list ascii, chars "X", [] : list ascii)). cbv iota.
  rewrite decide_False by (unfold VAR_NAME_LEN; cbn; lia). rewrite Ha, He. apply IH.
Qed.

Lemma find_var_plain s : dollar ∉ s -> find_var s = None.
Proof. intros H. rewrite <- (app_nil_r s), find_var_skip by done. done. Qed.
End Expand.

(** ** Buffers *)

(** A buffer of [n] cells that ends in NUL. *)
Definition buf_ok (n : nat) (b : list ascii) : Prop := length b = n /\ (0 < n)%nat /\ b !! (n - 1)%nat = Some NUL.

Lemma strncpy_buf_ok n b s : buf_ok n b -> exists b', strncpy b s (n - 1) = Ret b' /\ buf_ok n b'.
Proof.
  intros (Hl & Hn & Hb). unfold strncpy. rewrite decide_True by lia. eexists. split; [reflexivity|].
  assert (Ht : length (take (n - 1) (s ++ replicate (n - 1) NUL)) = (n - 1)%nat)
    by (rewrite length_take, length_app, length_replicate; lia).
  split_and!; [rewrite length_app, Ht, length_drop; lia|done|].
  rewrite lookup_app_r, Ht, Nat.sub_diag, lookup_drop, Nat.add_0_r by lia. done.
Qed.

Lemma cstr_length_lt b i : b !! i = Some NUL -> (length (cstr b) <= i)%nat.
Proof.
  revert i. induction b as [|c b IH]; intros [|i]; cbn; try done; intros H.
  - injection H as ->. by rewrite decide_True.
  - case_decide; cbn; [lia|]. apply IH in H. lia.
Qed.

Lemma array_set_buf_ok n b i : buf_ok n b -> (i < n)%nat -> exists b', array_set b i NUL = Ret b' /\ buf_ok n b'.
Proof.
  intros (Hl & Hn & Hb) Hi. rewrite array_set_lt by lia. eexists. split; [reflexivity|].
  split_and!; [by rewrite length_insert|done|]. rewrite list_lookup_insert. case_decide; [done|done].
Qed.

Lemma zero_buf_ok n : (0 < n)%nat -> buf_ok n (replicate n NUL).
Proof. intros Hn. split_and!; [apply length_replicate|done|]. apply lookup_replicate. split; [done|lia]. Qed.

Lemma copy_name_buf_ok n m s : (0 < m <= n)%nat -> exists b', copy_name (replicate n NUL) s m = Ret b' /\ buf_ok n b'.
Proof.
  intros Hm. unfold copy_name, strncpy. rewrite decide_True by (rewrite length_replicate; lia). cbn [mbind outcome_bind].
  assert (Ht : length (take (m - 1) (s ++ replicate (m - 1) NUL)) = (m - 1)%nat)
    by (rewrite length_take, length_app, length_replicate; lia).
  apply array_set_buf_ok; [|lia]. split_and!; [|lia|].
  - rewrite length_app, Ht, length_drop, length_replicate. lia.
  - rewrite lookup_app_r, Ht, lookup_drop, lookup_replicate by lia. split; [done|lia].
Qed.

(** ** The reader *)

Section Reader.
Variable getenv : list ascii -> option (list ascii).
Variable alloc : nat -> bool.
Variable regcomp_ok : bool.
Variables JBPF_RUN_PATH_LEN JBPF_NAMESPACE_LEN JBPF_IO_IPC_MAX_NAMELEN : nat.
Variables JBPF_DEFAULT_RUN_PATH JBPF_DEFAULT_NAMESPACE : list ascii.

Abbreviation event_step := (on_event getenv alloc regcomp_ok JBPF_RUN_PATH_LEN JBPF_NAMESPACE_LEN JBPF_IO_IPC_MAX_NAMELEN).
Abbreviation parse := (parse_loop getenv alloc regcomp_ok JBPF_RUN_PATH_LEN JBPF_NAMESPACE_LEN JBPF_IO_IPC_MAX_NAMELEN).
Abbreviation read_config := (set_config_values getenv alloc regcomp_ok JBPF_RUN_PATH_LEN JBPF_NAMESPACE_LEN
  JBPF_IO_IPC_MAX_NAMELEN JBPF_DEFAULT_RUN_PATH JBPF_DEFAULT_NAMESPACE).

(** Every string is terminated inside its buffer; the affinity flag is off. *)
Definition config_wf (c : jrtc_config) : Prop :=
  buf_ok ROUTER_IPC_NAME_LEN (ipc_name c) /\ buf_ok JBPF_RUN_PATH_LEN (jbpf_path c) /\
  buf_ok JBPF_NAMESPACE_LEN (jbpf_namespace c) /\ buf_ok JBPF_IO_IPC_MAX_NAMELEN (jbpf_io_ipc_name c) /\
  has_affinity_mask (thread_config c) = false.

Definition parse_wf (st : parse_state) : Prop := buf_ok 256 (key st) /\ config_wf (config st).

(** The sizes the jbpf headers give: the router's own name buffer must be as
    long as theirs. *)
Definition sizes_ok : Prop :=
  (0 < JBPF_RUN_PATH_LEN)%nat /\ (0 < JBPF_NAMESPACE_LEN)%nat /\
  (0 < JBPF_IO_IPC_MAX_NAMELEN <= ROUTER_IPC_NAME_LEN)%nat.

Lemma init_config_wf : sizes_ok -> exists c,
  init_jrtc_config JBPF_RUN_PATH_LEN JBPF_NAMESPACE_LEN JBPF_IO_IPC_MAX_NAMELEN
    JBPF_DEFAULT_RUN_PATH JBPF_DEFAULT_NAMESPACE = Ret c /\ config_wf c.
Proof.
  intros (H1 & H2 & H3). unfold init_jrtc_config.
  destruct (copy_name_buf_ok JBPF_RUN_PATH_LEN JBPF_RUN_PATH_LEN JBPF_DEFAULT_RUN_PATH) as (b1 & -> & W1); [lia|].
  destruct (copy_name_buf_ok JBPF_NAMESPACE_LEN JBPF_NAMESPACE_LEN JBPF_DEFAULT_NAMESPACE) as (b2 & E2 & W2); [lia|].
  destruct (copy_name_buf_ok ROUTER_IPC_NAME_LEN JBPF_IO_IPC_MAX_NAMELEN DEFAULT_JRTC_NAME) as (b3 & E3 & W3); [lia|].
  destruct (copy_name_buf_ok JBPF_IO_IPC_MAX_NAMELEN JBPF_IO_IPC_MAX_NAMELEN DEFAULT_JRTC_NAME) as (b4 & E4 & W4); [lia|].
  cbn [mbind outcome_bind]. rewrite E2. cbn [mbind outcome_bind]. rewrite E3. cbn [mbind outcome_bind].
  rewrite E4. cbn [mbind outcome_bind]. eexists. split; [reflexivity|]. split_and!; done || apply W1 || apply W2 || apply W3 || apply W4.
Qed.

(** A value that is not NULL is always accepted, and the configuration stays
    well formed. *)
Lemma scalar_value_wf st s : parse_wf st ->
  exists st', scalar_value JBPF_RUN_PATH_LEN JBPF_NAMESPACE_LEN JBPF_IO_IPC_MAX_NAMELEN st (Some s) = Ret st' /\
    parse_wf st' /\ key st' = key st.
Proof.
  intros (Wk & W1 & W2 & W3 & W4 & Ha). unfold scalar_value.
  destruct (strncpy_buf_ok _ _ s W1) as (b1 & E1 & B1). destruct (strncpy_buf_ok _ _ s W2) as (b2 & E2 & B2).
  destruct (strncpy_buf_ok _ _ s W3) as (b3 & E3 & B3). destruct (strncpy_buf_ok _ _ s W4) as (b4 & E4 & B4).
  unfold set_thread, set_sched, set_jbpf_io, set_router, set_logging, value. cbn [mbind outcome_bind].
  rewrite E1, E2, E3. cbn [mbind outcome_bind]. rewrite E4. cbn [mbind outcome_bind].
  repeat match goal with |- context [if ?b then _ else _] => destruct b end; cbn [mbind outcome_bind];
    (eexists; split; [reflexivity|]); by split; [split|].
Qed.

Lemma scalar_value_null_wf st st' : parse_wf st ->
  scalar_value JBPF_RUN_PATH_LEN JBPF_NAMESPACE_LEN JBPF_IO_IPC_MAX_NAMELEN st None = Ret st' -> parse_wf st'.
Proof.
  intros (Wk & W). unfold scalar_value, set_thread, set_sched, set_jbpf_io, set_router, set_logging, value.
  cbn [mbind outcome_bind]. repeat match goal with |- context [if ?b then _ else _] => destruct b end;
    cbn [mbind outcome_bind]; intros; simplify_eq; by split.
Qed.

Lemma reset_key_wf st : parse_wf st -> exists st', reset_key st = Ret st' /\ parse_wf st'.
Proof.
  intros [Wk W]. unfold reset_key. destruct (array_set_buf_ok 256 (key st) 0 Wk) as (k & -> & Wk'); [lia|].
  cbn. eexists. split; [reflexivity|]. by split.
Qed.

Lemma on_mapping_start_wf st : parse_wf st -> exists st', on_mapping_start st = Ret st' /\ parse_wf st'.
Proof.
  intros W. unfold on_mapping_start. apply reset_key_wf.
  repeat match goal with |- context [if ?b then _ else _] => destruct b end; exact W.
Qed.

Lemma on_mapping_end_wf st : parse_wf st -> parse_wf (on_mapping_end st).
Proof. intros W. unfold on_mapping_end. repeat match goal with |- context [if ?b then _ else _] => destruct b end; exact W. Qed.

Lemma on_scalar_key_wf fuel st s : parse_wf st -> key st !! 0%nat = Some NUL ->
  exists st', event_step fuel st (YAML_SCALAR s) = Ret st' /\ parse_wf st'.
Proof.
  intros [Wk W] H0. cbn. unfold on_scalar. rewrite (array_get_Some _ _ _ H0). cbn [mbind outcome_bind].
  rewrite decide_True by done. destruct (strncpy_buf_ok 256 (key st) s Wk) as (k & -> & Wk').
  cbn. eexists. split; [reflexivity|]. by split.
Qed.

Lemma scalar_value_null st :
  (exists st', scalar_value JBPF_RUN_PATH_LEN JBPF_NAMESPACE_LEN JBPF_IO_IPC_MAX_NAMELEN st None = Ret st') \/
  scalar_value JBPF_RUN_PATH_LEN JBPF_NAMESPACE_LEN JBPF_IO_IPC_MAX_NAMELEN st None = Fault NullDeref.
Proof.
  unfold scalar_value, set_thread, set_sched, set_jbpf_io, set_router, set_logging, value.
  cbn [mbind outcome_bind]. repeat match goal with |- context [if ?b then _ else _] => destruct b end; cbn [mbind outcome_bind]; eauto.
Qed.

Abbreviation expand fuel s := (expand_env_vars getenv alloc regcomp_ok fuel (Some s)).

(** What stops the reading of a value: its expansion faults, or gives NULL,
    which is then used. *)
Definition stops {A} (fuel : nat) (s : list ascii) (m : outcome A) : Prop :=
  (exists f, expand fuel s = Fault f /\ m = Fault f) \/ (expand fuel s = Ret None /\ m = Fault NullDeref).

Lemma on_event_cases fuel st e : parse_wf st ->
  (exists st', event_step fuel st e = Ret st' /\ parse_wf st') \/
  (exists s, e = YAML_SCALAR s /\ stops fuel s (event_step fuel st e)).
Proof.
  intros W. destruct e as [s| | | |]; cbn [on_event]; [|left; eauto using on_mapping_start_wf, on_mapping_end_wf..].
  pose proof (on_scalar_key_wf fuel st s W) as Hk. cbn [on_event] in Hk. revert Hk. unfold stops, on_scalar.
  destruct W as [(Hl & Hn & Hk') Wc]. assert (W : parse_wf st) by done.
  destruct (array_get_lt (key st) 0) as (c & Ec & Hc); [lia|]. rewrite Ec. cbn [mbind outcome_bind]. intros Hk. case_decide as E.
  { left. subst c. by apply Hk. }
  destruct (expand fuel s) as [[v|]|f] eqn:Ee; cbn [mbind outcome_bind]; [| |right; exists s; eauto].
  - left. destruct (scalar_value_wf st v W) as (st1 & -> & W1 & _). cbn [mbind outcome_bind]. by apply reset_key_wf.
  - destruct (scalar_value_null st) as [[st1 E1]| ->]; [left|right; exists s; eauto].
    pose proof (scalar_value_null_wf st st1 W E1) as W1. rewrite E1. cbn [mbind outcome_bind]. by apply reset_key_wf.
Qed.

Lemma parse_loop_cases fuel events st : parse_wf st ->
  (exists res st', parse fuel st events = Ret (res, st') /\ parse_wf st') \/
  (exists s, Some (YAML_SCALAR s) ∈ events /\ stops fuel s (parse fuel st events)) \/
  ((None ∉ events) /\ (Some YAML_STREAM_END ∉ events) /\ parse fuel st events = Fault Divergence).
Proof.
  revert st. induction events as [|x events IH]; intros st W; cbn [parse_loop]; [right; right; by split_and!; try apply not_elem_of_nil|].
  destruct x as [e|]; [|left; eauto].
  assert (Hd : e = YAML_STREAM_END \/ e <> YAML_STREAM_END) by (destruct e; auto).
  destruct Hd as [->|Hne]; [left; eauto|].
  assert (Hp : match e with YAML_STREAM_END => Ret (0, st) | _ => st1 ← event_step fuel st e; parse fuel st1 events end =
               (st1 ← event_step fuel st e; parse fuel st1 events)) by (by destruct e).
  destruct (on_event_cases fuel st e W) as [(st1 & E1 & W1)|(s & -> & Hs)].
  - assert (Hq : parse fuel st1 events = match e with YAML_STREAM_END => Ret (0, st) | _ => st1 ← event_step fuel st e; parse fuel st1 events end)
      by (rewrite Hp, E1; done). rewrite <- Hq.
    destruct (IH st1 W1) as [?|[(s & Hin & Hs)|(H1 & H2 & H3)]]; [by left|right; left; exists s|right; right].
    + split; [by apply elem_of_cons; right|done].
    + split_and!; [by apply not_elem_of_cons|apply not_elem_of_cons; split; [congruence|done]|done].
  - right. left. exists s. split; [apply list_elem_of_here|].
    destruct Hs as [(f & H1 & H2)|[H1 H2]]; [left; exists f|right]; (split; [done|]); rewrite H2; done.
Qed.

(** C40: whatever the file holds, and also when reading it fails half way. Either
    the configuration is read: every string of it is terminated inside its buffer,
    so it is cut rather than overrun, and the flag that makes the router apply the
    configured CPU affinity is never set. Or the reading does not come to an end,
    for one of these reasons: the expansion of the variables in a value of the
    file faults or does not end; it returns NULL, for want of memory, and the
    value is used; the parser never reports the end of the stream. (The sizes of
    jbpf's buffers are such that JBPF_IO_IPC_MAX_NAMELEN is at most 32, the length
    of the router's name, and none is 0.) *)
Theorem set_config_values_wf fuel file lg jl : sizes_ok ->
  (exists res c lg' jl', read_config fuel file lg jl = Ret (res, c, lg', jl') /\
     config_wf c /\ (length (cstr (ipc_name c)) < ROUTER_IPC_NAME_LEN)%nat /\ (thread_prologue (fun _ => 0) (thread_config c)).2 =
       if has_sched_config (thread_config c)
       then (jrtc_router_set_scheduler (fun _ => 0) true (Some (sched_config (thread_config c)))).2 else []) \/
  (exists events, file = Events events /\
     ((exists s, Some (YAML_SCALAR s) ∈ events /\ stops fuel s (read_config fuel file lg jl)) \/
      ((None ∉ events) /\ (Some YAML_STREAM_END ∉ events) /\ read_config fuel file lg jl = Fault Divergence))).
Proof.
  intros Hs. unfold set_config_values. destruct (init_config_wf Hs) as (c0 & -> & W0). cbn [mbind outcome_bind].
  assert (Hc : forall c, config_wf c -> config_wf c /\ (length (cstr (ipc_name c)) < ROUTER_IPC_NAME_LEN)%nat /\
     (thread_prologue (fun _ => 0) (thread_config c)).2 = if has_sched_config (thread_config c)
       then (jrtc_router_set_scheduler (fun _ => 0) true (Some (sched_config (thread_config c)))).2 else []).
  { intros c W. split; [exact W|]. destruct W as ((_ & _ & Hn) & _ & _ & _ & Ha). split.
    - apply cstr_length_lt in Hn. unfold ROUTER_IPC_NAME_LEN in *. lia.
    - unfold thread_prologue. by rewrite Ha. }
  destruct file as [| | |events]; [left; eexists _, _, _, _; split; [reflexivity|by apply Hc]..|].
  destruct (parse_loop_cases fuel events (mk_parse (replicate 256 NUL) false false false false false c0 lg jl))
    as [(res & st & -> & W)|H]; [split; [apply zero_buf_ok; lia|exact W0]|left|right].
  - cbn [mbind outcome_bind]. eexists _, _, _, _. split; [reflexivity|]. apply Hc, W.
  - exists events. split; [done|]. destruct H as [(s & Hin & [(f & H1 & H2)|[H1 H2]])|(H1 & H2 & H3)]; [left; exists s..|right].
    + split; [done|]. left. exists f. by rewrite H2.
    + split; [done|]. right. by rewrite H2.
    + by rewrite H3.
Qed.

(** A scalar without variables, and a stream the parser ends. *)
Definition plain_event (e : option yaml_event) : Prop :=
  match e with Some (YAML_SCALAR s) => dollar ∉ s | _ => True end.

Lemma expand_plain fuel s : (forall i, alloc i = true) -> regcomp_ok = true -> dollar ∉ s ->
  expand_env_vars getenv alloc regcomp_ok (S fuel) (Some s) = Ret (Some s).
Proof.
  intros Ha Hr Hs. unfold expand_env_vars. rewrite Ha, Hr. cbn [andb expand_loop]. by rewrite find_var_plain.
Qed.

Lemma on_event_plain fuel st e : (forall i, alloc i = true) -> regcomp_ok = true -> parse_wf st ->
  plain_event (Some e) -> exists st', event_step (S fuel) st e = Ret st' /\ parse_wf st'.
Proof.
  intros Ha Hr W Hp. destruct e as [s| | | |]; cbn [on_event]; eauto using on_mapping_start_wf, on_mapping_end_wf.
  unfold on_scalar. destruct W as [(Hl & Hn & Hk) Wc]. assert (W : parse_wf st) by done.
  destruct (array_get_lt (key st) 0) as (c & -> & Hc); [lia|]. cbn [mbind outcome_bind]. case_decide as E.
  - subst c. destruct (on_scalar_key_wf (S fuel) st s W Hc) as (st' & E' & W'). exists st'. split; [|done].
    rewrite <- E'. cbn. unfold on_scalar. rewrite (array_get_Some _ _ _ Hc). cbn [mbind outcome_bind].
    by rewrite decide_True.
  - rewrite expand_plain by done. cbn [mbind outcome_bind].
    destruct (scalar_value_wf st s W) as (st1 & -> & W1 & _). cbn [mbind outcome_bind]. by apply reset_key_wf.
Qed.

Lemma parse_loop_plain fuel events st : (forall i, alloc i = true) -> regcomp_ok = true -> parse_wf st ->
  Forall plain_event events -> (None ∈ events \/ Some YAML_STREAM_END ∈ events) ->
  exists res st', parse (S fuel) st events = Ret (res, st') /\ (res = 0 \/ res = -1) /\
    (None ∉ events -> res = 0).
Proof.
  intros Ha Hr. revert st. induction events as [|x events IH]; intros st W Hp Hend.
  { destruct Hend as [H|H]; by apply not_elem_of_nil in H. }
  apply Forall_cons in Hp as [Hx Hp]. destruct x as [e|]; cbn [parse_loop].
  2: { exists (-1), st. split_and!; [done|by right|]. rewrite not_elem_of_cons. by intros [? _]. }
  assert (Hgo : e <> YAML_STREAM_END -> exists res st',
    (st1 ← event_step (S fuel) st e; parse (S fuel) st1 events) = Ret (res, st') /\ (res = 0 \/ res = -1) /\
    (None ∉ Some e :: events -> res = 0)).
  { intros He. destruct (on_event_plain fuel st e Ha Hr W Hx) as (st1 & -> & W1). cbn [mbind outcome_bind].
    destruct (IH st1 W1 Hp) as (res & st' & E & Hres & H0).
    { destruct Hend as [H|H]; apply elem_of_cons in H as [H|H]; [done|by left|congruence|by right]. }
    exists res, st'. split_and!; try done. rewrite not_elem_of_cons. intros [_ ?]. by apply H0. }
  destruct e; try (apply Hgo; done). exists 0, st. split_and!; [done|by left|done].
Qed.

(** A file without variables that the parser gets through is always read
    to its end, without a fault, and the result is 0; a file that cannot be
    opened or parsed gives -1. *)
Theorem set_config_values_total fuel file lg jl : sizes_ok -> (forall i, alloc i = true) -> regcomp_ok = true ->
  match file with
  | Events events => Forall plain_event events /\ (None ∈ events \/ Some YAML_STREAM_END ∈ events)
  | _ => True
  end ->
  exists res c lg' jl', read_config (S fuel) file lg jl = Ret (res, c, lg', jl') /\
    match file with
    | NoFilename => res = 0
    | CannotOpen | CannotParse => res = -1
    | Events events => (res = 0 \/ res = -1) /\ (None ∉ events -> res = 0)
    end.
Proof.
  intros Hs Ha Hr Hf. unfold set_config_values. destruct (init_config_wf Hs) as (c0 & -> & W0).
  cbn [mbind outcome_bind]. destruct file as [| | |events]; try by eexists _, _, _, _.
  destruct Hf as [Hp Hend].
  destruct (parse_loop_plain fuel events (mk_parse (replicate 256 NUL) false false false false false c0 lg jl))
    as (res & st & -> & Hres); [done|done|split; [apply zero_buf_ok; lia|done]|done|done|].
  cbn [mbind outcome_bind]. by eexists _, _, _, _.
Qed.

End Reader.

(** ** Concrete files *)

Definition ex_getenv (n : list ascii) : option (list ascii) :=
  if decide (n = chars "HOME") then Some (chars "/root") else None.

Abbreviation read_example events :=
  (set_config_values ex_getenv (fun _ => true) true 64 32 32 (chars "/var/run/jbpf") (chars "jbpf") 100
    (Events (Some <$> events)) logger_init JRTC_DEBUG_LEVEL).

Definition scalar (s : string) : yaml_event := YAML_SCALAR (chars s).

Lemma expand_env_vars_template_witness :
  expand_env_vars ex_getenv (fun _ => true) true 5 (Some (chars "${HOME}/run/${NONE}x")) = Ret (Some (chars "/root/run/x")).
Proof.
  apply (expand_env_vars_template ex_getenv (fun _ => true)
    [Var (chars "HOME"); Lit (chars "/run/"); Var (chars "NONE"); Lit (chars "x")] 5 (fun _ => eq_refl)); [|cbn; lia].
  repeat constructor; try done; try (cbn; lia); apply (bool_decide_unpack _); by vm_compute.
Defined.

Lemma ex_getenv_plain n v : ex_getenv n = Some v -> dollar ∉ v.
Proof. unfold ex_getenv. case_decide; [|done]. intros [= <-]. by apply (bool_decide_unpack _); vm_compute. Qed.

Lemma expand_env_vars_terminates_witness :
  expand_env_vars ex_getenv (fun _ => true) true 4 (Some (chars "${${HOME}}$")) <> Fault Divergence.
Proof.
  exact (proj1 (expand_env_vars_terminates ex_getenv (fun _ => true) (chars "${${HOME}}$") 4 ex_getenv_plain
    ltac:(vm_compute; lia))).
Defined.

Lemma expand_env_vars_diverges_witness :
  expand_env_vars (fun _ => Some (chars "${X}")) (fun _ => true) true 7 (Some (chars "${X}")) = Fault Divergence.
Proof. exact (expand_env_vars_diverges _ (fun _ => true) 7 (fun _ => eq_refl) eq_refl). Defined.

(** [jrtc_config_sample.yaml]. *)
Definition sample_yaml : list yaml_event := [
  YAML_OTHER; YAML_OTHER; YAML_MAPPING_START;
  scalar "jrtc_router_config"; YAML_MAPPING_START;
  scalar "thread_config"; YAML_MAPPING_START;
  scalar "affinity_mask"; scalar "2";
  scalar "has_sched_config"; scalar "false";
  scalar "sched_config"; YAML_MAPPING_START;
  scalar "sched_policy"; scalar "0";
  scalar "sched_priority"; scalar "99";
  scalar "sched_deadline"; scalar "30000000";
  scalar "sched_runtime"; scalar "10000000";
  scalar "sched_period"; scalar "30000000";
  YAML_MAPPING_END; YAML_MAPPING_END; YAML_MAPPING_END;
  scalar "jbpf_io_config"; YAML_MAPPING_START;
  scalar "jbpf_namespace"; scalar "jbpf";
  scalar "jbpf_path"; scalar "/tmp";
  YAML_MAPPING_END;
  scalar "logging"; YAML_MAPPING_START;
  scalar "jrtc_level"; scalar "info";
  scalar "jbpf_level"; scalar "debug";
  YAML_MAPPING_END; YAML_MAPPING_END; YAML_OTHER; YAML_STREAM_END].

Example sample_yaml_read :
  match read_example sample_yaml with
  | Ret (res, c, lg, jl) => res = 0 /\ cstr (jbpf_path c) = chars "/tmp" /\ cstr (ipc_name c) = chars "jrt_controller" /\
      thread_config c = mk_thread_config false 2 false (mk_router_sched 0 99 10000000 30000000 30000000) /\
      jrtc_logger_level lg = JRTC_INFO_LEVEL /\ jl = JRTC_DEBUG_LEVEL
  | Fault _ => False
  end.
Proof. by vm_compute. Qed.

Lemma sample_yaml_ret : is_ret (read_example sample_yaml) = true.
Proof. by vm_compute. Qed.

(** A file that is read, and one whose value refers to a variable with a name
    that overruns [var_name]. *)
Definition overrun_yaml : list yaml_event := [scalar "port"; YAML_SCALAR (chars "${" ++ replicate 300 "x"%char ++ chars "}")].

Lemma set_config_values_wf_witness :
  (exists res c lg jl, read_example sample_yaml = Ret (res, c, lg, jl) /\ has_affinity_mask (thread_config c) = false) /\
  (exists s, Some (YAML_SCALAR s) ∈ (Some <$> overrun_yaml) /\ stops ex_getenv (fun _ => true) true 100 s (read_example overrun_yaml)).
Proof.
  assert (Hs : sizes_ok 64 32 32) by (unfold sizes_ok, ROUTER_IPC_NAME_LEN; lia).
  pose proof (set_config_values_wf ex_getenv (fun _ => true) true 64 32 32 (chars "/var/run/jbpf") (chars "jbpf") 100) as H. split.
  - pose proof sample_yaml_ret as Hret.
    destruct (H (Events (Some <$> sample_yaml)) logger_init JRTC_DEBUG_LEVEL Hs) as [(res & c & lg & jl & E & (_ & _ & _ & _ & Ha) & _)|(ev & [= <-] & [(s & _ & [(f & _ & E)|[_ E]])|(_ & _ & E)])].
    + exists res, c, lg, jl. split; [exact E|exact Ha].
    + rewrite E in Hret. discriminate Hret.
    + rewrite E in Hret. discriminate Hret.
    + rewrite E in Hret. discriminate Hret.
  - assert (Hret : match read_example overrun_yaml with Fault OutOfBounds => true | _ => false end = true) by (vm_compute; reflexivity).
    destruct (H (Events (Some <$> overrun_yaml)) logger_init JRTC_DEBUG_LEVEL Hs) as [(res & c & lg & jl & E & _)|(ev & [= <-] & [Hst|(_ & _ & E)])].
    + rewrite E in Hret. discriminate Hret.
    + exact Hst.
    + rewrite E in Hret. discriminate Hret.
Defined.

Lemma set_config_values_total_witness : exists res c lg jl, read_example sample_yaml = Ret (res, c, lg, jl) /\ res = 0.
Proof.
  destruct (set_config_values_total ex_getenv (fun _ => true) true 64 32 32 (chars "/var/run/jbpf") (chars "jbpf") 99
    (Events (Some <$> sample_yaml)) logger_init JRTC_DEBUG_LEVEL) as (res & c & lg & jl & E & _ & H0).
  - unfold sizes_ok, ROUTER_IPC_NAME_LEN. lia.
  - done.
  - done.
  - split.
    + apply Forall_fmap, Forall_forall. intros e He. destruct e as [s| | | |]; cbn; try done.
      assert (Hall : Forall (λ e, match e with YAML_SCALAR s => dollar ∉ s | _ => True end) sample_yaml)
        by (repeat constructor; apply (bool_decide_unpack _); by vm_compute).
      rewrite Forall_forall in Hall. exact (Hall _ He).
    + right. apply list_elem_of_fmap. exists YAML_STREAM_END. split; [done|]. apply list_elem_of_In. cbn. tauto.
  - exists res, c, lg, jl. split; [exact E|]. apply H0. intros (e & ? & _)%list_elem_of_fmap. done.
Defined.

(** The end of any mapping closes the innermost known section, also when
    the mapping was not the one that opened it: after a nested mapping the
    reader does not know, the rest of its section is ignored. Here the port
    that follows it keeps its default. *)
Theorem nested_mapping_closes_section :
  match read_example [YAML_MAPPING_START; scalar "jrtc_router_config"; YAML_MAPPING_START;
    scalar "io_config"; YAML_MAPPING_START; scalar "ipc_name"; scalar "x"; YAML_MAPPING_END;
    scalar "port"; scalar "4000"; YAML_MAPPING_END; YAML_MAPPING_END; YAML_STREAM_END] with
  | Ret (res, c, _, _) => res = 0 /\ cstr (ipc_name c) = chars "x" /\ port c = DEFAULT_PORT
  | Fault _ => False
  end.
Proof. by vm_compute. Qed.

(** The logging section is never closed: a level given after the end of
    its mapping is still taken. *)
Theorem logging_section_never_closes :
  match read_example [YAML_MAPPING_START; scalar "logging"; YAML_MAPPING_START; scalar "jrtc_level"; scalar "info";
    YAML_MAPPING_END; scalar "jrtc_level"; scalar "error"; YAML_MAPPING_END; YAML_STREAM_END] with
  | Ret (res, _, lg, _) => res = 0 /\ jrtc_logger_level lg = JRTC_ERROR_LEVEL
  | Fault _ => False
  end.
Proof. by vm_compute. Qed.
