(* ===== verification/Controller.v ===== *)
(** * The controller

    [src/src/controller/jrtc_int.c]: the table of application environments,
    loading and unloading applications, and the shutdown of the process. An
    application environment is an object on the heap; the controller drives
    the router through the operations of [Router]. *)
From S2P Require Import Prelude StreamId Ext Router Sched Logging.
From Stdlib Require Import Ascii.

Definition MAX_NUM_JRTC_APPS : nat := 64.
Definition MAX_APP_PARAMS : nat := 255.
Definition NORTH_IO_LIB : list ascii := chars "libjrtc_north_io.so".

(** NULL is [None]. *)
Abbreviation cstring := (option (list ascii)).

(** [key_value_pair_t]. *)
Record key_value_pair := mk_kv { kv_key : cstring; kv_val : cstring }.

(** [struct jrtc_app_env]; [app_tid] is the environment's own address, which is
    the argument of its thread. *)
Record jrtc_app_env := mk_app_env {
  app_name : cstring;
  app_handle : nat;
  dapp_ctx : option nat;
  io_queue_size : Z;
  app_exit : bool;
  env_sched : jrtc_sched_config;
  app_path : cstring;
  params : list key_value_pair;
  device_mapping : list key_value_pair;
  app_modules : list cstring
}.

(** [load_app_request_t]; [rq_app] is the content of the library. *)
Record load_app_request := mk_load_req {
  rq_app : option (list Z);
  rq_app_size : Z;
  rq_app_name : cstring;
  rq_runtime_us : Z;
  rq_deadline_us : Z;
  rq_period_us : Z;
  rq_ioq_size : Z;
  rq_app_path : cstring;
  rq_app_type : cstring;
  rq_params : list key_value_pair;
  rq_device_mapping : list key_value_pair;
  rq_app_modules : list cstring
}.

(** Calls that are observable outside, in order. *)
Inductive ctl_event :=
| ThreadCreate (env : nat)
| ThreadJoin (env : nat)
| DlClose (handle : nat)
| RouterEvent (e : io_event)
| SchedEvent (c : sched_call).

Definition concat (s1 s2 : list ascii) : list ascii := s1 ++ s2.

Section Controller.
Context {cs : CharSign}.
Context {B It T C R M S : Type}.
Context `{HB : CkBitmap B It} `{HT : CkHt T nat} `{HC : CkPtrHt C} `{HR : CkRing R} `{HM : Mempool M} `{HS : JbpfIo S}.

Abbreviation router := (jrtc_router_ctx B T C R M).

(** The globals [app_envs] and [next_available_app_env], the environments on
    the heap, the handles that are open, one occurrence for each [dlopen] that
    was not closed (opening a library again gives the same handle), and the
    router. *)
Record controller := mk_controller {
  app_envs : list (option nat);
  next_available_app_env : nat;
  heap : gmap nat jrtc_app_env;
  handles : list nat;
  rt : router
}.

Definition upd_envs (st : controller) (l : list (option nat)) (n : nat) :=
  mk_controller l n (heap st) (handles st) (rt st).
Definition upd_heap (st : controller) (h : gmap nat jrtc_app_env) :=
  mk_controller (app_envs st) (next_available_app_env st) h (handles st) (rt st).
Definition upd_handles (st : controller) (h : list nat) :=
  mk_controller (app_envs st) (next_available_app_env st) (heap st) h (rt st).
Definition upd_rt (st : controller) (r : router) :=
  mk_controller (app_envs st) (next_available_app_env st) (heap st) (handles st) r.

(** [free] of an environment. *)
Definition free_env (st : controller) (p : nat) : outcome controller :=
  match heap st !! p with
  | Some _ => Ret (upd_heap st (delete p (heap st)))
  | None => Fault DoubleFree
  end.

(** The list without the first occurrence of [h]. *)
Fixpoint remove_one (h : nat) (l : list nat) : option (list nat) :=
  match l with
  | [] => None
  | x :: l => if decide (x = h) then Some l else l' ← remove_one h l; Some (x :: l')
  end.

(** [dlclose] gives one reference back; a handle that is not open is not a valid
    argument. *)
Definition dlclose (st : controller) (h : nat) : outcome controller :=
  match remove_one h (handles st) with
  | Some l => Ret (upd_handles st l)
  | None => Fault DoubleFree
  end.

(** ** Slots *)

(** [n] iterations left, next [i]. *)
Fixpoint reserve_env_loop (n i : nat) (st : controller) (p : nat) : outcome (Z * controller) :=
  match n with
  | O => Ret (-1, st)
  | Datatypes.S n =>
      let index := ((next_available_app_env st + i) mod MAX_NUM_JRTC_APPS)%nat in
      slot ← array_get (app_envs st) index;
      match slot with
      | None =>
          l ← array_set (app_envs st) index (Some p);
          Ret (Z.of_nat index, upd_envs st l ((index + 1) mod MAX_NUM_JRTC_APPS)%nat)
      | Some _ => reserve_env_loop n (i + 1) st p
      end
  end.

Definition _jrtc_reserve_app_id (st : controller) (p : nat) : outcome (Z * controller) :=
  reserve_env_loop MAX_NUM_JRTC_APPS 0 st p.

Definition _jrtc_release_app_id (st : controller) (app_id : Z) : outcome controller :=
  if (0 <=? app_id) && (app_id <? Z.of_nat MAX_NUM_JRTC_APPS) then
    slot ← array_get (app_envs st) (Z.to_nat app_id);
    match slot with
    | None => Ret st
    | Some p =>
        st ← free_env st p;
        l ← array_set (app_envs st) (Z.to_nat app_id) None;
        Ret (upd_envs st l (next_available_app_env st))
    end
  else Ret st.

(** ** Is an application loaded? *)

Definition same_string (a b : cstring) : bool :=
  match a, b with Some x, Some y => bool_decide (x = y) | _, _ => false end.

(** The loops over the table, with the test on one environment. *)
Fixpoint any_env (st : controller) (f : jrtc_app_env -> outcome bool) (slots : list (option nat)) : outcome bool :=
  match slots with
  | [] => Ret false
  | None :: slots => any_env st f slots
  | Some p :: slots =>
      e ← deref (heap st) p;
      b ← f e;
      if b : bool then Ret true else any_env st f slots
  end.

Definition _is_app_loaded (st : controller) (load_req : option load_app_request) : outcome bool :=
  match load_req with
  | None => Fault NullDeref
  | Some rq =>
      match rq_app_type rq with
      | None => Ret false
      | Some ty =>
          if decide (ty = chars "python") then
            kv ← array_get (rq_params rq) 0;
            match kv_key kv, kv_val kv with
            | Some _, Some _ =>
                any_env st (λ e, kv' ← array_get (params e) 0;
                                 Ret (same_string (kv_key kv') (kv_key kv) && same_string (kv_val kv') (kv_val kv)))
                  (app_envs st)
            | _, _ => Ret false
            end
          else
            match rq_app_path rq with
            | Some _ => any_env st (λ e, Ret (same_string (app_path e) (rq_app_path rq))) (app_envs st)
            | None => Ret false
            end
      end
  end.

(** ** Loading *)

(** What the calls that can fail return: [calloc], [_jrtc_load_app_from_memory]
    (the handle) and [pthread_create]; [strdup] is taken to succeed. *)
Record load_env := mk_load_env {
  le_calloc : option nat;
  le_handle : option nat;
  le_pthread_create : Z
}.

Definition sched_of_request (rq : load_app_request) : jrtc_sched_config :=
  mk_sched (if 0 <? rq_deadline_us rq then JRTC_SCHED_DEADLINE else JRTC_SCHED_NORMAL) 0
    (rq_runtime_us rq) (rq_deadline_us rq) (rq_period_us rq).

(** The environment as [calloc] leaves it, and as it is filled from the request. *)
Definition zero_env : jrtc_app_env :=
  mk_app_env None 0 None 0 false (mk_sched 0 0 0 0 0) None
    (replicate MAX_APP_PARAMS (mk_kv None None)) (replicate MAX_APP_PARAMS (mk_kv None None))
    (replicate MAX_APP_PARAMS None).

Definition env_of_request (rq : load_app_request) (handle : nat) : jrtc_app_env :=
  mk_app_env (Some (default (chars "jrtc_app") (rq_app_name rq))) handle None (rq_ioq_size rq) false
    (sched_of_request rq) (Some (default (chars "unknown") (rq_app_path rq)))
    (rq_params rq) (rq_device_mapping rq) (rq_app_modules rq).

Definition load_app (st : controller) (rq : load_app_request) (env : load_env) :
    outcome (controller * Z * list ctl_event) :=
  if bool_decide (rq_app rq = None) || (rq_app_size rq =? 0) then Ret (st, -1, [])
  else
    loaded ← _is_app_loaded st (Some rq);
    if loaded : bool then Ret (st, -1, [])
    else
      match le_calloc env with
      | None => Ret (st, -1, [])
      | Some p =>
          '(app_id, st) ← _jrtc_reserve_app_id (upd_heap st (<[p := zero_env]> (heap st))) p;
          if app_id <? 0 then Ret (st, -1, [])
          else
            let error st ev :=
              st ← _jrtc_release_app_id st app_id;
              st ← free_env st p;
              Ret (st, -1, ev) in
            match le_handle env with
            | None => error st []
            | Some h =>
                let st := upd_handles (upd_heap st (<[p := env_of_request rq h]> (heap st))) (h :: handles st) in
                if negb (le_pthread_create env =? 0) then
                  st ← dlclose st h;
                  error st [DlClose h]
                else Ret (st, app_id, [ThreadCreate p])
            end
      end.

(** The thread of an application, up to the call of its entry point and after
    it: [has_entry] is whether [dlsym] finds [jrtc_start_app]. *)
Definition set_dapp_ctx (e : jrtc_app_env) (d : option nat) : jrtc_app_env :=
  mk_app_env (app_name e) (app_handle e) d (io_queue_size e) (app_exit e) (env_sched e) (app_path e)
    (params e) (device_mapping e) (app_modules e).
Definition set_app_exit (e : jrtc_app_env) : jrtc_app_env :=
  mk_app_env (app_name e) (app_handle e) (dapp_ctx e) (io_queue_size e) true (env_sched e) (app_path e)
    (params e) (device_mapping e) (app_modules e).

Definition run_app (os : sched_call -> Z) (st : controller) (p : nat) (renv : register_env C M) (has_entry : bool) :
    outcome (controller * list ctl_event) :=
  e ← deref (heap st) p;
  '(r, d, ev) ← jrtc_router_register_app (rt st) renv (io_queue_size e);
  let st := upd_heap (upd_rt st r) (<[p := set_dapp_ctx e d]> (heap st)) in
  let sched := if 0 <? sched_deadline_us (env_sched e)
               then (jrtc_thread_set_scheduler os (Some (env_sched e))).2 else [] in
  let ev := (RouterEvent <$> ev) ++ (SchedEvent <$> sched) in
  if has_entry then Ret (st, ev)
  else
    st ← dlclose st (app_handle e);
    Ret (st, ev ++ [DlClose (app_handle e)]).

(** ** Unloading *)

(** What [pthread_join] and [dlclose] return. *)
Record unload_env := mk_unload_env { ue_join : Z; ue_dlclose : Z }.
Definition unload_fine : unload_env := mk_unload_env 0 0.
#[global] Instance unload_env_eq_dec : EqDecision unload_env.
Proof. solve_decision. Defined.

Definition unload_app (st : controller) (app_id : Z) (env : unload_env) : outcome (controller * Z * list ctl_event) :=
  if (app_id <? 0) || (Z.of_nat MAX_NUM_JRTC_APPS <=? app_id) then Fault OutOfBounds
  else
    slot ← array_get (app_envs st) (Z.to_nat app_id);
    match slot with
    | None => Ret (st, -1, [])
    | Some p =>
        e ← deref (heap st) p;
        let st := upd_heap st (<[p := set_app_exit e]> (heap st)) in
        if negb (ue_join env =? 0) then Fault Aborted
        else
          st ← dlclose st (app_handle e);
          if negb (ue_dlclose env =? 0) then Fault Aborted
          else
            '(r, ev) ← jrtc_router_deregister_app (rt st) (dapp_ctx e);
            st ← _jrtc_release_app_id (upd_rt st r) app_id;
            Ret (st, 0, [ThreadJoin p; DlClose (app_handle e)] ++ (RouterEvent <$> ev))
    end.

(** The loop of [start_jrtc] that unloads what is still loaded; [res] is the
    value to return so far. *)
Fixpoint unload_loop (n i : nat) (st : controller) (res : Z) (join : nat -> unload_env) : outcome (controller * Z * list ctl_event) :=
  match n with
  | O => Ret (st, res, [])
  | Datatypes.S n =>
      slot ← array_get (app_envs st) i;
      match slot with
      | None => unload_loop n (i + 1) st res join
      | Some _ =>
          '(st, r, ev) ← unload_app st (Z.of_nat i) (join i);
          '(st, res, ev') ← unload_loop n (i + 1) st (if r =? 0 then res else -1) join;
          Ret (st, res, ev ++ ev')
      end
  end.

(** The default application: the path it is read from, and its request. *)
Definition north_io_path (app_path_env : cstring) : list ascii :=
  match app_path_env with Some d => concat d NORTH_IO_LIB | None => NORTH_IO_LIB end.

Definition north_io_request (path : list ascii) (data : list Z) (size : Z) : load_app_request :=
  mk_load_req (Some data) size (Some (chars "north_io_app")) 0 0 0 1000 (Some path) None
    (replicate MAX_APP_PARAMS (mk_kv None None)) (replicate MAX_APP_PARAMS (mk_kv None None))
    (replicate MAX_APP_PARAMS None).

(** [file] is what [read_file] returns for the path: the buffer and the size. *)
Definition load_default_north_io_app (st : controller) (app_path_env : cstring)
    (file : option (list Z * Z)) (env : load_env) : outcome (controller * Z * list ctl_event) :=
  match file with
  | None => Ret (st, -1, [])
  | Some (data, size) => load_app st (north_io_request (north_io_path app_path_env) data size) env
  end.

End Controller.

#[global] Arguments controller : clear implicits.
