(* ===== verification/ControllerFacts.v ===== *)
(** * Properties of the controller

    The table of application environments stays consistent with the heap, the
    open libraries and the router through loading, running and unloading; what
    each operation returns on each path. *)
From S2P Require Import Prelude StreamId Ext Router RouterInv RouterApps Sched Logging Controller.
From Stdlib Require Import Ascii.

Section Facts.
Context {cs : CharSign}.
Context {B It T C R M S : Type}.
Context `{HB : CkBitmap B It} `{HT : CkHt T nat} `{HC : CkPtrHt C} `{HR : CkRing R} `{HM : Mempool M} `{HS : JbpfIo S}.
Context `{LB : !CkBitmapLaws B It} `{LT : !CkHtLaws T nat} `{LC : !CkPtrHtLaws C} `{LR : !CkRingLaws R} `{LM : !MempoolLaws M}.

Abbreviation ctl := (controller B T C R M).

(** A loaded application: its router context, once it has one, is registered. *)
Definition env_ok (st : ctl) (e : jrtc_app_env) : Prop :=
  (0 < length (params e))%nat /\
  forall a, dapp_ctx e = Some a -> is_Some (dapps (rt st) !! a).

(** Two environments that share their address or router context. *)
Definition clash (p p' : nat) (e e' : jrtc_app_env) : Prop :=
  p = p' \/ exists a, dapp_ctx e = Some a /\ dapp_ctx e' = Some a.

(** The libraries of the applications in the slots, with multiplicity. *)
Definition slot_handle (h : gmap nat jrtc_app_env) (o : option nat) : option nat :=
  p ← o; e ← h !! p; Some (app_handle e).
Definition env_handles (st : ctl) : list nat := omap (slot_handle (heap st)) (app_envs st).

Record ctl_wf (st : ctl) : Prop := {
  cw_len : length (app_envs st) = MAX_NUM_JRTC_APPS;
  cw_next : (next_available_app_env st < MAX_NUM_JRTC_APPS)%nat;
  cw_slot : forall i p, app_envs st !! i = Some (Some p) -> exists e, heap st !! p = Some e /\ env_ok st e;
  cw_inj : forall i j p p' e e', app_envs st !! i = Some (Some p) -> app_envs st !! j = Some (Some p') ->
    heap st !! p = Some e -> heap st !! p' = Some e' -> clash p p' e e' -> i = j;
  cw_handles : env_handles st ⊆+ handles st;
  cw_rt : router_wf (rt st)
}.

(** The handles when one slot changes. *)
Lemma omap_split {A D} (f : A -> option D) l i x : l !! i = Some x ->
  omap f l ≡ₚ option_list (f x) ++ omap f (take i l ++ drop (Datatypes.S i) l).
Proof.
  intros Hi. rewrite <- (take_drop_middle l i x Hi) at 1. rewrite !omap_app. cbn. destruct (f x); cbn; [|done].
  by rewrite Permutation_middle.
Qed.

Lemma omap_insert_split {A D} (f : A -> option D) l i x : (i < length l)%nat ->
  omap f (<[i := x]> l) ≡ₚ option_list (f x) ++ omap f (take i l ++ drop (Datatypes.S i) l).
Proof.
  intros Hi. rewrite (omap_split f (<[i := x]> l) i x) by (by apply list_lookup_insert_eq).
  by rewrite take_insert_ge, drop_insert_lt by lia.
Qed.

Lemma slot_handle_ext (h h' : gmap nat jrtc_app_env) (slots : list (option nat)) :
  (forall p, Some p ∈ slots -> app_handle <$> h' !! p = app_handle <$> h !! p) ->
  omap (slot_handle h') slots = omap (slot_handle h) slots.
Proof.
  intros H. apply omap_ext_in. intros [p|] Hp; [|done]. specialize (H p Hp). cbn.
  destruct (h' !! p), (h !! p); cbn in *; congruence.
Qed.

Lemma remove_one_elem h l : h ∈ l -> exists k, remove_one h l = Some k /\ l ≡ₚ h :: k.
Proof.
  induction l as [|x l IH]; [by intros ?%elem_of_nil|]. intros Hin. cbn. case_decide as E; [subst; eauto|].
  apply elem_of_cons in Hin as [->|Hin]; [done|]. destruct (IH Hin) as (k & -> & Hk). cbn.
  eexists. split; [done|]. rewrite Hk. apply Permutation_swap.
Qed.
Lemma remove_one_Some h l k : l ≡ₚ h :: k -> exists k', remove_one h l = Some k' /\ k ≡ₚ k'.
Proof.
  intros Hl. destruct (remove_one_elem h l) as (k' & E & Hk); [rewrite Hl; apply list_elem_of_here|].
  exists k'. split; [done|]. rewrite Hl in Hk. by apply (inj (h ::.)) in Hk.
Qed.

Lemma remove_one_None h l : h ∉ l -> remove_one h l = None.
Proof.
  induction l as [|x l IH]; [done|]. intros [Hx Hl]%not_elem_of_cons. cbn. rewrite decide_False by congruence. by rewrite IH.
Qed.

(** An application's library is open. *)
Lemma dlclose_open (st : ctl) h l : handles st ≡ₚ h :: l -> exists l', dlclose st h = Ret (upd_handles st l') /\ l ≡ₚ l'.
Proof. intros H. destruct (remove_one_Some _ _ _ H) as (l' & E & Hl). exists l'. unfold dlclose. by rewrite E. Qed.

(** ** Reserving a slot *)

(** The slot that is [k] places after the next one to try. *)
Definition slot_at (st : ctl) (k : nat) : nat := ((next_available_app_env st + k) mod MAX_NUM_JRTC_APPS)%nat.

Lemma slot_at_lt st k : (slot_at st k < MAX_NUM_JRTC_APPS)%nat.
Proof. unfold slot_at, MAX_NUM_JRTC_APPS. apply Nat.mod_upper_bound. lia. Qed.

Lemma reserve_env_loop_spec n i (st : ctl) p : length (app_envs st) = MAX_NUM_JRTC_APPS ->
  (exists k, (i <= k < i + n)%nat /\ app_envs st !! slot_at st k = Some None /\
     (forall j, (i <= j < k)%nat -> exists q, app_envs st !! slot_at st j = Some (Some q)) /\
     reserve_env_loop n i st p = Ret (Z.of_nat (slot_at st k),
       upd_envs st (<[slot_at st k := Some p]> (app_envs st)) ((slot_at st k + 1) mod MAX_NUM_JRTC_APPS)%nat)) \/
  ((forall j, (i <= j < i + n)%nat -> exists q, app_envs st !! slot_at st j = Some (Some q)) /\
   reserve_env_loop n i st p = Ret (-1, st)).
Proof.
  intros Hl. revert i. induction n as [|n IH]; intros i; cbn [reserve_env_loop]; [right; split; [lia|done]|].
  pose proof (slot_at_lt st i) as Hi. fold (slot_at st i).
  destruct (array_get_lt (app_envs st) (slot_at st i)) as (slot & -> & Hs); [by rewrite Hl|]. cbn [mbind outcome_bind].
  destruct slot as [q|].
  - destruct (IH (i + 1)%nat) as [(k & Hk & H1 & H2 & H3)|[H1 H2]]; [left; exists k|right].
    + split_and!; [lia|lia|done| |done]. intros j Hj. destruct (decide (j = i)) as [->|]; [eauto|]. apply H2. lia.
    + split; [|done]. intros j Hj. destruct (decide (j = i)) as [->|]; [eauto|]. apply H1. lia.
  - left. exists i. rewrite array_set_lt by (by rewrite Hl). split_and!; [lia|lia|done|lia|done].
Qed.

(** Every slot is tried. *)
Lemma slot_at_onto (st : ctl) i : (next_available_app_env st < MAX_NUM_JRTC_APPS)%nat -> (i < MAX_NUM_JRTC_APPS)%nat ->
  exists k, (k < MAX_NUM_JRTC_APPS)%nat /\ slot_at st k = i.
Proof.
  unfold slot_at, MAX_NUM_JRTC_APPS. intros Hn Hi.
  exists ((i + 64 - next_available_app_env st) mod 64)%nat. split; [apply Nat.mod_upper_bound; lia|].
  rewrite Nat.Div0.add_mod_idemp_r. replace (next_available_app_env st + (i + 64 - next_available_app_env st))%nat
    with (i + 1 * 64)%nat by lia. rewrite Nat.Div0.mod_add. by apply Nat.mod_small.
Qed.

Lemma reserve_facts (st : ctl) p : length (app_envs st) = MAX_NUM_JRTC_APPS ->
  (next_available_app_env st < MAX_NUM_JRTC_APPS)%nat ->
  (exists i k, (i < MAX_NUM_JRTC_APPS)%nat /\ i = slot_at st k /\ app_envs st !! i = Some None /\
     (forall j, (j < k)%nat -> exists q, app_envs st !! slot_at st j = Some (Some q)) /\
     _jrtc_reserve_app_id st p =
       Ret (Z.of_nat i, upd_envs st (<[i := Some p]> (app_envs st)) ((i + 1) mod MAX_NUM_JRTC_APPS)%nat)) \/
  ((forall i, (i < MAX_NUM_JRTC_APPS)%nat -> exists q, app_envs st !! i = Some (Some q)) /\
   _jrtc_reserve_app_id st p = Ret (-1, st)).
Proof.
  intros Hl Hn. unfold _jrtc_reserve_app_id.
  destruct (reserve_env_loop_spec MAX_NUM_JRTC_APPS 0 st p Hl) as [(k & Hk & H1 & H2 & H3)|[H1 H2]]; [left|right].
  - exists (slot_at st k), k. split_and!; [apply slot_at_lt|done|done| |done]. intros j Hj. apply H2. lia.
  - split; [|done]. intros i Hi. destruct (slot_at_onto st i Hn Hi) as (k & Hk & <-). apply H1. lia.
Qed.

(** Reserving a slot takes the first free one, in cyclic order from the
    slot after the last reservation, and moves that position on; it fails,
    changing nothing, exactly when all 64 slots are in use. *)
Theorem reserve_app_id_spec (st : ctl) p : length (app_envs st) = MAX_NUM_JRTC_APPS ->
  (next_available_app_env st < MAX_NUM_JRTC_APPS)%nat ->
  (exists i k, (i < MAX_NUM_JRTC_APPS)%nat /\ i = slot_at st k /\ app_envs st !! i = Some None /\
     (forall j, (j < k)%nat -> exists q, app_envs st !! slot_at st j = Some (Some q)) /\
     _jrtc_reserve_app_id st p =
       Ret (Z.of_nat i, upd_envs st (<[i := Some p]> (app_envs st)) ((i + 1) mod MAX_NUM_JRTC_APPS)%nat)) \/
  ((forall i, (i < MAX_NUM_JRTC_APPS)%nat -> exists q, app_envs st !! i = Some (Some q)) /\
   _jrtc_reserve_app_id st p = Ret (-1, st)).
Proof. apply reserve_facts. Qed.

(** ** Which applications are loaded *)

Definition loaded (st : ctl) (e : jrtc_app_env) : Prop :=
  exists i p, app_envs st !! i = Some (Some p) /\ heap st !! p = Some e.

Lemma any_env_spec (st : ctl) (f : jrtc_app_env -> outcome bool) (g : jrtc_app_env -> bool) slots :
  (forall p, Some p ∈ slots -> exists e, heap st !! p = Some e /\ f e = Ret (g e)) ->
  exists b, any_env st f slots = Ret b /\
    (b = true <-> exists p e, Some p ∈ slots /\ heap st !! p = Some e /\ g e = true).
Proof.
  induction slots as [|[p|] slots IH]; intros Hf; cbn [any_env].
  - exists false. split; [done|]. split; [done|]. intros (p & e & H & _). by apply not_elem_of_nil in H.
  - destruct (Hf p) as (e & He & Hg); [apply list_elem_of_here|]. rewrite (deref_Some _ _ _ He). cbn [mbind outcome_bind].
    rewrite Hg. cbn [mbind outcome_bind]. destruct (g e) eqn:Eg.
    + exists true. split; [done|]. split; [|done]. intros _. exists p, e. split; [apply list_elem_of_here|done].
    + destruct IH as (b & -> & Hb); [intros q Hq; apply Hf; by apply list_elem_of_further|].
      exists b. split; [done|]. rewrite Hb. split; intros (q & e' & Hq & He' & Hg').
      * exists q, e'. split; [by apply list_elem_of_further|done].
      * apply elem_of_cons in Hq as [[= ->]|Hq]; [congruence|eauto].
  - destruct IH as (b & -> & Hb); [intros q Hq; apply Hf; by apply list_elem_of_further|].
    exists b. split; [done|]. rewrite Hb. split; intros (q & e' & Hq & H).
    + exists q, e'. split; [by apply list_elem_of_further|done].
    + apply elem_of_cons in Hq as [?|Hq]; [done|eauto].
Qed.

Lemma any_env_wf st (f : jrtc_app_env -> outcome bool) (g : jrtc_app_env -> bool) : ctl_wf st ->
  (forall e, env_ok st e -> f e = Ret (g e)) ->
  exists b, any_env st f (app_envs st) = Ret b /\ (b = true <-> exists e, loaded st e /\ g e = true).
Proof.
  intros W Hf. destruct (any_env_spec st f g (app_envs st)) as (b & E & Hb).
  { intros p (i & Hi)%list_elem_of_lookup. destruct (cw_slot _ W _ _ Hi) as (e & He & Hok). eauto. }
  exists b. split; [done|]. rewrite Hb. split.
  - intros (p & e & (i & Hi)%list_elem_of_lookup & He & Hg). exists e. split; [by exists i, p|done].
  - intros (e & (i & p & Hi & He) & Hg). exists p, e. split; [by eapply list_elem_of_lookup_2|done].
Qed.

(** A request for an application that is there already: a Python application
    by its first parameter, another one by its path. *)
Definition same_app_as (rq : load_app_request) (e : jrtc_app_env) : bool :=
  match rq_app_type rq with
  | None => false
  | Some ty =>
      if decide (ty = chars "python") then
        match rq_params rq !! 0%nat, params e !! 0%nat with
        | Some kv, Some kv' =>
            bool_decide (is_Some (kv_key kv) /\ is_Some (kv_val kv)) &&
            (same_string (kv_key kv') (kv_key kv) && same_string (kv_val kv') (kv_val kv))
        | _, _ => false
        end
      else same_string (app_path e) (rq_app_path rq)
  end.

Lemma is_app_loaded_spec st rq : ctl_wf st -> (0 < length (rq_params rq))%nat ->
  exists b, _is_app_loaded st (Some rq) = Ret b /\
    (b = true <-> exists e, loaded st e /\ same_app_as rq e = true).
Proof.
  intros W Hp. unfold _is_app_loaded, same_app_as. destruct (rq_app_type rq) as [ty|].
  2: { exists false. split; [done|]. split; [done|]. by intros (e & _ & ?). }
  case_decide as Hty.
  - destruct (array_get_lt _ _ Hp) as (kv & -> & Ekv). rewrite Ekv. cbn [mbind outcome_bind].
    destruct (kv_key kv) as [k|], (kv_val kv) as [v|];
      try (exists false; split; [done|]; split; [done|]; intros (e & _ & He); revert He;
           destruct (params e !! 0%nat); [|done]; rewrite bool_decide_false by (by intros [[? ?] [? ?]]); done).
    destruct (any_env_wf st (λ e, kv' ← array_get (params e) 0;
       Ret (same_string (kv_key kv') (Some k) && same_string (kv_val kv') (Some v)))
       (λ e, match params e !! 0%nat with
             | Some kv' => same_string (kv_key kv') (Some k) && same_string (kv_val kv') (Some v)
             | None => false end) W) as (b & -> & Hb).
    { intros e (Hl & _). destruct (array_get_lt _ _ Hl) as (kv' & -> & ->). done. }
    exists b. split; [done|]. rewrite Hb.
    split; intros (e & He & Hg); exists e; (split; [done|]); revert Hg; destruct (params e !! 0%nat); try done;
      by rewrite bool_decide_true.
  - destruct (rq_app_path rq) as [path|].
    + destruct (any_env_wf st _ (λ e, same_string (app_path e) (Some path)) W (λ e _, eq_refl)) as (b & -> & Hb). eauto.
    + exists false. split; [done|]. split; [done|]. intros (e & _ & He). by destruct (app_path e).
Qed.

Lemma free_env_live (st : ctl) p x : heap st !! p = Some x -> free_env st p = Ret (upd_heap st (delete p (heap st))).
Proof. unfold free_env. by intros ->. Qed.

(** ** Loading *)

(** The allocator returns an address that is not in use; [dlopen] may return a
    handle that is open already. *)
Definition load_env_ok (st : ctl) (env : load_env) : Prop :=
  forall p, le_calloc env = Some p -> heap st !! p = None.

(** Adding an environment with its library in a free slot. *)
Lemma add_env_wf st i p e h : ctl_wf st -> (i < MAX_NUM_JRTC_APPS)%nat -> app_envs st !! i = Some None -> heap st !! p = None ->
  app_handle e = h -> (0 < length (params e))%nat -> dapp_ctx e = None ->
  ctl_wf (mk_controller (<[i := Some p]> (app_envs st)) ((i + 1) mod MAX_NUM_JRTC_APPS)%nat (<[p := e]> (heap st))
            (h :: handles st) (rt st)).
Proof.
  intros W Hi Hs Hp He Hl Hd. pose proof (cw_len _ W) as Hlen.
  assert (Hold : forall j q, <[i := Some p]> (app_envs st) !! j = Some (Some q) -> j <> i ->
            app_envs st !! j = Some (Some q) /\ exists e0, heap st !! q = Some e0 /\ env_ok st e0 /\ q <> p).
  { intros j q Hj Hne. rewrite list_lookup_insert_ne in Hj by done. split; [done|].
    destruct (cw_slot _ W _ _ Hj) as (e0 & He0 & Hok). exists e0. split_and!; try done. congruence. }
  assert (Hnew : forall q, <[i := Some p]> (app_envs st) !! i = Some (Some q) -> q = p).
  { intros q Hq. rewrite list_lookup_insert_eq in Hq by (by rewrite Hlen). congruence. }
  constructor; cbn [app_envs next_available_app_env heap handles rt].
  - by rewrite length_insert.
  - apply Nat.mod_upper_bound. unfold MAX_NUM_JRTC_APPS. lia.
  - intros j q Hj. destruct (decide (j = i)) as [->|Hne].
    + rewrite (Hnew q Hj), lookup_insert_eq. exists e. split; [done|]. split; cbn; [done|].
      intros a. by rewrite Hd.
    + destruct (Hold j q Hj Hne) as (_ & e0 & He0 & (H2 & H3) & Hq). exists e0.
      rewrite lookup_insert_ne by done. split; [done|]. by split.
  - intros j k q q' x x' Hj Hk Hx Hx' Hc. destruct (decide (j = i)) as [->|Hj'], (decide (k = i)) as [->|Hk']; [done| | |].
    + exfalso. rewrite (Hnew q Hj), lookup_insert_eq in Hx. injection Hx as <-.
      destruct (Hold k q' Hk Hk') as (_ & e0 & He0 & (H1 & _) & Hq). rewrite lookup_insert_ne in Hx' by done. simplify_eq.
      destruct Hc as [Hc|(a & Ha & _)]; [apply Hnew in Hj; congruence|congruence].
    + exfalso. rewrite (Hnew q' Hk), lookup_insert_eq in Hx'. injection Hx' as <-.
      destruct (Hold j q Hj Hj') as (_ & e0 & He0 & (H1 & _) & Hq). rewrite lookup_insert_ne in Hx by done. simplify_eq.
      destruct Hc as [Hc|(a & _ & Ha)]; [apply Hnew in Hk; congruence|congruence].
    + destruct (Hold j q Hj Hj') as (Ej & e0 & He0 & _ & Hq), (Hold k q' Hk Hk') as (Ek & e1 & He1 & _ & Hq').
      rewrite lookup_insert_ne in Hx by done. rewrite lookup_insert_ne in Hx' by done. exact (cw_inj _ W j k q q' x x' Ej Ek Hx Hx' Hc).
  - unfold env_handles. cbn [app_envs heap]. rewrite omap_insert_split by (by rewrite Hlen). cbn. rewrite lookup_insert_eq. cbn. rewrite He.
    apply submseteq_skip. rewrite (slot_handle_ext (heap st)).
    + pose proof (cw_handles _ W) as Hh. unfold env_handles in Hh. by rewrite (omap_split _ _ _ _ Hs) in Hh.
    + intros q Hq. rewrite lookup_insert_ne; [done|]. intros <-.
      assert (Hin : Some p ∈ app_envs st) by (rewrite <- (take_drop_middle _ _ _ Hs); set_solver).
      apply list_elem_of_lookup in Hin as [j Hj]. destruct (cw_slot _ W _ _ Hj) as (x & Hx & _). congruence.
  - apply (cw_rt _ W).
Qed.

Definition valid_request (rq : load_app_request) : Prop :=
  is_Some (rq_app rq) /\ rq_app_size rq <> 0 /\ (0 < length (rq_params rq))%nat.

(** The guards of [load_app] that a valid request for a new application passes. *)
Lemma load_app_guards st rq : ctl_wf st -> valid_request rq -> (forall e, loaded st e -> same_app_as rq e = false) ->
  bool_decide (rq_app rq = None) || (rq_app_size rq =? 0) = false /\ _is_app_loaded st (Some rq) = Ret false.
Proof.
  intros W ([d Hd] & Hs & Hp) Hnl. split.
  - rewrite Hd, bool_decide_false by done. by apply Z.eqb_neq.
  - destruct (is_app_loaded_spec st rq W Hp) as (b & -> & Hb). destruct b; [|done].
    destruct (proj1 Hb eq_refl) as (e & He & Hsame). by rewrite Hnl in Hsame.
Qed.

(** The reservation [load_app] makes for the new environment at [p]. *)
Lemma reserve_new_env st p : ctl_wf st ->
  (exists i, (i < MAX_NUM_JRTC_APPS)%nat /\ app_envs st !! i = Some None /\
     _jrtc_reserve_app_id (upd_heap st (<[p := zero_env]> (heap st))) p =
       Ret (Z.of_nat i, mk_controller (<[i := Some p]> (app_envs st)) ((i + 1) mod MAX_NUM_JRTC_APPS)%nat
                          (<[p := zero_env]> (heap st)) (handles st) (rt st))) \/
  ((forall i, (i < MAX_NUM_JRTC_APPS)%nat -> exists q, app_envs st !! i = Some (Some q)) /\
   _jrtc_reserve_app_id (upd_heap st (<[p := zero_env]> (heap st))) p =
     Ret (-1, upd_heap st (<[p := zero_env]> (heap st)))).
Proof.
  intros W. destruct (reserve_facts (upd_heap st (<[p := zero_env]> (heap st))) p (cw_len _ W) (cw_next _ W))
    as [(i & k & Hi & _ & Hs & _ & E)|[Hall E]]; [left; exists i|right]; split_and!; done.
Qed.

Definition has_free_slot (st : ctl) : Prop := exists i, app_envs st !! i = Some None.

Lemma load_app_facts st rq env p h : ctl_wf st -> load_env_ok st env -> valid_request rq ->
  (forall e, loaded st e -> same_app_as rq e = false) -> has_free_slot st ->
  le_calloc env = Some p -> le_handle env = Some h -> le_pthread_create env = 0 ->
  exists st' i, load_app st rq env = Ret (st', Z.of_nat i, [ThreadCreate p]) /\ ctl_wf st' /\
    app_envs st !! i = Some None /\ app_envs st' = <[i := Some p]> (app_envs st) /\
    heap st' !! p = Some (env_of_request rq h) /\ rt st' = rt st.
Proof.
  intros W Hf Hrq Hnl [i0 Hi0] Ec Eh Ep. unfold load_app.
  destruct (load_app_guards st rq W Hrq Hnl) as [-> ->]. cbn [mbind outcome_bind]. rewrite Ec.
  destruct (reserve_new_env st p W) as [(i & Hi & Hs & E)|[Hall _]].
  2: { pose proof (lookup_lt_Some _ _ _ Hi0) as Hlt. rewrite (cw_len _ W) in Hlt.
       destruct (Hall i0 Hlt) as [q Hq]. congruence. }
  rewrite E. cbn [mbind outcome_bind]. rewrite (proj2 (Z.ltb_ge _ _)) by lia. rewrite Eh, Ep. cbn [Z.eqb negb].
  eexists _, i. split; [reflexivity|].
  unfold upd_handles, upd_heap. cbn [app_envs next_available_app_env heap handles rt]. rewrite insert_insert_eq.
  split_and!; [|done|done|by rewrite lookup_insert_eq|done].
  apply add_env_wf; try done; [by apply Hf|apply Hrq].
Qed.

(** Loading a new application into a free slot, when every call succeeds,
    returns the slot, fills the environment from the request, starts one
    thread on it and keeps the table consistent. *)
Theorem load_app_spec st rq env p h : ctl_wf st -> load_env_ok st env -> valid_request rq ->
  (forall e, loaded st e -> same_app_as rq e = false) -> has_free_slot st ->
  le_calloc env = Some p -> le_handle env = Some h -> le_pthread_create env = 0 ->
  exists st' i, load_app st rq env = Ret (st', Z.of_nat i, [ThreadCreate p]) /\ ctl_wf st' /\
    app_envs st !! i = Some None /\ app_envs st' = <[i := Some p]> (app_envs st) /\
    heap st' !! p = Some (env_of_request rq h) /\ rt st' = rt st.
Proof. apply load_app_facts. Qed.

Lemma load_app_double_free_facts st rq env p : ctl_wf st -> load_env_ok st env -> valid_request rq ->
  (forall e, loaded st e -> same_app_as rq e = false) -> has_free_slot st ->
  le_calloc env = Some p -> le_handle env = None \/ le_pthread_create env <> 0 ->
  load_app st rq env = Fault DoubleFree.
Proof.
  intros W Hf Hrq Hnl [i0 Hi0] Ec Hfail. unfold load_app.
  destruct (load_app_guards st rq W Hrq Hnl) as [-> ->]. cbn [mbind outcome_bind]. rewrite Ec.
  destruct (reserve_new_env st p W) as [(i & Hi & Hs & E)|[Hall _]].
  2: { pose proof (lookup_lt_Some _ _ _ Hi0) as Hlt. rewrite (cw_len _ W) in Hlt.
       destruct (Hall i0 Hlt) as [q Hq]. congruence. }
  rewrite E. cbn [mbind outcome_bind]. rewrite (proj2 (Z.ltb_ge _ _)) by lia.
  assert (Herr : forall (h : gmap nat jrtc_app_env) hs ev, is_Some (h !! p) ->
    (st ← _jrtc_release_app_id (mk_controller (<[i := Some p]> (app_envs st)) ((i + 1) mod MAX_NUM_JRTC_APPS)%nat h hs (rt st))
            (Z.of_nat i);
     st ← free_env st p; Ret (st, -1, ev)) = (Fault DoubleFree : outcome (ctl * Z * list ctl_event))).
  { intros h hs ev [x Hx]. unfold _jrtc_release_app_id. rewrite (proj2 (Z.leb_le _ _)), (proj2 (Z.ltb_lt _ _)) by lia.
    rewrite Nat2Z.id. cbn [andb app_envs].
    rewrite (array_get_Some _ _ (Some p)) by (apply list_lookup_insert_eq; by rewrite (cw_len _ W)).
    cbn [mbind outcome_bind]. rewrite (free_env_live _ p x) by done. cbn [mbind outcome_bind upd_heap app_envs].
    rewrite array_set_lt by (rewrite length_insert, (cw_len _ W); done). cbn [mbind outcome_bind].
    unfold free_env, upd_envs, upd_heap. cbn [heap]. by rewrite lookup_delete_eq. }
  destruct (le_handle env) as [h|] eqn:Eh; [|apply Herr; by rewrite lookup_insert_eq].
  destruct Hfail as [?|Hp]; [done|]. rewrite (proj2 (Z.eqb_neq _ _)) by done. cbn [negb].
  match goal with |- context [dlclose ?s h] => destruct (dlclose_open s h (handles st)) as (l' & -> & _); [done|] end.
  cbn [mbind outcome_bind]. apply Herr. cbn [heap upd_heap upd_handles]. by rewrite lookup_insert_eq.
Qed.

(** When the library cannot be opened or the thread cannot be started,
    the error path of [load_app] frees the new environment twice: once through
    its slot and once directly. *)
Theorem load_app_double_free st rq env p : ctl_wf st -> load_env_ok st env -> valid_request rq ->
  (forall e, loaded st e -> same_app_as rq e = false) -> has_free_slot st ->
  le_calloc env = Some p -> le_handle env = None \/ le_pthread_create env <> 0 ->
  load_app st rq env = Fault DoubleFree.
Proof. apply load_app_double_free_facts. Qed.

(** A request for an application that is loaded already is refused with -1
    and without an effect; so is one that finds all the slots in use, except
    that the environment allocated for it is not freed. *)
Theorem load_app_refused st rq env : ctl_wf st -> valid_request rq ->
  ((exists e, loaded st e /\ same_app_as rq e = true) -> load_app st rq env = Ret (st, -1, [])) /\
  (forall p, (forall e, loaded st e -> same_app_as rq e = false) -> le_calloc env = Some p ->
     (forall i, (i < MAX_NUM_JRTC_APPS)%nat -> exists q, app_envs st !! i = Some (Some q)) ->
     exists st', load_app st rq env = Ret (st', -1, []) /\ app_envs st' = app_envs st /\
       heap st' = <[p := zero_env]> (heap st)).
Proof.
  intros W Hrq. pose proof Hrq as ([d Hd] & Hsz & Hp). unfold load_app. split.
  - intros He. rewrite Hd, bool_decide_false, (proj2 (Z.eqb_neq _ _)) by done. cbn [orb].
    destruct (is_app_loaded_spec st rq W Hp) as (b & -> & Hb). by rewrite (proj2 Hb He).
  - intros p Hnl Ec Hall. destruct (load_app_guards st rq W Hrq Hnl) as [-> ->]. cbn [mbind outcome_bind]. rewrite Ec.
    destruct (reserve_new_env st p W) as [(i & Hi & Hs & _)|[_ ->]]; [destruct (Hall i Hi); congruence|].
    cbn. by eexists.
Qed.

(** ** Unloading *)

(** The contexts of the router without the one of [e]. *)
Definition dapps_without (st : ctl) (e : jrtc_app_env) : gmap nat (dapp_router_ctx C R M) :=
  match dapp_ctx e with Some a => delete a (dapps (rt st)) | None => dapps (rt st) end.

(** The handles without the one of the application in a slot. *)
Lemma handles_of_slot st i p e : ctl_wf st -> app_envs st !! i = Some (Some p) -> heap st !! p = Some e ->
  exists l, handles st ≡ₚ app_handle e :: l /\ omap (slot_handle (heap st)) (<[i := None]> (app_envs st)) ⊆+ l.
Proof.
  intros W Hi He. pose proof (cw_handles _ W) as Hh. unfold env_handles in Hh. rewrite (omap_split _ _ _ _ Hi) in Hh.
  cbn in Hh. rewrite He in Hh. cbn in Hh. apply submseteq_cons_l in Hh as (l & Hl & Hsub). exists l. split; [done|].
  rewrite omap_insert_split by (by eapply lookup_lt_Some). exact Hsub.
Qed.

Lemma remove_env_wf st i p e r l : ctl_wf st -> app_envs st !! i = Some (Some p) -> heap st !! p = Some e ->
  router_wf r -> dapps r = dapps_without st e -> omap (slot_handle (heap st)) (<[i := None]> (app_envs st)) ⊆+ l ->
  ctl_wf (mk_controller (<[i := None]> (app_envs st)) (next_available_app_env st) (delete p (heap st)) l r).
Proof.
  intros W Hi He Wr Hr Hsub.
  assert (Hold : forall j q, <[i := None]> (app_envs st) !! j = Some (Some q) -> app_envs st !! j = Some (Some q) /\
            j <> i /\ exists e', heap st !! q = Some e' /\ env_ok st e' /\ ~ clash p q e e').
  { intros j q. rewrite list_lookup_insert. case_decide as E; [done|]. intros Hj.
    assert (j <> i) by (intros ->; apply E; split; [done|by eapply lookup_lt_Some]). split_and!; try done.
    destruct (cw_slot _ W _ _ Hj) as (e' & He' & Hok). exists e'. split_and!; try done.
    intros Hc. pose proof (cw_inj _ W i j p q e e' Hi Hj He He' Hc). congruence. }
  constructor; cbn [app_envs next_available_app_env heap handles rt].
  - rewrite length_insert. apply (cw_len _ W).
  - apply (cw_next _ W).
  - intros j q Hj. destruct (Hold j q Hj) as (_ & _ & e' & He' & (H2 & H3) & Hc). exists e'.
    rewrite lookup_delete_ne by (intros ->; apply Hc; by left). split; [done|]. split; cbn [handles rt]; [done|].
    intros a Ha. rewrite Hr. unfold dapps_without. destruct (dapp_ctx e) as [a'|] eqn:Ea; [|by apply H3].
    rewrite lookup_delete_ne; [by apply H3|]. intros ->. apply Hc. right. eauto.
  - intros j k q q' x x' Hj Hk Hx Hx' Hc. destruct (Hold j q Hj) as (Ej & _), (Hold k q' Hk) as (Ek & _).
    apply lookup_delete_Some in Hx as [_ Hx]. apply lookup_delete_Some in Hx' as [_ Hx'].
    exact (cw_inj _ W j k q q' x x' Ej Ek Hx Hx' Hc).
  - unfold env_handles. cbn [app_envs heap]. rewrite (slot_handle_ext (heap st)); [done|].
    intros q (j & Hj)%list_elem_of_lookup. destruct (Hold j q Hj) as (_ & _ & e' & He' & _ & Hc).
    rewrite lookup_delete_ne; [done|]. intros ->. apply Hc. by left.
  - done.
Qed.

Lemma deregister_env st e : ctl_wf st -> env_ok st e ->
  exists r ev, jrtc_router_deregister_app (rt st) (dapp_ctx e) = Ret (r, ev) /\ router_wf r /\ dapps r = dapps_without st e.
Proof.
  intros W (_ & Hd). unfold dapps_without. destruct (dapp_ctx e) as [a|].
  - destruct (Hd a eq_refl) as [d Ha].
    destruct (deregister_app_facts (rt st) a d (cw_rt _ W) Ha) as (r & ev & E & Wr & Hr & _). eauto 6.
  - exists (rt st), []. split_and!; [done|apply (cw_rt _ W)|done].
Qed.

Lemma unload_facts st i p e : ctl_wf st -> app_envs st !! i = Some (Some p) -> heap st !! p = Some e ->
  exists st' ev, unload_app st (Z.of_nat i) unload_fine =
      Ret (st', 0, [ThreadJoin p; DlClose (app_handle e)] ++ (RouterEvent <$> ev)) /\ ctl_wf st' /\
    app_envs st' = <[i := None]> (app_envs st) /\ heap st' = delete p (heap st) /\
    dapps (rt st') = dapps_without st e.
Proof.
  intros W Hi He. pose proof (lookup_lt_Some _ _ _ Hi) as Hlt. pose proof (cw_len _ W) as Hl. rewrite Hl in Hlt.
  destruct (cw_slot _ W _ _ Hi) as (e0 & He0 & Hok). simplify_eq.
  destruct (handles_of_slot st i p e W Hi He) as (l & Hh & Hsub).
  destruct (deregister_env st e W Hok) as (r & ev & Er & Wr & Hr). unfold unload_app.
  rewrite (proj2 (Z.ltb_ge _ _)), (proj2 (Z.leb_gt _ _)) by lia. cbn [orb]. rewrite Nat2Z.id.
  rewrite (array_get_Some _ _ _ Hi). cbn [mbind outcome_bind]. rewrite (deref_Some _ _ _ He). cbn [mbind outcome_bind].
  cbn [unload_fine ue_join ue_dlclose Z.eqb negb].
  destruct (dlclose_open (upd_heap st (<[p := set_app_exit e]> (heap st))) (app_handle e) l Hh) as (l' & -> & Hl'). cbn [mbind outcome_bind].
  cbn [rt upd_handles upd_heap]. rewrite Er. cbn [mbind outcome_bind]. unfold _jrtc_release_app_id.
  rewrite (proj2 (Z.leb_le _ _)), (proj2 (Z.ltb_lt _ _)) by lia. rewrite Nat2Z.id. cbn [andb app_envs upd_rt upd_handles upd_heap].
  rewrite (array_get_Some _ _ _ Hi). cbn [mbind outcome_bind].
  rewrite (free_env_live _ p (set_app_exit e)) by (cbn; by rewrite lookup_insert_eq). cbn [mbind outcome_bind].
  unfold upd_heap, upd_rt, upd_handles, upd_envs. cbn [app_envs next_available_app_env heap handles rt].
  rewrite array_set_lt by lia. cbn [mbind outcome_bind].
  eexists _, ev. split; [reflexivity|]. cbn [app_envs next_available_app_env heap handles rt].
  rewrite delete_insert_eq. split_and!; try done. apply (remove_env_wf st i p e); try done. by rewrite <- Hl'.
Qed.

(** Unloading the application in a slot waits for its thread, closes its
    library, deregisters it from the router and frees its slot, in this order,
    and keeps the table consistent; an empty slot gives -1. The slot number is
    not checked: one outside the table reads past its end. *)
Theorem unload_app_spec st i : ctl_wf st ->
  ((0 <= i < Z.of_nat MAX_NUM_JRTC_APPS) ->
     (forall env, unload_app st i env = Ret (st, -1, [])) \/
     exists st' p h ev, unload_app st i unload_fine = Ret (st', 0, [ThreadJoin p; DlClose h] ++ (RouterEvent <$> ev)) /\
       ctl_wf st' /\ app_envs st !! Z.to_nat i = Some (Some p) /\
       app_envs st' = <[Z.to_nat i := None]> (app_envs st) /\ heap st' = delete p (heap st)) /\
  (~ (0 <= i < Z.of_nat MAX_NUM_JRTC_APPS) -> forall env, unload_app st i env = Fault OutOfBounds).
Proof.
  intros W. split.
  - intros Hi. destruct (lookup_lt_is_Some_2 (app_envs st) (Z.to_nat i)) as [[p|] Hs]; [rewrite (cw_len _ W); lia| |].
    + right. destruct (cw_slot _ W _ _ Hs) as (e & He & _).
      destruct (unload_facts st (Z.to_nat i) p e W Hs He) as (st' & ev & E & W' & H1 & H2 & _).
      rewrite Z2Nat.id in E by lia. exists st', p, (app_handle e), ev. done.
    + left. intros env. unfold unload_app. rewrite (proj2 (Z.ltb_ge _ _)), (proj2 (Z.leb_gt _ _)) by lia. cbn [orb].
      by rewrite (array_get_Some _ _ _ Hs).
  - intros Hi env. unfold unload_app. destruct (Z.ltb_spec i 0); [done|].
    by rewrite (proj2 (Z.leb_le _ _)) by lia.
Qed.

(** ** Shutdown *)

Definition joined (ev : list ctl_event) : list nat :=
  omap (λ e, match e with ThreadJoin p => Some p | _ => None end) ev.

Lemma joined_router ev : joined (RouterEvent <$> ev) = [].
Proof. by induction ev. Qed.

Lemma unload_loop_facts n i st res join : (forall j, join j = unload_fine) -> (i + n = MAX_NUM_JRTC_APPS)%nat -> ctl_wf st ->
  exists st' ev, unload_loop n i st res join = Ret (st', res, ev) /\ ctl_wf st' /\
    (forall j, (j < i)%nat -> app_envs st' !! j = app_envs st !! j) /\
    (forall j, (i <= j < MAX_NUM_JRTC_APPS)%nat -> app_envs st' !! j = Some None) /\
    joined ev = omap Datatypes.id (drop i (app_envs st)).
Proof.
  intros Hj. revert i st. induction n as [|n IH]; intros i st Hn W; cbn [unload_loop].
  { exists st, []. split_and!; try done; [lia|]. by rewrite drop_ge by (rewrite (cw_len _ W); lia). }
  destruct (lookup_lt_is_Some_2 (app_envs st) i) as [slot Hs]; [rewrite (cw_len _ W); lia|].
  rewrite (array_get_Some _ _ _ Hs), (drop_S _ _ _ Hs). cbn [mbind outcome_bind]. destruct slot as [p|].
  - destruct (cw_slot _ W _ _ Hs) as (e & He & _). rewrite Hj.
    destruct (unload_facts st i p e W Hs He) as (st1 & ev1 & -> & W1 & H1 & _). cbn [mbind outcome_bind Z.eqb].
    destruct (IH (i + 1)%nat st1) as (st2 & ev2 & -> & W2 & H2 & H3 & H4); [lia|done|]. cbn [mbind outcome_bind].
    eexists st2, _. split; [reflexivity|]. split_and!; [done| | |].
    + intros j Hlt. rewrite H2, H1, list_lookup_insert_ne by lia. done.
    + intros j Hr. destruct (decide (j = i)) as [->|]; [|apply H3; lia]. rewrite H2 by lia.
      rewrite H1, list_lookup_insert_eq; [done|]. rewrite (cw_len _ W). lia.
    + unfold joined in *. rewrite omap_app, H4, H1. cbn. rewrite joined_router. cbn.
      rewrite drop_insert_lt by lia. by rewrite Nat.add_1_r.
  - destruct (IH (i + 1)%nat st) as (st2 & ev2 & -> & W2 & H2 & H3 & H4); [lia|done|].
    exists st2, ev2. split; [done|]. split_and!; [done| | |].
    + intros j Hlt. apply H2. lia.
    + intros j Hr. destruct (decide (j = i)) as [->|]; [|apply H3; lia]. by rewrite H2 by lia.
    + rewrite H4. cbn. by rewrite Nat.add_1_r.
Qed.

(** At shutdown every application that is still loaded is stopped, once
    and in the order of the slots, and no slot is left in use. *)
Theorem shutdown_unloads_all st res join : (forall j, join j = unload_fine) -> ctl_wf st ->
  exists st' ev, unload_loop MAX_NUM_JRTC_APPS 0 st res join = Ret (st', res, ev) /\ ctl_wf st' /\
    (forall j, (j < MAX_NUM_JRTC_APPS)%nat -> app_envs st' !! j = Some None) /\
    joined ev = omap Datatypes.id (app_envs st).
Proof.
  intros Hj W. destruct (unload_loop_facts MAX_NUM_JRTC_APPS 0 st res join Hj eq_refl W)
    as (st' & ev & E & W' & _ & H1 & H2). exists st', ev. split_and!; try done. intros j Hlt. apply H1. lia.
Qed.

(** An application whose library has no entry point closes the library in
    its own thread; when nobody else has it open, unloading the application
    closes it a second time. *)
Theorem unload_without_entry_point os st st' i p e renv ev l : ctl_wf st -> app_envs st !! i = Some (Some p) ->
  heap st !! p = Some e -> handles st ≡ₚ app_handle e :: l -> app_handle e ∉ l ->
  run_app os st p renv false = Ret (st', ev) -> unload_app st' (Z.of_nat i) unload_fine = Fault DoubleFree.
Proof.
  intros W Hi He Hl Hnl. pose proof (lookup_lt_Some _ _ _ Hi) as Hlt. rewrite (cw_len _ W) in Hlt.
  unfold run_app. rewrite (deref_Some _ _ _ He). cbn [mbind outcome_bind].
  intros ([[r d] ev0] & _ & H)%bind_ret_inv. apply bind_ret_inv in H as (st1 & Hd & H). simplify_eq.
  match type of Hd with dlclose ?s _ = _ => destruct (dlclose_open s (app_handle e) l Hl) as (l' & E & Hl') end.
  rewrite E in Hd. simplify_eq. unfold unload_app.
  rewrite (proj2 (Z.ltb_ge _ _)), (proj2 (Z.leb_gt _ _)) by lia. cbn [orb]. rewrite Nat2Z.id. cbn [app_envs upd_handles upd_heap upd_rt].
  rewrite (array_get_Some _ _ _ Hi). cbn [mbind outcome_bind heap upd_handles upd_heap upd_rt].
  rewrite (deref_Some _ _ (set_dapp_ctx e d)) by (by rewrite lookup_insert_eq). cbn [mbind outcome_bind unload_fine ue_join Z.eqb negb].
  unfold dlclose. cbn [handles upd_heap upd_handles]. rewrite remove_one_None; [done|]. cbn. by rewrite <- Hl'.
Qed.

End Facts.
