(* ===== verification/ControllerExample.v ===== *)
(** * A controller at work

    Concrete states of the controller over the reference libraries, at which
    its theorems apply. *)
From S2P Require Import Prelude StreamId Ext Router RouterInv RouterInit RouterExample Sched Logging Controller ControllerFacts.
From Stdlib Require Import Ascii.
Import Reference.

#[local] Instance signed_char_c : CharSign := true.

Abbreviation ex_ctl := (controller (list bool) (list (list Z * nat)) (list (nat * nat)) ring_ref (Z * list nat)).

(** No application loaded. *)
Definition c0 : ex_ctl := mk_controller (replicate 64 None) 0 ∅ [] r0.

Definition ex_load_req : load_app_request :=
  mk_load_req (Some [1; 2; 3]) 3 (Some (chars "app")) 0 0 0 3 (Some (chars "/app.so")) (Some (chars "c"))
    (replicate 255 (mk_kv None None)) (replicate 255 (mk_kv None None)) (replicate 255 None).
Definition ex_load : load_env := mk_load_env (Some 50%nat) (Some 60%nat) 0.

(** One application loaded, in slot 0. *)
Definition c1 : ex_ctl := (ret_or (c0, 0, []) (load_app c0 ex_load_req ex_load)).1.1.

Lemma c0_wf : ctl_wf c0.
Proof.
  constructor; cbn [c0 app_envs next_available_app_env heap handles rt].
  - apply length_replicate.
  - unfold MAX_NUM_JRTC_APPS. lia.
  - intros i p. rewrite lookup_replicate. by intros [? _].
  - intros i j p p' e e'. rewrite lookup_replicate. by intros [? _].
  - apply submseteq_nil_l.
  - apply r0_inv.
Qed.

Lemma ex_load_ok (st : ex_ctl) : heap st = ∅ -> load_env_ok st ex_load.
Proof. intros Hh p [= <-]. by rewrite Hh. Qed.

Lemma ex_load_req_valid : valid_request ex_load_req.
Proof. split_and!; [done|done|cbn; lia]. Qed.

Lemma c0_none_loaded e : loaded c0 e -> same_app_as ex_load_req e = false.
Proof. intros (i & p & Hi & _). apply lookup_replicate in Hi as [? _]. done. Qed.

Lemma c0_free : has_free_slot c0.
Proof. by exists 0%nat. Qed.

Lemma c1_wf : ctl_wf c1.
Proof.
  destruct (load_app_facts c0 ex_load_req ex_load 50 60 c0_wf (ex_load_ok c0 eq_refl) ex_load_req_valid
    c0_none_loaded c0_free eq_refl eq_refl eq_refl) as (st' & i & E & W & _).
  unfold c1. rewrite E. exact W.
Qed.

Lemma c1_slot : app_envs c1 !! 0%nat = Some (Some 50%nat).
Proof. by vm_compute. Qed.
Lemma c1_env : heap c1 !! 50%nat = Some (env_of_request ex_load_req 60).
Proof. by vm_compute. Qed.

Lemma reserve_app_id_spec_witness : exists st', _jrtc_reserve_app_id c0 7 = Ret (0, st').
Proof.
  destruct (reserve_app_id_spec c0 7 (cw_len _ c0_wf) (cw_next _ c0_wf)) as [(i & k & _ & _ & _ & _ & E)|[_ E]].
  - eexists. vm_compute. reflexivity.
  - vm_compute in E. discriminate.
Defined.

Lemma load_app_spec_witness : exists st' i, load_app c0 ex_load_req ex_load = Ret (st', Z.of_nat i, [ThreadCreate 50]) /\ ctl_wf st'.
Proof.
  destruct (load_app_spec c0 ex_load_req ex_load 50 60 c0_wf (ex_load_ok c0 eq_refl) ex_load_req_valid
    c0_none_loaded c0_free eq_refl eq_refl eq_refl) as (st' & i & E & W & _). eauto.
Defined.

(** The library cannot be opened. *)
Definition ex_load_fail : load_env := mk_load_env (Some 50%nat) None 0.

Lemma load_app_double_free_witness : load_app c0 ex_load_req ex_load_fail = Fault DoubleFree.
Proof.
  apply (load_app_double_free c0 ex_load_req ex_load_fail 50 c0_wf);
    [|exact ex_load_req_valid|exact c0_none_loaded|exact c0_free|reflexivity|left; reflexivity].
  by intros p [= <-].
Defined.

Lemma load_app_refused_witness : load_app c1 ex_load_req ex_load = Ret (c1, -1, []).
Proof.
  apply (proj1 (load_app_refused c1 ex_load_req ex_load c1_wf ex_load_req_valid)).
  exists (env_of_request ex_load_req 60). split; [|by vm_compute].
  exists 0%nat, 50%nat. split; [exact c1_slot|exact c1_env].
Defined.

Lemma unload_app_spec_witness : (exists st' ev, unload_app c1 0 unload_fine = Ret (st', 0, ev)) /\
  unload_app c1 64 unload_fine = Fault OutOfBounds.
Proof.
  destruct (unload_app_spec c1 64 c1_wf) as [_ Hout]. destruct (unload_app_spec c1 0 c1_wf) as [Hin _]. split.
  - destruct Hin as [E|(st' & p & h & ev & E & _)]; [unfold MAX_NUM_JRTC_APPS; lia| |eauto].
    specialize (E unload_fine). vm_compute in E. discriminate.
  - apply Hout. unfold MAX_NUM_JRTC_APPS. lia.
Defined.

Lemma shutdown_unloads_all_witness : exists st' ev,
  unload_loop MAX_NUM_JRTC_APPS 0 c1 0 (fun _ => unload_fine) = Ret (st', 0, ev) /\ joined ev = [50%nat].
Proof.
  destruct (shutdown_unloads_all c1 0 (fun _ => unload_fine) (fun _ => eq_refl) c1_wf) as (st' & ev & E & _ & _ & Hj).
  exists st', ev. split; [exact E|]. rewrite Hj. by vm_compute.
Defined.

Definition c2 : ex_ctl := (ret_or (c1, []) (run_app (fun _ => 0) c1 50 (ex_register 10) false)).1.

Lemma unload_without_entry_point_witness : unload_app c2 0 unload_fine = Fault DoubleFree.
Proof.
  apply (unload_without_entry_point (fun _ => 0) c1 c2 0 50 (env_of_request ex_load_req 60) (ex_register 10)
    [RouterEvent IoRegisterThread; DlClose 60] [] c1_wf c1_slot c1_env);
    [by vm_compute|apply not_elem_of_nil|by vm_compute].
Defined.
