(* ===== verification/Process.v ===== *)
(** * The process: start, serve, stop

    [main] ([src/src/controller/jrtc.c]) with its command line, and the rest of
    [src/src/controller/jrtc_int.c]: reading and opening libraries, the signal
    handler, the thread of the REST server and [start_jrtc], which puts
    configuration, router and controller together. The calls into the system
    are events; what they return is an argument. *)
From stdpp Require Import pretty.
From S2P Require Import Prelude StreamId Ext Router RouterInit Sched Logging Config Controller.
From Stdlib Require Import Ascii.

Inductive proc_event :=
| Fopen (name : list ascii)
| Fclose
| Calloc (size : Z)
| Free
| MemfdCreate (fd : Z)
| Close (fd : Z)
| Dlopen (path : list ascii)
| SemInit
| SemPost
| SemWait
| SemDestroy
| RestCreate (handle : nat)
| RestThread (handle : nat) (port : Z)
| RestStart (handle : nat) (port : Z)
| RestStop (handle : nat)
| ArgsMalloc
| ArgsFree
| PyFinalize
| RouterUp (up : bool)
| RouterStop
| Ctl (e : ctl_event).

(** ** Files *)

(** What the calls of [read_file] return: whether [fopen] succeeds, [ftell],
    whether [calloc] succeeds, and the bytes [fread] delivers. *)
Record file_env := mk_file_env {
  fe_fopen : bool;
  fe_ftell : Z;
  fe_calloc : bool;
  fe_fread : list Z
}.

(** The buffer, terminated by a zero, and the size. *)
Definition read_file (env : file_env) (filename : list ascii) : option (list Z * Z) * list proc_event :=
  if negb (fe_fopen env) then (None, [])
  else if fe_ftell env =? -1 then (None, [Fopen filename; Fclose])
  else if negb (fe_calloc env) then (None, [Fopen filename; Fclose])
  else if negb (Z.of_nat (length (fe_fread env)) =? fe_ftell env) then
    (None, [Fopen filename; Calloc (fe_ftell env + 1); Free; Fclose])
  else (Some (fe_fread env ++ [0], fe_ftell env), [Fopen filename; Calloc (fe_ftell env + 1); Fclose]).

(** What the calls of the loader return; [dlopen] depends on the path. *)
Record mem_env := mk_mem_env {
  me_memfd : Z;
  me_ftruncate : Z;
  me_write : Z;
  me_dlopen : list ascii -> option nat
}.

(** [snprintf(path, sizeof(path), "/proc/self/fd/%d", mem_fd)]. *)
Definition fd_path (fd : Z) : list ascii := chars "/proc/self/fd/" ++ chars (pretty fd).

(** [write] reads [size] bytes from [data]. *)
Definition _jrtc_load_app_from_memory (env : mem_env) (data : list Z) (size : Z) : outcome (option nat * list proc_event) :=
  let fd := me_memfd env in
  if fd =? -1 then Ret (None, [])
  else if me_ftruncate env =? -1 then Ret (None, [MemfdCreate fd; Close fd])
  else if Z.of_nat (length data) <? size then Fault OutOfBounds
  else if negb (me_write env =? size) then Ret (None, [MemfdCreate fd; Close fd])
  else Ret (me_dlopen env (fd_path fd), [MemfdCreate fd; Dlopen (fd_path fd); Close fd]).

(** ** Signals *)

Definition SIGINT : Z := 2.

(** [py] is whether Python is initialised. *)
Definition ctrlc_handler (signo : Z) (py : bool) : list proc_event :=
  if signo =? SIGINT then SemPost :: (if py then [PyFinalize] else []) else [].

Definition stop_jrtc : list proc_event := [SemPost].

(** ** The REST server *)

(** [rest_server_args_t]. *)
Record rest_server_args := mk_rest_args { ra_args : nat; ra_port : Z }.

Definition _start_rest_server (args : rest_server_args) : list proc_event := [RestStart (ra_args args) (ra_port args)].

Section Process.
Context {cs : CharSign}.
Context {B It T C R M S : Type}.
Context `{HB : CkBitmap B It} `{HT : CkHt T nat} `{HC : CkPtrHt C} `{HR : CkRing R} `{HM : Mempool M} `{HS : JbpfIo S}.

Abbreviation ctl := (controller B T C R M).

(** The requests the REST server hands to its callbacks, and the start of the
    thread of an application, in the order in which they happen. *)
Inductive ctl_op :=
| OpLoad (rq : load_app_request) (env : load_env)
| OpRun (os : sched_call -> Z) (p : nat) (renv : register_env C M) (has_entry : bool)
| OpUnload (app_id : Z) (env : unload_env).

(** [up] is whether [jrtc_router_init] succeeded: the bitmap of applications
    that [jrtc_router_register_app] reads is NULL otherwise. *)
Definition ctl_exec (up : bool) (st : ctl) (op : ctl_op) : outcome (ctl * list ctl_event) :=
  match op with
  | OpLoad rq env => '(st, _, ev) ← load_app st rq env; Ret (st, ev)
  | OpRun os p renv has_entry =>
      if up then run_app os st p renv has_entry
      else
        e ← deref (heap st) p;
        if JRTC_ROUTER_MAX_APP_QUEUE_SIZE <? io_queue_size e then run_app os st p renv has_entry else Fault NullDeref
  | OpUnload app_id env => '(st, _, ev) ← unload_app st app_id env; Ret (st, ev)
  end.

Fixpoint serve (up : bool) (st : ctl) (ops : list ctl_op) : outcome (ctl * list ctl_event) :=
  match ops with
  | [] => Ret (st, [])
  | op :: ops =>
      '(st, ev) ← ctl_exec up st op;
      '(st, ev') ← serve up st ops;
      Ret (st, ev ++ ev')
  end.

(** ** start_jrtc *)

(** What the calls of [start_jrtc] return, and what the other threads do: the
    REST server is started before the router is initialised, so requests can
    arrive before ([se_early]) and while the process waits on the semaphore
    ([se_ops]). *)
Record start_env := mk_start_env {
  se_signal_ok : bool;
  se_rest_create : option nat;
  se_malloc_ok : bool;
  se_early : list ctl_op;
  se_router : init_env (T := T);
  se_app_path : cstring;
  se_file : file_env;
  se_load : load_env;
  se_ops : list ctl_op;
  se_join : nat -> unload_env
}.

(** From the start of the REST server's thread on: [cfg] is the configuration,
    [h] the handle of the server. *)
Definition run_jrtc (env : start_env) (cfg : jrtc_config) (h : nat) (st : ctl) : outcome (Z * ctl * list proc_event) :=
  let args := mk_rest_args h (u32 (port cfg)) in
  '(st, ev0) ← serve false st (se_early env);
  let '(_, _, r) := jrtc_router_init (se_router env) in
  let st := match r with Some r => upd_rt st r | None => st end in
  let '(file, ev1) := read_file (se_file env) (north_io_path (se_app_path env)) in
  '(st, res, ev2) ← load_default_north_io_app st (se_app_path env) file (se_load env);
  '(st, ev3) ← serve (bool_decide (is_Some r)) st (se_ops env);
  '(st, res, ev4) ← unload_loop MAX_NUM_JRTC_APPS 0 st res (se_join env);
  Ret (res, st,
       [SemInit; RestCreate h; ArgsMalloc; RestThread (ra_args args) (ra_port args)] ++
       (Ctl <$> ev0) ++ [RouterUp (bool_decide (is_Some r))] ++ ev1 ++ (Ctl <$> ev2) ++
       match file with Some _ => [Free] | None => [] end ++
       (Ctl <$> ev3) ++ [SemWait; RestStop h] ++ (Ctl <$> ev4) ++ [RouterStop; SemDestroy; ArgsFree]).

(** [set_config] is [set_config_values] on the file of that name. *)
Definition start_jrtc
    (set_config : cstring -> outcome (Z * jrtc_config * logger_state * jrtc_logging_level))
    (config_file : cstring) (env : start_env) (st : ctl) : outcome (Z * ctl * list proc_event) :=
  if negb (se_signal_ok env) then Ret (1, st, [])
  else
    '(res, cfg, _, _) ← set_config config_file;
    if negb (res =? 0) then Ret (-2, st, [SemInit])
    else
      match se_rest_create env with
      | None => Ret (-1, st, [SemInit])
      | Some h => if negb (se_malloc_ok env) then Ret (-1, st, [SemInit; RestCreate h]) else run_jrtc env cfg h st
      end.

(** ** main *)

(** [getopt_long] of the C library for the options of [main]: [-c] with an
    argument in the same or in the next word, [--config] and its abbreviations
    with an argument after [=] or in the next word, a word that is no option is
    passed over, [--] ends the options, and anything else is ['?']. *)
Inductive opt :=
| OptConfig (arg : list ascii)
| OptUnknown.

Fixpoint is_prefix (p s : list ascii) : bool :=
  match p, s with
  | [], _ => true
  | x :: p, y :: s => bool_decide (x = y) && is_prefix p s
  | _, [] => false
  end.

(** The option name of a word and what follows its [=]. *)
Fixpoint split_eq (s : list ascii) : list ascii * option (list ascii) :=
  match s with
  | [] => ([], None)
  | c :: s =>
      if decide (c = "="%char) then ([], Some s)
      else let '(n, v) := split_eq s in (c :: n, v)
  end.

Fixpoint getopt (argv : list (list ascii)) : list opt :=
  match argv with
  | [] => []
  | word :: argv' =>
      let with_next := match argv' with [] => [OptUnknown] | a :: rest => OptConfig a :: getopt rest end in
      match word with
      | "-"%char :: "-"%char :: [] => []
      | "-"%char :: "-"%char :: name =>
          let '(n, v) := split_eq name in
          if is_prefix n (chars "config") then
            match v with Some v => OptConfig v :: getopt argv' | None => with_next end
          else OptUnknown :: getopt argv'
      | "-"%char :: "c"%char :: [] => with_next
      | "-"%char :: "c"%char :: arg => OptConfig arg :: getopt argv'
      | "-"%char :: _ :: _ => OptUnknown :: getopt argv'
      | _ => getopt argv'
      end
  end.

(** The loop of [main]: [inl] is the return from it. *)
Fixpoint main_loop (config_file : cstring) (opts : list opt) : Z + cstring :=
  match opts with
  | [] => inr config_file
  | OptConfig a :: opts => main_loop (Some a) opts
  | OptUnknown :: _ => inl (-1)
  end.

(** [argv] without the name of the program. *)
Definition main
    (set_config : cstring -> outcome (Z * jrtc_config * logger_state * jrtc_logging_level))
    (argv : list (list ascii)) (env : start_env) (st : ctl) : outcome (Z * ctl * list proc_event) :=
  match main_loop None (getopt argv) with
  | inl res => Ret (res, st, [])
  | inr config_file => start_jrtc set_config config_file env st
  end.

End Process.
