(* ===== verification/ProcessFacts.v ===== *)
(** * Correctness of the process

    Files and descriptors are closed on every path; the table of applications
    stays consistent through everything the REST server and the threads of the
    applications do; [start_jrtc] unloads what was loaded, on every run, and
    what it returns when one of its steps fails; the command line. *)
From S2P Require Import Prelude StreamId Ext Router RouterInv RouterApps RouterInit Sched Logging Config Controller ControllerFacts Process.
From Stdlib Require Import Ascii.

(** ** Files and descriptors *)

(** Of the events [ev], those that acquire and those that release a resource
    of each kind. *)
Fixpoint count (p : proc_event -> bool) (ev : list proc_event) : nat :=
  match ev with [] => 0 | e :: ev => (if p e then 1 else 0) + count p ev end%nat.
Definition is_fopen (e : proc_event) : bool := match e with Fopen _ => true | _ => false end.
Definition is_fclose (e : proc_event) : bool := match e with Fclose => true | _ => false end.
Definition is_alloc (e : proc_event) : bool := match e with Calloc _ => true | _ => false end.
Definition is_free (e : proc_event) : bool := match e with Free => true | _ => false end.
Definition is_memfd (e : proc_event) : bool := match e with MemfdCreate _ => true | _ => false end.
Definition is_close (e : proc_event) : bool := match e with Close _ => true | _ => false end.

Lemma read_file_released fe name :
  let '(r, ev) := read_file fe name in
  count is_fopen ev = count is_fclose ev /\
  count is_alloc ev = (count is_free ev + match r with Some _ => 1 | None => 0 end)%nat /\
  match r with
  | Some (buf, n) => buf = fe_fread fe ++ [0] /\ n = Z.of_nat (length (fe_fread fe)) /\ n = fe_ftell fe /\ fe_fopen fe = true
  | None => True
  end.
Proof.
  unfold read_file. destruct (fe_fopen fe); [|done]. cbn [negb].
  destruct (Z.eqb_spec (fe_ftell fe) (-1)); [done|]. destruct (fe_calloc fe); [|done]. cbn [negb].
  destruct (Z.eqb_spec (Z.of_nat (length (fe_fread fe))) (fe_ftell fe)); done.
Qed.

(** Reading a file and opening a library from memory release what they
    acquire on every path: the stream is closed, the buffer is freed unless it
    is returned, the descriptor is closed. A file that is read completely is
    returned with a terminating zero and its size; the library is opened
    through the descriptor it was written to, and only if all of it was
    written. *)
Theorem files_released fe me name data size :
  0 <= size <= Z.of_nat (length data) ->
  (let '(r, ev) := read_file fe name in
   count is_fopen ev = count is_fclose ev /\
   count is_alloc ev = (count is_free ev + match r with Some _ => 1 | None => 0 end)%nat /\
   match r with
   | Some (buf, n) => buf = fe_fread fe ++ [0] /\ n = Z.of_nat (length (fe_fread fe)) /\ n = fe_ftell fe /\ fe_fopen fe = true
   | None => True
   end) /\
  exists h ev, _jrtc_load_app_from_memory me data size = Ret (h, ev) /\
    count is_memfd ev = count is_close ev /\
    (is_Some h -> me_write me = size /\ h = me_dlopen me (fd_path (me_memfd me)) /\ me_memfd me <> -1).
Proof.
  intros Hs. split; [apply read_file_released|].
  unfold _jrtc_load_app_from_memory. destruct (Z.eqb_spec (me_memfd me) (-1)).
  { eexists None, _. by split_and!. }
  destruct (me_ftruncate me =? -1). { eexists None, _. by split_and!. }
  rewrite (proj2 (Z.ltb_ge _ _)) by lia. destruct (Z.eqb_spec (me_write me) size); cbn [negb].
  + eexists _, _. split; [done|]. done.
  + eexists None, _. by split_and!.
Qed.

Section Facts.
Context {cs : CharSign}.
Context {B It T C R M S : Type}.
Context `{HB : CkBitmap B It} `{HT : CkHt T nat} `{HC : CkPtrHt C} `{HR : CkRing R} `{HM : Mempool M} `{HS : JbpfIo S}.
Context `{LB : !CkBitmapLaws B It} `{LT : !CkHtLaws T nat} `{LC : !CkPtrHtLaws C} `{LR : !CkRingLaws R} `{LM : !MempoolLaws M}.

Abbreviation ctl := (controller B T C R M).

(** ** The thread of an application *)

Lemma register_app_addr (r r' : jrtc_router_ctx B T C R M) env q p ev :
  jrtc_router_register_app r env q = Ret (r', Some p, ev) -> calloc_dapp env = Some p.
Proof.
  unfold jrtc_router_register_app. intros H. repeat (case_match; simplify_eq/=; try done).
  apply bind_ret_inv in H as (slots & _ & H). by simplify_eq.
Qed.

(** An environment that gets a router context of its own. *)
Lemma set_ctx_wf st i p e r d :
  ctl_wf st -> app_envs st !! i = Some (Some p) -> heap st !! p = Some e -> dapp_ctx e = None -> router_wf r ->
  (forall a, is_Some (dapps (rt st) !! a) -> is_Some (dapps r !! a)) ->
  (forall a, d = Some a -> dapps (rt st) !! a = None /\ is_Some (dapps r !! a)) ->
  ctl_wf (upd_heap (upd_rt st r) (<[p := set_dapp_ctx e d]> (heap st))).
Proof.
  intros W Hi He Hd Wr Hsub Hnew.
  assert (Hh : forall j q x, app_envs st !! j = Some (Some q) -> <[p := set_dapp_ctx e d]> (heap st) !! q = Some x ->
            q = p /\ j = i /\ x = set_dapp_ctx e d \/ q <> p /\ heap st !! q = Some x).
  { intros j q x Hj Hx. destruct (decide (q = p)) as [->|]; [left|right].
    - rewrite lookup_insert_eq in Hx. split_and!; [done| |congruence].
      eapply (cw_inj _ W j i p p e e); try done. by left.
    - by rewrite lookup_insert_ne in Hx by done. }
  constructor; cbn [app_envs next_available_app_env heap handles rt upd_heap upd_rt].
  - apply (cw_len _ W).
  - apply (cw_next _ W).
  - intros j q Hj. destruct (cw_slot _ W _ _ Hj) as (x & Hx & H2 & H3). destruct (decide (q = p)) as [->|].
    + rewrite lookup_insert_eq. eexists. split; [done|]. simplify_eq. split_and!; try done. intros a Ha. by apply Hnew.
    + exists x. rewrite lookup_insert_ne by done. split; [done|]. split_and!; try done. intros a Ha. by apply Hsub, H3.
  - intros j k q q' x x' Hj Hk Hx Hx' Hc.
    destruct (Hh j q x Hj Hx) as [(-> & -> & ->)|[Hq Ex]], (Hh k q' x' Hk Hx') as [(-> & -> & ->)|[Hq' Ex']]; [done| | |].
    + destruct Hc as [?|(a & Ha & Ha')]; [congruence|].
      destruct (Hnew a Ha) as [Hn _]. destruct (cw_slot _ W _ _ Hk) as (y & Hy & _ & Hy'). simplify_eq.
      destruct (Hy' a Ha'). congruence.
    + destruct Hc as [?|(a & Ha & Ha')]; [congruence|].
      destruct (Hnew a Ha') as [Hn _]. destruct (cw_slot _ W _ _ Hj) as (y & Hy & _ & Hy'). simplify_eq.
      destruct (Hy' a Ha). congruence.
    + by eapply (cw_inj _ W j k q q').
  - unfold env_handles. cbn [app_envs heap upd_heap upd_rt]. rewrite (slot_handle_ext (heap st)); [apply (cw_handles _ W)|].
    intros q _. destruct (decide (q = p)) as [->|]; [by rewrite lookup_insert_eq, He|by rewrite lookup_insert_ne].
  - done.
Qed.

Lemma run_app_facts os st i p e renv :
  ctl_wf st -> app_envs st !! i = Some (Some p) -> heap st !! p = Some e -> dapp_ctx e = None -> 0 <= io_queue_size e ->
  register_env_ok (rt st) renv (io_queue_size e) ->
  exists st' ev, run_app os st p renv true = Ret (st', ev) /\ ctl_wf st' /\ app_envs st' = app_envs st.
Proof.
  intros W Hi He Hd Hq Hr. unfold run_app. rewrite (deref_Some _ _ _ He). cbn [mbind outcome_bind].
  destruct (register_app_facts (rt st) renv (io_queue_size e) (cw_rt _ W) Hq Hr) as (r & d & ev & E & Wr & _ & _ & Hres).
  rewrite E. cbn [mbind outcome_bind]. eexists _, _. split; [reflexivity|]. split; [|done].
  destruct d as [a|].
  - destruct Hres as (k & x & _ & _ & Hdapps & _). pose proof (register_app_addr _ _ _ _ _ _ E) as Ea.
    pose proof (env_fresh _ _ _ Hr _ Ea) as Hn. apply (set_ctx_wf st i); try done.
    + intros b Hb. rewrite Hdapps. destruct (decide (b = a)) as [->|]; [by rewrite lookup_insert_eq|by rewrite lookup_insert_ne].
    + intros b [= <-]. split; [done|]. by rewrite Hdapps, lookup_insert_eq.
  - destruct Hres as (_ & Hdapps & _). apply (set_ctx_wf st i); try done. by rewrite Hdapps.
Qed.

(** ** What the REST server and the applications do *)

(** The environment allocated for an application that finds no slot stays on
    the heap. *)
Lemma unused_env_wf (st : ctl) p e : ctl_wf st -> heap st !! p = None -> ctl_wf (upd_heap st (<[p := e]> (heap st))).
Proof.
  intros W Hp.
  assert (Hold : forall j q x, app_envs st !! j = Some (Some q) -> <[p := e]> (heap st) !! q = Some x -> heap st !! q = Some x).
  { intros j q x Hj Hx. destruct (cw_slot _ W _ _ Hj) as (y & Hy & _). rewrite lookup_insert_ne in Hx by congruence. done. }
  constructor; cbn [app_envs next_available_app_env heap handles rt upd_heap]; [apply (cw_len _ W)|apply (cw_next _ W)| | | |apply (cw_rt _ W)].
  - intros j q Hj. destruct (cw_slot _ W _ _ Hj) as (y & Hy & Hok). exists y. by rewrite lookup_insert_ne by congruence.
  - intros j k q q' x x' Hj Hk Hx Hx'. eapply (cw_inj _ W); eauto.
  - unfold env_handles. cbn [app_envs heap upd_heap upd_rt]. rewrite (slot_handle_ext (heap st)); [apply (cw_handles _ W)|].
    intros q (j & Hj)%list_elem_of_lookup. destruct (cw_slot _ W _ _ Hj) as (y & Hy & _). by rewrite lookup_insert_ne by congruence.
Qed.

(** What an operation may rely on: the allocators return addresses that are not
    in use, the arrays of a request are not empty, and the thread of an
    application starts once, while it is loaded. *)
Definition op_env_ok (st : ctl) (op : ctl_op) : Prop :=
  match op with
  | OpLoad rq env => load_env_ok st env /\ (0 < length (rq_params rq))%nat
  | OpRun os p renv has_entry => exists i e,
      app_envs st !! i = Some (Some p) /\ heap st !! p = Some e /\ dapp_ctx e = None /\ 0 <= io_queue_size e /\
      register_env_ok (rt st) renv (io_queue_size e)
  | OpUnload app_id env => True
  end.

(** An operation that the code deals with: a library that can be opened and a
    thread that can be started, an entry point, a slot number of the table, a
    thread that can be joined and a library that can be closed. *)
Definition op_handled (op : ctl_op (C := C) (M := M)) : Prop :=
  match op with
  | OpLoad rq env => is_Some (le_handle env) /\ le_pthread_create env = 0
  | OpRun os p renv has_entry => has_entry = true
  | OpUnload app_id env => 0 <= app_id < Z.of_nat MAX_NUM_JRTC_APPS /\ env = unload_fine
  end.

#[global] Instance op_handled_dec op : Decision (op_handled op).
Proof. destruct op; cbn; apply _. Defined.

Definition op_ok (st : ctl) (op : ctl_op) : Prop := op_env_ok st op /\ op_handled op.

(** What happens at the others: the error path of [load_app] frees twice; the
    thread of a library without entry point closes it, though the application
    stays in its slot; a slot number outside the table is read; the process is
    aborted. *)
Definition op_breaks (st : ctl) (op : ctl_op) : Prop :=
  ~ op_handled op /\
  match op with
  | OpLoad rq env => ctl_exec true st op = Fault DoubleFree
  | OpRun os p renv has_entry => exists st' e ev, heap st !! p = Some e /\ app_envs st' = app_envs st /\
      handles st ≡ₚ app_handle e :: handles st' /\ ctl_exec true st op = Ret (st', ev)
  | OpUnload app_id env =>
      if decide (0 <= app_id < Z.of_nat MAX_NUM_JRTC_APPS) then ctl_exec true st op = Fault Aborted
      else ctl_exec true st op = Fault OutOfBounds
  end.

Fixpoint ops_env_ok (st : ctl) (ops : list ctl_op) : Prop :=
  match ops with
  | [] => True
  | op :: ops => op_env_ok st op /\ forall st' ev, ctl_exec true st op = Ret (st', ev) -> ops_env_ok st' ops
  end.

Fixpoint ops_ok (st : ctl) (ops : list ctl_op) : Prop :=
  match ops with
  | [] => True
  | op :: ops => op_ok st op /\ forall st' ev, ctl_exec true st op = Ret (st', ev) -> ops_ok st' ops
  end.

(** Loading, on every path. *)
Lemma load_cases st rq env : ctl_wf st -> load_env_ok st env -> (0 < length (rq_params rq))%nat ->
  (exists st' res ev, load_app st rq env = Ret (st', res, ev) /\ ctl_wf st') \/
  (~ op_handled (OpLoad rq env) /\ load_app st rq env = Fault DoubleFree).
Proof.
  intros W Hok Hp.
  destruct (bool_decide (rq_app rq = None) || (rq_app_size rq =? 0)) eqn:Eg.
  { left. exists st, (-1), []. unfold load_app. by rewrite Eg. }
  destruct (is_app_loaded_spec st rq W Hp) as (b & Eb & Hb). destruct b.
  { left. exists st, (-1), []. unfold load_app. by rewrite Eg, Eb. }
  destruct (le_calloc env) as [p|] eqn:Ec.
  2:{ left. exists st, (-1), []. unfold load_app. rewrite Eg, Eb. cbn [mbind outcome_bind]. by rewrite Ec. }
  apply orb_false_iff in Eg as Eg'. destruct Eg' as [Eg1 Eg2].
  assert (Hrq : valid_request rq).
  { split_and!; [|by apply Z.eqb_neq|done]. by destruct (rq_app rq); [eexists|]. }
  assert (Hnl : forall e, loaded st e -> same_app_as rq e = false).
  { intros e He. destruct (same_app_as rq e) eqn:Es; [|done]. by rewrite (proj2 Hb) by eauto. }
  destruct (reserve_new_env st p W) as [(i & Hi & Hs & E)|[Hall E]].
  - assert (Hfree : has_free_slot st) by (by exists i).
    destruct (le_handle env) as [h|] eqn:Eh; [destruct (Z.eqb_spec (le_pthread_create env) 0) as [Ep|Ep]|].
    + left. destruct (load_app_facts st rq env p h W Hok Hrq Hnl Hfree Ec Eh Ep) as (st' & k & El & W' & _). eauto.
    + right. split; [by intros [_ ?]|]. apply (load_app_double_free_facts st rq env p); auto.
    + right. split; [intros [[? ?] _]; congruence|]. apply (load_app_double_free_facts st rq env p); auto.
  - left. eexists _, (-1), []. unfold load_app. rewrite Eg, Eb. cbn [mbind outcome_bind]. rewrite Ec, E. cbn. split; [done|].
    apply unused_env_wf; [done|by apply Hok].
Qed.

(** A request that is refused before the library is opened is refused whatever
    opening it would give. *)
Lemma load_refused_same st rq env : ctl_wf st -> load_env_ok st env -> (0 < length (rq_params rq))%nat ->
  ~ op_handled (OpLoad rq env) ->
  load_app st rq env = Fault DoubleFree \/ load_app st rq env = load_app st rq (mk_load_env (le_calloc env) (Some 0%nat) 0).
Proof.
  intros W Hok Hp Hn. destruct (bool_decide (rq_app rq = None) || (rq_app_size rq =? 0)) eqn:Eg.
  { right. unfold load_app. by rewrite Eg. }
  destruct (is_app_loaded_spec st rq W Hp) as (b & Eb & Hb). destruct b.
  { right. unfold load_app. by rewrite Eg, Eb. }
  destruct (le_calloc env) as [p|] eqn:Ec.
  2:{ right. unfold load_app. rewrite Eg, Eb. cbn [mbind outcome_bind le_calloc]. by rewrite Ec. }
  destruct (reserve_new_env st p W) as [(i & Hi & Hs & E)|[Hall E]].
  2:{ right. unfold load_app. rewrite Eg, Eb. cbn [mbind outcome_bind le_calloc]. by rewrite Ec, E. }
  left. apply orb_false_iff in Eg as [Eg1 Eg2]. apply (load_app_double_free_facts st rq env p); try done.
  - split_and!; [|by apply Z.eqb_neq|done]. by destruct (rq_app rq); [eexists|].
  - intros e He. destruct (same_app_as rq e) eqn:Es; [|done]. by rewrite (proj2 Hb) by eauto.
  - by exists i.
  - cbn in Hn. destruct (le_handle env) as [h|]; [right|by left]. intros Ez. apply Hn. by split.
Qed.

Lemma load_app_wf st rq env : ctl_wf st -> load_env_ok st env -> (0 < length (rq_params rq))%nat ->
  is_Some (le_handle env) -> le_pthread_create env = 0 ->
  exists st' res ev, load_app st rq env = Ret (st', res, ev) /\ ctl_wf st'.
Proof. intros W H1 H2 H3 H4. destruct (load_cases st rq env W H1 H2) as [?|[Hn _]]; [done|]. by destruct Hn. Qed.

(** The thread of a library without entry point. *)
Lemma run_without_entry os st i p e renv : ctl_wf st -> app_envs st !! i = Some (Some p) -> heap st !! p = Some e ->
  0 <= io_queue_size e -> register_env_ok (rt st) renv (io_queue_size e) ->
  exists st' ev, run_app os st p renv false = Ret (st', ev) /\ app_envs st' = app_envs st /\ handles st ≡ₚ app_handle e :: handles st'.
Proof.
  intros W Hi He Hq Hr. unfold run_app. rewrite (deref_Some _ _ _ He). cbn [mbind outcome_bind].
  destruct (register_app_facts (rt st) renv (io_queue_size e) (cw_rt _ W) Hq Hr) as (r & d & ev & -> & _). cbn [mbind outcome_bind].
  destruct (handles_of_slot st i p e W Hi He) as (l & Hl & _).
  match goal with |- context [dlclose ?s ?h] => destruct (dlclose_open s h l Hl) as (l' & -> & Hl') end.
  cbn [mbind outcome_bind]. eexists _, _. split; [reflexivity|]. split; [done|]. cbn. by rewrite <- Hl'.
Qed.

Lemma unload_aborts st id env : ctl_wf st -> 0 <= id < Z.of_nat MAX_NUM_JRTC_APPS -> env <> unload_fine ->
  unload_app st id env = Ret (st, -1, []) \/ unload_app st id env = Fault Aborted.
Proof.
  intros W Hid Hne. unfold unload_app. rewrite (proj2 (Z.ltb_ge _ _)), (proj2 (Z.leb_gt _ _)) by lia. cbn [orb].
  destruct (lookup_lt_is_Some_2 (app_envs st) (Z.to_nat id)) as [[p|] Hs]; [rewrite (cw_len _ W); lia| |];
    rewrite (array_get_Some _ _ _ Hs); cbn [mbind outcome_bind]; [right|by left].
  destruct (cw_slot _ W _ _ Hs) as (e & He & _). rewrite (deref_Some _ _ _ He). cbn [mbind outcome_bind].
  destruct env as [j d]. cbn [ue_join ue_dlclose]. destruct (Z.eqb_spec j 0) as [->|]; [|done]. cbn [negb].
  destruct (handles_of_slot st _ p e W Hs He) as (l & Hl & _).
  match goal with |- context [dlclose ?s ?h] => destruct (dlclose_open s h l Hl) as (l' & -> & _) end. cbn [mbind outcome_bind].
  by rewrite (proj2 (Z.eqb_neq _ _)) by (intros ->; by apply Hne).
Qed.

Lemma run_breaks st os p renv : ctl_wf st -> op_env_ok st (OpRun os p renv false) -> op_breaks st (OpRun os p renv false).
Proof.
  intros W (i & e & Hi & He & Hd & Hq & Hr). split; [done|]. cbn [ctl_exec].
  destruct (run_without_entry os st i p e renv W Hi He Hq Hr) as (st' & ev & -> & Ha & Hh). eauto 10.
Qed.

(** One operation, on every path. *)
Lemma ctl_exec_cases st op : ctl_wf st -> op_env_ok st op ->
  (exists st' ev, ctl_exec true st op = Ret (st', ev) /\ ctl_wf st') \/ op_breaks st op.
Proof.
  intros W. destruct op as [rq env|os p renv entry|id env]; unfold op_breaks; cbn [op_env_ok ctl_exec].
  - intros [H1 H2]. destruct (load_cases st rq env W H1 H2) as [(st' & res & ev & -> & W')|[Hn ->]]; [left; cbn; eauto|by right].
  - intros (i & e & Hi & He & Hd & Hq & Hr). destruct entry; [left|right].
    + destruct (run_app_facts os st i p e renv W Hi He Hd Hq Hr) as (st' & ev & -> & W' & _). eauto.
    + apply run_breaks; [done|]. by exists i, e.
  - intros _. destruct (decide (0 <= id < Z.of_nat MAX_NUM_JRTC_APPS)) as [Hid|Hid].
    2:{ right. split; [by intros [? _]|]. unfold unload_app. destruct (Z.ltb_spec id 0); [done|]. by rewrite (proj2 (Z.leb_le _ _)) by lia. }
    destruct (decide (env = unload_fine)) as [->|Hne].
    + left. destruct (lookup_lt_is_Some_2 (app_envs st) (Z.to_nat id)) as [[p|] Hs]; [rewrite (cw_len _ W); lia| |].
      * destruct (cw_slot _ W _ _ Hs) as (e & He & _).
        destruct (unload_facts st (Z.to_nat id) p e W Hs He) as (st' & ev & E & W' & _).
        rewrite Z2Nat.id in E by lia. rewrite E. cbn [mbind outcome_bind]. eauto.
      * exists st, []. unfold unload_app. rewrite (proj2 (Z.ltb_ge _ _)), (proj2 (Z.leb_gt _ _)) by lia. cbn [orb].
        by rewrite (array_get_Some _ _ _ Hs).
    + destruct (unload_aborts st id env W Hid Hne) as [-> | ->]; [left; cbn; eauto|right]. split; [by intros [_ ?]|done].
Qed.

Lemma ctl_exec_wf st op : ctl_wf st -> op_ok st op -> exists st' ev, ctl_exec true st op = Ret (st', ev) /\ ctl_wf st'.
Proof. intros W [He Hh]. destruct (ctl_exec_cases st op W He) as [?|[Hn _]]; [done|by destruct Hn]. Qed.

Lemma serve_wf ops st : ctl_wf st -> ops_ok st ops -> exists st' ev, serve true st ops = Ret (st', ev) /\ ctl_wf st'.
Proof.
  revert st. induction ops as [|op ops IH]; intros st W; cbn [serve ops_ok]; [eauto|]. intros [Hop Hops].
  destruct (ctl_exec_wf st op W Hop) as (st1 & ev1 & E & W1). rewrite E. cbn [mbind outcome_bind].
  destruct (IH st1 W1 (Hops _ _ E)) as (st2 & ev2 & -> & W2). cbn. eauto.
Qed.


(** ** start_jrtc *)

Variable set_config : cstring -> outcome (Z * jrtc_config * logger_state * jrtc_logging_level).
Variable config_file : cstring.

(** Replacing the router of a controller without applications. *)
Definition no_apps (st : ctl) : Prop :=
  app_envs st = replicate MAX_NUM_JRTC_APPS None /\ (next_available_app_env st < MAX_NUM_JRTC_APPS)%nat.

Lemma no_apps_wf st r : no_apps st -> router_wf r -> ctl_wf (upd_rt st r).
Proof.
  intros [Ha Hn] Wr. constructor; cbn [app_envs next_available_app_env heap handles rt upd_rt]; try done.
  - rewrite Ha. apply length_replicate.
  - intros i p. rewrite Ha, lookup_replicate. by intros [? _].
  - intros i j p p' e e'. rewrite Ha, lookup_replicate. by intros [? _].
  - unfold env_handles. cbn [app_envs heap upd_heap upd_rt]. rewrite Ha. apply submseteq_nil_l.
Qed.

Lemma count_app p ev ev' : count p (ev ++ ev') = (count p ev + count p ev')%nat.
Proof. induction ev as [|e ev IH]; cbn; [done|]. rewrite IH. lia. Qed.

Lemma count_ctl p (ev : list ctl_event) : (forall e, p (Ctl e) = false) -> count p (Ctl <$> ev) = 0%nat.
Proof. intros H. induction ev as [|e ev IH]; [done|]. rewrite fmap_cons. cbn. by rewrite H. Qed.

(** What the environment of [start_jrtc] must provide for a run without errors. *)
Record start_ok (env : start_env) (st : ctl) (h : nat) (r : jrtc_router_ctx B T C R M) : Prop := {
  so_signal : se_signal_ok env = true;
  so_rest : se_rest_create env = Some h;
  so_malloc : se_malloc_ok env = true;
  so_early : se_early env = [];
  so_init : init_env_ok (se_router env);
  so_router : (jrtc_router_init (se_router env)).2 = Some r;
  so_apps : no_apps st;
  so_load : load_env_ok st (se_load env) /\ is_Some (le_handle (se_load env)) /\ le_pthread_create (se_load env) = 0;
  so_ops : forall st1 res ev,
    load_default_north_io_app (upd_rt st r) (se_app_path env) (read_file (se_file env) (north_io_path (se_app_path env))).1
      (se_load env) = Ret (st1, res, ev) -> ops_ok st1 (se_ops env);
  so_join : forall j, se_join env j = unload_fine
}.

Lemma load_default_wf (st : ctl) path file env : ctl_wf st -> load_env_ok st env -> is_Some (le_handle env) ->
  le_pthread_create env = 0 ->
  exists st' res ev, load_default_north_io_app st path file env = Ret (st', res, ev) /\ ctl_wf st'.
Proof.
  intros W H1 H2 H3. unfold load_default_north_io_app. destruct file as [[data size]|]; [|eauto].
  apply load_app_wf; try done. cbn. lia.
Qed.

Lemma start_jrtc_runs (env : start_env) (st : ctl) h cfg lg jl :
  se_signal_ok env = true -> set_config config_file = Ret (0, cfg, lg, jl) -> se_rest_create env = Some h ->
  se_malloc_ok env = true -> start_jrtc set_config config_file env st = run_jrtc env cfg h st.
Proof. intros Es Ec Eh Em. unfold start_jrtc. by rewrite Es, Ec, Eh, Em. Qed.

(** The run when no step fails. *)
Lemma run_jrtc_run (env : start_env) (st : ctl) h cfg ires live r file ev1 st1 res ev2 st2 ev3 st3 res' ev4 :
  se_early env = [] -> jrtc_router_init (se_router env) = (ires, live, Some r) ->
  read_file (se_file env) (north_io_path (se_app_path env)) = (file, ev1) ->
  load_default_north_io_app (upd_rt st r) (se_app_path env) file (se_load env) = Ret (st1, res, ev2) ->
  serve true st1 (se_ops env) = Ret (st2, ev3) ->
  unload_loop MAX_NUM_JRTC_APPS 0 st2 res (se_join env) = Ret (st3, res', ev4) ->
  run_jrtc env cfg h st = Ret (res', st3,
    [SemInit; RestCreate h; ArgsMalloc; RestThread h (u32 (port cfg)); RouterUp true] ++
    (ev1 ++ (Ctl <$> ev2) ++ match file with Some _ => [Free] | None => [] end ++ (Ctl <$> ev3)) ++
    [SemWait; RestStop h] ++ (Ctl <$> ev4) ++ [RouterStop; SemDestroy; ArgsFree]).
Proof.
  intros Ee Er Ef El Esv Eu. unfold run_jrtc. rewrite Ee.
  change (serve false st []) with (Ret (st, []) : outcome (ctl * list ctl_event)).
  rewrite Er, Ef. unfold mbind, outcome_bind. rewrite El, bool_decide_true by done. rewrite Esv, Eu.
  by rewrite fmap_nil, app_nil_l, <- !app_assoc.
Qed.

Lemma all_slots_free (st : ctl) : ctl_wf st -> (forall j, (j < MAX_NUM_JRTC_APPS)%nat -> app_envs st !! j = Some None) ->
  app_envs st = replicate MAX_NUM_JRTC_APPS None.
Proof.
  intros W H. apply list_eq. intros j. destruct (decide (j < MAX_NUM_JRTC_APPS)%nat) as [Hlt|Hge].
  - rewrite H by lia. symmetry. by apply lookup_replicate_2.
  - rewrite !lookup_ge_None_2; [done|rewrite length_replicate; lia|rewrite (cw_len _ W); lia].
Qed.


(** The early returns of [start_jrtc], in the order of its checks: 1 when
    the signal handler cannot be set, -2 when the configuration cannot be read,
    -1 without a REST server or without memory for its arguments. No
    application is loaded and the router is not started; the semaphore stays
    initialised, and in the last case the REST server stays allocated. *)
Theorem start_jrtc_errors (env : start_env) (st : ctl) :
  (se_signal_ok env = false -> start_jrtc set_config config_file env st = Ret (1, st, [])) /\
  (forall res cfg lg jl, se_signal_ok env = true -> set_config config_file = Ret (res, cfg, lg, jl) ->
     (res <> 0 -> start_jrtc set_config config_file env st = Ret (-2, st, [SemInit])) /\
     (res = 0 -> se_rest_create env = None -> start_jrtc set_config config_file env st = Ret (-1, st, [SemInit])) /\
     (forall h, res = 0 -> se_rest_create env = Some h -> se_malloc_ok env = false ->
        start_jrtc set_config config_file env st = Ret (-1, st, [SemInit; RestCreate h]))).
Proof.
  unfold start_jrtc. split; [by intros ->|]. intros res cfg lg jl -> ->. cbn [negb mbind outcome_bind].
  split_and!.
  - intros Hr. by rewrite (proj2 (Z.eqb_neq _ _)).
  - intros -> ->. done.
  - intros h -> -> ->. done.
Qed.

(** An application whose thread runs while the router is not there. *)
Lemma serve_down (st : ctl) rq lenv p h os renv entry ops :
  ctl_wf st -> load_env_ok st lenv -> valid_request rq -> (forall e, loaded st e -> same_app_as rq e = false) ->
  has_free_slot st -> le_calloc lenv = Some p -> le_handle lenv = Some h -> le_pthread_create lenv = 0 ->
  rq_ioq_size rq <= JRTC_ROUTER_MAX_APP_QUEUE_SIZE ->
  serve false st (OpLoad rq lenv :: OpRun os p renv entry :: ops) = Fault NullDeref.
Proof.
  intros W H1 H2 H3 H4 H5 H6 H7 Hq.
  destruct (load_app_facts st rq lenv p h W H1 H2 H3 H4 H5 H6 H7) as (st' & i & E & _ & _ & _ & Hp & _).
  cbn [serve ctl_exec]. rewrite E. cbn [mbind outcome_bind]. rewrite (deref_Some _ _ _ Hp). cbn [mbind outcome_bind].
  by rewrite (proj2 (Z.ltb_ge _ _)) by (cbn; lia).
Qed.

(** An application that is loaded through the REST server before the
    router is initialised registers with a router that is not there: the
    server is started first, and nothing holds its requests back. *)
Theorem start_jrtc_early_request (env : start_env) (st : ctl) hr cfg lg jl rq lenv p h os renv entry ops :
  se_signal_ok env = true -> set_config config_file = Ret (0, cfg, lg, jl) -> se_rest_create env = Some hr ->
  se_malloc_ok env = true -> se_early env = OpLoad rq lenv :: OpRun os p renv entry :: ops ->
  ctl_wf st -> load_env_ok st lenv -> valid_request rq -> (forall e, loaded st e -> same_app_as rq e = false) ->
  has_free_slot st -> le_calloc lenv = Some p -> le_handle lenv = Some h -> le_pthread_create lenv = 0 ->
  rq_ioq_size rq <= JRTC_ROUTER_MAX_APP_QUEUE_SIZE ->
  start_jrtc set_config config_file env st = Fault NullDeref.
Proof.
  intros Es Ec Eh Em Ee W H1 H2 H3 H4 H5 H6 H7 Hq. rewrite (start_jrtc_runs env st hr cfg lg jl) by done.
  unfold run_jrtc. rewrite Ee, (serve_down st rq lenv p h) by done. done.
Qed.

(** [start_jrtc] goes on when the router cannot be initialised: the thread
    of the default application then registers with a router that is not
    there. *)
Theorem start_jrtc_without_router (env : start_env) (st : ctl) hr cfg lg jl p h os renv entry ops :
  se_signal_ok env = true -> set_config config_file = Ret (0, cfg, lg, jl) -> se_rest_create env = Some hr ->
  se_malloc_ok env = true -> se_early env = [] -> (jrtc_router_init (se_router env)).2 = (None : option (jrtc_router_ctx B T C R M)) ->
  se_ops env = OpRun os p renv entry :: ops ->
  ctl_wf st -> no_apps st -> load_env_ok st (se_load env) ->
  le_calloc (se_load env) = Some p -> le_handle (se_load env) = Some h -> le_pthread_create (se_load env) = 0 ->
  fe_fopen (se_file env) = true -> fe_calloc (se_file env) = true -> fe_ftell (se_file env) = Z.of_nat (length (fe_fread (se_file env))) ->
  fe_fread (se_file env) <> [] ->
  start_jrtc set_config config_file env st = Fault NullDeref.
Proof.
  intros Es Ec Eh Em Ee Er Eo W [Ha Hn] Hl E1 E2 E3 F1 F2 F3 F4. rewrite (start_jrtc_runs env st hr cfg lg jl) by done.
  unfold run_jrtc. rewrite Ee. cbn [mbind outcome_bind serve]. destruct (jrtc_router_init (se_router env)) as [[ires live] r'].
  cbn in Er. subst r'. rewrite bool_decide_false by (by intros [? ?]).
  unfold read_file. rewrite F1, F2, F3, Z.eqb_refl. cbn [negb].
  rewrite (proj2 (Z.eqb_neq _ _)) by lia. cbn [load_default_north_io_app].
  set (rq := north_io_request _ _ _).
  destruct (load_app_facts st rq (se_load env) p h) as (st' & i & E & _ & _ & _ & Hp & _); try done.
  - split_and!; [done| |cbn; lia]. cbn. destruct (fe_fread (se_file env)); [done|cbn; lia].
  - exists 0%nat. by rewrite Ha.
  - rewrite E. cbn [mbind outcome_bind]. rewrite Eo. cbn [serve ctl_exec].
    rewrite (deref_Some _ _ _ Hp). done.
Qed.

(** ** The command line *)

(** The ways to name the configuration file [f], each as the words it takes. *)
Inductive config_arg (f : list ascii) : list (list ascii) -> Prop :=
| arg_long : config_arg f [chars "--config=" ++ f]
| arg_long_next : config_arg f [chars "--config"; f]
| arg_short_next : config_arg f [chars "-c"; f]
| arg_short : f <> [] -> config_arg f [chars "-c" ++ f].

Lemma getopt_config_arg f ws rest : config_arg f ws -> getopt (ws ++ rest) = OptConfig f :: getopt rest.
Proof. intros []; [done|done|done|]. by destruct f. Qed.

(** An option that [main] does not know. *)
Definition unknown_option (w : list ascii) : Prop :=
  exists c t, w = "-"%char :: c :: t /\ c <> "c"%char /\
    (c = "-"%char -> t <> [] /\ is_prefix (split_eq t).1 (chars "config") = false).

Lemma getopt_unknown w rest : unknown_option w -> exists opts, getopt (w :: rest) = OptUnknown :: opts.
Proof.
  intros (c & t & -> & Hc & Hl). destruct (decide (c = "-"%char)) as [->|Hd].
  - destruct (Hl eq_refl) as [Ht Hp]. destruct t as [|x t]; [done|]. cbn [getopt].
    destruct (split_eq (x :: t)) as [n v]. cbn [fst] in Hp. rewrite Hp. eauto.
  - destruct c as [b0 b1 b2 b3 b4 b5 b6 b7].
    destruct b0, b1, b2, b3, b4, b5, b6, b7; first [congruence | cbn; eauto].
Qed.

Lemma main_loop_args cfg fs wss rest : Forall2 config_arg fs wss ->
  main_loop cfg (getopt (List.concat wss ++ rest)) =
    main_loop (match last fs with Some f => Some f | None => cfg end) (getopt rest).
Proof.
  intros H. revert cfg. induction H as [|f ws fs wss Hf H IH]; intros cfg; [done|].
  cbn [List.concat]. rewrite <- app_assoc, (getopt_config_arg f ws _ Hf). cbn [main_loop]. rewrite IH.
  by rewrite last_cons; destruct (last fs).
Qed.

(** The program starts with the file its last [-c] or [--config] names,
    in whichever of the four forms they are written, and without a file when
    there is none; at the first option it does not know it returns -1 before
    anything has been started. *)
Theorem main_spec fs wss (env : start_env) (st : ctl) :
  Forall2 config_arg fs wss ->
  main set_config (List.concat wss) env st = start_jrtc set_config (last fs) env st /\
  forall w rest, unknown_option w -> main set_config (List.concat wss ++ w :: rest) env st = Ret (-1, st, []).
Proof.
  intros H. unfold main. split.
  - rewrite <- (app_nil_r (List.concat wss)), (main_loop_args None fs wss [] H). by destruct (last fs).
  - intros w rest Hw. rewrite (main_loop_args None fs wss _ H).
    by destruct (getopt_unknown w rest Hw) as [opts ->].
Qed.
End Facts.
