(* ===== verification/ProcessExample.v ===== *)
(** * A run of the process

    A complete run over the reference libraries: the configuration is read by
    the model of the reader, the default application is loaded and started, a
    second application is loaded and unloaded through the REST server, and the
    process stops. *)
From S2P Require Import Prelude StreamId Ext Router RouterInv RouterApps RouterInit RouterExample Sched Logging Config ConfigFacts Controller ControllerFacts ControllerExample Process ProcessFacts.
From Stdlib Require Import Ascii.
Import Reference.

#[local] Instance signed_char_p : CharSign := true.

Abbreviation ex_op := (ctl_op (C := list (nat * nat)) (M := Z * list nat)).

Definition ex_set_config (f : cstring) : outcome (Z * jrtc_config * logger_state * jrtc_logging_level) :=
  set_config_values ex_getenv (fun _ => true) true 64 32 32 (chars "/var/run/jbpf") (chars "jbpf") 100
    (match f with
     | None => NoFilename
     | Some n => if decide (n = chars "jrtc.yaml") then Events (Some <$> sample_yaml) else CannotOpen
     end) logger_init JRTC_DEBUG_LEVEL.

(** The default application at address 70, with library 80; its thread asks for a queue of
    1000 entries. *)
Definition ex_file : file_env := mk_file_env true 3 true [127; 69; 76].
Definition ex_default : load_env := mk_load_env (Some 70%nat) (Some 80%nat) 0.
Definition ex_default_reg : register_env (list (nat * nat)) (Z * list nat) :=
  mk_register_env (Some 11%nat) true (Some (1000, [])) (Some []) (Some []).

Definition ex_ops : list ex_op := [
  OpRun (fun _ => 0) 70 ex_default_reg true;
  OpLoad ex_load_req ex_load;
  OpRun (fun _ => 0) 50 (ex_register 12) true;
  OpUnload 1 unload_fine].

Definition ex_start (early ops : list ex_op) (init : init_env (T := list (list Z * nat))) :
    start_env (T := list (list Z * nat)) (C := list (nat * nat)) (M := Z * list nat) :=
  mk_start_env true (Some 5%nat) true early init None ex_file ex_default ops (fun _ => unload_fine).

Lemma ex_config_ok : exists cfg lg jl, ex_set_config (Some (chars "jrtc.yaml")) = Ret (0, cfg, lg, jl).
Proof. do 3 eexists. vm_compute. reflexivity. Qed.

Lemma c0_no_apps : no_apps c0.
Proof. split; [reflexivity|cbn; unfold MAX_NUM_JRTC_APPS; lia]. Qed.

(** The states of the run, up to the unloading at the end. *)
Definition p1 : ex_ctl :=
  (ret_or (c0, 0, []) (load_default_north_io_app (upd_rt c0 r0) None (read_file ex_file (north_io_path None)).1 ex_default)).1.1.
Definition p2 : ex_ctl := (ret_or (p1, []) (ctl_exec true p1 (OpRun (fun _ => 0) 70 ex_default_reg true))).1.
Definition p3 : ex_ctl := (ret_or (p2, []) (ctl_exec true p2 (OpLoad ex_load_req ex_load))).1.

Lemma p1_slot : app_envs p1 !! 0%nat = Some (Some 70%nat).
Proof. vm_compute. reflexivity. Qed.
Lemma p1_env : exists e, heap p1 !! 70%nat = Some e /\ dapp_ctx e = None /\ io_queue_size e = 1000.
Proof. eexists. split; [vm_compute; reflexivity|done]. Qed.
Lemma p1_dapps : dapps (rt p1) = ∅.
Proof. vm_compute. reflexivity. Qed.
Lemma p2_heap : heap p2 !! 50%nat = None.
Proof. vm_compute. reflexivity. Qed.
Lemma p3_slot : app_envs p3 !! 1%nat = Some (Some 50%nat).
Proof. vm_compute. reflexivity. Qed.
Lemma p3_env : exists e, heap p3 !! 50%nat = Some e /\ dapp_ctx e = None /\ io_queue_size e = 3.
Proof. eexists. split; [vm_compute; reflexivity|done]. Qed.
Lemma p3_dapps : dapps (rt p3) !! 12%nat = None.
Proof. vm_compute. reflexivity. Qed.

Lemma p1_load : exists ev, load_default_north_io_app (upd_rt c0 r0) None (read_file ex_file (north_io_path None)).1 ex_default = Ret (p1, 0, ev).
Proof. eexists. vm_compute. reflexivity. Qed.
Lemma p1_run : exists ev, ctl_exec true p1 (OpRun (fun _ => 0) 70 ex_default_reg true) = Ret (p2, ev).
Proof. eexists. vm_compute. reflexivity. Qed.
Lemma p2_load : exists ev, ctl_exec true p2 (OpLoad ex_load_req ex_load) = Ret (p3, ev).
Proof. eexists. vm_compute. reflexivity. Qed.

Lemma ex_ops_ok : ops_ok p1 ex_ops.
Proof.
  split.
  { split; [|reflexivity]. destruct p1_env as (e & He & Hd & Hq). exists 0%nat, e. rewrite Hq.
    split_and!; [exact p1_slot|exact He|exact Hd|lia|]. constructor; intros ? [= <-]; [by rewrite p1_dapps|done..]. }
  intros st ev E. destruct p1_run as [ev' E']. rewrite E' in E. apply (f_equal (ret_or (p1, []))) in E.
  apply (f_equal fst) in E. cbn [ret_or fst] in E. subst st. clear E' ev ev'.
  split.
  { split; [split; [intros q [= <-]; exact p2_heap|cbn; lia]|split; [by eexists|reflexivity]]. }
  intros st ev E. destruct p2_load as [ev' E']. rewrite E' in E. apply (f_equal (ret_or (p1, []))) in E.
  apply (f_equal fst) in E. cbn [ret_or fst] in E. subst st. clear E' ev ev'.
  split.
  { split; [|reflexivity]. destruct p3_env as (e & He & Hd & Hq). exists 1%nat, e. rewrite Hq.
    split_and!; [exact p3_slot|exact He|exact Hd|lia|]. apply ex_register_ok. exact p3_dapps. }
  intros st ev _. split; [|done]. split; [exact I|]. split; [unfold MAX_NUM_JRTC_APPS; lia|reflexivity].
Qed.

Lemma ops_ok_env (st : ex_ctl) ops : ops_ok st ops -> ops_env_ok st ops.
Proof. revert st. induction ops as [|op ops IH]; intros st; [done|]. intros [[H1 _] H2]. split; [exact H1|]. eauto. Qed.

Lemma ex_start_ok : start_ok (ex_start [] ex_ops ex_init) c0 5 r0.
Proof.
  constructor; try reflexivity.
  - exact ex_init_ok.
  - exact c0_no_apps.
  - split_and!; [|by eexists|reflexivity]. by intros p [= <-].
  - intros st1 res ev E. destruct p1_load as [ev' E'].
    change (load_default_north_io_app (upd_rt c0 r0) None (read_file ex_file (north_io_path None)).1 ex_default = Ret (st1, res, ev)) in E.
    rewrite E' in E. apply (f_equal (ret_or (c0, 0, []))) in E. apply (f_equal (fst ∘ fst)) in E.
    cbn [ret_or fst compose] in E. subst st1. exact ex_ops_ok.
Qed.

(** ** Witnesses *)

Lemma files_released_witness :
  (exists buf n ev, read_file ex_file (chars "lib.so") = (Some (buf, n), ev) /\ count is_fopen ev = count is_fclose ev) /\
  (exists ev, _jrtc_load_app_from_memory (mk_mem_env 9 0 3 (fun p => if decide (p = chars "/proc/self/fd/9") then Some 4%nat else None))
     [127; 69; 76; 0] 3 = Ret (Some 4%nat, ev) /\ count is_memfd ev = count is_close ev).
Proof.
  destruct (files_released ex_file
    (mk_mem_env 9 0 3 (fun p => if decide (p = chars "/proc/self/fd/9") then Some 4%nat else None))
    (chars "lib.so") [127; 69; 76; 0] 3 ltac:(cbn; lia)) as [H1 (h & ev & E & H2 & _)]. split.
  - do 3 eexists. split; [reflexivity|]. apply H1.
  - exists ev. split; [|exact H2]. rewrite E. revert E. vm_compute. by intros [= <- <-].
Defined.

Lemma p1_wf : ctl_wf p1.
Proof.
  destruct (load_default_wf (upd_rt c0 r0) None (read_file ex_file (north_io_path None)).1 ex_default)
    as (st & res & ev & E & W).
  - apply no_apps_wf; [exact c0_no_apps|apply r0_inv].
  - by intros p [= <-].
  - by eexists.
  - reflexivity.
  - destruct p1_load as [ev' E']. rewrite E' in E. apply (f_equal (ret_or (c0, 0, []))) in E.
    apply (f_equal (fst ∘ fst)) in E. cbn [ret_or fst compose] in E. subst st. exact W.
Qed.



Lemma start_jrtc_errors_witness :
  start_jrtc ex_set_config (Some (chars "none.yaml")) (ex_start [] ex_ops ex_init) c0 = Ret (-2, c0, [SemInit]).
Proof.
  assert (Hc : exists cfg lg jl, ex_set_config (Some (chars "none.yaml")) = Ret (-1, cfg, lg, jl))
    by (do 3 eexists; vm_compute; reflexivity).
  destruct Hc as (cfg & lg & jl & Hc).
  apply (proj1 (proj2 (start_jrtc_errors ex_set_config (Some (chars "none.yaml")) (ex_start [] ex_ops ex_init) c0)
    (-1) cfg lg jl eq_refl Hc)). lia.
Defined.

(** The second application again, before the router is there. *)
Lemma start_jrtc_early_request_witness :
  start_jrtc ex_set_config None (ex_start [OpLoad ex_load_req ex_load; OpRun (fun _ => 0) 50 (ex_register 12) true] [] ex_init) c0 =
    Fault NullDeref.
Proof.
  assert (Hc : exists cfg lg jl, ex_set_config None = Ret (0, cfg, lg, jl)) by (do 3 eexists; vm_compute; reflexivity).
  destruct Hc as (cfg & lg & jl & Hc).
  refine (start_jrtc_early_request ex_set_config None
    (ex_start [OpLoad ex_load_req ex_load; OpRun (fun _ => 0) 50 (ex_register 12) true] [] ex_init) c0 5 cfg lg jl ex_load_req ex_load 50 60 (fun _ => 0) (ex_register 12) true []
    eq_refl Hc eq_refl eq_refl eq_refl c0_wf (ex_load_ok c0 eq_refl) ex_load_req_valid c0_none_loaded c0_free
    eq_refl eq_refl eq_refl _).
  cbn. unfold JRTC_ROUTER_MAX_APP_QUEUE_SIZE. lia.
Defined.

Lemma start_jrtc_without_router_witness :
  start_jrtc ex_set_config None (ex_start [] ex_ops (mk_init_env true false true true (Some []) true 0)) c0 = Fault NullDeref.
Proof.
  assert (Hc : exists cfg lg jl, ex_set_config None = Ret (0, cfg, lg, jl)) by (do 3 eexists; vm_compute; reflexivity).
  destruct Hc as (cfg & lg & jl & Hc).
  refine (start_jrtc_without_router ex_set_config None
    (ex_start [] ex_ops (mk_init_env true false true true (Some []) true 0)) c0 5 cfg lg jl 70 80 (fun _ => 0) ex_default_reg true (tail ex_ops)
    eq_refl Hc eq_refl eq_refl eq_refl eq_refl eq_refl c0_wf c0_no_apps _ eq_refl eq_refl eq_refl eq_refl eq_refl eq_refl _).
  - by intros p [= <-].
  - done.
Defined.

Lemma main_spec_witness :
  main ex_set_config [chars "--config"; chars "a.yaml"; chars "-cjrtc.yaml"] (ex_start [] ex_ops ex_init) c0 =
    start_jrtc ex_set_config (Some (chars "jrtc.yaml")) (ex_start [] ex_ops ex_init) c0 /\
  main ex_set_config [chars "-cjrtc.yaml"; chars "--port=1"] (ex_start [] ex_ops ex_init) c0 = Ret (-1, c0, []).
Proof.
  split.
  - refine (proj1 (main_spec ex_set_config [chars "a.yaml"; chars "jrtc.yaml"]
      [[chars "--config"; chars "a.yaml"]; [chars "-cjrtc.yaml"]] (ex_start [] ex_ops ex_init) c0 _)).
    repeat constructor; done.
  - refine (proj2 (main_spec ex_set_config [chars "jrtc.yaml"] [[chars "-cjrtc.yaml"]] (ex_start [] ex_ops ex_init) c0 _)
      (chars "--port=1") [] _).
    + repeat constructor; done.
    + exists "-"%char, (chars "port=1"). split; [reflexivity|]. by split.
Defined.
