(* ===== verification/PyLoader.v ===== *)
(** * The loader of Python applications

    [src/src/pythonapp_loader/jrtc_pythonapp_loader.c]: the library that runs a
    Python application in an interpreter of its own. The Python/C API is not
    part of this repository: the loader is a program over its calls, an
    inductive tree whose nodes are calls and whose branches are their answers.
    [PyLoaderFacts] checks these programs against the rules of the API. *)
From S2P Require Import Prelude StreamId Ext Router Sched Logging Controller.
From Stdlib Require Import Ascii.

Definition PYTHON_ENTRYPOINT : list ascii := chars "jrtc_start_app".

(** ** Calls

    Objects, thread states and blocks of memory are named by numbers; NULL is
    [None]. [Malloc s] is an allocation that is then filled with the string
    [s], by [strdup] or by [malloc] and [strncpy]. *)
Inductive pycall :=
| Malloc (s : list ascii)
| Free (p : nat)
| MutexLock
| MutexUnlock
| PySys_GetObject (name : list ascii)
| PyUnicode_DecodeFSDefault (s : list ascii)
| PyList_Append (l x : nat)
| PyImport_Import (name : nat)
| PyImport_ImportModule (name : list ascii)
| PyModule_GetDict (m : nat)
| PyDict_GetItemString (d : nat) (key : list ascii)
| PyDict_SetItemString (d : nat) (key : cstring) (v : nat)
| PyObject_GetAttrString (o : nat) (name : list ascii)
| PyCallable_Check (o : nat)
| PyCapsule_New
| PyTuple_Pack (o : nat)
| PyObject_CallObject (f a : nat)
| PyErr_Print
| PyErr_Occurred
| Py_DECREF (o : nat)
| PyThreadState_New (interp : nat)
| PyThreadState_Get
| PyThreadState_Swap (ts : nat)
| PyThreadState_Clear (ts : nat)
| PyThreadState_Delete (ts : nat)
| Py_IsInitialized
| Py_Initialize
| Py_NewInterpreter
| PyEval_ReleaseThread (ts : nat)
| PyEval_AcquireThread (ts : nat)
| Py_EndInterpreter (ts : nat).

Definition answer (c : pycall) : Type :=
  match c with
  | Malloc _ | PySys_GetObject _ | PyUnicode_DecodeFSDefault _ | PyImport_Import _ | PyImport_ImportModule _
  | PyDict_GetItemString _ _ | PyObject_GetAttrString _ _ | PyCapsule_New | PyTuple_Pack _
  | PyObject_CallObject _ _ | PyThreadState_New _ | Py_NewInterpreter => option nat
  | PyModule_GetDict _ | PyThreadState_Get => nat
  | PyList_Append _ _ | PyDict_SetItemString _ _ _ => Z
  | PyCallable_Check _ | PyErr_Occurred | Py_IsInitialized => bool
  | _ => unit
  end.

(** ** Programs *)

Inductive prog (A : Type) : Type :=
| done (a : A)
| call (c : pycall) (k : answer c -> prog A).
Arguments done {A} a.
Arguments call {A} c k.

#[global] Instance prog_ret : MRet prog := @done.
#[global] Instance prog_bind : MBind prog := fun A B f =>
  fix go p := match p with done a => f a | call c k => call c (fun x => go (k x)) end.

Definition do (c : pycall) : prog (answer c) := call c done.

(** [Py_XDECREF] and [free] of a pointer that may be NULL. *)
Definition Py_XDECREF (o : option nat) : prog unit := match o with Some o => do (Py_DECREF o) | None => done tt end.
Definition free_opt (p : option nat) : prog unit := match p with Some p => do (Free p) | None => done tt end.

(** ** Paths

    [strrchr(s, c)]: what precedes and what follows the last [c]. *)
Fixpoint split_last (c : ascii) (s : list ascii) : option (list ascii * list ascii) :=
  match s with
  | [] => None
  | x :: s =>
      match split_last c s with
      | Some (p, t) => Some (x :: p, t)
      | None => if decide (x = c) then Some ([], s) else None
      end
  end.

(** What the folder and the module name are, apart from the allocations. *)
Definition folder_of (file_path : list ascii) : list ascii :=
  match split_last "/" file_path with
  | Some ([], _) => chars "/"
  | Some (p, _) => p
  | None => chars "./"
  end.

Definition name_of (file_path : list ascii) : list ascii :=
  let file_name := match split_last "/" file_path with Some (_, t) => t | None => file_path end in
  match split_last "." file_name with
  | Some (p, t) => if decide (t = chars "py") then p else file_name
  | None => file_name
  end.

(** A string on the heap: its block and its content. *)
Abbreviation heap_string := (nat * list ascii)%type.

Definition strdup (s : list ascii) : prog (option heap_string) :=
  p ← do (Malloc s);
  done (match p with Some p => Some (p, s) | None => None end).

Definition get_folder (file_path : cstring) : prog (option heap_string) :=
  match file_path with
  | None => strdup (chars "./")
  | Some path =>
      folder ← strdup path;
      match folder with
      | None => done None
      | Some (p, _) =>
          match split_last "/" path with
          | Some ([], _) => done (Some (p, chars "/"))
          | Some (pre, _) => done (Some (p, pre))
          | None => do (Free p);; strdup (chars "./")
          end
      end
  end.

Definition get_file_name_without_py (file_path : cstring) : prog (option heap_string) :=
  match file_path with
  | None => done None
  | Some path =>
      let file_name := match split_last "/" path with Some (_, t) => t | None => path end in
      let name_length := match split_last "." file_name with
                         | Some (p, t) => if decide (t = chars "py") then length p else length file_name
                         | None => length file_name
                         end in
      strdup (take name_length file_name)
  end.

(** ** Modules *)

Definition import_python_module (python_path : cstring) : prog (option nat) :=
  match python_path with
  | None | Some [] => done None
  | Some path =>
      module_name ← get_file_name_without_py (Some path);
      match module_name with
      | None => done None
      | Some (mb, mname) =>
          folder ← get_folder (Some path);
          match folder with
          | None => do (Free mb);; done None
          | Some (fb, fname) =>
              sys_path ← do (PySys_GetObject (chars "path"));
              py_path ← do (PyUnicode_DecodeFSDefault fname);
              pModule ← match sys_path, py_path with
                        | Some sp, Some pp =>
                            do (PyList_Append sp pp);;
                            do (Py_DECREF pp);;
                            pName ← do (PyUnicode_DecodeFSDefault mname);
                            match pName with
                            | None => done None
                            | Some pn =>
                                pModule ← do (PyImport_Import pn);
                                do (Py_DECREF pn);;
                                match pModule with
                                | None => do PyErr_Print;; done None
                                | Some m => done (Some m)
                                end
                            end
                        | _, _ => done None
                        end;
              do (Free mb);;
              do (Free fb);;
              done pModule
          end
      end
  end.

(** ** Running the application *)

(** The variables the label [cleanup] sees. *)
Record cleanup_vars := mk_cleanup { pModule : option nat; pFunc : option nat; pArgs : option nat; pCapsule : option nat }.

(** From the import to the jump to [cleanup]. *)
Definition call_entry_point (script : cstring) : prog cleanup_vars :=
  m ← import_python_module script;
  match m with
  | None => do PyErr_Print;; done (mk_cleanup None None None None)
  | Some mo =>
      f ← do (PyObject_GetAttrString mo PYTHON_ENTRYPOINT);
      callable ← match f with Some fo => do (PyCallable_Check fo) | None => done false end;
      match f, callable with
      | Some fo, true =>
          c ← do PyCapsule_New;
          match c with
          | None => done (mk_cleanup m f None None)
          | Some co =>
              a ← do (PyTuple_Pack co);
              match a with
              | None => Py_XDECREF c;; done (mk_cleanup m f None c)
              | Some ao =>
                  do (PyObject_CallObject fo ao);;
                  err ← do PyErr_Occurred;
                  (if err : bool then do PyErr_Print else done tt);;
                  done (mk_cleanup m f a c)
              end
          end
      | _, _ => do PyErr_Print;; done (mk_cleanup m f None None)
      end
  end.

(** [args] is whether the argument is not NULL; [interp] is the interpreter. *)
Definition run_python_using_interpreter (script : cstring) (interp : option nat) (args : bool) : prog unit :=
  if negb args then done tt
  else
    ts ← match interp with
         | Some i => t ← do (PyThreadState_New i); done (match t with Some t => inr (Some t) | None => inl tt end)
         | None => done (inr None)
         end;
    match ts with
    | inl _ => done tt
    | inr ts =>
        main ← do PyThreadState_Get;
        (match ts with Some t => do (PyThreadState_Swap t) | None => done tt end);;
        v ← call_entry_point script;
        Py_XDECREF (pFunc v);;
        Py_XDECREF (pModule v);;
        Py_XDECREF (pArgs v);;
        Py_XDECREF (pCapsule v);;
        err ← do PyErr_Occurred;
        (if err : bool then do PyErr_Print else done tt);;
        match ts with
        | Some t => do (PyThreadState_Swap main);; do (PyThreadState_Clear t);; do (PyThreadState_Delete t)
        | None => done tt
        end
    end.

Definition run_subinterpreter (script : cstring) (interp : nat) (args : bool) : prog unit :=
  run_python_using_interpreter script (Some interp) args;;
  err ← do PyErr_Occurred;
  if err : bool then do PyErr_Print else done tt.

(** ** jrtc_start_app *)

(** The first loop over [app_modules]: whether all of them could be imported. *)
Fixpoint load_modules (mods : list cstring) : prog bool :=
  match mods with
  | [] | None :: _ => done true
  | Some path :: mods =>
      m ← import_python_module (Some path);
      match m with
      | None => done false
      | Some o => do (Py_DECREF o);; load_modules mods
      end
  end.

(** A round of the second loop, which enters a module into the dictionary
    [sys.modules]. *)
Definition inject_module (modules : nat) (path : list ascii) : prog unit :=
  name ← get_file_name_without_py (Some path);
  m ← import_python_module (Some path);
  match m with
  | None => free_opt (fst <$> name)
  | Some o =>
      res ← do (PyDict_SetItemString modules (snd <$> name) o);
      (if res <? 0 then do PyErr_Print else done tt);;
      do (Py_DECREF o);;
      free_opt (fst <$> name)
  end.

Fixpoint inject_modules (modules : nat) (mods : list cstring) : prog unit :=
  match mods with
  | [] | None :: _ => done tt
  | Some path :: mods => inject_module modules path;; inject_modules modules mods
  end.

(** From the creation of the capsule to the label [cleanup_thread]. *)
Definition run_in_subinterpreter (script : cstring) (mods : list cstring) (ts : nat) : prog unit :=
  c ← do PyCapsule_New;
  match c with
  | None => do PyErr_Print
  | Some co =>
      ok ← load_modules mods;
      (if ok : bool then
         sysModule ← do (PyImport_ImportModule (chars "sys"));
         match sysModule with
         | None => done tt
         | Some so =>
             sysDict ← do (PyModule_GetDict so);
             modules ← do (PyDict_GetItemString sysDict (chars "modules"));
             match modules with
             | None => do (Py_DECREF so)
             | Some mo =>
                 inject_modules mo mods;;
                 do (Py_DECREF so);;
                 run_subinterpreter script ts true
             end
         end
       else done tt);;
      do (Py_DECREF co)
  end.

(** [shared_python_state_t], as far as it is data. *)
Record shared_python_state := mk_shared { main_ts : option nat; initialized : bool }.

(** The script: the value of the first parameter, whatever its key. *)
Definition script_of (env : jrtc_app_env) : cstring := match head (params env) with Some kv => kv_val kv | None => None end.

(** [args] and the pointer to the shared state may be NULL; the result is the
    shared state afterwards. *)
Definition jrtc_start_app (args : option jrtc_app_env) (shared : option shared_python_state) : prog (option shared_python_state) :=
  match args, shared with
  | Some env, Some sh =>
      let full_path := script_of env in
      do MutexLock;;
      sh ← (if initialized sh then done sh
            else
              init ← do Py_IsInitialized;
              main ← (if init : bool then done (main_ts sh)
                      else do Py_Initialize;; t ← do PyThreadState_Get; done (Some t));
              done (mk_shared main true));
      sub ← do Py_NewInterpreter;
      match sub with
      | None => do MutexUnlock;; done (Some sh)
      | Some ts =>
          do (PyEval_ReleaseThread ts);;
          do MutexUnlock;;
          do (PyEval_AcquireThread ts);;
          run_in_subinterpreter full_path (app_modules env) ts;;
          do (PyEval_ReleaseThread ts);;
          do MutexLock;;
          do (PyEval_AcquireThread ts);;
          do (Py_EndInterpreter ts);;
          do MutexUnlock;;
          done (Some sh)
      end
  | _, _ => done shared
  end.
