(* ===== verification/PyApi.v ===== *)
(** * The rules of the Python/C API

    What the API demands of a thread that calls it: the references it owns, the
    blocks it has allocated, the thread states that exist, the one that is
    attached to it, the error indicator of each, the mutex. [pre] is the demand,
    [valid] the answers the API can give, [next] the effect. [exec] runs a program
    against given answers and stops at the first call that breaks a rule; [wp] is
    its weakest precondition over every answer, with the calls at which it may
    stop. The rules are those of Python 3.12. *)
From S2P Require Import Prelude Controller PyLoader.
From stdpp Require Import gmultiset.

(** ** State

    [refs]: the references owned by this thread, each as often as it is owned;
    [lent]: the objects of which it holds a borrowed reference that lives as
    long as the interpreter; [tss]: the thread states with their interpreters
    (an interpreter is named by its first thread state); [cur]: the thread
    state that is attached to this thread, which then holds the GIL; [errs]: the
    thread states whose error indicator is set; [cleared]: those that
    [PyThreadState_Clear] has reset. *)
Record py := mk_py {
  refs : gmultiset nat;
  lent : gset nat;
  blocks : gset nat;
  tss : gmap nat nat;
  cur : option nat;
  locked : bool;
  inited : bool;
  errs : gset nat;
  cleared : gset nat
}.

(** The thread state [Py_Initialize] makes. *)
Definition MAIN_TS : nat := 0.

Definition usable (o : nat) (s : py) : bool := bool_decide (o ∈ refs s ∨ o ∈ lent s).
Definition attached (s : py) : bool := bool_decide (cur s ≠ None).

(** The error indicator of the attached thread state. *)
Definition error_set (s : py) : bool := match cur s with Some t => bool_decide (t ∈ errs s) | None => false end.

(** No other thread state of the interpreter of [t]. *)
Definition only_ts (t : nat) (s : py) : bool :=
  bool_decide (map_Forall (fun t' i => t' = t ∨ Some i ≠ tss s !! t) (tss s)).

Definition pre (c : pycall) (s : py) : bool :=
  match c with
  | Malloc _ | Py_IsInitialized => true
  | Free p => bool_decide (p ∈ blocks s)
  | MutexLock => negb (locked s)
  | MutexUnlock => locked s
  | PySys_GetObject _ | PyUnicode_DecodeFSDefault _ | PyImport_ImportModule _ | PyCapsule_New
  | PyErr_Occurred | PyThreadState_Get | Py_NewInterpreter => attached s
  | PyErr_Print => attached s && error_set s
  | PyList_Append l x => attached s && usable l s && usable x s
  | PyImport_Import o | PyModule_GetDict o | PyDict_GetItemString o _ | PyObject_GetAttrString o _
  | PyCallable_Check o | PyTuple_Pack o => attached s && usable o s
  | PyDict_SetItemString d key v => attached s && usable d s && usable v s && bool_decide (key ≠ None)
  | PyObject_CallObject f a => attached s && usable f s && usable a s
  | Py_DECREF o => attached s && bool_decide (o ∈ refs s)
  | PyThreadState_New i => bool_decide (tss s !! i = Some i)
  | PyThreadState_Swap t | PyThreadState_Clear t => attached s && bool_decide (tss s !! t ≠ None)
  | PyThreadState_Delete t => bool_decide (tss s !! t ≠ None ∧ cur s ≠ Some t ∧ t ∈ cleared s)
  | Py_Initialize => negb (inited s)
  | PyEval_ReleaseThread t => bool_decide (cur s = Some t)
  | PyEval_AcquireThread t => bool_decide (cur s = None ∧ tss s !! t ≠ None)
  | Py_EndInterpreter t => bool_decide (cur s = Some t) && only_ts t s
  end.

(** A new block or thread state is fresh; the attached thread state, its error
    indicator and whether Python is initialised are what the state says. *)
Definition valid (c : pycall) : answer c -> py -> bool :=
  match c with
  | Malloc _ => fun x s => match x with Some p => bool_decide (p ∉ blocks s) | None => true end
  | PyThreadState_New _ | Py_NewInterpreter =>
      fun x s => match x with Some t => bool_decide (tss s !! t = None) | None => true end
  | PyThreadState_Get => fun x s => bool_decide (cur s = Some x)
  | Py_IsInitialized => fun x s => bool_decide (x = inited s)
  | PyErr_Occurred => fun x s => bool_decide (x = error_set s)
  | _ => fun _ _ => true
  end.

Definition set_refs (r : gmultiset nat) (s : py) : py :=
  mk_py r (lent s) (blocks s) (tss s) (cur s) (locked s) (inited s) (errs s) (cleared s).
Definition set_lent (l : gset nat) (s : py) : py :=
  mk_py (refs s) l (blocks s) (tss s) (cur s) (locked s) (inited s) (errs s) (cleared s).
Definition set_blocks (b : gset nat) (s : py) : py :=
  mk_py (refs s) (lent s) b (tss s) (cur s) (locked s) (inited s) (errs s) (cleared s).
Definition set_threads (t : gmap nat nat) (c : option nat) (s : py) : py :=
  mk_py (refs s) (lent s) (blocks s) t c (locked s) (inited s) (errs s) (cleared s).
Definition set_locked (b : bool) (s : py) : py :=
  mk_py (refs s) (lent s) (blocks s) (tss s) (cur s) b (inited s) (errs s) (cleared s).
Definition set_errs (e : gset nat) (s : py) : py :=
  mk_py (refs s) (lent s) (blocks s) (tss s) (cur s) (locked s) (inited s) e (cleared s).
Definition set_cleared (c : gset nat) (s : py) : py :=
  mk_py (refs s) (lent s) (blocks s) (tss s) (cur s) (locked s) (inited s) (errs s) c.

(** A call that fails with an exception. *)
Definition raise (s : py) : py := match cur s with Some t => set_errs (errs s ∪ {[ t ]}) s | None => s end.
Definition clear_error (s : py) : py := match cur s with Some t => set_errs (errs s ∖ {[ t ]}) s | None => s end.

(** A new reference, or NULL with an exception. *)
Definition own (o : option nat) (s : py) : py :=
  match o with Some o => set_refs (refs s ⊎ {[+ o +]}) s | None => raise s end.
(** A borrowed reference; [PySys_GetObject] and [PyDict_GetItemString] set no
    exception when they return NULL. *)
Definition borrow (o : option nat) (s : py) : py :=
  match o with Some o => set_lent (lent s ∪ {[ o ]}) s | None => s end.
(** A status that is negative with an exception. *)
Definition status (z : Z) (s : py) : py := if (z <? 0)%Z then raise s else s.
(** A new thread state, of the interpreter [i]. *)
Definition new_ts (t i : nat) (c : option nat) (s : py) : py :=
  set_cleared (cleared s ∖ {[ t ]}) (set_errs (errs s ∖ {[ t ]}) (set_threads (<[t := i]> (tss s)) c s)).

Definition next (c : pycall) : answer c -> py -> py :=
  match c with
  | Malloc _ => fun x s => match x with Some p => set_blocks (blocks s ∪ {[ p ]}) s | None => s end
  | Free p => fun _ s => set_blocks (blocks s ∖ {[ p ]}) s
  | MutexLock => fun _ s => set_locked true s
  | MutexUnlock => fun _ s => set_locked false s
  | PySys_GetObject _ | PyDict_GetItemString _ _ => fun x s => borrow x s
  | PyModule_GetDict _ => fun x s => borrow (Some x) s
  | PyUnicode_DecodeFSDefault _ | PyImport_Import _ | PyImport_ImportModule _ | PyObject_GetAttrString _ _
  | PyCapsule_New | PyTuple_Pack _ | PyObject_CallObject _ _ => fun x s => own x s
  | PyList_Append _ _ | PyDict_SetItemString _ _ _ => fun x s => status x s
  | PyErr_Print => fun _ s => clear_error s
  | Py_DECREF o => fun _ s => set_refs (refs s ∖ {[+ o +]}) s
  | PyThreadState_New i => fun x s => match x with Some t => new_ts t i (cur s) s | None => s end
  | Py_NewInterpreter => fun x s => match x with Some t => new_ts t t (Some t) s | None => s end
  | PyThreadState_Swap t | PyEval_AcquireThread t => fun _ s => set_threads (tss s) (Some t) s
  | PyThreadState_Clear t => fun _ s => set_cleared (cleared s ∪ {[ t ]}) (set_errs (errs s ∖ {[ t ]}) s)
  | PyThreadState_Delete t => fun _ s => set_threads (delete t (tss s)) (cur s) s
  | Py_Initialize => fun _ s =>
      mk_py (refs s) (lent s) (blocks s) (<[MAIN_TS := MAIN_TS]> (tss s)) (Some MAIN_TS) (locked s) true (errs s) (cleared s)
  | PyEval_ReleaseThread _ => fun _ s => set_threads (tss s) None s
  | Py_EndInterpreter t => fun _ s => set_threads (delete t (tss s)) None s
  | _ => fun _ s => s
  end.

(** ** Running a program

    The answers come from a function of the call and of the number of calls
    made so far. *)
Abbreviation oracle := (forall c : pycall, py -> nat -> answer c).

Inductive outcome (A : Type) :=
| returned (a : A) (s : py)
| broken (c : pycall) (s : py).
Arguments returned {A} a s.
Arguments broken {A} c s.

Fixpoint exec {A} (o : oracle) (n : nat) (p : prog A) (s : py) : outcome A :=
  match p with
  | done a => returned a s
  | call c k => if pre c s then exec o (S n) (k (o c s n)) (next c (o c s n) s) else broken c s
  end.

(** ** The weakest precondition

    [ok] restricts the answers beyond what the API guarantees; [stop] are the
    calls at which the program may break a rule. *)
Fixpoint wp {A} (ok : forall c, answer c -> bool) (stop : pycall -> py -> Prop) (p : prog A) (Q : A -> py -> Prop) (s : py) : Prop :=
  match p with
  | done a => Q a s
  | call c k =>
      if pre c s then forall x, valid c x s = true -> ok c x = true -> wp ok stop (k x) Q (next c x s)
      else stop c s
  end.

Lemma wp_mono {A} ok stop (p : prog A) (Q R : A -> py -> Prop) s :
  wp ok stop p Q s -> (forall a s', Q a s' -> R a s') -> wp ok stop p R s.
Proof.
  intros H HQR; revert s H; induction p as [a | c k IH]; intros s; [apply HQR |].
  simpl. destruct (pre c s); eauto.
Qed.

Lemma wp_bind {A B} ok stop (p : prog A) (f : A -> prog B) (Q : B -> py -> Prop) s :
  wp ok stop p (fun a => wp ok stop (f a) Q) s -> wp ok stop (p ≫= f) Q s.
Proof.
  revert s; induction p as [a | c k IH]; intros s; [done |].
  simpl. destruct (pre c s); [| done]. intros Hk x Hv Ho. apply IH, Hk; done.
Qed.

(** A program with a weakest precondition runs to its end or stops at one of the
    calls allowed, under every oracle whose answers are valid and allowed. *)
Lemma wp_exec {A} ok stop (p : prog A) (Q : A -> py -> Prop) (o : oracle) n s :
  (forall c s n, pre c s = true -> valid c (o c s n) s = true /\ ok c (o c s n) = true) ->
  wp ok stop p Q s ->
  (exists a s', exec o n p s = returned a s' /\ Q a s') \/
  (exists c s', exec o n p s = broken c s' /\ pre c s' = false /\ stop c s').
Proof.
  intros Ho; revert n s; induction p as [a | c k IH]; intros n s; simpl; [eauto |].
  destruct (pre c s) eqn:Hp; [| eauto 10]. intros Hk. destruct (Ho c s n Hp). apply IH, Hk; done.
Qed.

(** No stop is allowed. *)
Definition never (c : pycall) (s : py) : Prop := False.

Lemma wp_returns {A} ok (p : prog A) (Q : A -> py -> Prop) (o : oracle) n s :
  (forall c s n, pre c s = true -> valid c (o c s n) s = true /\ ok c (o c s n) = true) ->
  wp ok never p Q s -> exists a s', exec o n p s = returned a s' /\ Q a s'.
Proof. intros Ho H. by destruct (wp_exec ok never p Q o n s Ho H) as [? | (c & s' & _ & _ & [])]. Qed.

(** ** Balance

    [balanced m s s']: from [s] to [s'] the thread has gained the references
    [m] and is otherwise where it was, pending exceptions aside. *)
Definition balanced (m : gmultiset nat) (s s' : py) : Prop :=
  refs s' = refs s ⊎ m /\ lent s ⊆ lent s' /\ blocks s' = blocks s /\ tss s' = tss s /\
  cur s' = cur s /\ locked s' = locked s /\ inited s' = inited s.

(** The references an optional object stands for. *)
Definition opt_ref (o : option nat) : gmultiset nat := match o with Some o => {[+ o +]} | None => ∅ end.

#[export] Instance balanced_refl : Reflexive (balanced ∅).
Proof. intros s. repeat split; try done. multiset_solver. Qed.

Lemma balanced_trans m1 m2 s1 s2 s3 : balanced m1 s1 s2 -> balanced m2 s2 s3 -> balanced (m1 ⊎ m2) s1 s3.
Proof.
  intros (R & L & B & T & C & K & I) (R' & L' & B' & T' & C' & K' & I').
  repeat split; try (etrans; eassumption).
  rewrite R', R. multiset_solver.
Qed.
