(* ===== verification/PyLoaderFacts.v ===== *)
(** * Correctness of the loader of Python applications

    The loader of [PyLoader] under the rules of [PyApi]: what it makes of the
    path of a script, that its references, blocks, thread states and mutex are
    in balance, and the places where a rule is broken. *)
From S2P Require Import Prelude Ext Logging Controller PyLoader PyApi.
From stdpp Require Import gmultiset.
From Stdlib Require Import Ascii.

(** ** Paths *)

Lemma split_last_None c s : split_last c s = None <-> c ∉ s.
Proof.
  induction s as [| x s IH]; simpl; [set_solver |].
  destruct (split_last c s) as [[p t] |].
  - assert (c ∈ s) by (destruct (decide (c ∈ s)); [done | naive_solver]). set_solver.
  - case_decide; subst; set_solver.
Qed.

Lemma split_last_Some c s p t : split_last c s = Some (p, t) <-> s = p ++ c :: t /\ c ∉ t.
Proof.
  revert p t; induction s as [| x s IH]; intros p t; simpl.
  - split; [done | intros [H _]; by destruct p].
  - destruct (split_last c s) as [[q u] |] eqn:E.
    + destruct (proj1 (IH q u) eq_refl) as [-> Hu].
      split; [intros [= <- <-]; done |].
      intros [H Hc]; destruct p as [| y p]; simplify_eq/=; [set_solver |].
      assert (Some (q, u) = Some (p, t)) by (by apply IH). by simplify_eq.
    + apply split_last_None in E. case_decide as Hx; simplify_eq.
      * split; [intros [= <- <-]; done |]. intros [H Hc]; destruct p; simplify_eq/=; [done | set_solver].
      * split; [done |]. intros [H Hc]; destruct p; simplify_eq/=; set_solver.
Qed.

(** The parts of [dir/name.py], [/name.py], [name.py] and [name]. *)
Lemma script_path_parts dir name :
  "/"%char ∉ name ->
  let script := name ++ chars ".py" in
  folder_of (dir ++ ("/"%char :: script)) = (if decide (dir = []) then chars "/" else dir) /\
  name_of (dir ++ ("/"%char :: script)) = name /\
  folder_of script = chars "./" /\ name_of script = name /\
  ("."%char ∉ name -> name_of name = name /\ name_of (dir ++ ("/"%char :: name)) = name).
Proof.
  intros Hn script.
  assert (Hs : "/"%char ∉ script) by (unfold script; rewrite elem_of_app; intros [? | ?%(bool_decide_pack _)]; done).
  assert (E : split_last "/" (dir ++ ("/"%char :: script)) = Some (dir, script)) by (by apply split_last_Some).
  assert (E' : split_last "/" (dir ++ ("/"%char :: name)) = Some (dir, name)) by (by apply split_last_Some).
  assert (D : split_last "." script = Some (name, chars "py")) by (apply split_last_Some; split; [done | by intros ?%(bool_decide_pack _)]).
  unfold folder_of, name_of. rewrite E, E', (proj2 (split_last_None _ _) Hs), (proj2 (split_last_None _ _) Hn), D.
  split_and!; try done.
  - by destruct dir.
  - intros Hd. by rewrite (proj2 (split_last_None _ _) Hd).
Qed.

(** [get_folder] and [get_file_name_without_py] compute [folder_of] and
    [name_of] into a new block, or fail without one. *)
Definition string_result (content : list ascii) (s : py) (r : option heap_string) (s' : py) : Prop :=
  match r with
  | Some (p, c) => c = content /\ (p ∉ blocks s) /\ s' = set_blocks (blocks s ∪ {[ p ]}) s
  | None => s' = s
  end.

Lemma free_new p s : p ∉ blocks s -> next (Free p) tt (set_blocks (blocks s ∪ {[ p ]}) s) = s.
Proof. intros Hp. destruct s as [R L B T C K I E D]; unfold next, set_blocks; simpl in *. f_equal. set_solver. Qed.

Section wp.
Context (ok : forall c, answer c -> bool) (stop : pycall -> py -> Prop).

(** One call of a program. *)
Lemma wp_do {A} c (k : answer c -> prog A) Q s :
  pre c s = true -> (forall x, valid c x s = true -> ok c x = true -> wp ok stop (k x) Q (next c x s)) ->
  wp ok stop (do c ≫= k) Q s.
Proof. intros Hp H. simpl. by rewrite Hp. Qed.

Lemma wp_last c Q s :
  pre c s = true -> (forall x, valid c x s = true -> ok c x = true -> Q x (next c x s)) -> wp ok stop (do c) Q s.
Proof. intros Hp H. simpl. by rewrite Hp. Qed.

Lemma wp_seq {A B} (p : prog A) (q : prog B) (R : A -> py -> Prop) Q s :
  wp ok stop p R s -> (forall a s', R a s' -> wp ok stop q Q s') -> wp ok stop (p;; q) Q s.
Proof. intros Hp Hq. apply wp_bind. eapply wp_mono; [exact Hp | exact Hq]. Qed.

(** Memory does not fail. *)
Definition mallocs : Prop := forall str, ok (Malloc str) None = false.

Lemma strdup_wp str s : wp ok stop (strdup str) (fun r s' => string_result str s r s' /\ (mallocs -> is_Some r)) s.
Proof.
  intros [p |] Hv Ho; simpl in *; [by apply bool_decide_eq_true in Hv |]. split; [done |]. intros Hm. by rewrite Hm in Ho.
Qed.

Lemma get_folder_wp path s :
  wp ok stop (get_folder (Some path)) (fun r s' => string_result (folder_of path) s r s' /\ (mallocs -> is_Some r)) s.
Proof.
  apply wp_bind. eapply wp_mono; [apply strdup_wp |]. intros [[p c] |] s'; [| done].
  intros [(-> & Hp & ->) _]. unfold folder_of.
  destruct (split_last "/" path) as [[[| x q] t] |]; [by simpl.. |].
  apply wp_do; [apply bool_decide_eq_true; set_solver |]. intros [] _ _.
  rewrite free_new by done. apply strdup_wp.
Qed.

Lemma name_of_take path :
  let file_name := match split_last "/" path with Some (_, t) => t | None => path end in
  take (match split_last "." file_name with
        | Some (p, t) => if decide (t = chars "py") then length p else length file_name
        | None => length file_name
        end) file_name = name_of path.
Proof.
  unfold name_of. set (file_name := match split_last "/" path with Some (_, t) => t | None => path end).
  simpl. destruct (split_last "." file_name) as [[p t] |] eqn:E; [| by rewrite firstn_all].
  case_decide; [| by rewrite firstn_all].
  apply split_last_Some in E as [-> _]. by rewrite take_app_length.
Qed.

Lemma get_file_name_wp path s :
  wp ok stop (get_file_name_without_py (Some path)) (fun r s' => string_result (name_of path) s r s' /\ (mallocs -> is_Some r)) s.
Proof. unfold get_file_name_without_py. rewrite name_of_take. apply strdup_wp. Qed.

(** With memory the string is there. *)
Lemma with_memory content (p : prog (option heap_string)) s : mallocs ->
  wp ok stop p (fun r s' => string_result content s r s' /\ (mallocs -> is_Some r)) s ->
  wp ok stop p (fun r s' => exists b, r = Some (b, content) /\ (b ∉ blocks s) /\ s' = set_blocks (blocks s ∪ {[ b ]}) s) s.
Proof.
  intros Hm H. eapply wp_mono; [exact H |]. intros r s' [Hr Hs]. destruct (Hs Hm) as [[b c] ->]. destruct Hr as (-> & Hb & ->). eauto.
Qed.
End wp.

(** ** Balance, call by call *)

Lemma balanced_own o m s0 s : balanced m s0 s -> balanced (opt_ref o ⊎ m) s0 (own o s).
Proof.
  intros H. destruct o as [o |]; simpl.
  - destruct H as (R & L & B & T & C & K & I). repeat split; simpl; try done. rewrite R. multiset_solver.
  - rewrite (left_id_L ∅ _). unfold raise. by destruct (cur s).
Qed.

Lemma balanced_borrow o m s0 s : balanced m s0 s -> balanced m s0 (borrow o s).
Proof.
  intros (R & L & B & T & C & K & I). destruct o as [o |]; simpl; [| done].
  repeat split; simpl; try done. set_solver.
Qed.

Lemma balanced_status z m s0 s : balanced m s0 s -> balanced m s0 (status z s).
Proof. intros H. unfold status, raise. by destruct (z <? 0)%Z, (cur s). Qed.

Lemma balanced_printed m s0 s : balanced m s0 s -> balanced m s0 (clear_error s).
Proof. intros H. unfold clear_error. by destruct (cur s). Qed.

Lemma balanced_attached m s0 s : balanced m s0 s -> cur s0 ≠ None -> attached s = true.
Proof. intros (R & L & B & T & C & K & I) H. unfold attached. rewrite C. by apply bool_decide_eq_true. Qed.

Lemma balanced_usable o m s0 s : balanced m s0 s -> o ∈ m -> usable o s = true.
Proof.
  intros (R & _) H. apply bool_decide_eq_true. left. rewrite R. multiset_solver.
Qed.

Lemma balanced_eq m m' s s' : balanced m s s' -> m = m' -> balanced m' s s'.
Proof. by intros ? <-. Qed.

Lemma balanced_release o m s0 s : balanced (opt_ref (Some o) ⊎ m) s0 s -> balanced m s0 (set_refs (refs s ∖ {[+ o +]}) s).
Proof.
  intros (R & L & B & T & C & K & I). repeat split; simpl in *; try done. rewrite R. multiset_solver.
Qed.

(** A failed call leaves the error indicator set. *)
Lemma raise_sets s : attached s = true -> attached (raise s) = true /\ error_set (raise s) = true.
Proof.
  unfold attached, raise, error_set. intros Ha%bool_decide_eq_true. destruct (cur s) as [t |] eqn:E; [| done]. simpl. rewrite E.
  split; apply bool_decide_eq_true; [done | set_solver].
Qed.

Ltac bal H := eapply balanced_eq; [repeat first [exact H | eapply balanced_own] | multiset_solver].
Ltac call_ok H Hc :=
  simpl; repeat (apply andb_true_iff; split);
  first [apply (balanced_attached _ _ _ H Hc) | eapply (balanced_usable _ _ _ _ H); multiset_solver].

(** ** Modules *)

Section loader.
Context (ok : forall c, answer c -> bool) (stop : pycall -> py -> Prop).

(** [sys.path] exists. *)
Hypothesis sys_path : forall name, ok (PySys_GetObject name) None = false.

(** Memory, strings and modules do not fail. *)
Definition imports : Prop :=
  mallocs ok /\ (forall str, ok (PyUnicode_DecodeFSDefault str) None = false) /\
  (forall o, ok (PyImport_Import o) None = false).

(** Giving back an optional reference. *)
Lemma xdecref_wp o m s0 s :
  balanced (opt_ref o ⊎ m) s0 s -> cur s0 ≠ None -> wp ok stop (Py_XDECREF o) (fun _ => balanced m s0) s.
Proof.
  intros H Hc. destruct o as [o |]; [| eapply balanced_eq; [exact H | multiset_solver]].
  apply wp_last; [| intros [] _ _; by apply balanced_release]. cbn [pre]. rewrite (balanced_attached _ _ _ H Hc).
  apply bool_decide_eq_true. destruct H as (-> & _). simpl. multiset_solver.
Qed.

(** From [PyImport_Import] on. *)
Lemma import_name_wp pn s0 s : cur s0 ≠ None -> balanced (opt_ref (Some pn)) s0 s ->
  wp ok stop (pModule ← do (PyImport_Import pn); do (Py_DECREF pn);;
              match pModule with None => do PyErr_Print;; done None | Some m => done (Some m) end)
    (fun m s' => balanced (opt_ref m) s0 s' /\ (imports -> is_Some m)) s.
Proof.
  intros Hc H. apply wp_do; [call_ok H Hc |]. intros m _ Hm. pose proof (balanced_own m _ _ _ H) as H1. cbn [next].
  assert (H2 : balanced (opt_ref (Some pn) ⊎ opt_ref m) s0 (own m s)) by (bal H1).
  apply wp_do. { cbn [pre]. rewrite (balanced_attached _ _ _ H2 Hc). apply bool_decide_eq_true. destruct H2 as (-> & _). simpl. multiset_solver. }
  intros [] _ _. apply balanced_release in H2. destruct m as [m |]; [by split |].
  apply wp_do.
  - pose proof (proj2 (raise_sets s (balanced_attached _ _ _ H Hc))) as He. cbn [pre next].
    rewrite (balanced_attached _ _ _ H2 Hc). exact He.
  - intros [] _ _. split; [by apply balanced_printed |]. intros (_ & _ & Hi). by rewrite Hi in Hm.
Qed.

(** A path that is not empty. *)
Definition nonempty (path : cstring) : Prop := match path with Some (_ :: _) => True | _ => False end.

Lemma import_wp path s :
  cur s ≠ None ->
  wp ok stop (import_python_module path) (fun m s' => balanced (opt_ref m) s s' /\ (imports -> nonempty path -> is_Some m)) s.
Proof.
  intros Hc. destruct path as [[| a path] |]; [by simpl | | by simpl]. cbn [import_python_module].
  apply wp_bind. eapply wp_mono; [apply get_file_name_wp |].
  intros [[mb mn] |] s1; [| intros [-> Hm]; split; [apply balanced_refl | intros [Hi _] _; by destruct (Hm Hi)]].
  intros [(-> & Hmb & ->) _].
  apply wp_bind. eapply wp_mono; [apply get_folder_wp |]. intros [[fb fn] |] s1.
  2:{ intros [-> Hm]. apply wp_do; [apply bool_decide_eq_true; simpl; set_solver |]. intros [] _ _. rewrite free_new by done.
      split; [apply balanced_refl | intros [Hi _] _; by destruct (Hm Hi)]. }
  intros [(-> & Hfb & ->) _]. simpl in Hfb. set (s2 := set_blocks _ (set_blocks _ s)).
  assert (Hc2 : cur s2 ≠ None) by done. pose proof (balanced_refl s2) as H2.
  apply wp_do; [call_ok H2 Hc2 |]. intros [sp |] _ Ho; [| by rewrite sys_path in Ho].
  apply (balanced_borrow (Some sp)) in H2 as H3. cbn [next].
  apply wp_do; [call_ok H3 Hc2 |]. intros pp _ Hpp. pose proof (balanced_own pp _ _ _ H3) as H4. cbn [next].
  apply wp_bind. apply wp_mono with (fun m s' => balanced (opt_ref m) s2 s' /\ (imports -> is_Some m)).
  - destruct pp as [pp |]; [| split; [bal H4 | intros (_ & Hd & _); by rewrite Hd in Hpp]].
    apply wp_do. { simpl. rewrite !andb_true_iff. split_and!; [apply (balanced_attached _ _ _ H4 Hc2) | |]; apply bool_decide_eq_true; simpl; [right; set_solver | left; multiset_solver]. }
    intros z _ _. pose proof (balanced_status z _ _ _ H4) as H5. cbn [next].
    apply wp_do. { cbn [pre]. rewrite (balanced_attached _ _ _ H5 Hc2). apply bool_decide_eq_true. destruct H5 as (-> & _). simpl. multiset_solver. }
    intros [] _ _. apply balanced_release in H5 as H6. cbn [next].
    apply wp_do; [call_ok H6 Hc2 |]. intros pn _ Hpn. pose proof (balanced_own pn _ _ _ H6) as H7. cbn [next].
    destruct pn as [pn |]; [apply import_name_wp; [done | bal H7] |].
    split; [bal H7 | intros (_ & Hd & _); by rewrite Hd in Hpn].
  - intros m s3 [(R & L & B & T & C & K & I) Hm]. subst s2; simpl in R, L, B, T, C, K, I. cbv beta.
    apply wp_do; [apply bool_decide_eq_true; rewrite B; set_solver |]. intros [] _ _.
    apply wp_do; [apply bool_decide_eq_true; simpl; rewrite B; set_solver |]. intros [] _ _.
    split; [| auto]. repeat split; simpl; try done. rewrite B. set_solver.
Qed.

(** ** Running the application *)

(** Printing a pending exception changes nothing else. *)
Lemma print_error_wp {A} m s0 s (p : prog A) Q :
  balanced m s0 s -> cur s0 ≠ None -> (forall s', balanced m s0 s' -> wp ok stop p Q s') ->
  wp ok stop (err ← do PyErr_Occurred; (if err : bool then do PyErr_Print else done tt);; p) Q s.
Proof.
  intros H Hc Hp. pose proof (balanced_attached _ _ _ H Hc) as Ha.
  apply wp_do; [done |]. intros b Hb _. apply bool_decide_eq_true in Hb. cbn [next]. destruct b; [| by apply Hp].
  apply wp_do; [cbn [pre]; by rewrite Ha, <- Hb |]. intros [] _ _. by apply Hp, balanced_printed.
Qed.

(** [PyTuple_Pack] never fails. *)
Hypothesis tuple_pack : forall o, ok (PyTuple_Pack o) None = false.

(** Where [PyErr_Print] is called without a look at the error indicator: either
    the program may stop there, or the script can be imported and has an entry
    point that can be called. *)
Definition prints (script : cstring) : Prop :=
  (forall s, error_set s = false -> stop PyErr_Print s) \/
  (imports /\ (forall o, ok (PyCallable_Check o) false = false) /\ nonempty script).

Lemma print_wp {A} m s0 s (p : prog A) Q :
  balanced m s0 s -> cur s0 ≠ None -> (error_set s = true \/ forall s', error_set s' = false -> stop PyErr_Print s') ->
  (forall s', balanced m s0 s' -> wp ok stop p Q s') -> wp ok stop (do PyErr_Print;; p) Q s.
Proof.
  intros H Hc He Hp. pose proof (balanced_attached _ _ _ H Hc) as Ha. simpl. rewrite Ha. cbn [andb].
  destruct (error_set s) eqn:E; [| destruct He as [? | He]; [done | by apply He]]. intros [] _ _. by apply Hp, balanced_printed.
Qed.

(** What [cleanup] finds, with at most one reference that it does not see. *)
Definition cleanup_refs (v : cleanup_vars) : gmultiset nat :=
  opt_ref (pFunc v) ⊎ (opt_ref (pModule v) ⊎ (opt_ref (pArgs v) ⊎ opt_ref (pCapsule v))).

Lemma call_entry_point_wp script s :
  cur s ≠ None -> prints script ->
  wp ok stop (call_entry_point script)
    (fun v s' => exists leak, balanced (cleanup_refs v ⊎ opt_ref leak) s s') s.
Proof.
  intros Hc Hpr. apply wp_bind. eapply wp_mono; [by apply import_wp |].
  intros [m |] s1 [H1 Hi]; unfold cleanup_refs.
  2:{ eapply print_wp; [exact H1 | exact Hc | | intros s' H; by exists None].
      destruct Hpr as [? | (Him & _ & Hne)]; [by right | by destruct (Hi Him Hne)]. }
  apply wp_do; [call_ok H1 Hc |]. intros f _ _. pose proof (balanced_own f _ _ _ H1) as H2. cbn [next].
  apply wp_bind. apply wp_mono with (fun b s' => s' = own f s1 /\ (f = None -> b = false) /\ (b = true \/ f = None \/ forall s', error_set s' = false -> stop PyErr_Print s')).
  { destruct f as [f |]; [| split_and!; auto]. apply wp_last; [call_ok H2 Hc |]. intros b _ Hb. cbn [next]. split_and!; [done | done |].
    destruct b; [by left | right; right]. destruct Hpr as [? | (_ & Hcall & _)]; [done | by rewrite Hcall in Hb]. }
  intros b s2 (-> & Hfb & Hst).
  assert (Hn : b = false -> wp ok stop (do PyErr_Print;; done (mk_cleanup (Some m) f None None))
                 (fun v s' => exists leak, balanced (cleanup_refs v ⊎ opt_ref leak) s s') (own f s1)).
  { intros ->. eapply print_wp; [exact H2 | exact Hc | | intros s' H; exists None; bal H].
    destruct Hst as [? | [-> | ?]]; [done | left | by right]. apply raise_sets, (balanced_attached _ _ _ H1 Hc). }
  destruct f as [f |]; [| by apply Hn, Hfb]. destruct b; [| by apply Hn]. clear Hn.
  apply wp_do; [call_ok H2 Hc |]. intros c _ _. pose proof (balanced_own c _ _ _ H2) as H3.
  destruct c as [c |]; [| exists None; bal H3].
  apply wp_do; [call_ok H3 Hc |]. intros a _ Ha. destruct a as [a |]; [| by rewrite tuple_pack in Ha].
  pose proof (balanced_own (Some a) _ _ _ H3) as H4.
  apply wp_do; [call_ok H4 Hc |]. intros r _ _. pose proof (balanced_own r _ _ _ H4) as H5.
  eapply print_error_wp; [exact H5 | exact Hc |]. intros s' H. exists r. bal H.
Qed.

(** Back to the thread state [mn], and the end of the thread state [t]. *)
Lemma leave_ts_wp t i mn leak s s2 :
  cur s = Some mn -> tss s !! t = None -> tss s !! mn ≠ None ->
  balanced (opt_ref leak) (set_threads (<[t := i]> (tss s)) (Some t) (new_ts t i (cur s) s)) s2 ->
  wp ok stop (do (PyThreadState_Swap mn);; do (PyThreadState_Clear t);; do (PyThreadState_Delete t))
    (fun _ s' => exists leak, balanced (opt_ref leak) s s') s2.
Proof.
  intros Hm Ht Hmn (R & L & B & T & C & K & I); simpl in R, L, B, T, C, K, I.
  assert (Hne : mn ≠ t) by congruence.
  apply wp_do. { unfold pre, attached. rewrite C, T. rewrite lookup_insert_ne by done. by rewrite !bool_decide_true. }
  intros [] _ _. apply wp_do. { simpl. unfold attached. simpl. rewrite T, lookup_insert_eq. by rewrite !bool_decide_true. }
  intros [] _ _. apply wp_last. { simpl. rewrite T, lookup_insert_eq. apply bool_decide_eq_true. split_and!; [done | naive_solver | set_solver]. }
  intros [] _ _. exists leak. repeat split; simpl; try done. rewrite T. by apply delete_insert_id.
Qed.

(** Where the thread states are concerned: a fresh one is made for the call,
    attached, and removed after the one before it is back. *)
Lemma run_python_wp script i s :
  cur s = Some i -> tss s !! i = Some i -> prints script ->
  wp ok stop (run_python_using_interpreter script (Some i) true) (fun _ s' => exists leak, balanced (opt_ref leak) s s') s.
Proof.
  intros Hc Hi Hpr. cbn [run_python_using_interpreter negb].
  apply wp_bind. apply wp_do; [by apply bool_decide_eq_true |].
  intros t Ht _. destruct t as [t |]; [| exists None; apply balanced_refl].
  apply bool_decide_eq_true in Ht. cbn [next wp].
  apply wp_do; [unfold pre, attached; simpl; by rewrite Hc |]. intros mn Hm _.
  apply bool_decide_eq_true in Hm. simpl in Hm. assert (mn = i) as -> by congruence.
  apply wp_do. { apply andb_true_iff; split; apply bool_decide_eq_true; simpl; [by rewrite Hc | by rewrite lookup_insert_eq]. }
  intros [] _ _. cbn [next].
  set (s1 := set_threads _ (Some t) _).
  apply wp_bind. eapply wp_mono; [by apply call_entry_point_wp |]. intros v s2 [leak H2].
  assert (Hc1 : cur s1 ≠ None) by done. unfold cleanup_refs in H2.
  rewrite <- !(assoc_L (⊎)) in H2.
  do 4 (eapply wp_seq; [eapply xdecref_wp; [exact H2 | exact Hc1] |]; clear s2 H2; intros [] s2 H2; cbv beta in H2).
  eapply print_error_wp; [exact H2 | exact Hc1 |]. intros s3 H3.
  eapply leave_ts_wp; [done | done | by rewrite Hi | exact H3].
Qed.

Lemma run_subinterpreter_wp script i s :
  cur s = Some i -> tss s !! i = Some i -> prints script ->
  wp ok stop (run_subinterpreter script i true) (fun _ s' => exists leak, balanced (opt_ref leak) s s') s.
Proof.
  intros Hc Hi Hpr. eapply wp_seq; [by apply run_python_wp |]. intros [] s1 [leak H1].
  pose proof (balanced_attached _ _ _ H1 ltac:(by rewrite Hc)) as Ha.
  apply wp_do; [done |]. intros b Hb _. apply bool_decide_eq_true in Hb. cbn [next]. destruct b; [| by exists leak].
  apply wp_last; [cbn [pre]; by rewrite Ha, <- Hb |]. intros [] _ _. exists leak. by apply balanced_printed.
Qed.

(** ** The modules of the application *)

Lemma load_modules_wp mods s : cur s ≠ None -> wp ok stop (load_modules mods) (fun _ => balanced ∅ s) s.
Proof.
  intros Hc. enough (H : forall s1, balanced ∅ s s1 -> wp ok stop (load_modules mods) (fun _ => balanced ∅ s) s1)
    by (apply H, balanced_refl).
  induction mods as [| [path |] mods IH]; intros s1 H1; [done | | done]. cbn [load_modules].
  apply wp_bind. eapply wp_mono.
  { apply import_wp. destruct H1 as (_ & _ & _ & _ & -> & _). done. }
  intros [m |] s2 [H2 _]; pose proof (balanced_trans _ _ _ _ _ H1 H2) as H3.
  - eapply wp_seq; [apply (xdecref_wp (Some m) ∅ s); [bal H3 | done] |]. intros [] s3 H4. by apply IH.
  - bal H3.
Qed.

Hypothesis malloc_ok : mallocs ok.

(** One round of the second loop: the block of the name is given back, so is the module. *)
Lemma inject_module_wp d path s0 s :
  cur s0 ≠ None -> balanced ∅ s0 s -> d ∈ lent s ->
  wp ok stop (inject_module d path)
    (fun _ s' => balanced ∅ s0 s' /\ d ∈ lent s') s.
Proof.
  intros Hc H Hd.
  apply wp_bind. eapply wp_mono; [apply (with_memory _ _ (name_of path)); [done | apply get_file_name_wp] |]. intros r s1 (p & -> & Hp & ->).
  set (s1 := set_blocks _ s).
  assert (Hc1 : cur s1 ≠ None) by (destruct H as (_ & _ & _ & _ & C & _); simpl; congruence).
  assert (Hend : forall s2, balanced ∅ s1 s2 -> wp ok stop (free_opt (Some p)) (fun _ s' => balanced ∅ s0 s' /\ d ∈ lent s') s2).
  { intros s2 (R & L & B & T & C & K & I). apply wp_last; [apply bool_decide_eq_true; rewrite B; simpl; set_solver |].
    intros [] _ _. destruct H as (R' & L' & B' & T' & C' & K' & I'). subst s1; simpl in *.
    split; [| set_solver]. repeat split; simpl; try congruence; [| set_solver | set_solver].
    rewrite R, R'. multiset_solver. }
  apply wp_bind. eapply wp_mono; [by apply import_wp |]. intros [m |] s2 [H2 _]; [| by apply Hend].
  assert (Hl : usable d s2 = true).
  { destruct H2 as (_ & L & _). apply bool_decide_eq_true. right. apply L. exact Hd. }
  apply wp_do.
  { simpl. rewrite Hl, (balanced_attached _ _ _ H2 Hc1), (balanced_usable m _ _ _ H2) by multiset_solver. done. }
  intros z _ _. apply wp_seq with (fun _ => balanced (opt_ref (Some m)) s1).
  { cbn [next]. unfold status. destruct (z <? 0)%Z; [| exact H2].
    apply wp_last; [| intros [] _ _; exact (balanced_printed _ _ _ (balanced_status (-1) _ _ _ H2))].
    destruct (raise_sets s2 (balanced_attached _ _ _ H2 Hc1)) as [Ha He]. cbn [pre]. by rewrite Ha, He. }
  intros [] s3 H3. eapply wp_seq; [apply (xdecref_wp (Some m) ∅ s1); [bal H3 | done] |].
  intros [] s4 H4. by apply Hend.
Qed.

Lemma inject_modules_wp d mods s :
  cur s ≠ None -> d ∈ lent s -> wp ok stop (inject_modules d mods) (fun _ => balanced ∅ s) s.
Proof.
  intros Hc Hd. enough (H : forall s1, balanced ∅ s s1 -> d ∈ lent s1 -> wp ok stop (inject_modules d mods) (fun _ => balanced ∅ s) s1)
    by (apply H; [apply balanced_refl | done]).
  induction mods as [| [path |] mods IH]; intros s1 H1 Hd1; [done | | done]. cbn [inject_modules].
  eapply wp_seq; [by apply inject_module_wp |]. intros [] s2 [H2 Hd2]. by apply IH.
Qed.

(** ** The application in its interpreter *)

Lemma run_in_subinterpreter_wp script mods i s :
  cur s = Some i -> tss s !! i = Some i -> prints script ->
  wp ok stop (run_in_subinterpreter script mods i) (fun _ s' => exists leak, balanced (opt_ref leak) s s') s.
Proof.
  intros Hc Hi Hpr. assert (Hn : cur s ≠ None) by (by rewrite Hc). pose proof (balanced_refl s) as H0.
  apply wp_do; [call_ok H0 Hn |]. intros c _ _. pose proof (balanced_own c _ _ _ H0) as H1.
  destruct c as [c |].
  2:{ apply wp_last; [| intros [] _ _; exists None; apply balanced_printed; bal H1].
      destruct (raise_sets s (balanced_attached _ _ _ H0 Hn)) as [Ha He]. cbn [pre next own]. by rewrite Ha, He. }
  cbn [next]. set (s1 := own (Some c) s) in *.
  assert (Hc1 : cur s1 = Some i) by done. assert (Hn1 : cur s1 ≠ None) by (by rewrite Hc1).
  apply wp_bind. eapply wp_mono; [by apply load_modules_wp |]. intros b s2 H2.
  apply wp_seq with (fun _ s' => exists leak, balanced (opt_ref leak) s1 s').
  - destruct b; [| exists None; exact H2].
    apply wp_do; [call_ok H2 Hn1 |]. intros so _ _. pose proof (balanced_own so _ _ _ H2) as H3.
    destruct so as [so |]; [| exists None; bal H3]. cbn [next]. set (s3 := own (Some so) s2) in *.
    apply wp_do; [call_ok H3 Hn1 |]. intros sd _ _.
    apply wp_do. { simpl. rewrite andb_true_iff. split; [apply (balanced_attached _ _ _ H3 Hn1) |]. apply bool_decide_eq_true. set_solver. }
    intros mo _ _. cbn [next].
    assert (H4 : balanced (opt_ref (Some so)) s1 (borrow mo (borrow (Some sd) s3))).
    { eapply balanced_eq; [apply balanced_borrow, balanced_borrow, H3 | multiset_solver]. }
    destruct mo as [mo |].
    2:{ eapply wp_mono; [apply (xdecref_wp (Some so) ∅ s1); [bal H4 | done] |]. intros [] s4 ?. by exists None. }
    set (s4 := borrow _ _) in *.
    assert (C4 : cur s4 ≠ None) by (destruct H4 as (_ & _ & _ & _ & -> & _); done).
    eapply wp_seq; [apply inject_modules_wp; [exact C4 | subst s4; simpl; set_solver] |].
    intros [] s5 H5. pose proof (balanced_trans _ _ _ _ _ H4 H5) as H6.
    eapply wp_seq; [apply (xdecref_wp (Some so) ∅ s1); [bal H6 | done] |]. intros [] s6 H7.
    eapply wp_mono; [apply run_subinterpreter_wp; [| | exact Hpr] |].
    { destruct H7 as (_ & _ & _ & _ & -> & _). done. }
    { destruct H7 as (_ & _ & _ & -> & _). done. }
    intros [] s7 [leak H8]. exists leak. pose proof (balanced_trans _ _ _ _ _ H7 H8) as H9. bal H9.
  - intros [] s3 [leak H3]. pose proof (balanced_trans _ _ _ _ _ H1 H3) as H4.
    eapply wp_mono; [apply (xdecref_wp (Some c) (opt_ref leak) s); [bal H4 | done] |]. intros [] s4 ?. by exists leak.
Qed.

(** The end of the interpreter of thread state [t], made from the thread state
    [MAIN_TS] and left with the references [leak]. *)
Lemma end_interpreter_wp {A} t leak (sh : A) s s1 :
  tss s = {[ MAIN_TS := MAIN_TS ]} -> t ≠ MAIN_TS -> locked s = false ->
  balanced (opt_ref leak) (new_ts t t (Some t) s) s1 ->
  wp ok stop (do (PyEval_ReleaseThread t);; do MutexLock;; do (PyEval_AcquireThread t);; do (Py_EndInterpreter t);;
         do MutexUnlock;; done (Some sh))
    (fun r s' => r = Some sh /\ balanced (opt_ref leak) (set_threads (tss s) None s) s') s1.
Proof.
  intros Ht Hne Hl (R & L & B & T & C & K & I); simpl in R, L, B, T, C, K, I.
  apply wp_do; [by apply bool_decide_eq_true |]. intros [] _ _.
  apply wp_do; [simpl; by rewrite K, Hl |]. intros [] _ _.
  apply wp_do. { simpl. rewrite T, lookup_insert_eq. by apply bool_decide_eq_true. }
  intros [] _ _. apply wp_do.
  { simpl. unfold only_ts. simpl. rewrite T, Ht, andb_true_iff. split; apply bool_decide_eq_true; [done |].
    rewrite lookup_insert_eq. intros u j [[-> _] | [Hu Hj]]%lookup_insert_Some; [by left | right].
    apply lookup_singleton_Some in Hj as [_ <-]. congruence. }
  intros [] _ _. apply wp_do; [done |]. intros [] _ _.
  split; [done |]. repeat split; simpl; try done.
  rewrite T. apply delete_insert_id. by rewrite Ht, lookup_singleton_ne.
Qed.

(** The state of a thread before the first application of the process. *)
Definition before_first (s : py) : Prop :=
  cur s = None /\ locked s = false /\ inited s = false /\ tss s = ∅.

(** The state after Python has been initialised. *)
Definition after_init (c : option nat) (s : py) : py :=
  mk_py (refs s) (lent s) (blocks s) {[ MAIN_TS := MAIN_TS ]} c false true (errs s) (cleared s).

Lemma start_first_wp env m s :
  before_first s -> prints (script_of env) ->
  wp ok stop (jrtc_start_app (Some env) (Some (mk_shared m false)))
    (fun r s' => r = Some (mk_shared (Some MAIN_TS) true) /\
       exists leak c, balanced (opt_ref leak) (after_init c s) s' /\
         (c = None \/ c = Some MAIN_TS /\ ok Py_NewInterpreter None = true)) s.
Proof.
  intros (Hc & Hl & Hi & Ht) Hpr. cbn [jrtc_start_app initialized main_ts].
  apply wp_do; [by simpl; rewrite Hl |]. intros [] _ _.
  apply wp_bind, wp_do; [done |]. intros b Hb _.
  apply bool_decide_eq_true in Hb. simpl in Hb. rewrite Hi in Hb. subst b.
  apply wp_bind, wp_do; [simpl; by rewrite Hi |]. intros [] _ _.
  apply wp_do; [done |]. intros mn Hm _. apply bool_decide_eq_true in Hm. simpl in Hm. injection Hm as <-.
  apply wp_do; [done |]. intros sub Hs Ho.
  assert (E : forall x, <[MAIN_TS := x]> (tss s) = {[ MAIN_TS := x ]}) by (intros x; by rewrite Ht, insert_empty).
  cbn [next valid set_locked refs lent blocks tss cur locked inited] in Hs |- *. rewrite E in *.
  destruct sub as [t |].
  2:{ apply wp_do; [done |]. intros [] _ _. split; [done |]. exists None, (Some MAIN_TS). split; [apply balanced_refl | auto]. }
  apply bool_decide_eq_true in Hs.
  assert (Hne : t ≠ MAIN_TS) by (intros ->; by rewrite lookup_singleton_eq in Hs).
  apply wp_do; [by apply bool_decide_eq_true |]. intros [] _ _.
  apply wp_do; [done |]. intros [] _ _.
  apply wp_do; [simpl; by rewrite lookup_insert_eq |]. intros [] _ _.
  apply wp_seq with (fun _ s' => exists leak,
    balanced (opt_ref leak) (new_ts t t (Some t) (after_init None s)) s').
  { apply run_in_subinterpreter_wp; [done | apply lookup_insert_eq | exact Hpr]. }
  intros [] s1 [leak H1]. eapply wp_mono; [by apply (end_interpreter_wp t leak _ (after_init None s)) |].
  intros r s2 [-> H2]. split; [done |]. exists leak, None. auto.
Qed.
End loader.

(** ** The theorems

    Answers of the API that obey its rules and for which the calls that
    [resources] names do not fail. *)
Definition answers (resources : forall c, answer c -> bool) (o : oracle) : Prop :=
  forall c s n, pre c s = true -> valid c (o c s n) s = true /\ resources c (o c s n) = true.

Definition is_some {A} (x : option A) : bool := match x with Some _ => true | None => false end.

(** Memory; [sys.path]; both, the tuple of arguments and the interpreter. *)
Definition memory (c : pycall) : answer c -> bool :=
  match c with Malloc _ => is_some | _ => fun _ => true end.
Definition paths (c : pycall) : answer c -> bool :=
  match c with PySys_GetObject _ => is_some | _ => fun _ => true end.
Definition resources (c : pycall) : answer c -> bool :=
  match c with
  | Malloc _ | PySys_GetObject _ | PyTuple_Pack _ | Py_NewInterpreter => is_some
  | _ => fun _ => true
  end.

(** The path of a script [dir/name.py] is taken apart into its folder and
    the name of its module, whatever the folder: the folder of [/name.py] is
    [/] and that of [name.py] is [./]. Both are strings in a new block of
    memory, the only block allocated. *)
Theorem script_path_spec o n s dir name :
  answers memory o -> "/"%char ∉ name ->
  let script := name ++ chars ".py" in
  let new content r := exists p, r = returned (Some (p, content)) (set_blocks (blocks s ∪ {[ p ]}) s) /\ (p ∉ blocks s) in
  new name (exec o n (get_file_name_without_py (Some (dir ++ ("/"%char :: script)))) s) /\
  new name (exec o n (get_file_name_without_py (Some script)) s) /\
  new (if decide (dir = []) then chars "/" else dir) (exec o n (get_folder (Some (dir ++ ("/"%char :: script)))) s) /\
  new (chars "./") (exec o n (get_folder (Some script)) s).
Proof.
  intros Ho Hn script new. destruct (script_path_parts dir name Hn) as (E1 & E2 & E3 & E4 & _).
  assert (F : forall path, new (name_of path) (exec o n (get_file_name_without_py (Some path)) s)).
  { intros path. edestruct (wp_returns memory _ _ o n s Ho (with_memory memory never _ _ s (fun _ => eq_refl) (get_file_name_wp memory never path s)))
      as (a & s' & -> & p & -> & Hp & ->). by exists p. }
  assert (G : forall path, new (folder_of path) (exec o n (get_folder (Some path)) s)).
  { intros path. edestruct (wp_returns memory _ _ o n s Ho (with_memory memory never _ _ s (fun _ => eq_refl) (get_folder_wp memory never path s)))
      as (a & s' & -> & p & -> & Hp & ->). by exists p. }
  rewrite <- E1, <- E3. rewrite <- E2 at 1. rewrite <- E4 at 2. auto.
Qed.

(** Importing a module is in balance: if [sys.path] exists then, whichever
    of the other calls fail, no rule of the API is broken, the caller gains
    the reference to the module that is returned and nothing else, and every
    block of memory is released. *)
Theorem import_python_module_balanced o n s path :
  answers paths o -> cur s ≠ None ->
  exists m s', exec o n (import_python_module path) s = returned m s' /\ balanced (opt_ref m) s s'.
Proof.
  intros Ho Hc. destruct (wp_returns paths _ _ o n s Ho (import_wp paths never (fun _ => eq_refl) path s Hc)) as (m & s' & E & H & _). eauto.
Qed.

(** The script can be imported and its entry point can be called. *)
Definition importable (c : pycall) : answer c -> bool :=
  match c with
  | PyUnicode_DecodeFSDefault _ | PyImport_Import _ => is_some
  | PyCallable_Check _ => id
  | _ => fun _ => true
  end.


(** When the interpreter cannot be made the application returns with the thread
    state of the main interpreter still attached, so with the GIL held. *)
Lemma failed_interpreter_keeps_gil o n env m s :
  answers (fun _ _ => true) o -> before_first s -> (forall s n, o Py_NewInterpreter s n = None) ->
  exec o n (jrtc_start_app (Some env) (Some (mk_shared m false))) s =
    returned (Some (mk_shared (Some MAIN_TS) true)) (after_init (Some MAIN_TS) s).
Proof.
  intros Ho (Hc & Hl & Hi & Ht) Hn. simpl. rewrite Hl. simpl.
  destruct (Ho Py_IsInitialized (set_locked true s) (S n) eq_refl) as [Hv _].
  apply bool_decide_eq_true in Hv as ->. simpl. rewrite Hi. simpl. rewrite Hi. simpl.
  set (s1 := mk_py _ _ _ _ _ _ _ _ _). destruct (Ho PyThreadState_Get s1 (S (S (S n))) eq_refl) as [Hv _].
  apply bool_decide_eq_true in Hv. simpl in Hv. injection Hv as Hv.
  unfold attached; simpl. rewrite Hn. simpl. rewrite <- Hv. unfold after_init, set_locked. simpl.
  by rewrite Ht, insert_empty.
Qed.

(** Every later application breaks the rules of the API: it asks for an
    interpreter while no thread state is attached to its thread, with the
    mutex held. *)
Theorem later_app_without_gil o n env m s :
  cur s = None -> locked s = false ->
  exec o n (jrtc_start_app (Some env) (Some (mk_shared m true))) s = broken Py_NewInterpreter (set_locked true s).
Proof. intros Hc Hl. simpl. rewrite Hl. unfold attached. simpl. by rewrite Hc. Qed.
