(* ===== verification/PyLoaderExample.v ===== *)
(** * The loader of Python applications, on concrete runs

    A Python that grants every call except those it is told to refuse, the
    hypotheses of the theorems of [PyLoaderFacts] for it, and the runs in which
    a refused call makes the loader break a rule or lose a reference. *)
From S2P Require Import Prelude Ext Router Sched Logging Controller PyLoader PyApi PyLoaderFacts.
From stdpp Require Import gmultiset.
From Stdlib Require Import Ascii.

(** Objects are numbered by the call that makes them. *)
Definition python (refuse : pycall -> bool) : oracle := fun c s n =>
  let new (x : nat) := if refuse c then None else Some x in
  match c return answer c with
  | Malloc _ => new (fresh (blocks s))
  | PySys_GetObject _ | PyUnicode_DecodeFSDefault _ | PyImport_Import _ | PyImport_ImportModule _
  | PyDict_GetItemString _ _ | PyObject_GetAttrString _ _ | PyCapsule_New | PyTuple_Pack _
  | PyObject_CallObject _ _ => new n
  | PyThreadState_New _ | Py_NewInterpreter => new (fresh (dom (tss s)))
  | PyModule_GetDict _ => n
  | PyThreadState_Get => default MAIN_TS (cur s)
  | PyList_Append _ _ | PyDict_SetItemString _ _ _ => 0%Z
  | PyCallable_Check _ => true
  | PyErr_Occurred => error_set s
  | Py_IsInitialized => inited s
  | _ => tt
  end.

Lemma python_valid refuse c s n : pre c s = true -> valid c (python refuse c s n) s = true.
Proof.
  intros Hp. destruct c; try done; simpl in *.
  - destruct (refuse _); [done |]. apply bool_decide_eq_true, is_fresh.
  - by apply bool_decide_eq_true.
  - destruct (refuse _); [done |]. apply bool_decide_eq_true, not_elem_of_dom, is_fresh.
  - apply bool_decide_eq_true. apply bool_decide_eq_true in Hp. by destruct (cur s).
  - by apply bool_decide_eq_true.
  - destruct (refuse _); [done |]. apply bool_decide_eq_true, not_elem_of_dom, is_fresh.
Qed.

Abbreviation granting := (python (fun _ => false)).

Lemma granting_memory : answers memory granting.
Proof. intros c s n Hp. split; [by apply python_valid | by destruct c]. Qed.
Lemma granting_paths : answers paths granting.
Proof. intros c s n Hp. split; [by apply python_valid | by destruct c]. Qed.
Lemma granting_importable : answers importable granting.
Proof. intros c s n Hp. split; [by apply python_valid | by destruct c]. Qed.
Lemma granting_resources : answers resources granting.
Proof. intros c s n Hp. split; [by apply python_valid | by destruct c]. Qed.

(** A thread before Python is initialised, and one with the interpreter 1. *)
Definition idle : py := mk_py ∅ ∅ ∅ ∅ None false false ∅ ∅.
Definition running : py := mk_py ∅ ∅ ∅ {[ 0%nat := 0%nat; 1%nat := 1%nat ]} (Some 1%nat) false true ∅ ∅.

Definition app_py : list ascii := chars "/apps/app.py".
Definition py_env : jrtc_app_env :=
  mk_app_env (Some (chars "app")) 1 None 100 false (mk_sched 0 0 0 0 0) (Some (chars "loader.so"))
    [mk_kv (Some (chars "python")) (Some app_py)] [] [Some (chars "/apps/proto.py"); None].

(** ** Witnesses *)

Lemma script_path_spec_witness :
  let new content r := exists p, r = returned (Some (p, content)) (set_blocks (blocks idle ∪ {[ p ]}) idle) /\ (p ∉ blocks idle) in
  new (chars "app") (exec granting 0 (get_file_name_without_py (Some app_py)) idle) /\
  new (chars "/apps") (exec granting 0 (get_folder (Some app_py)) idle).
Proof.
  assert (H : "/"%char ∉ chars "app") by (by intros ?%(bool_decide_pack _)).
  destruct (script_path_spec granting 0 idle (chars "/apps") (chars "app") granting_memory H) as (H1 & _ & H2 & _).
  split; [exact H1 | exact H2].
Defined.

Lemma import_python_module_balanced_witness :
  exists m s', exec granting 0 (import_python_module (Some app_py)) running = returned m s' /\ balanced (opt_ref m) running s'.
Proof. apply import_python_module_balanced; [exact granting_paths | done]. Defined.


Lemma later_app_without_gil_witness :
  exec granting 0 (jrtc_start_app (Some py_env) (Some (mk_shared (Some MAIN_TS) true))) (after_init None idle) =
    broken Py_NewInterpreter (set_locked true (after_init None idle)).
Proof. apply later_app_without_gil; reflexivity. Defined.

(** ** Refused calls *)

Definition refuse_tuple (c : pycall) : bool := match c with PyTuple_Pack _ => true | _ => false end.
Definition refuse_sys_path (c : pycall) : bool := match c with PySys_GetObject _ => true | _ => false end.

(** Whether the run stops at the release of an object that is not owned. *)
Definition releases_twice {A} (r : outcome A) : bool :=
  match r with broken (Py_DECREF o) s => bool_decide (o ∉ refs s) | _ => false end.

(** When the tuple of arguments cannot be made, the capsule is released
    twice. *)
Theorem capsule_released_twice :
  releases_twice (exec (python refuse_tuple) 0 (run_python_using_interpreter (Some app_py) (Some 1%nat) true) running) = true.
Proof. vm_compute. reflexivity. Qed.

(** The references that are lost: the result of the entry point on every
    successful run, and the object of the folder when [sys.path] is missing. *)
Theorem references_lost :
  (exists s, exec granting 0 (run_python_using_interpreter (Some app_py) (Some 1%nat) true) running = returned tt s /\ size (refs s) = 1%nat) /\
  (exists s, exec (python refuse_sys_path) 0 (import_python_module (Some app_py)) running = returned None s /\ size (refs s) = 1%nat).
Proof. split; eexists; split; [vm_compute; reflexivity | reflexivity | vm_compute; reflexivity | reflexivity]. Qed.

(** Whether the run stops at a [PyErr_Print] without an error. *)
Definition prints_nothing {A} (r : outcome A) : bool :=
  match r with broken PyErr_Print s => negb (error_set s) | _ => false end.
Definition refuse_import (c : pycall) : bool := match c with PyImport_Import _ => true | _ => false end.
Definition not_callable : oracle := fun c => match c with PyCallable_Check _ => fun _ _ => false | c => granting c end.

(** A script that cannot be imported has its error printed, and so cleared,
    before the caller prints it again; an entry point that is not callable sets
    no error at all. *)
Theorem prints_without_error :
  prints_nothing (exec (python refuse_import) 0 (run_python_using_interpreter (Some app_py) (Some 1%nat) true) running) = true /\
  prints_nothing (exec not_callable 0 (run_python_using_interpreter (Some app_py) (Some 1%nat) true) running) = true.
Proof. split; vm_compute; reflexivity. Qed.
