(* ===== verification/NorthIo.v ===== *)
(** * The north-bound IO application

    [src/src/controller/jrtc_north_io_app.c]: it receives what the router
    queued for it, serialises each message into a buffer of its own pool and
    sends the buffers in one batch. The batch is here, the rest of the
    application in [NorthIoApp]. *)
From S2P Require Import Prelude StreamId Ext Router RouterInv RouterForward RouterReceive.

Definition AA_OUT_BUFS_BATCH_SIZE : nat := 100.

(** [jrtc_router_channel_release_buf]: NULL is 0. *)
Definition jrtc_router_channel_release_buf (ptr : Z) : list io_event := if ptr =? 0 then [] else [IoRelease ptr].

Section NorthIo.
Context {M : Type} `{HM : Mempool M}.
(** [jrtc_router_create_serialized_msg]: the size of the message, or an error. *)
Variable create_serialized_msg : jrtc_router_data_entry -> Z.

(** The loop over the entries. [sent] is [jmbuf_list] with the sizes of the
    messages, of which there can be [AA_OUT_BUFS_BATCH_SIZE]. *)
Fixpoint encode_loop (entries : list jrtc_router_data_entry) (pool : M) (sent : list (nat * Z)) :
    outcome (M * list (nat * Z) * list io_event) :=
  match entries with
  | [] => Ret (pool, sent, [])
  | e :: entries =>
      match jbpf_mbuf_alloc pool with
      | None =>
          '(pool, sent, ev) ← encode_loop entries pool sent;
          Ret (pool, sent, jrtc_router_channel_release_buf (de_data e) ++ ev)
      | Some (mbuf, pool) =>
          let msg_size := create_serialized_msg e in
          if 0 <? msg_size then
            if decide (length sent < AA_OUT_BUFS_BATCH_SIZE)%nat then
              '(pool, sent, ev) ← encode_loop entries pool (sent ++ [(mbuf, msg_size)]);
              Ret (pool, sent, jrtc_router_channel_release_buf (de_data e) ++ ev)
            else Fault OutOfBounds
          else
            '(pool, sent, ev) ← encode_loop entries (jbpf_mbuf_free pool mbuf) sent;
            Ret (pool, sent, jrtc_router_channel_release_buf (de_data e) ++ ev)
      end
  end.

Definition free_all (pool : M) (sent : list (nat * Z)) : M := foldl (λ m x, jbpf_mbuf_free m x.1) pool sent.

(** The pool afterwards, the sizes of the datagrams handed to [sendmmsg], and
    the releases. What [sendmmsg] returns is only logged. *)
Definition aa_channel_encode_fwd_out_data (pool : M) (entries : list jrtc_router_data_entry) :
    outcome (M * list Z * list io_event) :=
  '(pool, sent, ev) ← encode_loop entries pool [];
  Ret (free_all pool sent, sent.*2, ev).

(** ** Theorems *)

Context `{LM : !MempoolLaws M}.

Definition releases (entries : list jrtc_router_data_entry) : list io_event :=
  concat ((jrtc_router_channel_release_buf ∘ de_data) <$> entries).

Lemma encode_loop_spec entries pool sent used : Permutation (pool_used pool) (sent.*1 ++ used) ->
  (length sent + length entries <= AA_OUT_BUFS_BATCH_SIZE)%nat ->
  exists pool' new, encode_loop entries pool sent = Ret (pool', sent ++ new, releases entries) /\
    Permutation (pool_used pool') ((sent ++ new).*1 ++ used) /\ pool_cap pool' = pool_cap pool /\
    (length new <= length entries)%nat /\ Forall (λ x, 0 < x.2) new /\
    (Z.of_nat (length (pool_used pool) + length entries) <= pool_cap pool ->
     new.*2 = filter (λ n, 0 < n) (create_serialized_msg <$> entries)).
Proof.
  revert pool sent. induction entries as [|e entries IH]; intros pool sent Hu Hl; cbn [encode_loop length] in *.
  { exists pool, []. rewrite app_nil_r. split_and!; try done; lia. }
  destruct (Z.lt_ge_cases (Z.of_nat (length (pool_used pool))) (pool_cap pool)) as [Hroom|Hfull].
  2: { rewrite mbuf_alloc_full by done. destruct (IH pool sent Hu) as (pool' & new & -> & H1 & H2 & H3 & H4 & H5); [lia|].
       exists pool', new. split_and!; [done|done|done|lia|done|lia]. }
  destruct (mbuf_alloc_ok _ Hroom) as (b & pool1 & -> & _ & Hp & Hc).
  destruct (Z.ltb_spec 0 (create_serialized_msg e)) as [Hs|Hs].
  - rewrite decide_True by lia.
    destruct (IH pool1 (sent ++ [(b, create_serialized_msg e)])) as (pool' & new & -> & H1 & H2 & H3 & H4 & H5).
    { rewrite Hp, Hu, fmap_app. cbn. rewrite <- app_assoc. cbn. by rewrite <- Permutation_middle. }
    { rewrite length_app. cbn. lia. }
    exists pool', ((b, create_serialized_msg e) :: new). rewrite <- app_assoc in *.
    split_and!; [done|done|congruence|cbn; lia|by constructor|].
    intros Hr. rewrite !fmap_cons, filter_cons_True by done. cbn [snd]. f_equal. apply H5. rewrite Hp, Hc. cbn. lia.
  - destruct (mbuf_free_spec pool1 b (pool_used pool) Hp) as [Hp' Hc'].
    destruct (IH (jbpf_mbuf_free pool1 b) sent) as (pool' & new & -> & H1 & H2 & H3 & H4 & H5); [by rewrite Hp'|lia|].
    exists pool', new. split_and!; [done|done|congruence|lia|done|].
    intros Hr. rewrite !fmap_cons, filter_cons_False by lia. apply H5. rewrite Hp', Hc', Hc. lia.
Qed.

Lemma free_all_spec sent pool used : Permutation (pool_used pool) (sent.*1 ++ used) ->
  Permutation (pool_used (free_all pool sent)) used /\ pool_cap (free_all pool sent) = pool_cap pool.
Proof.
  revert pool. induction sent as [|[b n] sent IH]; intros pool Hu; cbn in *; [done|].
  destruct (mbuf_free_spec pool b _ Hu) as [Hp Hc]. destruct (IH _ Hp) as [H1 H2]. split; [exact H1|exact (eq_trans H2 Hc)].
Qed.

Lemma encode_facts pool entries : (length entries <= AA_OUT_BUFS_BATCH_SIZE)%nat ->
  exists pool' sizes, aa_channel_encode_fwd_out_data pool entries = Ret (pool', sizes, releases entries) /\
    Permutation (pool_used pool') (pool_used pool) /\ pool_cap pool' = pool_cap pool /\
    Forall (λ n, 0 < n) sizes /\
    (Z.of_nat (length (pool_used pool) + length entries) <= pool_cap pool ->
     sizes = filter (λ n, 0 < n) (create_serialized_msg <$> entries)).
Proof.
  intros Hl. unfold aa_channel_encode_fwd_out_data.
  destruct (encode_loop_spec entries pool [] (pool_used pool)) as (pool' & new & -> & H1 & H2 & _ & H4 & H5); [done|done|].
  cbn [mbind outcome_bind app]. cbn [app] in H1. destruct (free_all_spec new pool' (pool_used pool) H1) as [H6 H7].
  eexists _, _. split; [reflexivity|]. split_and!; [done|congruence|by apply Forall_fmap|done].
Qed.

(** Forwarding a batch of at most 100 entries releases the buffer of each
    of them exactly once, returns every element it took to the pool, and sends
    the messages that could be serialised, in order and without loss when the
    pool has room for the batch. *)
Theorem encode_fwd_out_data_spec pool entries : (length entries <= AA_OUT_BUFS_BATCH_SIZE)%nat ->
  exists pool' sizes, aa_channel_encode_fwd_out_data pool entries = Ret (pool', sizes, releases entries) /\
    Permutation (pool_used pool') (pool_used pool) /\ pool_cap pool' = pool_cap pool /\
    Forall (λ n, 0 < n) sizes /\
    (Z.of_nat (length (pool_used pool) + length entries) <= pool_cap pool ->
     sizes = filter (λ n, 0 < n) (create_serialized_msg <$> entries)).
Proof. apply encode_facts. Qed.

End NorthIo.
