(* ===== verification/AppApi.v ===== *)
(** * The calls of applications

    Requests by name and what they select ([jrtc_router_channel_register_req]
    with [jrtc_router_generate_stream_id]) and sending through a channel. *)
From S2P Require Import Prelude StreamId StreamIdSpec Bloom BloomFacts Ext Router RouterLookup RouterInv RouterForward Logging.
From Stdlib Require Import Ascii.

(** ** Sending *)

Section Send.
(** The IO library: submitting the reserved buffer of a channel, and the
    element [jbpf_io_channel_reserve_buf] reserves, with its content. *)
Variable submit_buf : nat -> Z.
Variable reserve_buf : nat -> option (list Z).
Variable channels : gmap nat dapp_channel_ctx.

Definition jrtc_router_channel_send_output (chan : option nat) : outcome Z :=
  match chan with
  | None => Ret (-1)
  | Some p => c ← deref channels p; Ret (submit_buf (io_channel c))
  end.

(** [memcpy(dst, src, n)]. *)
Definition memcpy (dst src : list Z) (n : nat) : outcome (list Z) :=
  if decide (n <= length dst /\ n <= length src)%nat then Ret (take n src ++ drop n dst) else Fault OutOfBounds.

(** The return value, and the content of the element that was submitted. *)
Definition jrtc_router_channel_send_output_msg (chan : option nat) (data : option (list Z)) (data_len : nat) :
    outcome (Z * option (list Z)) :=
  match chan with
  | None => Ret (-1, None)
  | Some p =>
      match data with
      | None => Ret (-1, None)
      | Some src =>
          if decide (data_len = 0)%nat then Ret (-1, None)
          else
            c ← deref channels p;
            match reserve_buf (io_channel c) with
            | None => Ret (-1, None)
            | Some dst => dst ← memcpy dst src data_len; Ret (submit_buf (io_channel c), Some dst)
            end
      end
  end.

Definition jrtc_router_channel_reserve_buf (chan : option nat) : outcome (option (list Z)) :=
  match chan with
  | None => Ret None
  | Some p => c ← deref channels p; Ret (reserve_buf (io_channel c))
  end.

(** [find] is [jbpf_io_find_channel] for input channels; the contexts are
    NULL or not. *)
Definition jrtc_router_input_channel_exists (router_ctx io_ctx : bool) (find : jrtc_router_stream_id -> bool)
    (stream_id : jrtc_router_stream_id) : Z :=
  if negb router_ctx then 0 else if negb io_ctx then 0 else if find stream_id then 1 else 0.

(** [send_msg], [pack_msg] and [unpack_msg] are [jbpf_io_channel_send_msg],
    [jbpf_io_channel_pack_msg] and [jbpf_io_channel_unpack_msg] on the router's
    IO context. *)
Definition jrtc_router_channel_send_input_msg (send_msg : jrtc_router_stream_id -> option (list Z) -> nat -> Z)
    (stream_id : jrtc_router_stream_id) (data : option (list Z)) (data_len : nat) : Z := send_msg stream_id data data_len.

Definition jrtc_router_create_serialized_msg (pack_msg : Z -> nat -> Z * list Z)
    (data_entry : jrtc_router_data_entry) (buf_len : nat) : Z * list Z := pack_msg (de_data data_entry) buf_len.

(** The buffer, or NULL, and the stream id that is written through the pointer;
    [req_id] is not used. *)
Definition jrtc_router_deserialize_msg (unpack_msg : list Z -> nat -> option Z * jrtc_router_stream_id)
    (in_data : list Z) (in_data_size : nat) : option Z * jrtc_router_stream_id := unpack_msg in_data in_data_size.

(** Sending a message copies it to the front of the reserved element and
    returns what submitting returns, as long as it fits; a message longer than
    the element is not refused, it is written past the element's end. *)
Theorem send_output_msg_spec p c src n dst : channels !! p = Some c -> reserve_buf (io_channel c) = Some dst ->
  (0 < n <= length src)%nat ->
  ((n <= length dst)%nat -> jrtc_router_channel_send_output_msg (Some p) (Some src) n =
     Ret (submit_buf (io_channel c), Some (take n src ++ drop n dst))) /\
  ((length dst < n)%nat -> jrtc_router_channel_send_output_msg (Some p) (Some src) n = Fault OutOfBounds).
Proof.
  intros Hc Hr Hn. unfold jrtc_router_channel_send_output_msg, memcpy. rewrite decide_False by lia.
  rewrite (deref_Some _ _ _ Hc). cbn [mbind outcome_bind]. rewrite Hr.
  split; intros Hl; [rewrite decide_True by lia|rewrite decide_False by lia]; done.
Qed.
End Send.

Definition example_channels : gmap nat dapp_channel_ctx := {[30%nat := mk_channel 40 example_sid 10 true]}.

Lemma send_output_msg_spec_witness :
  jrtc_router_channel_send_output_msg (fun _ => 0) (fun _ => Some [0; 0; 0]) example_channels (Some 30%nat) (Some [7; 8]) 2 =
    Ret (0, Some [7; 8; 0]) /\
  jrtc_router_channel_send_output_msg (fun _ => 0) (fun _ => Some [0]) example_channels (Some 30%nat) (Some [7; 8]) 2 =
    Fault OutOfBounds.
Proof.
  split.
  - apply (proj1 (send_output_msg_spec (fun _ => 0) (fun _ => Some [0; 0; 0]) example_channels 30
      (mk_channel 40 example_sid 10 true) [7; 8] 2 [0; 0; 0] eq_refl eq_refl ltac:(cbn; lia))). cbn. lia.
  - apply (proj2 (send_output_msg_spec (fun _ => 0) (fun _ => Some [0]) example_channels 30
      (mk_channel 40 example_sid 10 true) [7; 8] 2 [0] eq_refl eq_refl ltac:(cbn; lia))). cbn. lia.
Defined.

(** ** Requests by name *)

(** A request gives a field or leaves it open. *)
Definition selects_number (any req v : Z) : Prop := req = v \/ req = any.
Definition selects_name (req : option string) (v : option string) : Prop := req = v \/ req = None.

Section Names.
Context {cs : CharSign}.

Lemma name_field_selects req o vr v : name_field req vr -> name_field o v -> selects_name req o ->
  vr = v \/ vr = 2 ^ 54 - 1.
Proof.
  intros Hr Hv [->| ->]; [left|by right]. destruct o; cbn in *; congruence.
Qed.

Lemma generated_generalises fd dv p n fd' dv' p' n' :
  selects_number JRTC_ROUTER_DEST_ANY fd' fd -> selects_number JRTC_ROUTER_DEVICE_ID_ANY dv' dv ->
  selects_name p' p -> selects_name n' n ->
  exists sid req,
    generated_id (true, true) (true, true) fd dv p n = Ret sid /\
    generated_id (true, true) (true, true) fd' dv' p' n' = Ret req /\
    stream_id_wf sid /\ stream_id_wf req /\ generalises (decode req) (decode sid).
Proof.
  intros Hf Hd Hp Hn. unfold generated_id.
  destruct (generate_stream_id_facts (mk_stream_id []) fd dv p n) as (sid & vp & vn & -> & W & D & Fp & Fn & _).
  destruct (generate_stream_id_facts (mk_stream_id []) fd' dv' p' n') as (req & vp' & vn' & -> & W' & D' & Fp' & Fn' & _).
  exists sid, req. cbn [mbind outcome_bind]. split_and!; try done. rewrite D, D'. unfold generalises. cbn.
  split_and!; [done| | |by apply (name_field_selects p' p)|by apply (name_field_selects n' n)].
  - destruct Hf as [->| ->]; [by left|by right].
  - destruct Hd as [->| ->]; [by left|by right].
Qed.
End Names.

Section Requests.
Context {cs : CharSign}.
Context {B It T C R M S : Type}.
Context `{HB : CkBitmap B It} `{HT : CkHt T nat} `{HC : CkPtrHt C} `{HR : CkRing R} `{HM : Mempool M} `{HS : JbpfIo S}.
Context `{LB : !CkBitmapLaws B It} `{LT : !CkHtLaws T nat} `{LC : !CkPtrHtLaws C} `{LR : !CkRingLaws R} `{LM : !MempoolLaws M}.

(** C8: an application that asks, by name, for a destination, device, path and
    name, each given or left open, is from then on among the receivers of every
    stream created with a destination, device, path and name it selects. *)
Theorem register_req_by_name r env c d fd dv p n fd' dv' p' n' r' :
  router_wf r -> request_env_fresh r env -> dapps r !! c = Some d ->
  selects_number JRTC_ROUTER_DEST_ANY fd' fd -> selects_number JRTC_ROUTER_DEVICE_ID_ANY dv' dv ->
  selects_name p' p -> selects_name n' n ->
  jrtc_router_channel_register_req r env (true, true) (true, true) (Some c) fd' dv' p' n' = Ret (r', 1) ->
  exists sid, generated_id (true, true) (true, true) fd dv p n = Ret sid /\
    router_wf r' /\ interested r' sid (app_id d) = true.
Proof.
  intros W Hf Hd H1 H2 H3 H4. unfold jrtc_router_channel_register_req.
  destruct (generated_generalises fd dv p n fd' dv' p' n' H1 H2 H3 H4) as (sid & req & Es & Er & Ws & Wr & Hg).
  rewrite Er. cbn [mbind outcome_bind].
  destruct (register_req_facts r env c d req W Hf Hd) as (r1 & res & -> & W1 & _ & _ & Hres). intros [= -> ->].
  exists sid. split; [done|]. split; [done|]. destruct Hres as [[_ Hs]|[? _]]; [|done].
  apply interested_spec; [done|]. exists req. split_and!; try done. rewrite (Hs (app_id d) req). by rewrite decide_True.
Qed.
End Requests.
