(* ===== verification/Agent.v ===== *)
(** * The agent

    [src/src/agent/jrtc_agent.c]: the side of a stream that runs beside a
    program with codelets. Its state are the two globals of the file and the
    context of the IO library. *)
From S2P Require Import Prelude StreamId StreamIdSpec Bloom BloomFacts Ext Router RouterLookup Logging Config ConfigFacts AppApi.
From Stdlib Require Import Ascii.

(** [global_stream_path]: NULL, a string on the heap, or the address of a
    string that has been freed. *)
Inductive heap_path :=
| PathNull
| PathLive (path : string)
| PathFreed.

Record agent_state := mk_agent {
  global_device_id : Z;
  global_stream_path : heap_path;
  io_ctx : bool
}.

Definition agent_initial : agent_state := mk_agent 0 PathNull false.

(** [struct jbpf_io_config] as [agent_init] fills it: its three strings. *)
Record agent_config := mk_agent_config {
  ac_ipc_name : list ascii;
  ac_path : list ascii;
  ac_namespace : list ascii
}.

(** [jrtc_agent_schema_definition]. *)
Record schema_definition := mk_schema {
  sd_decoder : list Z;
  sd_encoder : list Z;
  sd_name : option string;
  sd_elem_size : Z
}.

(** The channel that is asked for from the IO library. *)
Record agent_channel := mk_agent_channel {
  ag_output : bool;
  ag_num_elems : Z;
  ag_elem_size : Z;
  ag_stream_id : list Z;
  ag_code : list Z
}.

Section Agent.
Context {cs : CharSign}.
Variables JBPF_IO_IPC_MAX_NAMELEN JBPF_RUN_PATH_LEN JBPF_NAMESPACE_LEN : nat.
Variables JBPF_DEFAULT_RUN_PATH JBPF_DEFAULT_NAMESPACE : list ascii.

(** [io_init] is what [jbpf_io_init] returns for a configuration (a context or
    NULL), [strdup_ok] whether the copy of the path could be allocated. *)
Definition agent_init (st : agent_state) (io_init : agent_config -> bool) (strdup_ok : bool) (channel_name : list ascii)
    (device_id : Z) (stream_path : string) : outcome (Z * agent_state) :=
  if decide (JBPF_IO_IPC_MAX_NAMELEN < length channel_name + 1)%nat then Ret (-1, st)
  else
    name ← copy_name (replicate JBPF_IO_IPC_MAX_NAMELEN NUL) channel_name JBPF_IO_IPC_MAX_NAMELEN;
    path ← copy_name (replicate JBPF_RUN_PATH_LEN NUL) JBPF_DEFAULT_RUN_PATH JBPF_RUN_PATH_LEN;
    ns ← copy_name (replicate JBPF_NAMESPACE_LEN NUL) JBPF_DEFAULT_NAMESPACE JBPF_NAMESPACE_LEN;
    if negb (io_init (mk_agent_config name path ns)) then Ret (-2, st)
    else if negb strdup_ok then Ret (-3, mk_agent device_id PathNull true)
    else Ret (0, mk_agent device_id (PathLive stream_path) true).

(** [free] of NULL does nothing; the pointer keeps its value. *)
Definition agent_stop (st : agent_state) : outcome agent_state :=
  match global_stream_path st with
  | PathNull => Ret (mk_agent (global_device_id st) PathNull false)
  | PathLive _ => Ret (mk_agent (global_device_id st) PathFreed false)
  | PathFreed => Fault DoubleFree
  end.

(** [generate_stream_id] of the agent: the bytes of the router's id; the
    return value of the generator is ignored. *)
Definition agent_generate_stream_id (mp mn : bool * bool) (fwd_dst device_id : Z) (stream_path : heap_path)
    (name : option string) : outcome (list Z) :=
  path ← match stream_path with
         | PathNull => Ret None
         | PathLive p => Ret (Some p)
         | PathFreed => Fault UseAfterFree
         end;
  sid ← generated_id mp mn fwd_dst device_id path name;
  Ret (take 16 (id sid)).

(** [agent_create_input_channel] with [output = false] and
    [agent_create_output_channel] with [output = true]: the channel that is
    asked for, or NULL. *)
Definition agent_create_channel (output : bool) (st : agent_state) (mp mn : bool * bool) (fwd_dst num_elems : Z)
    (schema : schema_definition) : outcome (option agent_channel) :=
  if negb (io_ctx st) then Ret None
  else
    sid ← agent_generate_stream_id mp mn fwd_dst (global_device_id st) (global_stream_path st) (sd_name schema);
    Ret (Some (mk_agent_channel output num_elems (sd_elem_size schema) sid
                 (if output then sd_encoder schema else sd_decoder schema))).

(** Whether the IO library is called. *)
Definition agent_destroy_channel (st : agent_state) : bool := io_ctx st.

(** ** Theorems *)

Lemma cstr_app_nul a k : NUL ∉ a -> cstr (a ++ replicate (S k) NUL) = a.
Proof.
  induction a as [|c a IH]; intros Ha; [done|]. cbn [app cstr]. apply not_elem_of_cons in Ha as [Hc Ha].
  rewrite decide_False by done. by rewrite IH.
Qed.

(** A string that fits is copied whole. *)
Lemma copy_name_fits n a : (length a < n)%nat -> copy_name (replicate n NUL) a n = Ret (a ++ replicate (n - length a) NUL).
Proof.
  intros Hl. unfold copy_name, strncpy. rewrite decide_True by (rewrite length_replicate; lia). cbn [mbind outcome_bind].
  assert (E : take (n - 1) (a ++ replicate (n - 1) NUL) ++ drop (n - 1) (replicate n NUL) = a ++ replicate (n - length a) NUL).
  { rewrite take_app_ge, <- app_assoc by lia. f_equal. rewrite take_replicate, drop_replicate, <- replicate_add. f_equal. lia. }
  rewrite E, array_set_lt by (rewrite length_app, length_replicate; lia). f_equal.
  apply list_insert_id. rewrite lookup_app_r by lia. apply lookup_replicate. split; [done|lia].
Qed.

Hypothesis lengths : (0 < JBPF_IO_IPC_MAX_NAMELEN /\ 0 < JBPF_RUN_PATH_LEN /\ 0 < JBPF_NAMESPACE_LEN)%nat.

(** [agent_init] on each of its paths. *)
Lemma agent_init_cases st io_init strdup_ok chan dev path :
  exists cfg, (NUL ∉ chan -> (length chan < JBPF_IO_IPC_MAX_NAMELEN)%nat -> cstr (ac_ipc_name cfg) = chan) /\
    agent_init st io_init strdup_ok chan dev path = Ret
      (if decide (JBPF_IO_IPC_MAX_NAMELEN <= length chan)%nat then (-1, st)
       else if io_init cfg then
         if strdup_ok then (0, mk_agent dev (PathLive path) true) else (-3, mk_agent dev PathNull true)
       else (-2, st)).
Proof.
  destruct lengths as (L1 & L2 & L3). unfold agent_init.
  destruct (copy_name_buf_ok JBPF_RUN_PATH_LEN JBPF_RUN_PATH_LEN JBPF_DEFAULT_RUN_PATH) as (bp & Ep & _); [lia|].
  destruct (copy_name_buf_ok JBPF_NAMESPACE_LEN JBPF_NAMESPACE_LEN JBPF_DEFAULT_NAMESPACE) as (bn & En & _); [lia|].
  destruct (decide (JBPF_IO_IPC_MAX_NAMELEN <= length chan)%nat) as [Hl|Hl].
  { exists (mk_agent_config [] [] []). rewrite decide_True by lia. split; [lia|done]. }
  rewrite decide_False, (copy_name_fits _ chan), Ep, En by lia. cbn [mbind outcome_bind].
  exists (mk_agent_config (chan ++ replicate (JBPF_IO_IPC_MAX_NAMELEN - length chan) NUL) bp bn). split.
  - intros Hn _. cbn [ac_ipc_name]. destruct (JBPF_IO_IPC_MAX_NAMELEN - length chan)%nat as [|k] eqn:Ek; [lia|]. by apply cstr_app_nul.
  - destruct (io_init _); [|done]. by destruct strdup_ok.
Qed.

(** A stream an initialised agent creates has the destination of the
    channel, the device and path of the agent, and the name of its schema; an
    application that asks for the agent's device and path, and leaves the rest
    open, selects all of its streams, of both directions. *)
Theorem agent_stream_selected st0 io_init strdup_ok chan dev path st output fd n schema name :
  agent_init st0 io_init strdup_ok chan dev path = Ret (0, st) -> sd_name schema = Some name ->
  exists c req, agent_create_channel output st (true, true) (true, true) fd n schema = Ret (Some c) /\
    generated_id (true, true) (true, true) JRTC_ROUTER_DEST_ANY dev (Some path) None = Ret req /\
    stream_id_wf (mk_stream_id (ag_stream_id c)) /\ generalises (decode req) (decode (mk_stream_id (ag_stream_id c))) /\
    ag_output c = output /\ ag_elem_size c = sd_elem_size schema /\
    ag_code c = (if output then sd_encoder schema else sd_decoder schema).
Proof.
  intros Hi Hname. destruct (agent_init_cases st0 io_init strdup_ok chan dev path) as (cfg & _ & E).
  rewrite E in Hi. destruct (decide _); [done|]. destruct (io_init cfg); [|done]. destruct strdup_ok; [|done].
  injection Hi as <-. unfold agent_create_channel, agent_generate_stream_id. cbn [negb io_ctx global_device_id global_stream_path].
  cbn [mbind outcome_bind]. rewrite Hname.
  destruct (generated_generalises fd dev (Some path) (Some name) JRTC_ROUTER_DEST_ANY dev (Some path) None)
    as (sid & req & -> & -> & W & _ & Hg); [by right|by left|by left|by right|].
  cbn [mbind outcome_bind]. eexists _, req. split; [reflexivity|]. cbn [ag_stream_id ag_output ag_elem_size ag_code].
  assert (Ht : take 16 (id sid) = id sid) by (apply take_ge; destruct W as [-> _]; done).
  rewrite Ht. split_and!; try done; destruct sid; done.
Qed.

(** The life of an agent. A name that does not fit is refused before the
    IO library is started, one that fits is handed to it whole; whatever
    [agent_init] returns, the agent can be stopped, after which it creates and
    destroys no channels; stopping it a second time frees the path twice. *)
Theorem agent_lifecycle io_init strdup_ok chan dev path :
  exists code st st', agent_init agent_initial io_init strdup_ok chan dev path = Ret (code, st) /\
    agent_stop st = Ret st' /\
    (code = -1 <-> (JBPF_IO_IPC_MAX_NAMELEN <= length chan)%nat) /\ (code = -1 \/ code = -2 -> st = agent_initial) /\
    (forall output fd n schema, agent_create_channel output st' (true, true) (true, true) fd n schema = Ret None) /\
    agent_destroy_channel st' = false /\
    (code = 0 -> agent_stop st' = Fault DoubleFree) /\
    (code = 0 -> NUL ∉ chan -> exists cfg, io_init cfg = true /\ cstr (ac_ipc_name cfg) = chan).
Proof.
  destruct (agent_init_cases agent_initial io_init strdup_ok chan dev path) as (cfg & Hc & ->).
  destruct (decide _) as [Hl|Hl]; [|destruct (io_init cfg) eqn:Ei; [destruct strdup_ok|]];
    (eexists _, _, _; split; [reflexivity|]; split; [reflexivity|]);
    split_and!; try done; first [by intros [?|?]|intros _ Hn; exists cfg; split; [done|apply Hc; [done|lia]]|split; done || lia].
Qed.
End Agent.

(** ** Witnesses *)

#[local] Instance signed_char_g : CharSign := true.

Definition ex_schema : schema_definition := mk_schema [1] [2] (Some "name") 4.

Lemma agent_stream_selected_witness : exists c,
  agent_create_channel true (mk_agent 1 (PathLive "path") true) (true, true) (true, true) 1 100 ex_schema = Ret (Some c) /\
  stream_id_wf (mk_stream_id (ag_stream_id c)).
Proof.
  destruct (agent_stream_selected 32 64 32 (chars "/var/run/jbpf") (chars "jbpf") ltac:(lia) agent_initial (fun _ => true) true
    (chars "jrt_controller") 1 "path" (mk_agent 1 (PathLive "path") true) true 1 100 ex_schema "name" eq_refl eq_refl)
    as (c & req & E & _ & W & _). eauto.
Defined.

Lemma agent_lifecycle_witness : exists st',
  agent_stop (mk_agent 1 (PathLive "path") true) = Ret st' /\ agent_stop st' = Fault DoubleFree.
Proof.
  destruct (agent_lifecycle 32 64 32 (chars "/var/run/jbpf") (chars "jbpf") ltac:(lia) (fun _ => true) true
    (chars "jrt_controller") 1 "path") as (code & st & st' & E & Es & _ & _ & _ & _ & Hd & _).
  vm_compute in E. injection E as <- <-. exists st'. split; [exact Es|]. apply Hd. reflexivity.
Defined.
