(* ===== verification/NorthIoApp.v ===== *)
(** * The north-bound IO application, from its start

    [src/src/controller/jrtc_north_io_app.c]: the sockets and the pool of
    [aa_net_init], and [jrtc_start_app], which asks for every stream whose
    destination is UDP and forwards what it receives until it is stopped. *)
From S2P Require Import Prelude StreamId StreamIdSpec Bloom BloomFacts Ext Router RouterLookup RouterInv RouterForward RouterReceive RouterInit AppApi NorthIo.

Definition AF_INET : Z := 2.
Definition INADDR_ANY : Z := 0.
Definition AA_NET_OUT_DEFAULT_PORT : Z := 20788.
Definition AA_NET_IN_DEFAULT_PORT : Z := 1924.
Definition AA_NET_MAX_FQDN_SIZE : nat := 256.

(** Addresses and ports are in network byte order. *)
Record sockaddr_in := mk_sockaddr { sin_family : Z; sin_port : Z; s_addr : Z }.

(** [htons] of an [int] on a little-endian machine: the low 16 bits, swapped. *)
Definition htons (p : Z) : Z := ((p mod 256) * 256) + ((p / 256) mod 256).

(** What [aa_net_init] can hold. *)
Inductive net_resource :=
| NetPool
| NetSocket (fd : Z).

#[global] Instance net_resource_eq_dec : EqDecision net_resource.
Proof. solve_decision. Defined.

(** [strncpy(dst, src, n)]: the bytes of [src] up to its NUL, cut at [n], then
    NULs up to [n]; the rest of [dst] stays. *)
Definition strncpy (dst src : list Z) (n : nat) : list Z :=
  take n (src ++ replicate n 0) ++ drop n dst.

Section NorthIoApp.
Context {M : Type} `{HM : Mempool M}.

Record aa_net_info := mk_net_info {
  in_sockfd : Z;
  out_sockfd : Z;
  net_mempool : option M;
  collector_addr : sockaddr_in;
  control_input_addr : sockaddr_in;
  fqdn : list Z
}.

(** [struct aa_net_info net_info = {0}]. *)
Definition net_info_zero : aa_net_info :=
  mk_net_info 0 0 None (mk_sockaddr 0 0 0) (mk_sockaddr 0 0 0) (replicate AA_NET_MAX_FQDN_SIZE 0).

(** What the system calls answer: the two descriptors, [bind], [connect], the
    resolver and [jbpf_init_mempool]. What [getsockopt] says is only logged. *)
Record net_env := mk_net_env {
  ne_pool : option M;
  ne_socket_in : Z;
  ne_bind : Z;
  ne_socket_out : Z;
  ne_getaddrinfo : list Z -> option sockaddr_in;
  ne_connect : Z
}.

Definition equal_addr (a b : sockaddr_in) : bool := s_addr a =? s_addr b.

Definition upd_collector (i : aa_net_info) (a : sockaddr_in) : aa_net_info :=
  mk_net_info (in_sockfd i) (out_sockfd i) (net_mempool i) a (control_input_addr i) (fqdn i).

(** The address and the family are exchanged one after the other, the port stays. *)
Definition aa_net_update_fqdn (env : net_env) (i : aa_net_info) : Z * aa_net_info :=
  match ne_getaddrinfo env (fqdn i) with
  | None => (-1, i)
  | Some tmp =>
      if equal_addr (collector_addr i) tmp then (0, i)
      else (0, upd_collector i (mk_sockaddr (sin_family tmp) (sin_port (collector_addr i)) (s_addr tmp)))
  end.

(** The return value, the structure, and the descriptors that are open. *)
Definition _aa_net_open_output_socket (env : net_env) (i : aa_net_info) (out_port : Z) :
    Z * aa_net_info * list net_resource :=
  let i := mk_net_info (in_sockfd i) (ne_socket_out env) (net_mempool i) (collector_addr i) (control_input_addr i) (fqdn i) in
  if out_sockfd i <? 0 then (-1, i, [])
  else
    let i := upd_collector i (mk_sockaddr AF_INET (htons out_port) (s_addr (collector_addr i))) in
    let '(_, i) := aa_net_update_fqdn env i in
    if ne_connect env <? 0 then (-1, i, [NetSocket (out_sockfd i)]) else (0, i, [NetSocket (out_sockfd i)]).

Definition _aa_net_open_input_socket (env : net_env) (i : aa_net_info) (in_port : Z) :
    Z * aa_net_info * list net_resource :=
  let i := mk_net_info (ne_socket_in env) (out_sockfd i) (net_mempool i) (collector_addr i) (control_input_addr i) (fqdn i) in
  if in_sockfd i <? 0 then (-1, i, [])
  else
    let i := mk_net_info (in_sockfd i) (out_sockfd i) (net_mempool i) (collector_addr i)
               (mk_sockaddr AF_INET (htons in_port) INADDR_ANY) (fqdn i) in
    if ne_bind env <? 0 then (-1, i, [NetSocket (in_sockfd i)]) else (0, i, [NetSocket (in_sockfd i)]).

(** [close(fd)] and [jbpf_destroy_mempool] take out one resource. *)
Definition drop_resource (x : net_resource) (l : list net_resource) : list net_resource :=
  filter (λ y, y <> x) l.

(** [net_info->net_mempool] keeps the address of a pool that was destroyed. *)
Definition aa_net_init (env : net_env) (i : aa_net_info) (in_port : Z) (name : list Z) (out_port : Z) :
    Z * aa_net_info * list net_resource :=
  let i := mk_net_info (in_sockfd i) (out_sockfd i) (ne_pool env) (collector_addr i) (control_input_addr i)
             (strncpy (fqdn i) name (AA_NET_MAX_FQDN_SIZE - 1)) in
  match net_mempool i with
  | None => (-1, i, [])
  | Some _ =>
      let live := [NetPool] in
      let '(res, i, fds) := _aa_net_open_input_socket env i in_port in
      let live := fds ++ live in
      if negb (res =? 0) then (-1, i, drop_resource NetPool live)
      else
        let '(res, i, fds) := _aa_net_open_output_socket env i out_port in
        let live := fds ++ live in
        if negb (res =? 0) then (-1, i, drop_resource (NetSocket (in_sockfd i)) (drop_resource NetPool live))
        else (0, i, live)
  end.

Definition aa_net_stop (i : aa_net_info) (live : list net_resource) : list net_resource :=
  drop_resource (NetSocket (out_sockfd i)) (drop_resource (NetSocket (in_sockfd i)) live).

(** ** jrtc_start_app *)

Section Start.
Context {cs : CharSign}.
Context {B It T C R N S : Type}.
Context `{HB : CkBitmap B It} `{HT : CkHt T nat} `{HC : CkPtrHt C} `{HR : CkRing R} `{HN : Mempool N} `{HS : JbpfIo S}.
Variable create_serialized_msg : jrtc_router_data_entry -> Z.

Abbreviation router := (jrtc_router_ctx B T C R N).

(** The pool the encoding allocates from. *)
Definition live_pool (i : aa_net_info) (live : list net_resource) : outcome M :=
  match net_mempool i with
  | None => Fault NullDeref
  | Some m => if decide (NetPool ∈ live) then Ret m else Fault UseAfterFree
  end.

(** One round of the loop; [others] is what the other threads do before it. *)
Definition start_round (ctx : nat) (i : aa_net_info) (live : list net_resource) (others : router * S -> router * S)
    (r : router) (io : S) : outcome (router * S * aa_net_info * list Z * list io_event) :=
  let '(r, io) := others (r, io) in
  '(r, io, entries) ← jrtc_router_receive r io ctx AA_OUT_BUFS_BATCH_SIZE;
  if decide (0 < length entries)%nat then
    m ← live_pool i live;
    '(m, sizes, ev) ← aa_channel_encode_fwd_out_data create_serialized_msg m entries;
    Ret (r, io, mk_net_info (in_sockfd i) (out_sockfd i) (Some m) (collector_addr i) (control_input_addr i) (fqdn i), sizes, ev)
  else Ret (r, io, i, [], []).

(** The rounds until [app_exit] is seen. *)
Fixpoint start_loop (ctx : nat) (i : aa_net_info) (live : list net_resource) (rounds : list (router * S -> router * S))
    (r : router) (io : S) : outcome (router * S * aa_net_info * list Z * list io_event) :=
  match rounds with
  | [] => Ret (r, io, i, [], [])
  | others :: rounds =>
      '(r, io, i, sizes, ev) ← start_round ctx i live others r io;
      '(r, io, i, sizes', ev') ← start_loop ctx i live rounds r io;
      Ret (r, io, i, sizes ++ sizes', ev ++ ev')
  end.

(** How the application ends: with its loop, or with [exit(0)]. *)
Inductive app_end :=
| Exited
| Stopped (r : router) (io : S) (live : list net_resource) (sizes : list Z) (ev : list io_event).

(** [in_port], [name] and [out_port] are the values of the environment variables
    or the defaults. The results of the generator, of [aa_net_init] and of
    [jrtc_thread_set_scheduler] (in [Sched]), which changes nothing here, are
    not looked at. *)
Definition jrtc_start_app (env : net_env) (renv : request_env) (mp mn : bool * bool) (ctx : nat) (in_port : option Z)
    (name : list Z) (out_port : option Z) (rounds : list (router * S -> router * S)) (r : router) (io : S) :
    outcome app_end :=
  sid ← generated_id mp mn JRTC_ROUTER_DEST_UDP JRTC_ROUTER_DEVICE_ID_ANY None None;
  let '(_, i, live) := aa_net_init env net_info_zero (default AA_NET_IN_DEFAULT_PORT in_port) name
                         (default AA_NET_OUT_DEFAULT_PORT out_port) in
  '(r, res) ← jrtc_router_channel_register_stream_id_req r renv (Some ctx) sid;
  if res =? 1 then
    '(r, io, i, sizes, ev) ← start_loop ctx i live rounds r io;
    Ret (Stopped r io (aa_net_stop i live) sizes ev)
  else Ret Exited.
End Start.
End NorthIoApp.

(** ** Setup *)

Section Setup.
Context {M : Type} `{HM : Mempool M}.

(** Every step of the setup worked. *)
Definition net_env_good (env : net_env (M := M)) : Prop :=
  is_Some (ne_pool env) /\ 0 <= ne_socket_in env /\ 0 <= ne_bind env /\ 0 <= ne_socket_out env /\ 0 <= ne_connect env.

(** What is held after the setup: nothing that is still needed is missing when
    it succeeds; when it fails, the descriptor whose [bind] or [connect] failed
    is not closed. *)
Definition held (env : net_env (M := M)) : list net_resource :=
  match ne_pool env with
  | None => []
  | Some _ =>
      if ne_socket_in env <? 0 then []
      else if ne_bind env <? 0 then [NetSocket (ne_socket_in env)]
      else if ne_socket_out env <? 0 then []
      else if ne_connect env <? 0 then [NetSocket (ne_socket_out env)]
      else [NetSocket (ne_socket_out env); NetSocket (ne_socket_in env); NetPool]
  end.

Lemma update_fqdn_facts (env : net_env (M := M)) i :
  let '(res, i') := aa_net_update_fqdn env i in
  in_sockfd i' = in_sockfd i /\ out_sockfd i' = out_sockfd i /\ net_mempool i' = net_mempool i /\ fqdn i' = fqdn i /\
  sin_port (collector_addr i') = sin_port (collector_addr i) /\
  (forall a, ne_getaddrinfo env (fqdn i) = Some a -> res = 0 /\ s_addr (collector_addr i') = s_addr a) /\
  (ne_getaddrinfo env (fqdn i) = None -> res = -1 /\ i' = i).
Proof.
  unfold aa_net_update_fqdn, equal_addr. destruct (ne_getaddrinfo env (fqdn i)) as [t|]; [|by split_and!].
  destruct (Z.eqb_spec (s_addr (collector_addr i)) (s_addr t)) as [He|]; split_and!; try done; by intros a [= <-].
Qed.

(** Evaluates [drop_resource] on a list of known resources. *)
Ltac drop_all :=
  unfold drop_resource;
  repeat first [rewrite filter_nil | rewrite filter_cons_True by congruence
               | rewrite filter_cons_False by (intros H; by apply H)]; done.

Lemma drop_failed a b : a <> b ->
  drop_resource (NetSocket a) (drop_resource NetPool [NetSocket a; NetPool]) = [] /\
  drop_resource (NetSocket a) (drop_resource NetPool [NetSocket b; NetSocket a; NetPool]) = [NetSocket b].
Proof.
  intros Hne. drop_all.
Qed.

Lemma net_init_facts (env : net_env (M := M)) i in_port name out_port : ne_socket_in env <> ne_socket_out env ->
  exists res i', aa_net_init env i in_port name out_port = (res, i', held env) /\
    (res = 0 /\ net_env_good env \/ res = -1 /\ ~ net_env_good env) /\
    net_mempool i' = ne_pool env /\ fqdn i' = strncpy (fqdn i) name (AA_NET_MAX_FQDN_SIZE - 1) /\
    (res = 0 -> in_sockfd i' = ne_socket_in env /\ out_sockfd i' = ne_socket_out env /\
       sin_port (collector_addr i') = htons out_port /\
       (forall a, ne_getaddrinfo env (fqdn i') = Some a -> s_addr (collector_addr i') = s_addr a)).
Proof.
  intros Hne. unfold aa_net_init, held, net_env_good, _aa_net_open_input_socket. cbn [net_mempool].
  destruct (ne_pool env) as [m|]; [|eexists _, _; split_and!; [reflexivity| |done|done|done]; right; by split; [|intros [[? ?] _]]].
  cbn [in_sockfd]. destruct (Z.ltb_spec (ne_socket_in env) 0);
    [eexists _, _; split_and!; [reflexivity|right; split; [done|lia]|done|done|done]|].
  destruct (Z.ltb_spec (ne_bind env) 0);
    [eexists _, _; split_and!; [reflexivity|right; split; [done|lia]|done|done|done]|].
  cbn [negb Z.eqb]. unfold _aa_net_open_output_socket. cbn [out_sockfd].
  destruct (Z.ltb_spec (ne_socket_out env) 0).
  { cbn [negb Z.eqb Z.opp app in_sockfd]. rewrite (proj1 (drop_failed _ _ Hne)).
    eexists _, _; split_and!; [reflexivity|right; split; [done|lia]|done|done|done]. }
  match goal with |- context [aa_net_update_fqdn env ?i] => pose proof (update_fqdn_facts env i) as Hu;
    destruct (aa_net_update_fqdn env i) as [res i'] end.
  destruct Hu as (U1 & U2 & U3 & U4 & U5 & U6 & _). cbn in U1, U2, U3, U4, U5, U6.
  destruct (Z.ltb_spec (ne_connect env) 0); cbn [negb Z.eqb Z.opp].
  - cbn [app]. rewrite U1, U2, (proj2 (drop_failed _ _ Hne)).
    eexists _, i'; split_and!; [reflexivity|right; split; [done|lia]|done|done|done].
  - eexists _, i'. split_and!; [by rewrite U2|left; split; [done|]|done|done|].
    + split_and!; [by eexists|lia..].
    + intros _. split_and!; try done. intros a Ha. rewrite U4 in Ha. by apply U6 in Ha as [_ ->].
Qed.

(** The setup of the network either succeeds, with the pool and both
    sockets open, the collector's port and, if the name resolves, its address,
    or returns -1; then the pool is gone and the sockets are closed, except
    the one whose [bind] or [connect] failed, which is leaked. *)
Theorem net_init_spec (env : net_env (M := M)) i in_port name out_port : ne_socket_in env <> ne_socket_out env ->
  exists res i', aa_net_init env i in_port name out_port = (res, i', held env) /\
    (res = 0 /\ net_env_good env \/ res = -1 /\ ~ net_env_good env) /\
    net_mempool i' = ne_pool env /\ fqdn i' = strncpy (fqdn i) name (AA_NET_MAX_FQDN_SIZE - 1) /\
    (res = 0 -> in_sockfd i' = ne_socket_in env /\ out_sockfd i' = ne_socket_out env /\
       sin_port (collector_addr i') = htons out_port /\
       (forall a, ne_getaddrinfo env (fqdn i') = Some a -> s_addr (collector_addr i') = s_addr a)).
Proof. apply net_init_facts. Qed.

(** The name is stored with its terminating NUL whatever its length: 256 bytes,
    the first 255 bytes of the name, and NULs. *)
Theorem fqdn_terminated (env : net_env (M := M)) in_port name out_port : ne_socket_in env <> ne_socket_out env ->
  let f := fqdn (aa_net_init env net_info_zero in_port name out_port).1.2 in
  length f = AA_NET_MAX_FQDN_SIZE /\ take 255 f = take 255 name ++ replicate (255 - length name) 0 /\ f !! 255%nat = Some 0.
Proof.
  intros Hne f. subst f. destruct (net_init_facts env net_info_zero in_port name out_port Hne) as (res & i' & -> & _ & _ & Hf & _).
  cbn [fst snd]. rewrite Hf. unfold strncpy. cbn [fqdn net_info_zero]. change (AA_NET_MAX_FQDN_SIZE - 1)%nat with 255%nat.
  assert (Hl : length (take 255 (name ++ replicate 255 0)) = 255%nat).
  { rewrite length_take, length_app, length_replicate. lia. }
  split_and!.
  - by rewrite length_app, Hl.
  - rewrite take_app_le, take_take, take_app, take_replicate by lia. f_equal. f_equal. lia.
  - rewrite lookup_app_r, Hl by lia. done.
Qed.

Lemma stop_closes a b : a <> b ->
  drop_resource (NetSocket b) (drop_resource (NetSocket a) [NetSocket b; NetSocket a; NetPool]) = [NetPool].
Proof.
  intros Hne. drop_all.
Qed.
End Setup.

(** ** The application *)

Section App.
Context {M : Type} `{HM : Mempool M} `{LMM : !MempoolLaws M}.
Context {cs : CharSign}.
Context {B It T C R N S : Type}.
Context `{HB : CkBitmap B It} `{HT : CkHt T nat} `{HC : CkPtrHt C} `{HR : CkRing R} `{HN : Mempool N} `{HS : JbpfIo S}.
Context `{LB : !CkBitmapLaws B It} `{LT : !CkHtLaws T nat} `{LC : !CkPtrHtLaws C} `{LR : !CkRingLaws R} `{LN : !MempoolLaws N}.
Context `{LS : !JbpfIoLaws S}.
Variable create_serialized_msg : jrtc_router_data_entry -> Z.

Abbreviation router := (jrtc_router_ctx B T C R N).
Abbreviation start_app := (jrtc_start_app (M := M) create_serialized_msg).

(** The application is registered in a well-formed router. *)
Definition served (ctx : nat) (r : router) : Prop := router_wf r /\ is_Some (dapps r !! ctx).

Definition keeps_served (ctx : nat) (others : router * S -> router * S) : Prop :=
  forall r io, served ctx r -> served ctx (others (r, io)).1.

Lemma start_round_facts ctx (i : aa_net_info (M := M)) live m others r io : served ctx r -> keeps_served ctx others ->
  net_mempool i = Some m -> NetPool ∈ live ->
  exists r' io' i' sizes ev m', start_round create_serialized_msg ctx i live others r io = Ret (r', io', i', sizes, ev) /\
    served ctx r' /\ net_mempool i' = Some m' /\ in_sockfd i' = in_sockfd i /\ out_sockfd i' = out_sockfd i /\
    Permutation (pool_used m') (pool_used m) /\ pool_cap m' = pool_cap m.
Proof.
  intros Hs Hk Hm Hl. unfold start_round, live_pool. specialize (Hk r io Hs). destruct (others (r, io)) as [r1 io1].
  destruct Hk as (W & d & Hd). cbn [fst] in *.
  destruct (receive_facts r1 io1 ctx d AA_OUT_BUFS_BATCH_SIZE W Hd) as (r' & io' & des & E & (W' & _ & Hctx & _) & Hlen & _).
  assert (Hs' : served ctx r').
  { split; [done|]. pose proof (wf_dapp _ W _ _ Hd) as Hslot. rewrite <- Hctx in Hslot.
    destruct (wf_app _ W' _ _ Hslot) as (_ & d' & Hd' & _). eauto. }
  rewrite E. cbn [mbind outcome_bind]. case_decide.
  - rewrite Hm, decide_True by done. cbn [mbind outcome_bind].
    destruct (encode_facts create_serialized_msg m _ Hlen) as (m' & sizes & -> & Hp & Hcap & _). cbn [mbind outcome_bind].
    eexists _, _, _, _, _, m'. split; [reflexivity|]. by split_and!.
  - eexists _, _, _, _, _, m. split; [reflexivity|]. by split_and!.
Qed.

Lemma start_loop_facts ctx (i : aa_net_info (M := M)) live m rounds r io : served ctx r -> Forall (keeps_served ctx) rounds ->
  net_mempool i = Some m -> NetPool ∈ live ->
  exists r' io' i' sizes ev, start_loop create_serialized_msg ctx i live rounds r io = Ret (r', io', i', sizes, ev) /\
    served ctx r' /\ in_sockfd i' = in_sockfd i /\ out_sockfd i' = out_sockfd i.
Proof.
  intros Hs Hr. revert r io i m Hs. induction Hr as [|others rounds Hk _ IH]; intros r io i m Hs Hm Hl; cbn [start_loop].
  { by exists r, io, i, [], []. }
  destruct (start_round_facts ctx i live m others r io Hs Hk Hm Hl) as (r1 & io1 & i1 & sz & ev & m1 & -> & Hs1 & Hm1 & Hi1 & Ho1 & _).
  cbn [mbind outcome_bind]. destruct (IH r1 io1 i1 m1 Hs1 Hm1 Hl) as (r2 & io2 & i2 & sz2 & ev2 & -> & Hs2 & Hi2 & Ho2).
  cbn [mbind outcome_bind]. eexists r2, io2, i2, _, _. split; [reflexivity|]. split_and!; [done|congruence..].
Qed.

(** The id asked for, which needs no allocation. *)
Lemma udp_request mp mn : exists req, stream_id_wf req /\
  generated_id mp mn JRTC_ROUTER_DEST_UDP JRTC_ROUTER_DEVICE_ID_ANY None None = Ret req /\
  forall dv p n sid, generated_id (true, true) (true, true) JRTC_ROUTER_DEST_UDP dv p n = Ret sid ->
    stream_id_wf sid /\ generalises (decode req) (decode sid).
Proof.
  destruct (generated_generalises JRTC_ROUTER_DEST_UDP 0 None None JRTC_ROUTER_DEST_UDP JRTC_ROUTER_DEVICE_ID_ANY None None)
    as (? & req & _ & E & _ & W & _); [by left|by right|by left|by left|].
  exists req. split; [done|]. split; [exact E|]. intros dv p n sid Hs.
  destruct (generated_generalises JRTC_ROUTER_DEST_UDP dv p n JRTC_ROUTER_DEST_UDP JRTC_ROUTER_DEVICE_ID_ANY None None)
    as (sid' & req' & E1 & E2 & W1 & _ & Hg); [by left|by right|by right|by right|].
  rewrite Hs in E1. rewrite E in E2. by simplify_eq.
Qed.

(** C37: when its network is set up (every call of the setup succeeds and the
    two sockets differ), the application runs to its end without a fault,
    however many rounds it makes and whatever it receives, with any queue size,
    as long as the others leave it registered in a well-formed router; it closes
    both its sockets, and keeps its pool. It calls [exit] only when the request
    is refused. Once its request is accepted it is a receiver of every stream
    whose destination is UDP, whatever its device, path and name. *)
Theorem start_app_spec env renv mp mn ctx d in_port name out_port rounds r (io : S) : router_wf r ->
  dapps r !! ctx = Some d -> request_env_fresh r renv -> net_env_good env -> ne_socket_in env <> ne_socket_out env ->
  Forall (keeps_served ctx) rounds ->
  exists req r1 res, generated_id mp mn JRTC_ROUTER_DEST_UDP JRTC_ROUTER_DEVICE_ID_ANY None None = Ret req /\
    jrtc_router_channel_register_stream_id_req r renv (Some ctx) req = Ret (r1, res) /\
    if res =? 1 then
      (exists r' io' sizes ev, start_app env renv mp mn ctx in_port name out_port rounds r io =
         Ret (Stopped r' io' [NetPool] sizes ev) /\ router_wf r') /\
      (forall dv p n sid, generated_id (true, true) (true, true) JRTC_ROUTER_DEST_UDP dv p n = Ret sid ->
         interested r1 sid (app_id d) = true)
    else start_app env renv mp mn ctx in_port name out_port rounds r io = Ret Exited.
Proof.
  intros W Hd Hf Hgood Hne Hr. destruct (udp_request mp mn) as (req & Wreq & Eg & Hsel).
  destruct (register_req_facts r renv ctx d req W Hf Hd) as (r1 & res & E1 & W1 & Hd1 & _ & Hres).
  exists req, r1, res. split; [done|]. split; [done|]. unfold jrtc_start_app. rewrite Eg. cbn [mbind outcome_bind].
  destruct (net_init_facts env net_info_zero (default AA_NET_IN_DEFAULT_PORT in_port) name
    (default AA_NET_OUT_DEFAULT_PORT out_port) Hne) as (nr & i & -> & [[-> _]|[_ Hbad]] & Hp & _ & Hi); [|done].
  destruct (Hi eq_refl) as (Hin & Hout & _). rewrite E1. cbn [mbind outcome_bind].
  destruct Hgood as ([m Hm] & ? & ? & ? & ?).
  destruct (Z.eqb_spec res 1) as [->|Hn]; [|done]. split.
  - assert (Hh : held env = [NetSocket (ne_socket_out env); NetSocket (ne_socket_in env); NetPool]).
    { unfold held. rewrite Hm. by rewrite !(proj2 (Z.ltb_ge _ _)) by done. }
    rewrite Hh.
    destruct (start_loop_facts ctx i [NetSocket (ne_socket_out env); NetSocket (ne_socket_in env); NetPool] m rounds r1 io)
      as (r' & io' & i' & sz & ev & -> & [Hs' _] & Hi' & Ho').
    { split; [done|rewrite Hd1; eauto]. }
    { done. } { congruence. } { apply elem_of_cons. right. apply elem_of_cons. right. apply list_elem_of_here. }
    cbn [mbind outcome_bind]. exists r', io', sz, ev. split; [|done]. do 2 f_equal. unfold aa_net_stop.
    rewrite Hi', Ho', Hin, Hout. by apply stop_closes.
  - intros dv p n sid Hs. destruct (Hsel dv p n sid Hs) as [Ws Hg]. apply interested_spec; [done|]. exists req.
    split_and!; try done. destruct Hres as [[_ Hsub]|[? _]]; [|done]. rewrite (Hsub (app_id d) req). by rewrite decide_True.
Qed.

(** The application does not look at the result of the setup. When the
    setup fails after the pool was created, the pool is destroyed, and the
    first message the application receives makes it allocate from it. *)
Theorem start_app_after_failed_setup env renv mp mn ctx d m in_port name out_port others rounds r (io : S) req r1 r2 io2 d2 :
  router_wf r -> dapps r !! ctx = Some d -> ne_pool env = Some m -> ~ net_env_good env -> ne_socket_in env <> ne_socket_out env ->
  generated_id mp mn JRTC_ROUTER_DEST_UDP JRTC_ROUTER_DEVICE_ID_ANY None None = Ret req ->
  jrtc_router_channel_register_stream_id_req r renv (Some ctx) req = Ret (r1, 1) ->
  others (r1, io) = (r2, io2) -> router_wf r2 -> dapps r2 !! ctx = Some d2 -> queue d2 <> [] ->
  start_app env renv mp mn ctx in_port name out_port (others :: rounds) r io = Fault UseAfterFree.
Proof.
  intros Hr Hd Hm Hbad Hne Eg E1 Ho W2 Hd2 Hq. unfold jrtc_start_app. rewrite Eg. cbn [mbind outcome_bind].
  destruct (net_init_facts env net_info_zero (default AA_NET_IN_DEFAULT_PORT in_port) name
    (default AA_NET_OUT_DEFAULT_PORT out_port) Hne) as (nr & i & -> & _ & Hp & _).
  rewrite E1. cbn [mbind outcome_bind Z.eqb Pos.eqb start_loop]. unfold start_round. rewrite Ho.
  destruct (receive_facts r2 io2 ctx d2 AA_OUT_BUFS_BATCH_SIZE W2 Hd2) as (r' & io' & des & -> & _).
  cbn [mbind outcome_bind]. rewrite decide_True by (destruct (queue d2); [done|cbn; lia]).
  unfold live_pool. rewrite Hp, Hm, decide_False; [done|]. intros Hin. apply Hbad.
  unfold held in Hin. rewrite Hm in Hin. unfold net_env_good. rewrite Hm.
  repeat match type of Hin with context [?a <? 0] => destruct (Z.ltb_spec a 0) end;
    repeat (apply elem_of_cons in Hin as [Hin|Hin]; [try discriminate|]); try (by apply not_elem_of_nil in Hin).
  split_and!; [by eexists|lia..].
Qed.
End App.
