(* ===== verification/JrtcApp.v ===== *)
(** * The application class of the C++ wrapper

    [src/src/wrapper_apis/c/jrtc_app.cpp]: an application described by a table
    of streams. [Init] turns the table into channels and requests, [run]
    receives and hands each entry to the handler with the index of its stream,
    [CleanUp] withdraws the requests and destroys the channels. Time is read
    from [steady_clock], in nanoseconds; a [float] of the configuration is its
    rational value. *)
From Stdlib Require Import QArith.
From S2P Require Import Prelude StreamId StreamIdSpec Bloom BloomFacts Ext Router RouterLookup RouterInv RouterChannels RouterForward RouterReceive AppApi NorthIo.
#[local] Open Scope Z_scope.

(** ** Configuration *)

Record JrtcStreamIdCfg_t := mk_sid_cfg {
  destination : Z;
  cfg_device_id : Z;
  stream_source : option string;
  io_map : option string
}.

Record JrtcAppChannelCfg_t := mk_chan_cfg { cfg_is_output : bool; num_elems : Z; elem_size : Z }.

Record JrtcStreamCfg_t := mk_stream_cfg {
  cfg_sid : JrtcStreamIdCfg_t;
  is_rx : bool;
  appChannel : option JrtcAppChannelCfg_t
}.

(** [num_streams] is the length of [streams]. *)
Record JrtcAppCfg_t := mk_app_cfg {
  context : option string;
  q_size : Z;
  streams : list JrtcStreamCfg_t;
  initialization_timeout_secs : Q;
  sleep_timeout_secs : Q;
  inactivity_timeout_secs : Q
}.

(** [JrtcApp::StreamItem]; NULL is [None]. *)
Record StreamItem := mk_item {
  si_sid : jrtc_router_stream_id;
  registered : bool;
  chan_ctx : option nat
}.

Definition Qltb (a b : Q) : bool := negb (Qle_bool b a).

(** [elapsed] nanoseconds, cast to whole seconds, against the timeout. *)
Definition init_expired (cfg : JrtcAppCfg_t) (elapsed : Z) : bool :=
  if Qltb 0 (initialization_timeout_secs cfg)
  then Qltb (initialization_timeout_secs cfg) (inject_Z (elapsed ÷ 1000000000)) else false.

(** The time without an entry against the timeout. *)
Definition inactive (cfg : JrtcAppCfg_t) (now last : Z) : bool :=
  Qltb 0 (inactivity_timeout_secs cfg) && Qltb (inactivity_timeout_secs cfg) ((now - last) # 1000000000).

(** What the environment answers while one stream is initialised: the
    allocations of the two hashes, of the channel and of the request, and the
    nanoseconds since the start. *)
Record stream_env := mk_stream_env {
  hash_source : bool * bool;
  hash_io_map : bool * bool;
  chan_env : channel_env;
  req_env : request_env;
  since_start : Z
}.

(** What the handler is called with and what happens to the buffers. *)
Inductive app_event :=
| HandlerTimeout
| HandlerData (sidx : nat) (e : jrtc_router_data_entry)
| Io (ev : io_event).

(** ** Indices

    [static_cast<size_t>(stream_idx) < stream_items.size()]. *)
Definition get_item (items : list StreamItem) (stream_idx : Z) : option StreamItem :=
  let i := stream_idx mod 2 ^ 64 in
  if i <? Z.of_nat (length items) then items !! Z.to_nat i else None.
Definition get_stream (items : list StreamItem) (stream_idx : Z) : option jrtc_router_stream_id :=
  si_sid <$> get_item items stream_idx.
Definition get_chan_ctx (items : list StreamItem) (stream_idx : Z) : option nat :=
  match get_item items stream_idx with Some si => chan_ctx si | None => None end.

Section Wrappers.
Variable submit_buf : nat -> Z.
Variable reserve_buf : nat -> option (list Z).
(** [jbpf_io_channel_send_msg] on the router's IO context. *)
Variable send_msg : jrtc_router_stream_id -> option (list Z) -> nat -> Z.
Variable chans : gmap nat dapp_channel_ctx.

Definition jrtc_app_router_channel_reserve_buf (items : list StreamItem) (stream_idx : Z) : outcome (option (list Z)) :=
  match get_chan_ctx items stream_idx with
  | None => Ret None
  | Some c => jrtc_router_channel_reserve_buf reserve_buf chans (Some c)
  end.

Definition jrtc_app_router_channel_send_output (items : list StreamItem) (stream_idx : Z) : outcome Z :=
  match get_chan_ctx items stream_idx with
  | None => Ret (-1)
  | Some c => jrtc_router_channel_send_output submit_buf chans (Some c)
  end.

Definition jrtc_app_router_channel_send_output_msg (items : list StreamItem) (stream_idx : Z)
    (data : option (list Z)) (data_len : nat) : outcome (Z * option (list Z)) :=
  match get_chan_ctx items stream_idx with
  | None => Ret (-1, None)
  | Some c => jrtc_router_channel_send_output_msg submit_buf reserve_buf chans (Some c) data data_len
  end.

(** The [uint] index is passed on as an [int]. *)
Definition jrtc_app_router_channel_send_input_msg (items : list StreamItem) (stream_idx : Z)
    (data : option (list Z)) (data_len : nat) : Z :=
  match get_stream items (if stream_idx <? 2 ^ 31 then stream_idx else stream_idx - 2 ^ 32) with
  | None => -1
  | Some sid => jrtc_router_channel_send_input_msg send_msg sid data data_len
  end.
End Wrappers.

Section JrtcApp.
Context {cs : CharSign}.
Context {B It T C R M S : Type}.
Context `{HB : CkBitmap B It} `{HT : CkHt T nat} `{HC : CkPtrHt C} `{HR : CkRing R} `{HM : Mempool M} `{HS : JbpfIo S}.

Abbreviation router := (jrtc_router_ctx B T C R M).

(** ** Init *)

(** [if (s.appChannel)]: the channel, and whether the loop goes on. *)
Definition init_channel (ctx : option nat) (env : stream_env) (s : JrtcStreamCfg_t) (sid : jrtc_router_stream_id)
    (r : router) : outcome (router * option nat * bool * list io_event) :=
  match appChannel s with
  | None => Ret (r, None, true, [])
  | Some a =>
      '(r, chan, ev) ← jrtc_router_channel_create r (chan_env env) ctx (cfg_is_output a) sid;
      Ret (r, chan, bool_decide (is_Some chan), ev)
  end.

(** [if (s.is_rx && (!si.registered))]: the item is fresh, so not registered.
    The second component is [registered] and whether the loop goes on. *)
Definition init_request (ctx : option nat) (env : stream_env) (s : JrtcStreamCfg_t) (sid : jrtc_router_stream_id)
    (r : router) : outcome (router * bool * bool) :=
  if is_rx s then
    '(r, res) ← jrtc_router_channel_register_stream_id_req r (req_env env) ctx sid;
    Ret (r, res =? 1, res =? 1)
  else Ret (r, false, true).

(** One round of the first loop: the items pushed, and whether the loop goes
    on. Every return in the body is a [return -1]. *)
Definition init_stream (cfg : JrtcAppCfg_t) (ctx : option nat) (env : stream_env) (s : JrtcStreamCfg_t) (r : router) :
    outcome (router * list StreamItem * bool * list io_event) :=
  let c := cfg_sid s in
  '(res, o) ← jrtc_router_generate_stream_id (hash_source env) (hash_io_map env) (Some (mk_stream_id []))
                (destination c) (cfg_device_id c) (stream_source c) (io_map c);
  if negb (res =? 1) then Ret (r, [], false, [])
  else
    match o with
    | None => Fault NullDeref
    | Some sid =>
        '(r, chan, ok, ev) ← init_channel ctx env s sid r;
        if negb ok then Ret (r, [], false, ev)
        else
          '(r, reg, ok) ← init_request ctx env s sid r;
          if negb ok then Ret (r, [], false, ev)
          else Ret (r, [mk_item sid reg chan], negb (init_expired cfg (since_start env)), ev)
    end.

Fixpoint init_streams (cfg : JrtcAppCfg_t) (ctx : option nat) (env : nat -> stream_env) (i : nat)
    (ss : list JrtcStreamCfg_t) (r : router) : outcome (router * list StreamItem * bool * list io_event) :=
  match ss with
  | [] => Ret (r, [], true, [])
  | s :: ss =>
      '(r, new, ok, ev) ← init_stream cfg ctx (env i) s r;
      if (ok : bool) then
        '(r, items, ok, ev') ← init_streams cfg ctx env (i + 1) ss r;
        Ret (r, new ++ items, ok, ev ++ ev')
      else Ret (r, new, false, ev)
  end.

(** [while (!jrtc_router_input_channel_exists(si.sid))]: [find] and [clock] are
    what the router finds and the nanoseconds since the start at each poll, of
    which [t] were made before. *)
Fixpoint wait_loop (fuel : nat) (cfg : JrtcAppCfg_t) (find : nat -> jrtc_router_stream_id -> bool) (clock : nat -> Z)
    (t : nat) (sid : jrtc_router_stream_id) : outcome (bool * nat) :=
  match fuel with
  | O => Fault Divergence
  | Datatypes.S fuel =>
      if jrtc_router_input_channel_exists true true (find t) sid =? 0 then
        if init_expired cfg (clock t) then Ret (false, Datatypes.S t)
        else wait_loop fuel cfg find clock (Datatypes.S t) sid
      else Ret (true, Datatypes.S t)
  end.

Fixpoint wait_streams (fuel : nat) (cfg : JrtcAppCfg_t) (find : nat -> jrtc_router_stream_id -> bool) (clock : nat -> Z)
    (items : list StreamItem) (i : nat) (ss : list JrtcStreamCfg_t) (t : nat) : outcome bool :=
  match ss with
  | [] => Ret true
  | s :: ss =>
      si ← array_get items i;
      if negb (is_rx s) && bool_decide (chan_ctx si = None) then
        '(ok, t) ← wait_loop fuel cfg find clock t (si_sid si);
        if (ok : bool) then wait_streams fuel cfg find clock items (i + 1) ss t else Ret false
      else wait_streams fuel cfg find clock items (i + 1) ss t
  end.

(** What the environment answers to a whole [Init]. *)
Record app_env := mk_app_env {
  stream_envs : nat -> stream_env;
  find_channel : nat -> jrtc_router_stream_id -> bool;
  poll_clock : nat -> Z
}.

(** The router, [stream_items], the return value and the IO events, for an
    object that holds [old] already: the items of this call come behind them,
    and the streams are looked up from the front. *)
Definition Init_from (old : list StreamItem) (fuel : nat) (cfg : JrtcAppCfg_t) (ctx : option nat) (env : app_env)
    (r : router) : outcome (router * list StreamItem * Z * list io_event) :=
  '(r, items, ok, ev) ← init_streams cfg ctx (stream_envs env) 0 (streams cfg) r;
  if (ok : bool) then
    ok ← wait_streams fuel cfg (find_channel env) (poll_clock env) (old ++ items) 0 (streams cfg) 0;
    Ret (r, old ++ items, if (ok : bool) then 0 else -1, ev)
  else Ret (r, old ++ items, -1, ev).

(** For a new object. *)
Definition Init := Init_from [].

(** ** CleanUp

    [mem k] is the memory the stored key addresses point to while the [k]-th
    item is cleaned up. *)
Fixpoint CleanUp (mem : nat -> nat -> list Z) (ctx : option nat) (k : nat) (items : list StreamItem) (r : router) :
    outcome (router * list io_event) :=
  match items with
  | [] => Ret (r, [])
  | si :: items =>
      r ← (if registered si then jrtc_router_channel_deregister_stream_id_req r ctx (si_sid si) else Ret r);
      '(r, ev) ← (match chan_ctx si with
                  | Some c => jrtc_router_channel_destroy r (mem k) (Some c)
                  | None => Ret (r, [])
                  end);
      '(r, ev') ← CleanUp mem ctx (k + 1) items r;
      Ret (r, ev ++ ev')
  end.

(** ** run *)

(** [for (; sidx < app_cfg->num_streams; sidx++)]. *)
Fixpoint find_stream (ss : list JrtcStreamCfg_t) (items : list StreamItem) (sidx : nat) (e : jrtc_router_data_entry) :
    outcome (option nat) :=
  match ss with
  | [] => Ret None
  | s :: ss =>
      si ← array_get items sidx;
      if is_rx s && jrtc_router_stream_id_matches_req (de_stream_id e) (si_sid si) then Ret (Some sidx)
      else find_stream ss items (sidx + 1) e
  end.

Fixpoint dispatch (ss : list JrtcStreamCfg_t) (items : list StreamItem) (des : list jrtc_router_data_entry) :
    outcome (list app_event) :=
  match des with
  | [] => Ret []
  | e :: des =>
      found ← find_stream ss items 0 e;
      ev ← dispatch ss items des;
      Ret (match found with Some sidx => [HandlerData sidx e] | None => [] end ++
           (Io <$> jrtc_router_channel_release_buf (de_data e)) ++ ev)
  end.

(** One round of [while (!atomic_load(&env_ctx->app_exit))]: [others] is what
    the other threads do to the router and the IO before this round, [now] the
    time it starts, [after] the time when its last entry was handled. *)
Record round_env := mk_round_env {
  others : router * S -> router * S;
  now : Z;
  after : Z
}.

Definition run_round (cfg : JrtcAppCfg_t) (ctx : nat) (items : list StreamItem) (env : round_env)
    (r : router) (io : S) (last : Z) : outcome (router * S * Z * list app_event) :=
  let expired := inactive cfg (now env) last in
  let last := if expired then now env else last in
  let '(r, io) := others env (r, io) in
  '(r, io, des) ← jrtc_router_receive r io ctx (Z.to_nat (q_size cfg));
  ev ← dispatch (streams cfg) items des;
  Ret (r, io, if decide (des = []) then last else after env, (if expired then [HandlerTimeout] else []) ++ ev).

(** The rounds until [app_exit] is seen. *)
Fixpoint run_loop (cfg : JrtcAppCfg_t) (ctx : nat) (items : list StreamItem) (rounds : list round_env)
    (r : router) (io : S) (last : Z) : outcome (router * S * list app_event) :=
  match rounds with
  | [] => Ret (r, io, [])
  | env :: rounds =>
      '(r, io, last, ev) ← run_round cfg ctx items env r io last;
      '(r, io, ev') ← run_loop cfg ctx items rounds r io last;
      Ret (r, io, ev ++ ev')
  end.

(** [start] is the time read at the beginning of [Init]. A negative [q_size]
    makes the constructor of the vector throw, which nothing catches. The items
    stay in the object. *)
Definition run_from (old : list StreamItem) (fuel : nat) (cfg : JrtcAppCfg_t) (ctx : nat) (env : app_env) (start : Z)
    (rounds : list round_env) (mem : nat -> nat -> list Z) (r : router) (io : S) :
    outcome (router * S * list StreamItem * list app_event) :=
  '(r, items, rc, ev) ← Init_from old fuel cfg (Some ctx) env r;
  '(r, io, ev') ← (if rc =? 0 then
                     if q_size cfg <? 0 then Fault Aborted
                     else run_loop cfg ctx items rounds r io start
                   else Ret (r, io, []));
  '(r, ev'') ← CleanUp mem (Some ctx) 0 items r;
  Ret (r, io, items, (Io <$> ev) ++ ev' ++ (Io <$> ev'')).

(** For a new object. *)
Definition run (fuel : nat) (cfg : JrtcAppCfg_t) (ctx : nat) (env : app_env) (start : Z) (rounds : list round_env)
    (mem : nat -> nat -> list Z) (r : router) (io : S) : outcome (router * S * list app_event) :=
  '(r, io, _, ev) ← run_from [] fuel cfg ctx env start rounds mem r io; Ret (r, io, ev).

End JrtcApp.

#[global] Arguments round_env : clear implicits.
