(* ===== verification/JrtcAppPrint.v ===== *)
(** * Printing the configuration of an application

    The stream operators of [src/src/wrapper_apis/c/jrtc_app.cpp] and the lines
    [Init] and [CleanUp] print with them. *)
From stdpp Require Import pretty.
From Stdlib Require Import QArith.
From S2P Require Import Prelude JrtcApp.
#[local] Open Scope Z_scope.

(** [p ? p : "nullptr"]. *)
Definition or_nullptr (s : option string) : string := match s with Some s => s | None => "nullptr" end.
Definition show_bool (b : bool) : string := if b then "true" else "false".

Definition show_sid (sid : JrtcStreamIdCfg_t) : string :=
  "JrtcStreamIdCfg_t(destination=" +:+ pretty (destination sid) +:+ ", device_id=" +:+ pretty (cfg_device_id sid) +:+
  ", stream_source='" +:+ or_nullptr (stream_source sid) +:+ "', io_map='" +:+ or_nullptr (io_map sid) +:+ "')".

Definition show_chan (chan : JrtcAppChannelCfg_t) : string :=
  "JrtcAppChannelCfg_t(is_output=" +:+ show_bool (cfg_is_output chan) +:+ ", num_elems=" +:+ pretty (num_elems chan) +:+
  ", elem_size=" +:+ pretty (elem_size chan) +:+ ")".

Definition show_stream (stream : JrtcStreamCfg_t) : string :=
  "JrtcStreamCfg_t(sid=" +:+ show_sid (cfg_sid stream) +:+ ", is_rx=" +:+ show_bool (is_rx stream) +:+ ", appChannel=" +:+
  match appChannel stream with Some c => show_chan c | None => "nullptr" end +:+ ")".

(** The loop over the streams, from the index [i] on: a separator follows every
    stream but the one with the index [n - 1]. *)
Fixpoint show_streams (n i : Z) (ss : list JrtcStreamCfg_t) : string :=
  match ss with
  | [] => ""
  | s :: ss => show_stream s +:+ (if i <? n - 1 then ", " else "") +:+ show_streams n (i + 1) ss
  end.

Section Cfg.
(** How the C++ library prints a [float]. *)
Variable show_float : Q -> string.

Definition show_cfg (cfg : JrtcAppCfg_t) : string :=
  "JrtcAppCfg_t(context='" +:+ or_nullptr (context cfg) +:+ "', q_size=" +:+ pretty (q_size cfg) +:+
  ", num_streams=" +:+ pretty (Z.of_nat (length (streams cfg))) +:+ ", sleep_timeout_secs=" +:+ show_float (sleep_timeout_secs cfg) +:+
  ", inactivity_timeout_secs=" +:+ show_float (inactivity_timeout_secs cfg) +:+ ", streams=[" +:+
  show_streams (Z.of_nat (length (streams cfg))) 0 (streams cfg) +:+ "])".

(** [std::cout << app_cfg->context]: inserting a null pointer is undefined. *)
Definition show_context (cfg : JrtcAppCfg_t) : outcome string :=
  match context cfg with Some c => Ret c | None => Fault NullDeref end.

(** The first line of [Init]. *)
Definition init_banner (cfg : JrtcAppCfg_t) : outcome string :=
  c ← show_context cfg; Ret (c +:+ "::  app_cfg: " +:+ show_cfg cfg).

Lemma append_nil s : s +:+ "" = s.
Proof. induction s as [|c s IH]; [done|]. exact (f_equal (String c) IH). Qed.

Lemma append_append s t u : (s +:+ t) +:+ u = s +:+ (t +:+ u).
Proof. induction s as [|c s IH]; [done|]. exact (f_equal (String c) IH). Qed.

Lemma show_streams_join n i ss : n = i + Z.of_nat (length ss) -> show_streams n i ss = String.concat ", " (show_stream <$> ss).
Proof.
  revert i. induction ss as [|s ss IH]; intros i Hn; [done|]. cbn [length] in Hn. cbn [show_streams fmap list_fmap].
  rewrite (IH (i + 1)) by lia. destruct ss as [|s' ss]; cbn [length] in Hn.
  - rewrite (proj2 (Z.ltb_ge _ _)) by lia. by rewrite append_nil.
  - rewrite (proj2 (Z.ltb_lt _ _)) by lia. done.
Qed.

(** The streams are printed in order, with a comma between any two of them and
    none at the end; the operator prints a configuration without a context, but
    the line that uses it is undefined there. *)
Theorem init_banner_spec cfg :
  (exists head, forall ss, show_cfg (mk_app_cfg (context cfg) (q_size cfg) ss (initialization_timeout_secs cfg) (sleep_timeout_secs cfg)
       (inactivity_timeout_secs cfg)) = head (length ss) +:+ String.concat ", " (show_stream <$> ss) +:+ "])") /\
  (forall c, context cfg = Some c -> init_banner cfg = Ret (c +:+ "::  app_cfg: " +:+ show_cfg cfg)) /\
  (context cfg = None -> init_banner cfg = Fault NullDeref).
Proof.
  split_and!.
  - exists (λ n, "JrtcAppCfg_t(context='" +:+ or_nullptr (context cfg) +:+ "', q_size=" +:+ pretty (q_size cfg) +:+
      ", num_streams=" +:+ pretty (Z.of_nat n) +:+ ", sleep_timeout_secs=" +:+ show_float (sleep_timeout_secs cfg) +:+
      ", inactivity_timeout_secs=" +:+ show_float (inactivity_timeout_secs cfg) +:+ ", streams=["). intros ss.
    unfold show_cfg. cbn [streams context q_size sleep_timeout_secs inactivity_timeout_secs].
    rewrite show_streams_join by lia. by rewrite !append_append.
  - intros c Hc. unfold init_banner, show_context. by rewrite Hc.
  - intros Hc. unfold init_banner, show_context. by rewrite Hc.
Qed.
End Cfg.

(** Two streams of an application, one with a channel. *)
Example show_streams_two :
  show_streams 2 0 [mk_stream_cfg (mk_sid_cfg 0 1 (Some "src") None) true None;
                    mk_stream_cfg (mk_sid_cfg 127 (-1) None (Some "map")) false (Some (mk_chan_cfg true 100 4))] =
  "JrtcStreamCfg_t(sid=JrtcStreamIdCfg_t(destination=0, device_id=1, stream_source='src', io_map='nullptr'), is_rx=true, appChannel=nullptr), JrtcStreamCfg_t(sid=JrtcStreamIdCfg_t(destination=127, device_id=-1, stream_source='nullptr', io_map='map'), is_rx=false, appChannel=JrtcAppChannelCfg_t(is_output=true, num_elems=100, elem_size=4))".
Proof. reflexivity. Qed.
