(* ===== verification/JrtcAppFacts.v ===== *)
(** * Theorems about the application class

    [Init] turns the table of streams into the application's requests and
    channels, [run] hands every entry to the handler of a stream that selects
    it and releases its buffer, [CleanUp] takes the requests back. *)
From Stdlib Require Import QArith.
From S2P Require Import Prelude StreamId StreamIdSpec Bloom BloomFacts Ext Router RouterLookup RouterInv RouterChannels RouterForward RouterReceive RouterInit AppApi NorthIo JrtcApp.
#[local] Open Scope Z_scope.

(** The item of a stream of the configuration. *)
Definition item_for {cs : CharSign} (s : JrtcStreamCfg_t) (si : StreamItem) : Prop :=
  let c := cfg_sid s in
  generated_id (true, true) (true, true) (destination c) (cfg_device_id c) (stream_source c) (io_map c) = Ret (si_sid si) /\
  stream_id_wf (si_sid si) /\ registered si = is_rx s /\ (chan_ctx si = None <-> appChannel s = None).

Section Facts.
Context {cs : CharSign}.
Context {B It T C R M S : Type}.
Context `{HB : CkBitmap B It} `{HT : CkHt T nat} `{HC : CkPtrHt C} `{HR : CkRing R} `{HM : Mempool M} `{HS : JbpfIo S}.
Context `{LB : !CkBitmapLaws B It} `{LT : !CkHtLaws T nat} `{LC : !CkPtrHtLaws C} `{LR : !CkRingLaws R} `{LM : !MempoolLaws M}.
Context `{LS : !JbpfIoLaws S}.

Abbreviation router := (jrtc_router_ctx B T C R M).
Abbreviation dapp := (dapp_router_ctx C R M).

(** ** The application during the calls

    The router is well formed and the application at [a] is still there with
    its id, its queue and its room. *)
Definition app_kept (a : nat) (d : dapp) (r : router) : Prop :=
  router_wf r /\ exists d', dapps r !! a = Some d' /\ app_id d' = app_id d /\ queue d' = queue d /\
    pool_cap (data_entry_pool d') = pool_cap (data_entry_pool d).

Lemma app_kept_upd a d r r' o t : app_kept a d r -> router_wf r' ->
  (forall d0, dapps r !! a = Some d0 -> dapps r' = <[a := upd_channel_list d0 o t]> (dapps r)) -> app_kept a d r'.
Proof.
  intros (W & d' & Hd & Hi & Hq & Hp) W' Hr. specialize (Hr d' Hd).
  split; [done|]. exists (upd_channel_list d' o t). rewrite Hr, lookup_insert_eq.
  destruct (upd_channel_list_facts d' o t) as (-> & -> & _). split_and!; try done. by destruct o.
Qed.

Lemma app_kept_same a d r r' : app_kept a d r -> router_wf r' -> dapps r' = dapps r -> app_kept a d r'.
Proof.
  intros (W & Hd) W' Hr. split; [done|by rewrite Hr].
Qed.

(** Requests leave the channels, channels leave the requests. *)
Lemma register_req_channels (r : router) env a s r' res :
  jrtc_router_channel_register_stream_id_req r env (Some a) s = Ret (r', res) -> channels r' = channels r.
Proof.
  unfold jrtc_router_channel_register_stream_id_req.
  open_calls.
Qed.

Lemma deregister_req_channels (r : router) a s r' :
  jrtc_router_channel_deregister_stream_id_req r (Some a) s = Ret r' -> channels r' = channels r.
Proof.
  unfold jrtc_router_channel_deregister_stream_id_req.
  open_calls.
Qed.

Lemma channel_create_reqs (r : router) env a o s r' c ev :
  jrtc_router_channel_create r env (Some a) o s = Ret (r', c, ev) -> req_entries r' = req_entries r.
Proof.
  unfold jrtc_router_channel_create.
  open_calls.
Qed.

(** ** Init, one stream *)

Definition stream_env_fresh (r : router) (env : stream_env) : Prop :=
  request_env_fresh r (req_env env) /\ channel_env_fresh r (chan_env env).

(** The channel of an item is live, and the application's. *)
Definition chan_live (a : nat) (r : router) (si : StreamItem) : Prop :=
  forall c, chan_ctx si = Some c -> exists x, channels r !! c = Some x /\ ch_app_ctx x = a /\ ch_stream_id x = si_sid si.

Definition item_live (a : nat) (r : router) (si : StreamItem) : Prop :=
  (registered si = true -> forall d, dapps r !! a = Some d -> subscribed r (app_id d) (si_sid si) = true) /\
  chan_live a r si.

(** What the calls made so far leave in place for the items [items]. *)
Definition items_live (a : nat) (r : router) (items : list StreamItem) : Prop :=
  Forall (item_live a r) items /\ NoDup (omap chan_ctx items).

(** Creating the channel of a stream, if it has one. *)
Lemma create_step a d r env s sid : app_kept a d r -> channel_env_fresh r (chan_env env) ->
  exists r' chan ok ev, init_channel (Some a) env s sid r = Ret (r', chan, ok, ev) /\
    app_kept a d r' /\ req_entries r' = req_entries r /\ (forall i s', subscribed r' i s' = subscribed r i s') /\
    (forall c x, channels r !! c = Some x -> channels r' !! c = Some x) /\
    (ok = true -> chan = None <-> appChannel s = None) /\
    (forall c, chan = Some c -> channels r !! c = None /\
       exists x, channels r' !! c = Some x /\ ch_app_ctx x = a /\ ch_stream_id x = sid).
Proof.
  intros K Hf. unfold init_channel. destruct (appChannel s) as [k|].
  2: { exists r, None, true, []. split_and!; try done. }
  pose proof K as (W & d' & Hd & _).
  destruct (channel_create_facts r (chan_env env) a d' (cfg_is_output k) sid W Hf Hd)
    as (r' & res & ev & E & W' & Hs & t & Ht & Hres).
  pose proof (channel_create_reqs _ _ _ _ _ _ _ _ E) as Hr. rewrite E. cbn [mbind outcome_bind].
  eexists r', res, _, ev. split; [reflexivity|]. split_and!; try done.
  - apply (app_kept_upd a d r r' (cfg_is_output k) t K W'). intros d0 Hd0. by simplify_eq.
  - intros c x Hx. destruct res as [c'|]; [|by destruct Hres as [-> _]].
    destruct Hres as (_ & Hm & _ & io & _ & ->). rewrite lookup_insert_ne; [done|].
    intros ->. rewrite (Hf _ Hm) in Hx. done.
  - destruct res; by rewrite ?bool_decide_true, ?bool_decide_false by (done || by intros []).
  - intros c ->. destruct Hres as (_ & Hm & _ & io & _ & ->). split; [by apply Hf|].
    rewrite lookup_insert_eq. by eexists.
Qed.

(** Asking for the stream, if it is received. *)
Lemma request_step a d r env s sid : app_kept a d r -> request_env_fresh r (req_env env) ->
  exists r' reg ok, init_request (Some a) env s sid r = Ret (r', reg, ok) /\
    app_kept a d r' /\ channels r' = channels r /\
    (forall i s', subscribed r i s' = true -> subscribed r' i s' = true) /\
    (forall i s', i <> app_id d -> subscribed r' i s' = subscribed r i s') /\
    (ok = true -> reg = is_rx s) /\ (reg = true -> subscribed r' (app_id d) sid = true) /\
    (forall s', subscribed r' (app_id d) s' = true ->
       subscribed r (app_id d) s' = true \/ (ok = true /\ reg = true /\ s' = sid)).
Proof.
  intros K Hf. unfold init_request. destruct (is_rx s); [|exists r, false, true; split_and!; first [done | by left; auto | auto]].
  pose proof K as (W & d' & Hd & Hi & _).
  destruct (register_req_facts r (req_env env) a d' sid W Hf Hd) as (r' & res & E & W' & Hdd & _ & Hres).
  pose proof (register_req_channels _ _ _ _ _ _ E) as Hch. rewrite E. cbn [mbind outcome_bind].
  eexists r', _, _. split; [reflexivity|]. split_and!; try done.
  - by apply (app_kept_same a d r).
  - intros i s' Hs. destruct Hres as [[_ H]|(_ & _ & H)]; rewrite (H i s'); [by case_decide|done].
  - intros i s' Hne. destruct Hres as [[_ H]|(_ & _ & H)]; rewrite (H i s'); [|done].
    rewrite decide_False; [done|]. intros [-> _]. congruence.
  - intros Hr%Z.eqb_eq. destruct Hres as [[_ H]|[? _]]; [|lia].
    rewrite <- Hi, (H (app_id d') sid). by rewrite decide_True.
  - intros s'. destruct Hres as [[-> H]|(_ & _ & H)]; rewrite (H (app_id d) s'); [|by left].
    case_decide as Hs; [|by left]. right. by destruct Hs as [_ ->].
Qed.

(** The id of a stream: none when an allocation failed, else the one its
    configuration names. *)
Lemma stream_id_step env s :
  let c := cfg_sid s in
  jrtc_router_generate_stream_id (hash_source env) (hash_io_map env) (Some (mk_stream_id []))
    (destination c) (cfg_device_id c) (stream_source c) (io_map c) = Ret (-1, Some sid_zero) \/
  exists sid, stream_id_wf sid /\
    generated_id (true, true) (true, true) (destination c) (cfg_device_id c) (stream_source c) (io_map c) = Ret sid /\
    jrtc_router_generate_stream_id (hash_source env) (hash_io_map env) (Some (mk_stream_id []))
      (destination c) (cfg_device_id c) (stream_source c) (io_map c) = Ret (1, Some sid).
Proof.
  intros c. destruct (generate_stream_id_cases (hash_source env) (hash_io_map env) (mk_stream_id [])
    (destination c) (cfg_device_id c) (stream_source c) (io_map c)) as [->| ->]; [by left|right].
  destruct (generate_stream_id_facts (mk_stream_id []) (destination c) (cfg_device_id c) (stream_source c) (io_map c))
    as (sid & vp & vn & E & W & _).
  exists sid. split_and!; [done| |done]. unfold generated_id. by rewrite E.
Qed.

(** What the application has asked for: what it had before, and its items. *)
Definition asked (i : nat) (r : router) (items : list StreamItem) (r' : router) : Prop :=
  forall s, subscribed r' i s = true ->
    subscribed r i s = true \/ exists si, si ∈ items /\ registered si = true /\ si_sid si = s.

(** What a part of [Init] does to the router: the application is kept, nothing
    it had asked for or created is lost, and the others see no change. *)
Record init_grows (a : nat) (d : dapp) (r r' : router) : Prop := {
  grows_kept : app_kept a d r';
  grows_sub : forall i s', subscribed r i s' = true -> subscribed r' i s' = true;
  grows_others : forall i s', i <> app_id d -> subscribed r' i s' = subscribed r i s';
  grows_chan : forall c x, channels r !! c = Some x -> channels r' !! c = Some x
}.

Lemma init_grows_trans a d r1 r2 r3 : init_grows a d r1 r2 -> init_grows a d r2 r3 -> init_grows a d r1 r3.
Proof.
  intros [K1 S1 O1 C1] [K2 S2 O2 C2]. constructor; [done|eauto| |eauto].
  intros i s' Hi. by rewrite O2, O1.
Qed.

Lemma item_live_grows a d r r' si : app_kept a d r -> init_grows a d r r' -> item_live a r si -> item_live a r' si.
Proof.
  intros (_ & d0 & Hd0 & Hi0 & _) [(_ & d1 & Hd1 & Hi1 & _) S' _ C'] [Hs Hc]. split.
  - intros Hr d' Hd'. simplify_eq. rewrite Hi1, <- Hi0. auto.
  - intros c Hcc. destruct (Hc c Hcc) as (x & Hx & ?). eauto.
Qed.

Lemma init_stream_facts cfg a d env s r : app_kept a d r -> stream_env_fresh r env ->
  exists r' new ok ev, init_stream cfg (Some a) env s r = Ret (r', new, ok, ev) /\ init_grows a d r r' /\
    asked (app_id d) r new r' /\
    ((new = [] /\ ok = false) \/
     exists si, new = [si] /\ item_for s si /\ item_live a r' si /\ forall c, chan_ctx si = Some c -> channels r !! c = None).
Proof.
  intros K [Hf1 Hf2]. unfold init_stream.
  destruct (stream_id_step env s) as [->|(sid & Ws & Hg & ->)]; cbn [mbind outcome_bind negb Z.eqb Pos.eqb].
  { eexists r, [], false, []. split; [reflexivity|]. split_and!; [by constructor|by left|by left]. }
  destruct (create_step a d r env s sid K Hf2) as (r1 & chan & ok1 & ev & -> & K1 & Hre & Hs1 & Hc1 & Hn & Hch).
  cbn [mbind outcome_bind]. destruct ok1; cbn [negb].
  2: { eexists r1, [], false, ev. split; [reflexivity|]. split_and!; [constructor; auto|intros s'; rewrite Hs1; by left|by left].
       intros. by rewrite Hs1. }
  assert (Hf1' : request_env_fresh r1 (req_env env)) by (intros p Hp; rewrite Hre; by apply Hf1).
  destruct (request_step a d r1 env s sid K1 Hf1') as (r2 & reg & ok2 & -> & K2 & Hc2 & Hs2 & Ho2 & Hreg & Hsub & Hnew).
  assert (G : init_grows a d r r2).
  { constructor; [done| | |]; intros; rewrite ?Hc2; auto.
    - apply Hs2. by rewrite Hs1.
    - by rewrite Ho2. }
  cbn [mbind outcome_bind]. destruct ok2; cbn [negb].
  2: { eexists r2, [], false, ev. split; [reflexivity|]. split_and!; [done| |by left].
       intros s' Hs. destruct (Hnew s' Hs) as [H|[? _]]; [rewrite Hs1 in H; by left|done]. }
  eexists r2, _, _, ev. split; [reflexivity|]. split; [done|]. split.
  { intros s' Hs. destruct (Hnew s' Hs) as [H|(_ & Hr & ->)]; [rewrite Hs1 in H; by left|right].
    eexists. split; [apply list_elem_of_here|done]. }
  right. eexists. split; [reflexivity|]. split_and!.
  - unfold item_for. cbn [si_sid registered chan_ctx]. split_and!; auto; tauto.
  - split; cbn.
    + destruct K2 as (_ & d2 & Hd2 & Hi2 & _). intros Hr d' Hd'. simplify_eq. rewrite Hi2. auto.
    + intros c Hcc. rewrite Hc2. by apply Hch.
  - intros c Hcc. by apply Hch.
Qed.

(** Every address the allocators return is unused when they return it. *)
Fixpoint allocs_fresh (cfg : JrtcAppCfg_t) (a : nat) (env : nat -> stream_env) (i : nat) (ss : list JrtcStreamCfg_t)
    (r : router) : Prop :=
  match ss with
  | [] => True
  | s :: ss => stream_env_fresh r (env i) /\
      forall r' new ev, init_stream cfg (Some a) (env i) s r = Ret (r', new, true, ev) -> allocs_fresh cfg a env (i + 1) ss r'
  end.

Lemma init_streams_facts cfg a d env i ss r : app_kept a d r -> allocs_fresh cfg a env i ss r ->
  exists r' items ok ev, init_streams cfg (Some a) env i ss r = Ret (r', items, ok, ev) /\ init_grows a d r r' /\
    asked (app_id d) r items r' /\
    (ok = true -> length items = length ss) /\ (length items <= length ss)%nat /\
    Forall2 item_for (take (length items) ss) items /\ items_live a r' items /\
    Forall (λ c, channels r !! c = None) (omap chan_ctx items).
Proof.
  revert i r. induction ss as [|s ss IH]; intros i r K Hf; cbn [init_streams].
  { exists r, [], true, []. split; [done|]. split; [by constructor|].
    split_and!; try done; first [by left | repeat constructor]. }
  destruct Hf as [Hf Hrest].
  destruct (init_stream_facts cfg a d (env i) s r K Hf) as (r1 & new & ok1 & ev1 & E1 & G1 & A1 & Hnew).
  rewrite E1. cbn [mbind outcome_bind].
  destruct Hnew as [[-> ->]|(si & -> & Hfor & Hlive & Hfr)].
  { eexists r1, [], false, ev1. split; [reflexivity|]. split_and!; try done; cbn; try lia; repeat constructor. }
  assert (Hone : Forall (λ c, channels r !! c = None) (omap chan_ctx [si])).
  { cbn. destruct (chan_ctx si) as [c|]; [|constructor]. constructor; [by apply Hfr|constructor]. }
  destruct ok1.
  2: { eexists r1, [si], false, ev1. split; [reflexivity|]. split_and!; try done; cbn; try lia.
       - by constructor.
       - split; [by apply Forall_singleton|]. cbn. destruct (chan_ctx si); [apply NoDup_singleton|constructor]. }
  destruct (IH (i + 1)%nat r1 (grows_kept _ _ _ _ G1) (Hrest _ _ _ E1))
    as (r2 & items & ok2 & ev2 & -> & G2 & A2 & Hok & Hle & Hall & [Hl Hnd] & Hfr2).
  cbn [mbind outcome_bind]. eexists r2, (si :: items), ok2, _. split; [reflexivity|].
  split_and!; cbn [length take]; try lia.
  - by eapply init_grows_trans.
  - intros s' Hs. destruct (A2 s' Hs) as [H|(si' & Hin & H)]; [destruct (A1 s' H) as [H1|(si' & Hin & H1)]|]; [by left| |];
      right; exists si'; (split; [apply (elem_of_app [si]); tauto|done]).
  - intros ->. by rewrite Hok.
  - by constructor.
  - split; [constructor; [by eapply item_live_grows; [apply G1| |]|done]|].
    cbn. destruct (chan_ctx si) as [c|] eqn:Ec; [|done]. apply NoDup_cons. split; [|done].
    intros Hin. rewrite Forall_forall in Hfr2. specialize (Hfr2 c Hin).
    destruct (proj2 Hlive c Ec) as (x & Hx & _). congruence.
  - assert (Hall2 : Forall (λ c, channels r !! c = None) (omap chan_ctx items)).
    { eapply Forall_impl; [exact Hfr2|]. intros c Hc. cbn in Hc. destruct (channels r !! c) as [x|] eqn:E; [|done].
      by rewrite (grows_chan _ _ _ _ G1 _ _ E) in Hc. }
    cbn in Hone |- *. destruct (chan_ctx si); [|done]. inversion Hone. by constructor.
Qed.

(** ** Init, waiting *)

(** From the [n]-th poll on the time is up. *)
Definition time_ends (cfg : JrtcAppCfg_t) (clock : nat -> Z) (n : nat) : Prop :=
  forall k, (n <= k)%nat -> init_expired cfg (clock k) = true.

Lemma wait_loop_facts fuel cfg find clock n t sid : time_ends cfg clock n -> (n < t + fuel)%nat -> (0 < fuel)%nat ->
  exists ok t', wait_loop fuel cfg find clock t sid = Ret (ok, t') /\ (ok = true -> exists k, find k sid = true).
Proof.
  intros He. revert t. induction fuel as [|fuel IH]; intros t Hf Hp; [lia|]. cbn [wait_loop].
  unfold jrtc_router_input_channel_exists. cbn [negb]. destruct (find t sid) eqn:Ef; cbn [Z.eqb].
  - eexists _, _. split; [reflexivity|]. eauto.
  - destruct (init_expired cfg (clock t)) eqn:Ee; [by eexists _, _|].
    assert (t < n)%nat. { destruct (decide (n <= t)%nat) as [Hn|]; [|lia]. by rewrite (He t Hn) in Ee. }
    apply IH; lia.
Qed.

(** A stream the application only sends on, over a channel it does not have. *)
Definition waits_for (s : JrtcStreamCfg_t) (si : StreamItem) : Prop := is_rx s = false /\ chan_ctx si = None.

Lemma wait_streams_facts fuel cfg find clock n items i ss t : time_ends cfg clock n -> (n < fuel)%nat ->
  (i + length ss <= length items)%nat ->
  exists ok, wait_streams fuel cfg find clock items i ss t = Ret ok /\
    (ok = true -> forall k s si, ss !! k = Some s -> items !! (i + k)%nat = Some si -> waits_for s si ->
       exists m, find m (si_sid si) = true).
Proof.
  intros He Hf. revert i t. induction ss as [|s ss IH]; intros i t Hl; cbn [wait_streams length] in *.
  { exists true. split; [done|]. intros _ k s si Hk. by rewrite lookup_nil in Hk. }
  destruct (array_get_lt items i) as (si & -> & Hi); [lia|]. cbn [mbind outcome_bind].
  assert (Hstep : forall ok, (ok = true -> forall k s' si', ss !! k = Some s' -> items !! (i + 1 + k)%nat = Some si' ->
      waits_for s' si' -> exists m, find m (si_sid si') = true) ->
    (ok = true -> waits_for s si -> exists m, find m (si_sid si) = true) ->
    ok = true -> forall k s' si', (s :: ss) !! k = Some s' -> items !! (i + k)%nat = Some si' -> waits_for s' si' ->
      exists m, find m (si_sid si') = true).
  { intros ok H1 H2 Hok [|k] s' si' Hs Hsi Hw; cbn in Hs.
    - rewrite Nat.add_0_r in Hsi. simplify_eq. auto.
    - apply (H1 Hok k s' si'); [done| |done]. by rewrite <- Nat.add_assoc. }
  destruct (negb (is_rx s) && bool_decide (chan_ctx si = None)) eqn:Ew.
  - destruct (wait_loop_facts fuel cfg find clock n t (si_sid si)) as (ok & t' & -> & Hok); [done|lia|lia|].
    cbn [mbind outcome_bind]. destruct ok; [|by eexists].
    destruct (IH (i + 1)%nat t') as (ok & -> & H); [lia|]. exists ok. split; [done|]. eauto.
  - destruct (IH (i + 1)%nat t) as (ok & -> & H); [lia|]. exists ok. split; [done|]. apply Hstep; [done|].
    intros _ [H1 H2]. rewrite H1, H2 in Ew. by rewrite bool_decide_true in Ew.
Qed.

Lemma init_whole fuel cfg a d env r n : app_kept a d r -> allocs_fresh cfg a (stream_envs env) 0 (streams cfg) r ->
  time_ends cfg (poll_clock env) n -> (n < fuel)%nat ->
  exists r' items rc ev, Init fuel cfg (Some a) env r = Ret (r', items, rc, ev) /\ init_grows a d r r' /\
    asked (app_id d) r items r' /\ items_live a r' items /\ Forall2 item_for (take (length items) (streams cfg)) items /\
    (rc = 0 \/ rc = -1) /\
    (rc = 0 -> length items = length (streams cfg) /\
       forall k s si, streams cfg !! k = Some s -> items !! k = Some si -> waits_for s si ->
         exists m, find_channel env m (si_sid si) = true).
Proof.
  intros K Hf He Hn. unfold Init, Init_from. cbn [app].
  destruct (init_streams_facts cfg a d (stream_envs env) 0 (streams cfg) r K Hf)
    as (r' & items & ok & ev & -> & G & A & Hok & _ & Hall & Hl & _). cbn [mbind outcome_bind].
  destruct ok.
  - specialize (Hok eq_refl).
    destruct (wait_streams_facts fuel cfg (find_channel env) (poll_clock env) n items 0 (streams cfg) 0 He Hn)
      as (ok & -> & Hw); [lia|]. cbn [mbind outcome_bind].
    eexists r', items, _, ev. split; [reflexivity|]. split_and!; try done; destruct ok; eauto; done.
  - eexists r', items, _, ev. split; [reflexivity|]. split_and!; try done; auto.
Qed.

(** [Init] returns. When it returns 0 every stream of the configuration has
    its item, with the id the configuration names, in order: the application
    has asked for those it receives, holds a live channel of its own for those
    that have one, and each of the others was found as an input channel of
    somebody else. When it returns -1 the items are those of the streams before
    the failure. It asks for nothing else, and the requests of the other
    applications are as before. *)
Theorem init_spec fuel cfg a d env r n : router_wf r -> dapps r !! a = Some d ->
  allocs_fresh cfg a (stream_envs env) 0 (streams cfg) r ->
  time_ends cfg (poll_clock env) n -> (n < fuel)%nat ->
  exists r' items rc ev, Init fuel cfg (Some a) env r = Ret (r', items, rc, ev) /\ router_wf r' /\
    asked (app_id d) r items r' /\ items_live a r' items /\ Forall2 item_for (take (length items) (streams cfg)) items /\
    (forall i s, i <> app_id d -> subscribed r' i s = subscribed r i s) /\
    (rc = 0 \/ rc = -1) /\
    (rc = 0 -> length items = length (streams cfg) /\
       forall k s si, streams cfg !! k = Some s -> items !! k = Some si -> waits_for s si ->
         exists m, find_channel env m (si_sid si) = true).
Proof.
  intros Hr Hd Hf He Hn. destruct (init_whole fuel cfg a d env r n) as (r' & items & rc & ev & E & [[K _] _ O _] & H);
    [split; [done|by exists d]|done|done|done|]. exists r', items, rc, ev. intuition auto.
Qed.

(** An application that sends on a stream whose receiver never appears, and
    has no initialisation timeout, waits in [Init] for ever. *)
Theorem init_waits_forever cfg find clock t sid : Qle (initialization_timeout_secs cfg) 0 ->
  (forall k, find k sid = false) -> forall fuel, wait_loop fuel cfg find clock t sid = Fault Divergence.
Proof.
  intros Hq Hn fuel. revert t. induction fuel as [|fuel IH]; intros t; [done|]. cbn [wait_loop].
  unfold jrtc_router_input_channel_exists, init_expired, Qltb. cbn [negb]. rewrite Hn. cbn [Z.eqb].
  apply Qle_bool_iff in Hq. rewrite Hq. apply IH.
Qed.

(** ** Dispatch *)

(** A stream the entry is handed to. *)
Definition handles (e : jrtc_router_data_entry) (p : JrtcStreamCfg_t * StreamItem) : Prop :=
  is_rx p.1 && jrtc_router_stream_id_matches_req (de_stream_id e) (si_sid p.2) = true.

#[local] Instance handles_dec e p : Decision (handles e p).
Proof. unfold handles. apply _. Defined.

(** The first of them, and the buffer released once, whether there is one or not. *)
Definition entry_events (ss : list JrtcStreamCfg_t) (items : list StreamItem) (e : jrtc_router_data_entry) : list app_event :=
  match list_find (handles e) (zip ss items) with Some (sidx, _) => [HandlerData sidx e] | None => [] end ++
  (Io <$> jrtc_router_channel_release_buf (de_data e)).

Lemma find_stream_facts ss items sidx e : (sidx + length ss <= length items)%nat ->
  find_stream ss items sidx e =
    Ret ((λ p, (sidx + p.1)%nat) <$> list_find (handles e) (zip ss (drop sidx items))).
Proof.
  revert sidx. induction ss as [|s ss IH]; intros sidx Hl; cbn [find_stream length] in *; [done|].
  destruct (array_get_lt items sidx) as (si & -> & Hi); [lia|]. cbn [mbind outcome_bind].
  rewrite (drop_S items si sidx Hi). cbn [zip_with list_find].
  destruct (is_rx s && _) eqn:Eh.
  - rewrite decide_True by done. cbn. by rewrite Nat.add_0_r.
  - rewrite decide_False by (unfold handles; cbn [fst snd]; by rewrite Eh). rewrite IH, Nat.add_1_r by lia. f_equal.
    destruct (list_find _ _) as [[j p]|]; cbn; [|done]. f_equal. lia.
Qed.

Lemma dispatch_facts ss items des : (length ss <= length items)%nat ->
  dispatch ss items des = Ret (concat (entry_events ss items <$> des)).
Proof.
  intros Hl. induction des as [|e des IH]; [done|]. cbn [dispatch].
  rewrite find_stream_facts by (cbn; lia). rewrite IH. cbn [mbind outcome_bind]. f_equal. cbn.
  unfold entry_events at 2. rewrite drop_0, <- app_assoc. f_equal.
  by destruct (list_find _ _) as [[j p]|].
Qed.

(** ** Rounds *)

(** The tables of the application are as they were. *)
Lemma ring_loop_lists n (d d' : dapp) des : ring_loop n d = Ret (d', des) ->
  app_id d' = app_id d /\ forall o, channel_list d' o = channel_list d o.
Proof.
  revert d d' des. induction n as [|n IH]; intros d d' des; cbn [ring_loop]; [by intros [= <- <-]|].
  destruct (ck_ring_dequeue_spsc (ring d)) as [[b|] ring']; [|by intros [= <- <-]].
  destruct (deref (pool_mem d) b) as [e|]; cbn [mbind outcome_bind]; [|done].
  destruct (ring_loop n _) as [[d1 des1]|] eqn:E; cbn [mbind outcome_bind]; [|done]. intros [= <- <-].
  apply (IH _ _ _ E).
Qed.

Lemma receive_lists (r : router) (io : S) a d n r' io' des : dapps r !! a = Some d ->
  jrtc_router_receive r io a n = Ret (r', io', des) ->
  exists d', dapps r' !! a = Some d' /\ app_id d' = app_id d /\ forall o, channel_list d' o = channel_list d o.
Proof.
  intros Hd. unfold jrtc_router_receive. rewrite (deref_Some _ _ _ Hd). cbn [mbind outcome_bind].
  destruct (ring_loop n d) as [[d' des1]|] eqn:E; cbn [mbind outcome_bind]; [|done].
  destruct (channel_loop _ _ _ _) as [[io1 des2]|]; cbn [mbind outcome_bind]; [|done]. intros [= <- <- <-].
  exists d'. cbn. rewrite lookup_insert_eq. split; [done|]. apply (ring_loop_lists _ _ _ _ E).
Qed.

(** The stored keys of the application's channels, wherever [mem] still holds
    the id of a channel, are the keys of that channel. *)
Definition keys_ok (mem : nat -> nat -> list Z) (a : nat) (r : router) : Prop :=
  forall k p x d, dapps r !! a = Some d -> channels r !! p = Some x -> ch_app_ctx x = a ->
    keys_intact (mem k) (channel_list d (is_output x)) (ch_stream_id x) p.

(** What holds of the router while the application [aid] at [a] runs. *)
Record app_inv (mem : nat -> nat -> list Z) (a aid : nat) (items : list StreamItem) (r : router) : Prop := {
  ai_inv : router_wf r;
  ai_app : exists d, dapps r !! a = Some d /\ app_id d = aid;
  ai_live : Forall (chan_live a r) items;
  ai_keys : keys_ok mem a r;
  ai_only : forall s, subscribed r aid s = true -> exists si, si ∈ items /\ registered si = true /\ si_sid si = s
}.

Lemma subscribed_same (r r' : router) : reqs r' = reqs r -> req_entries r' = req_entries r ->
  forall i s, subscribed r' i s = subscribed r i s.
Proof. intros H1 H2 i s. unfold subscribed, req_bitmap. by rewrite H1, H2. Qed.

Lemma receive_app_inv mem a aid items r (io : S) n : app_inv mem a aid items r ->
  exists d r' io' des', dapps r !! a = Some d /\
    jrtc_router_receive r io a n = Ret (r', io', take n (queue d) ++ des') /\
    (length (take n (queue d) ++ des') <= n)%nat /\ app_inv mem a aid items r'.
Proof.
  intros [W (d & Hd & Hi) Hl Hk Ho].
  destruct (receive_facts r io a d n W Hd) as (r' & io' & des' & E & (W' & _ & _ & Hrq & Hre & _ & Hch) & Hlen & _).
  destruct (receive_lists _ _ _ _ _ _ _ _ Hd E) as (d' & Hd' & Hi' & Hcl).
  exists d, r', io', des'. split_and!; try done. constructor.
  - done.
  - exists d'. by rewrite Hi'.
  - eapply Forall_impl; [exact Hl|]. intros si Hs c. rewrite Hch. apply Hs.
  - intros k p x d0 Hd0. rewrite Hch. simplify_eq. intros Hx Ha. rewrite Hcl. by apply (Hk k p x d).
  - intros s. rewrite (subscribed_same r r' Hrq Hre). apply Ho.
Qed.

(** The other threads leave what the application relies on. *)
Definition round_ok (mem : nat -> nat -> list Z) (a aid : nat) (items : list StreamItem)
    (env : round_env B T C R M S) : Prop :=
  forall r io, app_inv mem a aid items r -> app_inv mem a aid items (others env (r, io)).1.

Lemma run_round_facts mem cfg a aid its items env r (io : S) last : app_inv mem a aid items r ->
  round_ok mem a aid items env -> (length (streams cfg) <= length its)%nat ->
  exists d r' io' des', dapps (others env (r, io)).1 !! a = Some d /\
    let des := take (Z.to_nat (q_size cfg)) (queue d) ++ des' in
    (length des <= Z.to_nat (q_size cfg))%nat /\ app_inv mem a aid items r' /\
    run_round cfg a its env r io last =
      Ret (r', io', if decide (des = []) then (if inactive cfg (now env) last then now env else last) else after env,
           (if inactive cfg (now env) last then [HandlerTimeout] else []) ++
           concat (entry_events (streams cfg) its <$> des)).
Proof.
  intros I Hok Hl. unfold run_round. specialize (Hok r io I). destruct (others env (r, io)) as [r1 io1]. cbn [fst] in *.
  destruct (receive_app_inv mem a aid items r1 io1 (Z.to_nat (q_size cfg)) Hok) as (d & r' & io' & des' & Hd & -> & Hlen & I').
  exists d, r', io', des'. split; [done|]. cbv zeta. split; [done|]. split; [done|].
  cbn [mbind outcome_bind]. by rewrite dispatch_facts.
Qed.

(** A round of the application takes at most [q_size] entries, the oldest
    of its queue first, hands each to the handler with the index of the first
    stream it receives and whose id the entry matches, or drops it when there
    is none, and in both cases releases its buffer exactly once, in order. The
    handler is told of inactivity at most once, before the entries, and only
    after the timeout. *)
Theorem run_round_spec mem cfg a aid items env r (io : S) last : app_inv mem a aid items r ->
  round_ok mem a aid items env -> (length (streams cfg) <= length items)%nat ->
  exists d r' io' des', dapps (others env (r, io)).1 !! a = Some d /\
    let des := take (Z.to_nat (q_size cfg)) (queue d) ++ des' in
    (length des <= Z.to_nat (q_size cfg))%nat /\ app_inv mem a aid items r' /\
    run_round cfg a items env r io last =
      Ret (r', io', if decide (des = []) then (if inactive cfg (now env) last then now env else last) else after env,
           (if inactive cfg (now env) last then [HandlerTimeout] else []) ++
           concat (entry_events (streams cfg) items <$> des)).
Proof. apply run_round_facts. Qed.

(** What the handler is called for: an entry of a stream it receives. *)
Definition event_ok (ss : list JrtcStreamCfg_t) (items : list StreamItem) (ev : app_event) : Prop :=
  match ev with
  | HandlerData i e => exists s si, ss !! i = Some s /\ items !! i = Some si /\ is_rx s = true /\
      jrtc_router_stream_id_matches_req (de_stream_id e) (si_sid si) = true
  | _ => True
  end.

Lemma entry_events_ok ss items e : Forall (event_ok ss items) (entry_events ss items e).
Proof.
  unfold entry_events. apply Forall_app. split; [|apply Forall_fmap, Forall_true; done].
  destruct (list_find _ _) as [[i [s si]]|] eqn:E; [|constructor]. constructor; [|constructor].
  apply list_find_Some in E as (Hi & Hh & _). apply lookup_zip_with_Some in Hi as (? & ? & [= <- <-] & Hs & Hsi).
  apply andb_true_iff in Hh as [H1 H2]. exists s, si. done.
Qed.

Lemma io_events_ok ss items l : Forall (event_ok ss items) (Io <$> l).
Proof. apply Forall_fmap, Forall_true. done. Qed.

Lemma run_loop_facts mem cfg a aid its items rounds r (io : S) last : app_inv mem a aid items r ->
  Forall (round_ok mem a aid items) rounds -> (length (streams cfg) <= length its)%nat ->
  exists r' io' ev, run_loop cfg a its rounds r io last = Ret (r', io', ev) /\ app_inv mem a aid items r' /\
    Forall (event_ok (streams cfg) its) ev.
Proof.
  intros I Hr Hl. revert r io last I. induction Hr as [|env rounds Hok _ IH]; intros r io last I; cbn [run_loop].
  { by exists r, io, []. }
  destruct (run_round_facts mem cfg a aid its items env r io last I Hok Hl) as (d & r1 & io1 & des & _ & _ & I1 & ->).
  cbn [mbind outcome_bind]. edestruct (IH r1 io1) as (r2 & io2 & ev & -> & I2 & Hev); [done|]. cbn [mbind outcome_bind].
  eexists r2, io2, _. split; [done|]. split; [done|]. apply Forall_app. split; [|done]. apply Forall_app. split.
  - destruct (inactive _ _ _); [by constructor|constructor].
  - apply Forall_concat, Forall_fmap, Forall_true. intros e. apply entry_events_ok.
Qed.

(** ** CleanUp *)

(** Withdrawing the request of an item. *)
Lemma withdraw_step mem a d r si : router_wf r -> dapps r !! a = Some d -> keys_ok mem a r ->
  exists r', (if registered si then jrtc_router_channel_deregister_stream_id_req r (Some a) (si_sid si) else Ret r) = Ret r' /\
    router_wf r' /\ dapps r' = dapps r /\ channels r' = channels r /\
    (forall i s, subscribed r' i s = true -> subscribed r i s = true) /\
    (forall i s, i <> app_id d -> subscribed r' i s = subscribed r i s) /\
    (registered si = true -> subscribed r' (app_id d) (si_sid si) = false).
Proof.
  intros W Hd Hk. destruct (registered si); [|by exists r].
  destruct (deregister_req_facts r a d (si_sid si) W Hd) as (r' & E & W' & Hdd & _ & Hs & _).
  exists r'. split; [done|]. split_and!; try done.
  - apply (deregister_req_channels _ _ _ _ E).
  - intros i s. rewrite (Hs i s). by case_decide.
  - intros i s Hne. rewrite (Hs i s), decide_False; [done|tauto].
  - intros _. by rewrite (Hs _ _), decide_True.
Qed.

(** Destroying the channel of an item. *)
Lemma destroy_step mem k a d r si : router_wf r -> dapps r !! a = Some d -> keys_ok mem a r -> chan_live a r si ->
  exists r' ev, match chan_ctx si with
                | Some c => jrtc_router_channel_destroy r (mem k) (Some c)
                | None => Ret (r, [])
                end = Ret (r', ev) /\
    router_wf r' /\ keys_ok mem a r' /\ (exists d', dapps r' !! a = Some d' /\ app_id d' = app_id d) /\
    (forall i s, subscribed r' i s = subscribed r i s) /\
    (forall c, chan_ctx si <> Some c -> channels r' !! c = channels r !! c).
Proof.
  intros W Hd Hk Hl. destruct (chan_ctx si) as [c|] eqn:Ec.
  2: { exists r, []. split_and!; try done. by exists d. }
  destruct (Hl c Ec) as (x & Hx & Ha & _). assert (Hd' : dapps r !! ch_app_ctx x = Some d) by (by rewrite Ha).
  destruct (channel_destroy_facts r (mem k) c x d W Hx Hd' (Hk k c x d Hd Hx Ha))
    as (r' & ev & E & W' & (t & Ht & Hsub) & Hs & Hch).
  assert (Hdel : forall p y, channels r' !! p = Some y -> channels r !! p = Some y).
  { intros p y. destruct Hch as [[_ ->]|[_ ->]]; [rewrite lookup_delete_Some; tauto|done]. }
  rewrite Ha in Ht. exists r', ev. split; [done|]. split_and!.
  - done.
  - intros k' p y d' Hd1 Hy Hay e He Hm. rewrite Ht, lookup_insert_eq in Hd1. injection Hd1 as <-.
    apply (Hk k' p y d Hd (Hdel _ _ Hy) Hay e); [|done].
    destruct (is_output x), (is_output y); cbn in *; auto.
  - exists (upd_channel_list d (is_output x) t). rewrite Ht, lookup_insert_eq. split; [done|]. apply upd_channel_list_facts.
  - done.
  - intros p Hne. destruct Hch as [[_ ->]|[_ ->]]; [|done]. apply lookup_delete_ne. congruence.
Qed.

Lemma CleanUp_facts mem a aid k items r : router_wf r -> (exists d, dapps r !! a = Some d /\ app_id d = aid) ->
  keys_ok mem a r -> Forall (chan_live a r) items -> NoDup (omap chan_ctx items) ->
  exists r' ev, CleanUp mem (Some a) k items r = Ret (r', ev) /\ router_wf r' /\
    (exists d, dapps r' !! a = Some d /\ app_id d = aid) /\
    (forall i s, subscribed r' i s = true -> subscribed r i s = true) /\
    (forall i s, i <> aid -> subscribed r' i s = subscribed r i s) /\
    (forall si, si ∈ items -> registered si = true -> subscribed r' aid (si_sid si) = false) /\
    (forall c, c ∉ omap chan_ctx items -> channels r' !! c = channels r !! c).
Proof.
  revert k r. induction items as [|si items IH]; intros k r Hr (d & Hd & Hi) Hk Hl Hn; cbn [CleanUp].
  { exists r, []. split_and!; try done; [by exists d|]. intros si Hin. by apply not_elem_of_nil in Hin. }
  apply Forall_cons in Hl as [Hl1 Hl].
  destruct (withdraw_step mem a d r si Hr Hd Hk) as (r1 & -> & Hr1 & Hd1 & Hc1 & Hm1 & Ho1 & Hs1). cbn [mbind outcome_bind].
  assert (Hk1 : keys_ok mem a r1). { intros j p x d0. rewrite Hd1, Hc1. apply Hk. }
  assert (Hl1' : chan_live a r1 si). { intros c Hc. rewrite Hc1. by apply Hl1. }
  rewrite <- Hd1 in Hd.
  destruct (destroy_step mem k a d r1 si Hr1 Hd Hk1 Hl1') as (r2 & ev & -> & Hr2 & Hk2 & (d2 & Hd2 & Hi2) & Hs2 & Hc2).
  cbn [mbind outcome_bind].
  assert (Hn2 : NoDup (omap chan_ctx items) /\ forall c, chan_ctx si = Some c -> c ∉ omap chan_ctx items).
  { cbn in Hn. destruct (chan_ctx si) as [c|]; [|done]. apply NoDup_cons in Hn as [H1 H2]. split; [done|]. by intros ? [= <-]. }
  destruct (IH (k + 1)%nat r2) as (r3 & ev3 & -> & Hr3 & Hd3 & Hm3 & Ho3 & Hs3 & Hc3).
  { done. }
  { exists d2. split; [done|congruence]. }
  { done. }
  { eapply Forall_impl; [|intros si' Hsi'; exact Hsi']. apply Forall_forall. intros si' Hin c Hc.
    rewrite Forall_forall in Hl. rewrite Hc2, Hc1; [by apply (Hl si')|]. intros Hc'.
    apply (proj2 Hn2 c Hc'). apply list_elem_of_omap. eauto. }
  { apply Hn2. }
  cbn [mbind outcome_bind]. eexists r3, _. split; [reflexivity|]. split_and!; try done.
  - intros i s Hs. apply Hm3 in Hs. rewrite Hs2 in Hs. by apply Hm1.
  - intros i s Hne. rewrite Ho3, Hs2, Ho1 by congruence. done.
  - intros si' [->|Hin]%elem_of_cons Hreg; [|by apply Hs3].
    destruct (subscribed r3 aid (si_sid si)) eqn:E; [|done]. apply Hm3 in E. rewrite Hs2 in E.
    rewrite <- Hi, (Hs1 Hreg) in E. done.
  - intros c Hc. cbn in Hc. rewrite Hc3, Hc2, Hc1; [done| |].
    + intros Hcc. apply Hc. rewrite Hcc. apply list_elem_of_here.
    + intros Hin. apply Hc. destruct (chan_ctx si); [by apply list_elem_of_further|done].
Qed.

(** ** The whole run *)

(** What is assumed of the surroundings of a run: the router is well formed and
    the application registered, the allocators return unused addresses, the
    clock runs, and the other threads leave the application alone. *)
Record run_assumptions (fuel : nat) (cfg : JrtcAppCfg_t) (a : nat) (d : dapp) (env : app_env)
    (rounds : list (round_env B T C R M S)) (mem : nat -> nat -> list Z) (r : router) : Prop := {
  ra_inv : router_wf r;
  ra_app : dapps r !! a = Some d;
  ra_none : forall s, subscribed r (app_id d) s = false;
  ra_fresh : allocs_fresh cfg a (stream_envs env) 0 (streams cfg) r;
  ra_time : exists n, time_ends cfg (poll_clock env) n /\ (n < fuel)%nat;
  ra_size : 0 <= q_size cfg;
  ra_rounds : forall r' items ok ev, init_streams cfg (Some a) (stream_envs env) 0 (streams cfg) r = Ret (r', items, ok, ev) ->
    keys_ok mem a r' /\ Forall (round_ok mem a (app_id d) items) rounds
}.

(** [Init] and the rounds, for an object that may hold items already. *)
Lemma run_until_exit old fuel cfg a d env (start : Z) rounds mem r (io : S) : run_assumptions fuel cfg a d env rounds mem r ->
  exists r1 new ok ev rc r2 io2 ev2,
    init_streams cfg (Some a) (stream_envs env) 0 (streams cfg) r = Ret (r1, new, ok, ev) /\
    Init_from old fuel cfg (Some a) env r = Ret (r1, old ++ new, rc, ev) /\
    (if rc =? 0 then if q_size cfg <? 0 then Fault Aborted else run_loop cfg a (old ++ new) rounds r1 io start
     else Ret (r1, io, [])) = Ret (r2, io2, ev2) /\
    app_inv mem a (app_id d) new r2 /\ NoDup (omap chan_ctx new) /\
    Forall2 item_for (take (length new) (streams cfg)) new /\ Forall (event_ok (streams cfg) (old ++ new)) ev2 /\
    (ev2 = [] \/ length new = length (streams cfg)).
Proof.
  intros [Hr Hd Hnone Hf (n & He & Hn) Hq Henv].
  destruct (init_streams_facts cfg a d (stream_envs env) 0 (streams cfg) r)
    as (r1 & new & ok & ev & E & G & A & Hok & _ & Hall & [Hl Hnd] & _); [split; [done|by exists d]|done|].
  destruct (Henv _ _ _ _ E) as [Hk Hrounds].
  assert (I1 : app_inv mem a (app_id d) new r1).
  { destruct G as [[H1 (d1 & Hd1 & Hi1 & _)] _ _ _]. constructor; [done|by exists d1| |done|].
    - eapply Forall_impl; [exact Hl|]. by intros si [_ H].
    - intros s Hs. destruct (A s Hs) as [H|H]; [by rewrite Hnone in H|done]. }
  unfold Init_from. rewrite E. cbn [mbind outcome_bind]. exists r1, new, ok, ev. destruct ok.
  - specialize (Hok eq_refl).
    destruct (wait_streams_facts fuel cfg (find_channel env) (poll_clock env) n (old ++ new) 0 (streams cfg) 0 He Hn)
      as (ok & -> & _); [rewrite length_app; lia|]. cbn [mbind outcome_bind].
    destruct ok; [|eexists (-1), r1, io, []; split_and!; auto]. cbn [Z.eqb]. rewrite (proj2 (Z.ltb_ge _ _)) by done.
    destruct (run_loop_facts mem cfg a (app_id d) (old ++ new) new rounds r1 io start) as (r2 & io2 & ev2 & E2 & I2 & Hev);
      [done|done|rewrite length_app; lia|]. eexists 0, r2, io2, ev2. split_and!; auto.
  - eexists (-1), r1, io, []. split_and!; auto.
Qed.

Lemma run_whole fuel cfg a d env (start : Z) rounds mem r (io : S) : run_assumptions fuel cfg a d env rounds mem r ->
  exists r' io' items ev, run_from [] fuel cfg a env start rounds mem r io = Ret (r', io', items, ev) /\ router_wf r' /\
    (forall s, subscribed r' (app_id d) s = false) /\ Forall2 item_for (take (length items) (streams cfg)) items /\
    Forall (event_ok (streams cfg) items) ev /\
    ((forall h, h ∈ ev -> exists l, h = Io l) \/ length items = length (streams cfg)).
Proof.
  intros H. destruct (run_until_exit [] fuel cfg a d env start rounds mem r io H)
    as (r1 & new & ok & ev & rc & r2 & io2 & ev2 & _ & E1 & E2 & [Hi2 Hd2 Hl2 Hk2 Ho2] & Hnd & Hall & Hev & Hlen).
  cbn [app] in *. unfold run_from. rewrite E1. cbn [mbind outcome_bind]. rewrite E2. cbn [mbind outcome_bind].
  destruct (CleanUp_facts mem a (app_id d) 0 new r2 Hi2 Hd2 Hk2 Hl2 Hnd) as (r3 & ev3 & -> & Hi3 & _ & Hm3 & _ & Hs3 & _).
  cbn [mbind outcome_bind]. eexists r3, io2, new, _. split; [reflexivity|]. split_and!; try done.
  - intros s. destruct (subscribed r3 (app_id d) s) eqn:Es; [|done].
    destruct (Ho2 s (Hm3 _ _ Es)) as (si & Hin & Hreg & <-). by rewrite Hs3 in Es.
  - apply Forall_app. split; [apply io_events_ok|]. apply Forall_app. split; [done|apply io_events_ok].
  - destruct Hlen as [->|Hlen]; [left|by right]. intros h. rewrite !elem_of_app, !list_elem_of_fmap, elem_of_nil. naive_solver.
Qed.


(** The item of a stream it receives selects what the stream's configuration
    selects. *)
Lemma item_selects s si fd dv p n sid : item_for s si ->
  selects_number JRTC_ROUTER_DEST_ANY (destination (cfg_sid s)) fd ->
  selects_number JRTC_ROUTER_DEVICE_ID_ANY (cfg_device_id (cfg_sid s)) dv ->
  selects_name (stream_source (cfg_sid s)) p -> selects_name (io_map (cfg_sid s)) n ->
  generated_id (true, true) (true, true) fd dv p n = Ret sid ->
  stream_id_wf sid /\ generalises (decode (si_sid si)) (decode sid) /\
  jrtc_router_stream_id_matches_req sid (si_sid si) = true.
Proof.
  intros (Hg & W & _) H1 H2 H3 H4 Hs.
  destruct (generated_generalises fd dv p n _ _ _ _ H1 H2 H3 H4) as (sid' & req & E1 & E2 & W1 & W2 & Hgen).
  rewrite Hg in E2. rewrite Hs in E1. simplify_eq. split_and!; [done|done|]. by apply lookups_match.
Qed.

Lemma list_find_first {A} (P : A -> Prop) `{forall x, Decision (P x)} l i x : l !! i = Some x -> P x ->
  exists j y, list_find P l = Some (j, y) /\ (j <= i)%nat /\ P y /\ l !! j = Some y /\
    forall j' y', (j' < j)%nat -> l !! j' = Some y' -> ~ P y'.
Proof.
  intros Hl HP. destruct (list_find P l) as [[j y]|] eqn:E.
  - apply list_find_Some in E as (Hj & Hy & Hmin). exists j, y. split_and!; [done| |done|done|eauto].
    destruct (decide (j <= i)%nat) as [|Hlt]; [done|]. by destruct (Hmin i x Hl ltac:(lia)).
  - apply list_find_None in E. rewrite Forall_lookup in E. by destruct (E i x Hl).
Qed.

(** Forwarding to an application that asked for the stream and has room. *)
Lemma forward_queues r r' a d g sid buf ev : router_wf r -> dapps r !! a = Some d -> stream_id_wf sid ->
  stream_id_wf g -> generalises (decode g) (decode sid) -> subscribed r (app_id d) g = true ->
  Z.of_nat (length (queue d)) < pool_cap (data_entry_pool d) ->
  _jrtc_router_forward_msgs r true sid [buf] = Ret (r', ev) ->
  router_wf r' /\ exists d', dapps r' !! a = Some d' /\
    queue d' = queue d ++ [mk_data_entry sid (jbpf_io_channel_share_data_ptr buf)].
Proof.
  intros W Hd Ws Wg Hg Hsub Hroom Hfw. pose proof (forward_facts r sid buf [] W) as H. cbv zeta in H.
  destruct (overflow r sid); [congruence|].
  destruct H as (r2 & E2 & W2 & _ & Hctx & _ & Hqs). rewrite Hfw in E2. simplify_eq.
  split; [done|]. pose proof (wf_dapp _ W _ _ Hd) as Hslot. rewrite <- Hctx in Hslot.
  destruct (wf_app _ W2 _ _ Hslot) as (_ & d' & Hd' & Hi & _). exists d'. split; [done|].
  pose proof (app_queue_dapp r2 a d' W2 Hd') as Hq. rewrite Hi, Hqs, decide_True, (app_queue_dapp r a d W Hd) in Hq.
  - cbn in Hq. rewrite (proj2 (Z.ltb_lt _ _)) in Hq by done. by injection Hq as <- _.
  - apply list_elem_of_filter. split; [apply interested_spec; eauto|].
    apply elem_of_seq. pose proof (wf_app_id _ _ _ W Hd). lia.
Qed.

Lemma app_handles_facts fuel cfg a d env r n r1 items ev0 k s fd dv p nm sid buf renv (io io2 : S) r2 ev last :
  router_wf r -> dapps r !! a = Some d -> allocs_fresh cfg a (stream_envs env) 0 (streams cfg) r ->
  time_ends cfg (poll_clock env) n -> (n < fuel)%nat ->
  Init fuel cfg (Some a) env r = Ret (r1, items, 0, ev0) ->
  streams cfg !! k = Some s -> is_rx s = true ->
  selects_number JRTC_ROUTER_DEST_ANY (destination (cfg_sid s)) fd ->
  selects_number JRTC_ROUTER_DEVICE_ID_ANY (cfg_device_id (cfg_sid s)) dv ->
  selects_name (stream_source (cfg_sid s)) p -> selects_name (io_map (cfg_sid s)) nm ->
  generated_id (true, true) (true, true) fd dv p nm = Ret sid ->
  Z.of_nat (length (queue d)) < pool_cap (data_entry_pool d) -> Z.of_nat (length (queue d)) < q_size cfg ->
  _jrtc_router_forward_msgs r1 true sid [buf] = Ret (r2, ev) ->
  others renv (r1, io) = (r2, io2) ->
  exists r3 io3 last' evs j s' si,
    run_round cfg a items renv r1 io last = Ret (r3, io3, last', evs) /\ (j <= k)%nat /\
    streams cfg !! j = Some s' /\ is_rx s' = true /\ items !! j = Some si /\ item_for s' si /\
    jrtc_router_stream_id_matches_req sid (si_sid si) = true /\
    (forall j' s0 si0, (j' < j)%nat -> streams cfg !! j' = Some s0 -> items !! j' = Some si0 -> is_rx s0 = true ->
       jrtc_router_stream_id_matches_req sid (si_sid si0) = false) /\
    HandlerData j (mk_data_entry sid (jbpf_io_channel_share_data_ptr buf)) ∈ evs.
Proof.
  intros Hr Hd Hf He Hn E Hs Hrx H1 H2 H3 H4 Hg Hroom Hq Hfw Hoth.
  destruct (init_whole fuel cfg a d env r n) as (r1' & items' & rc & ev1 & E' & G & _ & [Hl _] & Hall & _ & Hok);
    [split; [done|by exists d]|done|done|done|].
  rewrite E in E'. simplify_eq. destruct (Hok eq_refl) as [Hlen _]. rewrite take_ge in Hall by lia.
  destruct (Forall2_lookup_l _ _ _ _ _ Hall Hs) as (si & Hsi & Hitem).
  destruct (item_selects s si fd dv p nm sid Hitem H1 H2 H3 H4 Hg) as (Wsid & Hgen & Hm).
  destruct G as [(W1 & d1 & Hd1 & Hi1 & Hq1 & Hp1) _ _ _].
  assert (Hsub : subscribed r1' (app_id d1) (si_sid si) = true).
  { rewrite Forall_forall in Hl. destruct (Hl si) as [Hreg _]; [by apply list_elem_of_lookup_2 in Hsi|].
    apply Hreg; [|done]. destruct Hitem as (_ & _ & -> & _). done. }
  destruct (forward_queues r1' r2 a d1 (si_sid si) sid buf ev) as (W2 & d2 & Hd2 & Hq2);
    [done|done|done|by destruct Hitem as (_ & ? & _)|done|done|by rewrite Hq1, Hp1|done|].
  unfold run_round. rewrite Hoth.
  destruct (receive_facts r2 io2 a d2 (Z.to_nat (q_size cfg)) W2 Hd2) as (r3 & io3 & des & -> & _).
  cbn [mbind outcome_bind]. rewrite dispatch_facts by lia. cbn [mbind outcome_bind].
  assert (Hz : zip (streams cfg) items' !! k = Some (s, si)) by (by apply lookup_zip_with_Some; eauto).
  destruct (list_find_first (handles (mk_data_entry sid (jbpf_io_channel_share_data_ptr buf))) _ k (s, si) Hz)
    as (j & [s' si'] & Ej & Hj & Hh & Hjz & Hmin); [by unfold handles; cbn [fst snd de_stream_id]; rewrite Hrx, Hm|].
  apply lookup_zip_with_Some in Hjz as (? & ? & [= <- <-] & Hs' & Hsi').
  apply andb_true_iff in Hh as [Hrx' Hm'].
  eexists _, _, _, _, j, s', si'. split; [reflexivity|]. split_and!; try done.
  { destruct (Forall2_lookup_l _ _ _ _ _ Hall Hs') as (si2 & H5 & H6). by simplify_eq. }
  { intros j' s0 si0 Hlt Hs0 Hi0 Hrx0. apply not_true_is_false. intros Hm0.
    apply (Hmin j' (s0, si0) Hlt); [by apply lookup_zip_with_Some; eauto|].
    unfold handles. cbn [fst snd de_stream_id]. by rewrite Hrx0, Hm0. }
  apply elem_of_app. right. rewrite Hq2, Hq1, take_ge by (rewrite length_app; cbn; lia).
  rewrite !fmap_app, !concat_app. cbn. unfold entry_events at 2. rewrite Ej.
  apply elem_of_app. left. apply elem_of_app. right. apply list_elem_of_here.
Qed.


(** When the request of a stream is refused after its channel was created, the
    channel is in no item: [CleanUp] does not know it, and it is still live
    when [run] has returned. *)
Theorem run_leaks_channel fuel cfg a d env start rounds mem r (io : S) s k sid r1 c ev1 r2 reg :
  router_wf r -> dapps r !! a = Some d -> stream_env_fresh r (stream_envs env 0) ->
  streams cfg = [s] -> appChannel s = Some k ->
  jrtc_router_generate_stream_id (hash_source (stream_envs env 0)) (hash_io_map (stream_envs env 0)) (Some (mk_stream_id []))
    (destination (cfg_sid s)) (cfg_device_id (cfg_sid s)) (stream_source (cfg_sid s)) (io_map (cfg_sid s)) = Ret (1, Some sid) ->
  init_channel (Some a) (stream_envs env 0) s sid r = Ret (r1, Some c, true, ev1) ->
  init_request (Some a) (stream_envs env 0) s sid r1 = Ret (r2, reg, false) ->
  exists x, run fuel cfg a env start rounds mem r io = Ret (r2, io, Io <$> ev1) /\ channels r2 !! c = Some x /\
    ch_app_ctx x = a /\ ch_stream_id x = sid.
Proof.
  intros Hr Hd [Hf1 Hf2] Hs Hk Hg Hc Hq.
  destruct (create_step a d r (stream_envs env 0) s sid) as (r1' & chan & ok & ev & E1 & K1 & Hre & _ & _ & _ & Hch);
    [split; [done|by exists d]|done|]. rewrite Hc in E1. injection E1 as <- <- <- <-.
  destruct (Hch c eq_refl) as (_ & x & Hx & Ha & Hsid).
  destruct (request_step a d r1 (stream_envs env 0) s sid K1) as (r2' & reg' & ok & E2 & _ & Hch2 & _).
  { intros p Hp. rewrite Hre. by apply Hf1. }
  rewrite Hq in E2. injection E2 as <- <- <-. exists x. rewrite Hch2. split_and!; try done.
  unfold run, run_from, Init_from. rewrite Hs. cbn [init_streams]. unfold init_stream. rewrite Hg. cbn [mbind outcome_bind negb Z.eqb Pos.eqb].
  rewrite Hc. cbn [mbind outcome_bind negb]. rewrite Hq. cbn. by rewrite app_nil_r.
Qed.

End Facts.

(** ** Indices of the C interface *)

(** An index in the table of items is that item; a negative one, one past the
    end, and an unsigned one that does not fit an [int] are refused, never an
    access outside the table. *)
Theorem index_spec items i : Z.of_nat (length items) < 2 ^ 31 ->
  (0 <= i < Z.of_nat (length items) -> get_item items i = items !! Z.to_nat i) /\
  (- 2 ^ 31 <= i < 0 \/ Z.of_nat (length items) <= i < 2 ^ 31 ->
     get_stream items i = None /\ get_chan_ctx items i = None) /\
  (Z.of_nat (length items) <= i < 2 ^ 32 -> forall send data n,
     jrtc_app_router_channel_send_input_msg send items i data n = -1).
Proof.
  intros Hl. assert (Hout : forall j, - 2 ^ 31 <= j < 0 \/ Z.of_nat (length items) <= j < 2 ^ 31 -> get_item items j = None).
  { intros j Hj. unfold get_item. rewrite (proj2 (Z.ltb_ge _ _)); [done|].
    destruct Hj as [Hj|Hj]; [|rewrite Z.mod_small; lia].
    replace j with (j + 2 ^ 64 + (-1) * 2 ^ 64) by lia. rewrite Z.mod_add, Z.mod_small; lia. }
  split_and!.
  - intros Hi. unfold get_item. rewrite Z.mod_small by lia. by rewrite (proj2 (Z.ltb_lt _ _)) by lia.
  - intros Hi. unfold get_stream, get_chan_ctx. by rewrite Hout.
  - intros Hi send data n. unfold jrtc_app_router_channel_send_input_msg, get_stream. rewrite Hout; [done|].
    destruct (Z.ltb_spec i (2 ^ 31)); lia.
Qed.

