(* ===== verification/JrtcAppObject.v ===== *)
(** * Objects of the application class

    [jrtc_app_create], [jrtc_app_run] and [jrtc_app_destroy] of
    [src/src/wrapper_apis/c/jrtc_app.cpp]: the objects live on a heap, and an
    object keeps its [stream_items] from one run to the next. *)
From S2P Require Import Prelude StreamId Ext Router RouterLookup RouterInv RouterChannels RouterForward RouterReceive RouterInit AppApi NorthIo JrtcApp JrtcAppFacts.

(** [class JrtcApp]: the context its environment points to, the configuration
    and the items. The time of the last entry is written by the constructor and
    by [Init] before it is read; handler and state are the caller's. *)
Record JrtcAppObj := mk_JrtcApp {
  obj_ctx : nat;
  obj_cfg : JrtcAppCfg_t;
  stream_items : list StreamItem
}.

Abbreviation obj_heap := (gmap nat JrtcAppObj).

(** [new JrtcApp(...)]: the address of the object; when there is none,
    [std::bad_alloc] leaves a function that C calls. *)
Definition jrtc_app_create (addr : option nat) (heap : obj_heap) (ctx : nat) (cfg : JrtcAppCfg_t) : outcome (obj_heap * nat) :=
  match addr with
  | None => Fault Aborted
  | Some p => Ret (<[p := mk_JrtcApp ctx cfg []]> heap, p)
  end.

(** [delete app]. *)
Definition jrtc_app_destroy (heap : obj_heap) (app : option nat) : outcome obj_heap :=
  match app with
  | None => Ret heap
  | Some p => match heap !! p with Some _ => Ret (delete p heap) | None => Fault DoubleFree end
  end.

Section Object.
Context {cs : CharSign}.
Context {B It T C R M S : Type}.
Context `{HB : CkBitmap B It} `{HT : CkHt T nat} `{HC : CkPtrHt C} `{HR : CkRing R} `{HM : Mempool M} `{HS : JbpfIo S}.

Abbreviation router := (jrtc_router_ctx B T C R M).
Abbreviation round := (round_env B T C R M S).

Definition jrtc_app_run (fuel : nat) (env : app_env) (start : Z) (rounds : list round) (mem : nat -> nat -> list Z)
    (heap : obj_heap) (app : option nat) (r : router) (io : S) : outcome (router * S * obj_heap * list app_event) :=
  match app with
  | None => Ret (r, io, heap, [])
  | Some p =>
      o ← deref heap p;
      '(r, io, items, ev) ← run_from (stream_items o) fuel (obj_cfg o) (obj_ctx o) env start rounds mem r io;
      Ret (r, io, <[p := mk_JrtcApp (obj_ctx o) (obj_cfg o) items]> heap, ev)
  end.

Context `{LB : !CkBitmapLaws B It} `{LT : !CkHtLaws T nat} `{LC : !CkPtrHtLaws C} `{LR : !CkRingLaws R} `{LM : !MempoolLaws M}.
Context `{LS : !JbpfIoLaws S}.

(** A new object, run once. *)
Lemma create_run fuel p cfg a d env (start : Z) rounds mem (heap : obj_heap) (r : router) (io : S) :
  run_assumptions fuel cfg a d env rounds mem r ->
  exists heap0 r' io' items ev, jrtc_app_create (Some p) heap a cfg = Ret (heap0, p) /\
    run_from [] fuel cfg a env start rounds mem r io = Ret (r', io', items, ev) /\
    jrtc_app_run fuel env start rounds mem heap0 (Some p) r io = Ret (r', io', <[p := mk_JrtcApp a cfg items]> heap, ev) /\
    router_wf r' /\ (forall s, subscribed r' (app_id d) s = false) /\
    Forall2 item_for (take (length items) (streams cfg)) items /\ Forall (event_ok (streams cfg) items) ev /\
    ((forall h, h ∈ ev -> exists l, h = Io l) \/ length items = length (streams cfg)).
Proof.
  intros H. destruct (run_whole fuel cfg a d env start rounds mem r io H) as (r' & io' & items & ev & E & Hi & Hn & Hall & Hev).
  eexists _, r', io', items, ev. split; [reflexivity|]. split; [done|]. cbn [jrtc_app_run]. unfold deref. rewrite lookup_insert_eq.
  cbn [mbind outcome_bind stream_items obj_cfg obj_ctx]. rewrite E. cbn [mbind outcome_bind]. by rewrite insert_insert_eq.
Qed.

(** An application object that is created, run once and destroyed: every
    step returns, nothing stays on the heap, and the application has asked for
    nothing any more. Destroying the object again is a double free, running it
    again a use after free. *)
Theorem object_lifecycle fuel p cfg a d env (start : Z) rounds mem (heap : obj_heap) (r : router) (io : S) :
  heap !! p = None -> run_assumptions fuel cfg a d env rounds mem r ->
  exists heap0 heap1 r' io' ev, jrtc_app_create (Some p) heap a cfg = Ret (heap0, p) /\
    jrtc_app_run fuel env start rounds mem heap0 (Some p) r io = Ret (r', io', heap1, ev) /\
    jrtc_app_destroy heap1 (Some p) = Ret heap /\ router_wf r' /\ (forall s, subscribed r' (app_id d) s = false) /\
    jrtc_app_destroy heap (Some p) = Fault DoubleFree /\
    jrtc_app_run fuel env start rounds mem heap (Some p) r' io' = Fault UseAfterFree.
Proof.
  intros Hp H. destruct (create_run fuel p cfg a d env start rounds mem heap r io H)
    as (heap0 & r' & io' & items & ev & E1 & _ & E2 & Hi & Hn & _).
  exists heap0, (<[p := mk_JrtcApp a cfg items]> heap), r', io', ev. split_and!; try done.
  - unfold jrtc_app_destroy. by rewrite lookup_insert_eq, delete_insert_id.
  - unfold jrtc_app_destroy. by rewrite Hp.
  - unfold jrtc_app_run, deref. by rewrite Hp.
Qed.

(** ** A second run *)

(** The channels of the items are freed. *)
Definition stale (items : list StreamItem) (ch : gmap nat dapp_channel_ctx) : Prop :=
  forall si c, si ∈ items -> chan_ctx si = Some c -> ch !! c = None.

Lemma receive_channels (r : router) (io : S) a n r' io' des : jrtc_router_receive r io a n = Ret (r', io', des) ->
  channels r' = channels r.
Proof.
  unfold jrtc_router_receive. destruct (deref _ _) as [d|]; cbn [mbind outcome_bind]; [|done].
  destruct (ring_loop n d) as [[d' des1]|]; cbn [mbind outcome_bind]; [|done].
  destruct (channel_loop _ _ _ _) as [[io1 des2]|]; cbn [mbind outcome_bind]; [|done]. by intros [= <- _ _].
Qed.

(** What other threads keep of the channels, a run keeps. *)
Lemma run_loop_channels (P : gmap nat dapp_channel_ctx -> Prop) cfg a its (rounds : list round) r io last r' io' ev :
  Forall (λ env, forall r io, P (channels r) -> P (channels (others env (r, io)).1)) rounds ->
  run_loop cfg a its rounds r io last = Ret (r', io', ev) -> P (channels r) -> P (channels r').
Proof.
  intros Hr. revert r io last ev. induction Hr as [|env rounds Hok _ IH]; intros r io last ev; cbn [run_loop]; [by intros [= <- _ _]|].
  unfold run_round. specialize (Hok r io). destruct (others env (r, io)) as [r1 io1]. cbn [fst] in Hok.
  destruct (jrtc_router_receive r1 io1 a _) as [[[r2 io2] des]|] eqn:E; cbn [mbind outcome_bind]; [|done].
  apply receive_channels in E. destruct (dispatch _ _ _) as [evs|]; cbn [mbind outcome_bind]; [|done].
  destruct (run_loop _ _ _ _ r2 io2 _) as [[[r3 io3] ev3]|] eqn:E3; cbn [mbind outcome_bind]; [|done].
  intros [= -> -> _] HP. apply (IH _ _ _ _ E3). rewrite E. auto.
Qed.

Lemma CleanUp_stale mem a aid k old new (r : router) : router_wf r -> (exists d, dapps r !! a = Some d /\ app_id d = aid) ->
  keys_ok mem a r -> stale old (channels r) -> Exists (λ si, is_Some (chan_ctx si)) old ->
  CleanUp mem (Some a) k (old ++ new) r = Fault UseAfterFree.
Proof.
  intros Hr Ha Hk Hs Hex. revert k r Hr Ha Hk Hs. induction old as [|si old IH]; intros k r Hr (d & Hd & Hi) Hk Hs; [by inversion Hex|].
  cbn [app CleanUp]. destruct (withdraw_step mem a d r si Hr Hd Hk) as (r1 & -> & Hr1 & Hd1 & Hc1 & _). cbn [mbind outcome_bind].
  destruct (chan_ctx si) as [c|] eqn:Ec.
  - unfold jrtc_router_channel_destroy, deref. by rewrite Hc1, (Hs si c (list_elem_of_here _ _) Ec).
  - cbn [mbind outcome_bind]. rewrite IH; [done| |done| | |].
    + inversion Hex as [? ? He|]; [by destruct He; congruence|done].
    + exists d. by rewrite Hd1.
    + intros j p x d0. rewrite Hd1, Hc1. apply Hk.
    + intros si' c Hin. rewrite Hc1. apply Hs. by apply list_elem_of_further.
Qed.

(** [Init] puts channels at the addresses it is given, and nowhere else. *)
Lemma init_stream_channels cfg a env s (r r' : router) new ok ev c : init_stream cfg a env s r = Ret (r', new, ok, ev) ->
  malloc_channel (chan_env env) <> Some c -> channels r' !! c = channels r !! c.
Proof.
  intros E Hc. unfold init_stream in E.
  destruct (Bloom.jrtc_router_generate_stream_id _ _ _ _ _ _ _) as [[res o]|]; cbn [mbind outcome_bind] in E; [|done].
  destruct (negb (res =? 1)); [by injection E as <- _ _ _|]. destruct o as [sid|]; [|done].
  destruct (init_channel a env s sid r) as [[[[r1 chan] ok1] ev1]|] eqn:E1; cbn [mbind outcome_bind] in E; [|done].
  assert (H1 : channels r1 !! c = channels r !! c).
  { unfold init_channel in E1. destruct (appChannel s) as [k|]; [|by injection E1 as <- _ _ _].
    destruct (jrtc_router_channel_create r (chan_env env) a (cfg_is_output k) sid) as [[[r2 ch] ev2]|] eqn:E2;
      cbn [mbind outcome_bind] in E1; [|done]. injection E1 as <- _ _ _. clear E.
    unfold jrtc_router_channel_create in E2. destruct a as [a|]; [|by injection E2 as <- _ _].
    destruct (malloc_channel (chan_env env)) as [c'|]; [|by injection E2 as <- _ _].
    destruct (deref (dapps r) a) as [d|]; cbn [mbind outcome_bind] in E2; [|done].
    destruct (create_channel (chan_env env)); [|by injection E2 as <- _ _].
    destruct (ptr_ht_set_spmc _ _ _ _) as [[] t]; injection E2 as <- _ _; [|done]. cbn.
    apply lookup_insert_ne. congruence. }
  destruct (negb ok1); [by injection E as <- _ _ _|].
  destruct (init_request a env s sid r1) as [[[r2 reg] ok2]|] eqn:E2; cbn [mbind outcome_bind] in E; [|done].
  assert (H2 : channels r2 = channels r1).
  { unfold init_request in E2. destruct (is_rx s); [|by injection E2 as <- _ _].
    destruct a as [a|]; [|by cbn in E2; injection E2 as <- _ _].
    destruct (jrtc_router_channel_register_stream_id_req r1 (req_env env) (Some a) sid) as [[r3 res3]|] eqn:E3;
      cbn [mbind outcome_bind] in E2; [|done]. injection E2 as <- _ _. by apply register_req_channels in E3. }
  rewrite <- H1, <- H2. destruct (negb ok2); by injection E as <- _ _ _.
Qed.

Lemma init_streams_channels cfg a env i ss (r r' : router) new ok ev c :
  (forall j, (i <= j < i + length ss)%nat -> malloc_channel (chan_env (env j)) <> Some c) ->
  init_streams cfg a env i ss r = Ret (r', new, ok, ev) -> channels r' !! c = channels r !! c.
Proof.
  revert i r new ok ev. induction ss as [|s ss IH]; intros i r new ok ev Hc; cbn [init_streams length] in *; [by intros [= <- _ _ _]|].
  destruct (init_stream cfg a (env i) s r) as [[[[r1 new1] ok1] ev1]|] eqn:E1; cbn [mbind outcome_bind]; [|done].
  apply init_stream_channels with (c := c) in E1; [|apply Hc; lia]. destruct ok1; [|intros [= <- _ _ _]; done].
  destruct (init_streams cfg a env (i + 1) ss r1) as [[[[r2 new2] ok2] ev2]|] eqn:E2; cbn [mbind outcome_bind]; [|done].
  intros [= <- _ _ _]. rewrite <- E1. eapply IH; [|exact E2]. intros j Hj. apply Hc. lia.
Qed.

(** Whether the channels of items are freed. *)
Lemma stale_dec items (ch : gmap nat dapp_channel_ctx) :
  stale items ch \/ exists si c x, si ∈ items /\ chan_ctx si = Some c /\ ch !! c = Some x.
Proof.
  destruct (decide (Forall (λ c, ch !! c = None) (omap chan_ctx items))) as [H|H].
  - left. intros si c Hin Hc. rewrite Forall_forall in H. apply H, list_elem_of_omap. eauto.
  - right. apply not_Forall_Exists in H; [|apply _]. apply Exists_exists in H as (c & (si & Hin & Hc)%list_elem_of_omap & Hn).
    destruct (ch !! c) as [x|] eqn:E; [|done]. by exists si, c, x.
Qed.

(** No channel of [items] gets its address back during a run: the allocator
    does not return it, and the other threads put no channel there. *)
Definition not_reused (cfg : JrtcAppCfg_t) (items : list StreamItem) (env : app_env) (rounds : list round) : Prop :=
  (forall si c i, si ∈ items -> chan_ctx si = Some c -> (i < length (streams cfg))%nat -> malloc_channel (chan_env (stream_envs env i)) <> Some c) /\
  Forall (λ e, forall r io, stale items (channels r) -> stale items (channels (others e (r, io)).1)) rounds.

(** The second run of an object whose items are stale. *)
Lemma rerun_stale fuel p o d env (start : Z) rounds mem (heap : obj_heap) (r : router) (io : S) :
  heap !! p = Some o -> Exists (λ si, is_Some (chan_ctx si)) (stream_items o) -> stale (stream_items o) (channels r) ->
  run_assumptions fuel (obj_cfg o) (obj_ctx o) d env rounds mem r -> not_reused (obj_cfg o) (stream_items o) env rounds ->
  jrtc_app_run fuel env start rounds mem heap (Some p) r io = Fault UseAfterFree.
Proof.
  intros Hp Hex Hs H [Hnew Hr]. cbn [jrtc_app_run]. unfold deref. rewrite Hp. cbn [mbind outcome_bind].
  destruct (run_until_exit (stream_items o) fuel (obj_cfg o) (obj_ctx o) d env start rounds mem r io H)
    as (r1 & new & ok & ev & rc & r2 & io2 & ev2 & E0 & E1 & E2 & [Hi2 Hd2 Hl2 Hk2 Ho2] & _).
  unfold run_from. rewrite E1. cbn [mbind outcome_bind]. rewrite E2. cbn [mbind outcome_bind].
  rewrite (CleanUp_stale mem (obj_ctx o) (app_id d) 0 (stream_items o) new r2); try done.
  assert (Hs1 : stale (stream_items o) (channels r1)).
  { intros si c Hin Hc. etransitivity; [eapply init_streams_channels; [|exact E0]|by apply (Hs si)].
    intros i [_ Hlt]. by apply (Hnew si c i). }
  destruct (Z.eqb_spec rc 0) as [->|_]; [|by injection E2 as <- _ _].
  destruct (q_size (obj_cfg o) <? 0); [done|].
  by apply (run_loop_channels _ _ _ _ _ _ _ _ _ _ _ Hr E2).
Qed.

End Object.
