(* ===== verification/ApiExample.v ===== *)
(** * Applications at work

    Concrete calls at which the theorems of [AppApi], [NorthIo] and
    [NorthIoApp] apply. *)
From S2P Require Import Prelude StreamId StreamIdSpec Bloom BloomFacts Ext Router RouterLookup RouterInv RouterForward RouterReceive RouterInit RouterExample Logging AppApi NorthIo NorthIoApp.
From Stdlib Require Import Ascii.
Import Reference.

#[local] Instance signed_char_a : CharSign := true.

(** The application of [r1] asks for every stream of a path. *)
Definition r1_by_name : ex_router :=
  (ret_or (r1, 0) (jrtc_router_channel_register_req r1 ex_request (true, true) (true, true) (Some 10%nat)
     JRTC_ROUTER_DEST_ANY JRTC_ROUTER_DEVICE_ID_ANY (Some "cpudist_percore/percpu_hist_map_t") None)).1.

Lemma register_req_by_name_witness : interested r1_by_name example_sid 0 = true.
Proof.
  destruct (register_req_by_name r1 ex_request 10 d1 JRTC_ROUTER_DEST_UDP 1
    (Some "cpudist_percore/percpu_hist_map_t") (Some "placeholder") JRTC_ROUTER_DEST_ANY JRTC_ROUTER_DEVICE_ID_ANY
    (Some "cpudist_percore/percpu_hist_map_t") None r1_by_name r1_inv r1_fresh r1_d1
    ltac:(by right) ltac:(by right) ltac:(by left) ltac:(by right) ltac:(by vm_compute)) as (sid & E & _ & H).
  assert (sid = example_sid) as -> by (vm_compute in E; injection E as <-; reflexivity). exact H.
Defined.

Definition ex_entries : list jrtc_router_data_entry := [mk_data_entry example_sid 5; mk_data_entry example_sid 6].

Lemma encode_fwd_out_data_spec_witness : exists pool',
  aa_channel_encode_fwd_out_data (M := Z * list nat) (fun e => if de_data e =? 5 then 12 else -1) (3, []) ex_entries =
    Ret (pool', [12], [IoRelease 5; IoRelease 6]).
Proof.
  destruct (encode_fwd_out_data_spec (M := Z * list nat) (fun e => if de_data e =? 5 then 12 else -1) (3, []) ex_entries
    ltac:(cbn; unfold AA_OUT_BUFS_BATCH_SIZE; lia)) as (pool' & sizes & E & _ & _ & _ & Hs).
  exists pool'. rewrite E, Hs by (cbn; lia). by vm_compute.
Defined.

(** ** The north-bound IO application *)

Definition ex_net (bind : Z) : net_env (M := Z * list nat) :=
  mk_net_env (Some (3, [])) 3 bind 4 (fun _ => Some (mk_sockaddr AF_INET 0 0x0100007f)) 0.

Lemma ex_net_good : net_env_good (ex_net 0).
Proof. split_and!; [by eexists|done..]. Qed.

Lemma net_init_spec_witness : exists i, aa_net_init (ex_net (-1)) net_info_zero 1924 [49; 50] 20788 = (-1, i, [NetSocket 3]).
Proof.
  destruct (net_init_spec (ex_net (-1)) net_info_zero 1924 [49; 50] 20788 ltac:(done))
    as (res & i & E & [[_ H]|[-> _]] & _); [by destruct H as (_ & _ & H & _)|]. by exists i.
Defined.

Lemma fqdn_terminated_witness :
  fqdn (aa_net_init (ex_net 0) net_info_zero 1924 [49; 50] 20788).1.2 !! 255%nat = Some 0.
Proof. exact (proj2 (proj2 (fqdn_terminated (ex_net 0) 1924 [49; 50] 20788 ltac:(done)))). Defined.

(** The application with the queue size [jrtc_start_threads] gives it; while it
    runs, a message of a UDP stream is forwarded in every round. *)
Definition ex_register1000 : register_env (list (nat * nat)) (Z * list nat) :=
  mk_register_env (Some 10%nat) true (Some (1000, [])) (Some []) (Some []).
Definition r_1000 : ex_router := (ret_or (r0, None, []) (jrtc_router_register_app r0 ex_register1000 1000)).1.1.
Definition d_1000 : dapp_router_ctx (list (nat * nat)) ring_ref (Z * list nat) :=
  mk_dapp (mk_ring 1023 0 []) 1001 (1000, []) ∅ [] [] 0.

Lemma r_1000_app : dapps r_1000 !! 10%nat = Some d_1000.
Proof. vm_compute. reflexivity. Qed.
Lemma r_1000_wf : router_wf r_1000.
Proof.
  apply (router_step_wf r0 r_1000 r0_inv).
  apply (step_register (S := ex_io) r0 ex_register1000 1000 r_1000 (Some 10%nat) [IoRegisterThread]); [done| |by vm_compute].
  constructor; by intros ? [= <-].
Qed.

Definition ex_forward (x : ex_router * ex_io) : ex_router * ex_io :=
  ((ret_or (x.1, []) (_jrtc_router_forward_msgs x.1 true example_sid [7])).1, x.2).

Lemma ex_forward_keeps : keeps_served (S := ex_io) 10 ex_forward.
Proof.
  intros r io (W & d & Hd). unfold ex_forward. cbn [fst snd].
  destruct (forward_any (S := ex_io) r example_sid [7] W) as [(r' & ev & -> & W' & _ & Hc & _)|[-> _]]; cbn [ret_or fst].
  - split; [done|]. pose proof (wf_dapp _ W _ _ Hd) as Hs. rewrite <- Hc in Hs.
    destruct (wf_app _ W' _ _ Hs) as (_ & d' & Hd' & _). eauto.
  - split; [done|eauto].
Qed.

Lemma start_app_spec_witness : exists r' io' sizes ev,
  jrtc_start_app (fun _ => 12) (ex_net 0) ex_request (true, true) (true, true) 10 None [49; 50] None [ex_forward; ex_forward]
    r_1000 (∅ : ex_io) = Ret (Stopped r' io' [NetPool] sizes ev) /\ router_wf r' /\ sizes = [12; 12].
Proof.
  destruct (start_app_spec (fun _ => 12) (ex_net 0) ex_request (true, true) (true, true) 10 d_1000 None [49; 50] None
    [ex_forward; ex_forward] r_1000 (∅ : ex_io) r_1000_wf r_1000_app ltac:(by intros p [= <-]) ex_net_good ltac:(done))
    as (req & q1 & res & E1 & E2 & H); [constructor; [exact ex_forward_keeps|constructor; [exact ex_forward_keeps|constructor]]|].
  assert (res = 1) as ->.
  { assert (Hres : (λ x, x.2) <$> (sid ← generated_id (true, true) (true, true) JRTC_ROUTER_DEST_UDP JRTC_ROUTER_DEVICE_ID_ANY None None;
      jrtc_router_channel_register_stream_id_req r_1000 ex_request (Some 10%nat) sid) = Ret 1) by (vm_compute; reflexivity).
    rewrite E1 in Hres. cbn [mbind outcome_bind] in Hres. rewrite E2 in Hres. by injection Hres. }
  cbn [Z.eqb Pos.eqb] in H. destruct H as [(r' & io' & sizes & ev & E & W) _].
  exists r', io', sizes, ev. split; [exact E|]. split; [exact W|].
  assert (Hsz : (λ o, match o with Stopped _ _ _ sz _ => sz | Exited => [] end) <$>
    jrtc_start_app (fun _ => 12) (ex_net 0) ex_request (true, true) (true, true) 10 None [49; 50] None [ex_forward; ex_forward]
      r_1000 (∅ : ex_io) = Ret [12; 12]) by (vm_compute; reflexivity).
  rewrite E in Hsz. cbn in Hsz. congruence.
Defined.

(** The router after its request, and after a message for it. *)
Definition udp_req : jrtc_router_stream_id :=
  ret_or example_sid (generated_id (true, true) (true, true) JRTC_ROUTER_DEST_UDP JRTC_ROUTER_DEVICE_ID_ANY None None).
Definition r_udp : ex_router :=
  (ret_or (r1, 0) (jrtc_router_channel_register_stream_id_req r1 ex_request (Some 10%nat) udp_req)).1.
Definition r_msg : ex_router := (ret_or (r_udp, []) (_jrtc_router_forward_msgs r_udp true example_sid [7])).1.

Lemma r_udp_eq : jrtc_router_channel_register_stream_id_req r1 ex_request (Some 10%nat) udp_req = Ret (r_udp, 1).
Proof. vm_compute. reflexivity. Qed.
Lemma r_msg_eq : _jrtc_router_forward_msgs r_udp true example_sid [7] = Ret (r_msg, [IoShare 7; IoRelease 7]).
Proof. vm_compute. reflexivity. Qed.

Lemma r_msg_wf : router_wf r_msg.
Proof.
  assert (W : router_wf r_udp).
  { apply (router_step_wf r1 r_udp r1_inv). exact (step_request (S := ex_io) r1 ex_request 10 udp_req r_udp 1 r1_app r1_fresh r_udp_eq). }
  destruct (forward_any (S := ex_io) r_udp example_sid [7] W) as [(r' & ev & E & W' & _)|[E _]].
  - assert (H : Ret r_msg = Ret r').
    { transitivity (fst <$> _jrtc_router_forward_msgs r_udp true example_sid [7]); [by rewrite r_msg_eq|by rewrite E]. }
    assert (r_msg = r') as -> by congruence. exact W'.
  - pose proof r_msg_eq. congruence.
Qed.

Definition d_msg : dapp_router_ctx (list (nat * nat)) ring_ref (Z * list nat) :=
  mk_dapp (mk_ring 3 1 [0%nat]) 4 (3, [0%nat]) {[0%nat := mk_data_entry example_sid 7]} [] [] 0.
Lemma r_msg_app : dapps r_msg !! 10%nat = Some d_msg.
Proof. vm_compute. reflexivity. Qed.

Lemma start_app_after_failed_setup_witness :
  jrtc_start_app (fun _ => 12) (ex_net (-1)) ex_request (true, true) (true, true) 10 None [49; 50] None [fun x => (r_msg, x.2)]
    r1 (∅ : ex_io) = Fault UseAfterFree.
Proof.
  refine (start_app_after_failed_setup (fun _ => 12) (ex_net (-1)) ex_request (true, true) (true, true) 10 d1 (3, [])
    None [49; 50] None (fun x => (r_msg, x.2)) [] r1 (∅ : ex_io) udp_req r_udp r_msg ∅ d_msg r1_inv r1_d1 eq_refl _ _ _
    r_udp_eq eq_refl r_msg_wf r_msg_app _).
  - intros (_ & _ & H & _). by cbn in H.
  - done.
  - vm_compute. reflexivity.
  - done.
Defined.
