(* ===== verification/JrtcAppExample.v ===== *)
(** * An application at work

    An application with a stream it receives and a stream it sends on, run on
    the router of [RouterExample], at which the theorems about the application
    class apply. *)
From Stdlib Require Import QArith.
From S2P Require Import Prelude StreamId StreamIdSpec Bloom BloomFacts Ext Router RouterLookup RouterInv RouterChannels RouterForward RouterReceive RouterInit RouterExample AppApi NorthIo JrtcApp JrtcAppFacts.
Import Reference.
#[local] Open Scope Z_scope.

#[local] Instance signed_char_b : CharSign := true.

Abbreviation ex_round := (round_env (list bool) (list (list Z * nat)) (list (nat * nat)) ring_ref (Z * list nat) ex_io).

(** It receives every stream of a path, and sends on a channel of its own. *)
Definition s_rx : JrtcStreamCfg_t :=
  mk_stream_cfg (mk_sid_cfg JRTC_ROUTER_DEST_ANY JRTC_ROUTER_DEVICE_ID_ANY (Some "cpudist_percore/percpu_hist_map_t") None) true None.
Definition s_tx : JrtcStreamCfg_t :=
  mk_stream_cfg (mk_sid_cfg JRTC_ROUTER_DEST_NONE 1 (Some "app") (Some "out")) false (Some (mk_chan_cfg true 100 16)).
Definition ex_cfg : JrtcAppCfg_t := mk_app_cfg (Some "ex") 3 [s_rx; s_tx] 5 (1 # 10) 1.

(** Allocations succeed, at new addresses; ten seconds pass per poll. *)
Definition ex_stream_env (i : nat) : stream_env :=
  mk_stream_env (true, true) (true, true) (mk_channel_env (Some (50 + i)%nat) (Some (60 + i)%nat) 5 (fun _ => []))
    (mk_request_env (Some (70 + i)%nat) true) 1000.
Definition ex_app_env : app_env :=
  mk_app_env ex_stream_env (fun _ _ => true) (fun k => 10000000000 * (Z.of_nat k + 1)).

Definition after_rx : outcome (ex_router * list StreamItem * bool * list io_event) :=
  init_stream ex_cfg (Some 10%nat) (ex_stream_env 0) s_rx r1.
Definition r_rx : ex_router := Eval vm_compute in (ret_or (r1, [], false, []) after_rx).1.1.1.

Lemma after_rx_eq : after_rx = Ret (r_rx, (ret_or (r1, [], false, []) after_rx).1.1.2, true, []).
Proof. vm_compute. reflexivity. Qed.

Lemma ret_fst {A B C D} (a a' : A) (b b' : B) (c c' : C) (d d' : D) : Ret (a, b, c, d) = Ret (a', b', c', d') -> a = a'.
Proof. congruence. Qed.

Lemma ret_snd {A B C D} (a a' : A) (b b' : B) (c c' : C) (d d' : D) : Ret (a, b, c, d) = Ret (a', b', c', d') -> b = b'.
Proof. congruence. Qed.

Lemma ret_front {A B C D} (m : outcome (A * B * C * D)) a b a' b' c d :
  (λ x, (x.1.1.1, x.1.1.2)) <$> m = Ret (a, b) -> m = Ret (a', b', c, d) -> a = a' /\ b = b'.
Proof. intros H ->. cbn in H. by injection H as -> ->. Qed.

Definition after_init : outcome (ex_router * list StreamItem * Z * list io_event) :=
  Init 1 ex_cfg (Some 10%nat) ex_app_env r1.
Definition r_app : ex_router := Eval vm_compute in (ret_or (r1, [], 0, []) after_init).1.1.1.
Definition ex_items : list StreamItem := Eval vm_compute in (ret_or (r1, [], 0, []) after_init).1.1.2.

Lemma after_init_eq : Init 1 ex_cfg (Some 10%nat) ex_app_env r1 = Ret (r_app, ex_items, 0, []).
Proof. vm_compute. reflexivity. Qed.

Lemma ex_allocs_fresh : allocs_fresh ex_cfg 10 (stream_envs ex_app_env) 0 (streams ex_cfg) r1.
Proof.
  split; [split; by intros ? [= <-]|]. intros r' new ev E.
  rewrite <- (ret_fst _ _ _ _ _ _ _ _ (eq_trans (eq_sym after_rx_eq) E)).
  split; [|done]. split; intros ? [= <-]; vm_compute; reflexivity.
Qed.

Lemma ex_time_ends : time_ends ex_cfg (poll_clock ex_app_env) 0.
Proof.
  intros k _. unfold init_expired. change (Qltb 0 (initialization_timeout_secs ex_cfg)) with true. cbv iota.
  cbn [poll_clock ex_app_env]. rewrite Z.mul_comm. replace (10000000000) with (10 * 1000000000) by lia.
  rewrite Z.mul_assoc, Z.quot_mul by lia. unfold Qltb, Qle_bool. cbn. apply negb_true_iff, Z.leb_gt. lia.
Qed.

Lemma init_spec_witness : exists r' items rc ev,
  Init 1 ex_cfg (Some 10%nat) ex_app_env r1 = Ret (r', items, rc, ev) /\ router_wf r' /\ items_live 10 r' items.
Proof.
  destruct (init_spec 1 ex_cfg 10 d1 ex_app_env r1 0 r1_inv r1_d1 ex_allocs_fresh ex_time_ends ltac:(lia))
    as (r' & items & rc & ev & E & I & _ & L & _). eauto 10.
Defined.

Lemma init_waits_forever_witness : forall fuel,
  wait_loop fuel (mk_app_cfg (Some "ex") 3 [s_tx] 0 (1 # 10) 0) (fun _ _ => false) (fun k => Z.of_nat k) 0 example_sid = Fault Divergence.
Proof.
  exact (init_waits_forever (mk_app_cfg (Some "ex") 3 [s_tx] 0 (1 # 10) 0) (fun _ _ => false) (fun k => Z.of_nat k) 0 example_sid
    ltac:(by vm_compute) (fun _ => eq_refl)).
Defined.

(** ** From the configuration to the handler *)

Definition r_fwd : ex_router := Eval vm_compute in (ret_or (r_app, []) (_jrtc_router_forward_msgs r_app true example_sid [7])).1.
Definition ex_round_fwd : ex_round := mk_round_env (fun x => (r_fwd, x.2)) 2000 3000.

Lemma ex_generated : generated_id (true, true) (true, true) JRTC_ROUTER_DEST_UDP 1
  (Some "cpudist_percore/percpu_hist_map_t") (Some "placeholder") = Ret example_sid.
Proof. vm_compute. reflexivity. Qed.

Lemma ex_forward : _jrtc_router_forward_msgs r_app true example_sid [7] = Ret (r_fwd, [IoShare 7; IoRelease 7]).
Proof. vm_compute. reflexivity. Qed.

Lemma ex_room : Z.of_nat (length (queue d1)) < pool_cap (data_entry_pool d1) /\ Z.of_nat (length (queue d1)) < q_size ex_cfg.
Proof. by vm_compute. Qed.

Lemma ex_others : others ex_round_fwd (r_app, (∅ : ex_io)) = (r_fwd, (∅ : ex_io)).
Proof. reflexivity. Qed.


(** ** Rounds and the whole run *)

(** The memory the keys point to holds none of them any more. *)
Definition ex_mem (k addr : nat) : list Z := [].
Definition ex_channel_51 : dapp_channel_ctx := Eval vm_compute in mk_channel 61 (si_sid (nth 1 ex_items (mk_item example_sid false None))) 10 true.

Lemma r_app_channels : channels r_app = {[51%nat := ex_channel_51]}.
Proof. vm_compute. reflexivity. Qed.

Lemma ex_keys_ok : keys_ok ex_mem 10 r_app.
Proof.
  intros k p x d _ Hx _ e _ Hm. rewrite r_app_channels in Hx. apply lookup_singleton_Some in Hx as [_ <-].
  vm_compute in Hm. discriminate.
Qed.

Lemma r1_none s : subscribed r1 0 s = false.
Proof. reflexivity. Qed.

Lemma ex_app_inv : app_inv ex_mem 10 0 ex_items r_app.
Proof.
  destruct (init_whole 1 ex_cfg 10 d1 ex_app_env r1 0) as (r' & items & rc & ev & E & [[K (d & Hd & Hi & _)] _ _ _] & A & [L _] & _);
    [split; [exact r1_inv|exists d1; split; [exact r1_d1|done]]|exact ex_allocs_fresh|exact ex_time_ends|lia|].
  pose proof (eq_trans (eq_sym after_init_eq) E) as Heq.
  destruct (ret_fst _ _ _ _ _ _ _ _ Heq), (ret_snd _ _ _ _ _ _ _ _ Heq).
  constructor; [exact K|exists d; split; [exact Hd|exact Hi]| |exact ex_keys_ok|].
  - eapply Forall_impl; [exact L|]. by intros si [_ H].
  - intros s Hs. destruct (A s Hs) as [H|H]; [by rewrite r1_none in H|exact H].
Qed.

Definition ex_round_quiet : ex_round := mk_round_env (fun x => x) 2000000000 2000000001.

Lemma ex_round_quiet_ok items : round_ok ex_mem 10 0 items ex_round_quiet.
Proof. intros r io H. exact H. Qed.

(** Two seconds without an entry: the handler is told. *)
Lemma ex_quiet_events : (λ x, x.2) <$> run_round ex_cfg 10 ex_items ex_round_quiet r_app (∅ : ex_io) 0 = Ret [HandlerTimeout].
Proof. vm_compute. reflexivity. Qed.

Lemma run_round_spec_witness : exists r' io' last evs,
  run_round ex_cfg 10 ex_items ex_round_quiet r_app (∅ : ex_io) 0 = Ret (r', io', last, evs) /\
  app_inv ex_mem 10 0 ex_items r'.
Proof.
  destruct (run_round_spec ex_mem ex_cfg 10 0 ex_items ex_round_quiet r_app (∅ : ex_io) 0 ex_app_inv
    (ex_round_quiet_ok ex_items) ltac:(vm_compute; lia)) as (d & r' & io' & des & Hd & _ & I & E).
  eexists r', io', _, _. split; [exact E|exact I].
Defined.

Lemma ex_init_streams : (λ x, (x.1.1.1, x.1.1.2)) <$> init_streams ex_cfg (Some 10%nat) (stream_envs ex_app_env) 0 (streams ex_cfg) r1 =
  Ret (r_app, ex_items).
Proof. vm_compute. reflexivity. Qed.

Lemma ex_run_assumptions : run_assumptions 1 ex_cfg 10 d1 ex_app_env [ex_round_quiet; ex_round_quiet] ex_mem r1.
Proof.
  constructor; [exact r1_inv|exact r1_d1|exact r1_none|exact ex_allocs_fresh| |by vm_compute|].
  - exists 0%nat. split; [exact ex_time_ends|lia].
  - intros r' items ok ev E. destruct (ret_front _ _ _ _ _ _ _ ex_init_streams E) as [<- <-].
    split; [exact ex_keys_ok|]. constructor; [|constructor; [|constructor]]; exact (ex_round_quiet_ok ex_items).
Qed.


(** ** A refused request *)

(** A stream it receives and has a channel for; there is no memory for the
    request. *)
Definition s_both : JrtcStreamCfg_t :=
  mk_stream_cfg (mk_sid_cfg JRTC_ROUTER_DEST_NONE 1 (Some "app") (Some "in")) true (Some (mk_chan_cfg false 100 16)).
Definition leak_cfg : JrtcAppCfg_t := mk_app_cfg (Some "ex") 3 [s_both] 5 (1 # 10) 1.
Definition leak_stream_env (i : nat) : stream_env :=
  mk_stream_env (true, true) (true, true) (mk_channel_env (Some 50%nat) (Some 60%nat) 5 (fun _ => [])) (mk_request_env None true) 1000.
Definition leak_env : app_env := mk_app_env leak_stream_env (fun _ _ => true) (fun _ => 0).
Definition leak_sid : jrtc_router_stream_id :=
  Eval vm_compute in ret_or example_sid (generated_id (true, true) (true, true) JRTC_ROUTER_DEST_NONE 1 (Some "app") (Some "in")).
Definition r_leak : ex_router :=
  Eval vm_compute in (ret_or (r1, None, false, []) (init_channel (Some 10%nat) (leak_stream_env 0) s_both leak_sid r1)).1.1.1.

Lemma leak_generated : jrtc_router_generate_stream_id (true, true) (true, true) (Some (mk_stream_id []))
  JRTC_ROUTER_DEST_NONE 1 (Some "app") (Some "in") = Ret (1, Some leak_sid).
Proof. vm_compute. reflexivity. Qed.
Lemma leak_channel : init_channel (Some 10%nat) (leak_stream_env 0) s_both leak_sid r1 = Ret (r_leak, Some 50%nat, true, []).
Proof. vm_compute. reflexivity. Qed.
Lemma leak_request : init_request (Some 10%nat) (leak_stream_env 0) s_both leak_sid r_leak = Ret (r_leak, false, false).
Proof. vm_compute. reflexivity. Qed.

Lemma run_leaks_channel_witness : exists x,
  run 1 leak_cfg 10 leak_env 0 [] ex_mem r1 (∅ : ex_io) = Ret (r_leak, ∅, []) /\ channels r_leak !! 50%nat = Some x.
Proof.
  destruct (run_leaks_channel 1 leak_cfg 10 d1 leak_env 0 [] ex_mem r1 (∅ : ex_io) s_both (mk_chan_cfg false 100 16) leak_sid
    r_leak 50 [] r_leak false r1_inv r1_d1 ltac:(by split; intros ? [= <-]) eq_refl eq_refl leak_generated leak_channel
    leak_request) as (x & E & Hx & _). exists x. split; [exact E|exact Hx].
Defined.

Lemma index_spec_witness : get_stream ex_items (-1) = None /\ get_item ex_items 1 = ex_items !! 1%nat.
Proof.
  split.
  - refine (proj1 (proj1 (proj2 (index_spec ex_items (-1) ltac:(vm_compute; reflexivity))) _)). left. lia.
  - refine (proj1 (index_spec ex_items 1 ltac:(vm_compute; reflexivity)) _). vm_compute. split; [discriminate|reflexivity].
Defined.
