(* ===== verification/CData.v ===== *)
(** * Data of the sample programs

    [int32_t] arithmetic as C has it, integers in memory, [assert]. *)
From S2P Require Import Prelude.

(** ** Arithmetic *)

Definition INT32_MAX : Z := 2147483647.
Definition is_i32 (x : Z) : bool := (-2147483648 <=? x) && (x <=? INT32_MAX).

(** [x + y] for two [int]: leaving the range is undefined. *)
Definition add_i32 (x y : Z) : outcome Z := if is_i32 (x + y) then Ret (x + y) else Fault SignedOverflow.

(** [x += y] for an [int32_t] and a [uint32_t]: the sum is unsigned, and is
    converted back. *)
Definition add_u32 (x y : Z) : Z := sext 32 (u32 (x + y)).

(** [assert(b)]. *)
Definition c_assert (b : bool) : outcome unit := if b then Ret tt else Fault Aborted.

(** ** Memory, little-endian *)

Definition le32 (x : Z) : list Z := [u8 x; u8 (x >> 8); u8 (x >> 16); u8 (x >> 24)].

Definition ld_u32 (l : list Z) : outcome Z :=
  match l with
  | b0 :: b1 :: b2 :: b3 :: _ => Ret (b0 ||| (b1 << 8) ||| (b2 << 16) ||| (b3 << 24))
  | _ => Fault OutOfBounds
  end.
Definition ld_i32 (l : list Z) : outcome Z := sext 32 <$> ld_u32 l.

(** Writing a 32-bit field at the front of an element. *)
Definition st_32 (l : list Z) (x : Z) : outcome (list Z) :=
  if decide (4 <= length l)%nat then Ret (le32 x ++ drop 4 l) else Fault OutOfBounds.

Lemma add_i32_ok x y : is_i32 (x + y) = true -> add_i32 x y = Ret (x + y).
Proof. unfold add_i32. by intros ->. Qed.

Lemma is_i32_spec x : is_i32 x = true <-> -2147483648 <= x <= INT32_MAX.
Proof. unfold is_i32. rewrite andb_true_iff, !Z.leb_le. done. Qed.

Lemma ld_le32_u x t : ld_u32 (le32 x ++ t) = Ret (u32 x).
Proof. cbn [le32 app ld_u32]. f_equal. bitwise. Qed.

Lemma sext_u32 x : is_i32 x = true -> sext 32 (u32 x) = x.
Proof.
  rewrite is_i32_spec. unfold INT32_MAX, sext, wrap. intros H.
  destruct (Z.ltb_spec (x mod 2 ^ 32) (2 ^ (32 - 1))); change (2 ^ (32 - 1)) with 2147483648 in *;
    change (2 ^ 32) with 4294967296 in *; dlia.
Qed.

(** What is written is read back. *)
Lemma ld_le32 x t : is_i32 x = true -> ld_i32 (le32 x ++ t) = Ret x.
Proof. intros H. unfold ld_i32. rewrite ld_le32_u. cbn. by rewrite sext_u32. Qed.

Lemma st_32_fits l x : (4 <= length l)%nat -> st_32 l x = Ret (le32 x ++ drop 4 l).
Proof. intros H. unfold st_32. by rewrite decide_True. Qed.

(** Unsigned addition is addition as long as the sum fits. *)
Lemma add_u32_fits x y : is_i32 (x + y) = true -> add_u32 x y = x + y.
Proof. apply sext_u32. Qed.

Lemma add_u32_range x y : is_i32 (add_u32 x y) = true.
Proof.
  unfold add_u32, sext. pose proof (wrap_range 32 (x + y) ltac:(lia)). apply is_i32_spec. unfold INT32_MAX.
  change (2 ^ (32 - 1)) with 2147483648. change (2 ^ 32) with 4294967296 in *. destruct (Z.ltb_spec (u32 (x + y)) 2147483648); lia.
Qed.

Lemma u32_add_u32 x y : u32 (add_u32 x (u32 y)) = u32 (x + y).
Proof.
  unfold add_u32, sext, wrap. change (2 ^ (32 - 1)) with 2147483648. change (2 ^ 32) with 4294967296.
  destruct (_ <? 2147483648); dlia.
Qed.

(** ** Sums *)

Definition sum (l : list Z) : Z := foldr Z.add 0 l.

Lemma sum_app l k : sum (l ++ k) = sum l + sum k.
Proof. unfold sum. induction l as [|x l IH]; cbn; [done|]. rewrite IH. lia. Qed.

Lemma sum_take_S x l k : sum (take (S k) (x :: l)) = x + sum (take k l).
Proof. done. Qed.
Lemma sum_take_0 l : sum (take 0 l) = 0.
Proof. done. Qed.

Lemma sum_take_mono l n m : Forall (λ x, 0 <= x) l -> (n <= m)%nat -> 0 <= sum (take n l) <= sum (take m l).
Proof.
  intros Hl. revert n m. induction Hl as [|x l Hx Hl IH]; intros n m Hnm; [by rewrite !take_nil|].
  destruct n as [|n], m as [|m]; cbn; [lia| |lia|].
  - specialize (IH 0%nat m ltac:(lia)). rewrite take_0 in IH. cbn in IH. unfold sum in IH. lia.
  - specialize (IH n m ltac:(lia)). unfold sum in IH. lia.
Qed.
