(* ===== verification/Codelets.v ===== *)
(** * The codelets of the sample applications

    [src/sample_apps/jbpf_codelets/]: programs that jbpf runs when the hook of
    an agent is called. The generators count and output the count; the input
    programs print what the applications sent. *)
From S2P Require Import Prelude CData.

(** ** data_generator, data_generator_protobuf *)

(** The two array maps, of one element each. *)
Record generator_maps := mk_maps { counter : Z; ringbuf_msg : list Z }.

(** [sizeof(example_msg)]; maps start as zeros. *)
Definition SIZEOF_EXAMPLE_MSG : nat := 4.
Definition maps_init : generator_maps := mk_maps 0 (replicate SIZEOF_EXAMPLE_MSG 0).

(** [lookup] and [reset] say whether the two lookups find the element; a lookup
    with reset clears it. The result is what is put into the ring buffer, whose
    answer is ignored; the return value is always 0. *)
Definition jbpf_main (lookup reset : bool) (m : generator_maps) : outcome (generator_maps * list (list Z)) :=
  if negb lookup then Ret (m, [])
  else
    let cnt := u32 (u32 (counter m + 1) mod 1024) in
    let m := mk_maps cnt (ringbuf_msg m) in
    if negb reset then Ret (m, [])
    else
      out ← st_32 (replicate (length (ringbuf_msg m)) 0) cnt;
      Ret (mk_maps (counter m) out, [out]).

(** The program with [example_msg_pb], whose field is a [uint32_t], is the same. *)
Definition pb_jbpf_main := jbpf_main.

(** One call of the hook after the other. *)
Fixpoint generator_run (answers : list (bool * bool)) (m : generator_maps) : outcome (generator_maps * list (list Z)) :=
  match answers with
  | [] => Ret (m, [])
  | (lookup, reset) :: answers =>
      '(m, out) ← jbpf_main lookup reset m;
      '(m, out') ← generator_run answers m;
      Ret (m, out ++ out')
  end.

(** ** simple_input, simple_input_protobuf *)

(** [jbpf_control_input_receive] on a channel of state [Q]: the return value and
    what it writes. *)
Class ControlInput (Q : Type) := {
  jbpf_control_input_receive : Q -> Z * list Z * Q
}.

(** It takes messages out one by one, and returns a positive number as long as
    there are any. *)
Class ControlInputLaws (Q : Type) `{ControlInput Q} := {
  pending : Q -> list (list Z);
  receive_some q m l : pending q = m :: l -> exists n q', jbpf_control_input_receive q = (n, m, q') /\ 0 < n /\ pending q' = l;
  receive_none q : pending q = [] -> exists n m q', jbpf_control_input_receive q = (n, m, q') /\ n <= 0 /\ pending q' = []
}.

(** What it prints, with [%u]. *)
Fixpoint input_loop {Q : Type} `{ControlInput Q} (fuel : nat) (q : Q) : outcome (Q * list Z) :=
  match fuel with
  | O => Fault Divergence
  | S fuel =>
      let '(n, m, q) := jbpf_control_input_receive q in
      if 0 <? n then
        v ← ld_u32 m;
        '(q, out) ← input_loop fuel q;
        Ret (q, v :: out)
      else Ret (q, [])
  end.

(** ** The generator *)

Section Generator.

Lemma jbpf_main_ok m : (4 <= length (ringbuf_msg m))%nat -> 0 <= counter m < 1024 ->
  exists m', jbpf_main true true m = Ret (m', [ringbuf_msg m']) /\ counter m' = (counter m + 1) mod 1024 /\
    length (ringbuf_msg m') = length (ringbuf_msg m) /\ exists t, ringbuf_msg m' = le32 ((counter m + 1) mod 1024) ++ t.
Proof.
  intros Hl Hc. unfold jbpf_main. cbn [negb ringbuf_msg counter].
  assert (E : u32 (u32 (counter m + 1) mod 1024) = (counter m + 1) mod 1024).
  { rewrite (wrap_small 32 (counter m + 1)) by lia. apply wrap_small. pose proof (Z.mod_pos_bound (counter m + 1) 1024). lia. }
  rewrite E, st_32_fits by (rewrite length_replicate; lia). cbn [mbind outcome_bind].
  eexists (mk_maps _ _). split; [reflexivity|]. cbn [counter ringbuf_msg]. split; [done|]. split; [|by eexists].
  cbn [le32 app length]. rewrite length_drop, length_replicate. lia.
Qed.

(** The numbers that come after [c]. *)
Definition counts (c : Z) (n : nat) : list Z := (λ i, (c + Z.of_nat i) mod 1024) <$> seq 1 n.

Lemma counts_S c n : counts c (S n) = (c + 1) mod 1024 :: counts ((c + 1) mod 1024) n.
Proof.
  unfold counts. cbn [seq]. rewrite fmap_cons. f_equal. rewrite <- fmap_S_seq, <- list_fmap_compose.
  apply list_fmap_ext. intros i k _. unfold compose. rewrite Zplus_mod_idemp_l. f_equal. lia.
Qed.

(** The generator counts modulo 1024 and sends every number. *)
Lemma generator_counts n m : (4 <= length (ringbuf_msg m))%nat -> 0 <= counter m < 1024 ->
  exists m' out, generator_run (replicate n (true, true)) m = Ret (m', out) /\
    counter m' = (counter m + Z.of_nat n) mod 1024 /\ Forall2 (λ v b, exists t, b = le32 v ++ t) (counts (counter m) n) out.
Proof.
  revert m. induction n as [|n IH]; intros m Hl Hc; cbn [replicate generator_run].
  { exists m, []. split; [done|]. split; [|constructor]. rewrite Z.add_0_r, Z.mod_small; lia. }
  destruct (jbpf_main_ok m Hl Hc) as (m1 & -> & Hc1 & Hl1 & Ht). cbn [mbind outcome_bind].
  destruct (IH m1) as (m2 & out & -> & Hc2 & Hout); [lia|rewrite Hc1; apply Z.mod_pos_bound; lia|].
  cbn [mbind outcome_bind]. eexists m2, _. split; [reflexivity|]. split.
  - rewrite Hc2, Hc1, Zplus_mod_idemp_l. f_equal. lia.
  - rewrite counts_S. constructor; [done|]. by rewrite <- Hc1.
Qed.

(** The sum of the first [n] numbers: 523776 for each round of 1024. *)
Lemma sum_counts n : 2 * sum (counts 0 n) =
  1047552 * (Z.of_nat n / 1024) + Z.of_nat n mod 1024 * (Z.of_nat n mod 1024 + 1).
Proof.
  induction n as [|n IH]; [done|]. unfold counts in *. rewrite seq_S, fmap_app, sum_app, Z.mul_add_distr_l, IH. clear IH.
  replace (sum _) with ((Z.of_nat n + 1) mod 1024) by (cbn -[Z.of_nat Z.modulo]; rewrite Z.add_0_r; f_equal; lia).
  replace (Z.of_nat (S n)) with (Z.of_nat n + 1) by lia. set (z := Z.of_nat n). assert (0 <= z) by lia. clearbody z. clear n.
  pose proof (Z.div_mod z 1024 ltac:(lia)). pose proof (Z.mod_pos_bound z 1024 ltac:(lia)).
  pose proof (Z.div_mod (z + 1) 1024 ltac:(lia)). pose proof (Z.mod_pos_bound (z + 1) 1024 ltac:(lia)).
  assert ((z mod 1024 < 1023 /\ (z + 1) mod 1024 = z mod 1024 + 1 /\ (z + 1) / 1024 = z / 1024) \/
          (z mod 1024 = 1023 /\ (z + 1) mod 1024 = 0 /\ (z + 1) / 1024 = z / 1024 + 1)) as [(_ & -> & ->)|(-> & -> & ->)]; nia.
Qed.

Lemma counts_range c n : Forall (λ v, 0 <= v < 1024) (counts c n).
Proof. apply Forall_fmap, Forall_true. intros i. apply Z.mod_pos_bound. lia. Qed.

Lemma length_counts c n : length (counts c n) = n.
Proof. unfold counts. by rewrite length_fmap, length_seq. Qed.

Lemma take_counts c k n : (k <= n)%nat -> take k (counts c n) = counts c k.
Proof. intros H. unfold counts. rewrite <- fmap_take, take_seq. do 2 f_equal. lia. Qed.

(** How many numbers a signed sum of 32 bits can take. *)
Definition MAX_COUNTS : nat := Z.to_nat 4198463.

Lemma MAX_COUNTS_Z : Z.of_nat MAX_COUNTS = 4198463.
Proof. by apply Z2Nat.id. Qed.
#[global] Opaque MAX_COUNTS.

Lemma counts_fit n : (n <= MAX_COUNTS)%nat -> is_i32 (sum (counts 0 n)) = true.
Proof.
  intros H. apply is_i32_spec. unfold INT32_MAX. pose proof MAX_COUNTS_Z. pose proof (sum_counts n) as E.
  assert (Hz : 0 <= Z.of_nat n <= 4198463) by lia. clear H. revert E. generalize (sum (counts 0 n)). intros s E.
  pose proof (Z.div_mod (Z.of_nat n) 1024 ltac:(lia)). pose proof (Z.mod_pos_bound (Z.of_nat n) 1024 ltac:(lia)).
  assert (Z.of_nat n / 1024 <= 4099 \/ (Z.of_nat n / 1024 = 4100 /\ Z.of_nat n mod 1024 <= 63)) by lia. nia.
Qed.

Lemma counts_overflow : is_i32 (sum (counts 0 (S MAX_COUNTS))) = false.
Proof.
  pose proof (sum_counts (S MAX_COUNTS)) as E. pose proof MAX_COUNTS_Z as EZ.
  assert (EZ' : Z.of_nat (S MAX_COUNTS) = 4198464) by lia. clear EZ. revert E. rewrite EZ'. clear EZ'.
  generalize (sum (counts 0 (S MAX_COUNTS))). intros s E.
  change (4198464 / 1024) with 4100 in E. change (4198464 mod 1024) with 64 in E.
  unfold is_i32. apply andb_false_intro2, Z.leb_gt. unfold INT32_MAX. lia.
Qed.
End Generator.

(** ** The input program *)

Section Input.
Context {Q : Type} `{LQ : ControlInputLaws Q}.

(** The input program ends, prints every message that was pending, in order,
    and leaves none. *)
Theorem simple_input_drains fuel q : Forall (λ m, (4 <= length m)%nat) (pending q) -> (length (pending q) < fuel)%nat ->
  exists q' out, input_loop fuel q = Ret (q', out) /\ pending q' = [] /\
    Forall2 (λ m v, ld_u32 m = Ret v) (pending q) out.
Proof.
  remember (pending q) as l eqn:El. revert fuel q El. induction l as [|m l IH]; intros fuel q El Hl Hf;
    (destruct fuel as [|fuel]; [cbn in Hf; lia|]); cbn [input_loop].
  - destruct (receive_none q) as (n & m & q' & -> & Hn & Hq'); [done|]. rewrite (proj2 (Z.ltb_ge _ _)) by done.
    exists q', []. split_and!; [done|done|constructor].
  - destruct (receive_some q m l) as (n & q' & -> & Hn & Hq'); [done|]. rewrite (proj2 (Z.ltb_lt _ _)) by done.
    apply Forall_cons in Hl as [Hm Hl]. assert (Hv : exists v, ld_u32 m = Ret v).
    { destruct m as [|b0 [|b1 [|b2 [|b3 m]]]]; cbn in Hm; try lia. by eexists. }
    destruct Hv as [v Hv]. rewrite Hv. cbn [mbind outcome_bind].
    destruct (IH fuel q') as (q2 & out & -> & Hp & Hout); [done|done|cbn in Hf; lia|].
    cbn [mbind outcome_bind]. exists q2, (v :: out). split_and!; [done|done|by constructor].
Qed.
End Input.

(** A channel as a list of messages. *)
#[local] Instance list_input : ControlInput (list (list Z)) := {
  jbpf_control_input_receive q := match q with [] => (0, [], []) | m :: q => (1, m, q) end
}.
#[local] Instance list_input_laws : ControlInputLaws (list (list Z)).
Proof.
  refine {| pending := fun q => q |}; cbn.
  - intros q m l ->. by eexists _, _.
  - intros q ->. by eexists _, _, _.
Defined.

Lemma simple_input_drains_witness : exists out,
  input_loop 3 [le32 15; le32 40] = Ret ([], out) /\ Forall2 (λ m v, ld_u32 m = Ret v) [le32 15; le32 40] out.
Proof.
  destruct (simple_input_drains (Q := list (list Z)) 3 [le32 15; le32 40]) as (q & out & E & Hq & H);
    [repeat constructor|cbn; lia|]. cbn in Hq. subst q. exists out. split; [exact E|exact H].
Defined.
