(* ===== verification/SampleApp.v ===== *)
(** * Sample applications: what they have in common

    The applications under [src/sample_apps/] receive numbers, add them up and
    send the sum on. Those that use the application class give it a handler;
    here the handler is run on the events of an application object, with what
    the IO library answers to its calls. *)
From S2P Require Import Prelude CData StreamId StreamIdSpec Bloom BloomFacts Ext Router RouterLookup RouterInv RouterChannels RouterForward RouterReceive RouterInit AppApi NorthIo JrtcApp JrtcAppFacts JrtcAppObject.

(** What the IO library answers during one call of a handler, the memory the
    data pointers point to, and the router's channels. *)
Record call_env := mk_call_env {
  ce_submit : nat -> Z;
  ce_reserve : nat -> option (list Z);
  ce_send : jrtc_router_stream_id -> option (list Z) -> nat -> Z;
  ce_mem : Z -> list Z;
  ce_chans : gmap nat dapp_channel_ctx
}.

(** What an application does that can be seen from outside: a line it prints,
    with the number in it, a message to an input channel, an element submitted
    to the channel of a stream index, and a buffer it releases. *)
Inductive sample_out :=
| Printed (fmt : string) (v : Z)
| SentInput (sid : jrtc_router_stream_id) (msg : list Z)
| SentOutput (stream_idx : Z) (elem : list Z)
| Released (buf : Z).

(** [data_entry->data], for a pointer that can be NULL. *)
Definition entry_data (env : call_env) (e : option jrtc_router_data_entry) : outcome (list Z) :=
  match e with None => Fault NullDeref | Some e => Ret (ce_mem env (de_data e)) end.

(** [jrtc_app_router_channel_send_input_msg(state->app, stream_idx, &v, sizeof(v))]
    for a structure of one 32-bit field: the return value and what was sent. *)
Definition send_input (env : call_env) (items : list StreamItem) (stream_idx v : Z) : Z * list sample_out :=
  (jrtc_app_router_channel_send_input_msg (ce_send env) items stream_idx (Some (le32 v)) 4,
   match get_stream items stream_idx with Some sid => [SentInput sid (le32 v)] | None => [] end).

Lemma get_item_nat items i : (i < length items)%nat -> Z.of_nat (length items) < 2 ^ 31 -> get_item items (Z.of_nat i) = items !! i.
Proof. intros Hi Hl. unfold get_item. rewrite Z.mod_small, (proj2 (Z.ltb_lt _ _)), Nat2Z.id by lia. done. Qed.

Lemma send_input_ok env items i si v : items !! i = Some si -> Z.of_nat (length items) < 2 ^ 31 ->
  (forall sid d n, ce_send env sid d n = 0) -> send_input env items (Z.of_nat i) v = (0, [SentInput (si_sid si) (le32 v)]).
Proof.
  intros Hi Hl Hs. pose proof (lookup_lt_Some _ _ _ Hi). unfold send_input, jrtc_app_router_channel_send_input_msg, get_stream.
  rewrite (proj2 (Z.ltb_lt _ _)), get_item_nat, Hi by lia. cbn. unfold jrtc_router_channel_send_input_msg. by rewrite Hs.
Qed.

(** The channel of an item. *)
Lemma indexed_channel reserve submit chans items i si c x : items !! i = Some si -> Z.of_nat (length items) < 2 ^ 31 ->
  chan_ctx si = Some c -> chans !! c = Some x ->
  jrtc_app_router_channel_reserve_buf reserve chans items (Z.of_nat i) = Ret (reserve (io_channel x)) /\
  jrtc_app_router_channel_send_output submit chans items (Z.of_nat i) = Ret (submit (io_channel x)).
Proof.
  intros Hi Hl Hc Hx. pose proof (lookup_lt_Some _ _ _ Hi).
  unfold jrtc_app_router_channel_reserve_buf, jrtc_app_router_channel_send_output, get_chan_ctx.
  rewrite get_item_nat, Hi, Hc by lia. cbn [jrtc_router_channel_reserve_buf jrtc_router_channel_send_output].
  by rewrite (deref_Some _ _ _ Hx).
Qed.

Lemma Forall2_impl_l {A B} (P : A -> Prop) (Q R : A -> B -> Prop) l k : Forall P l -> Forall2 Q l k ->
  (forall x y, P x -> Q x y -> R x y) -> Forall2 R l k.
Proof. intros HP HQ H. revert HP. induction HQ; intros HP; constructor; apply Forall_cons in HP as [??]; auto. Qed.

(** A call whose entry holds the number [v], and in which sending succeeds. *)
Definition call_holds (c : call_env * nat * jrtc_router_data_entry) (v : Z) : Prop :=
  (exists t, ce_mem c.1.1 (de_data c.2) = le32 v ++ t) /\ forall sid d n, ce_send c.1.1 sid d n = 0.

#[global] Instance stream_cfg_inhabited : Inhabited JrtcStreamCfg_t :=
  populate (mk_stream_cfg (mk_sid_cfg 0 0 None None) false None).

(** The id of a stream of a configuration. *)
Definition cfg_id {cs : CharSign} (s : JrtcStreamCfg_t) : outcome jrtc_router_stream_id :=
  let c := cfg_sid s in
  generated_id (true, true) (true, true) (destination c) (cfg_device_id c) (stream_source c) (io_map c).

Lemma cfg_id_total {cs : CharSign} s : exists sid, cfg_id s = Ret sid /\ stream_id_wf sid.
Proof.
  unfold cfg_id, generated_id. destruct (generate_stream_id_facts (mk_stream_id []) (destination (cfg_sid s))
    (cfg_device_id (cfg_sid s)) (stream_source (cfg_sid s)) (io_map (cfg_sid s))) as (sid & vp & vn & -> & W & _). by exists sid.
Qed.

Section Handlers.
Context {St : Type}.

(** [JrtcAppHandler]: timeout or not, the index, the entry or NULL, the state. *)
Definition handler := call_env -> bool -> Z -> option jrtc_router_data_entry -> St -> outcome (St * list sample_out).

Variable h : handler.

(** The handler on the events of a run; [k] calls were made before. *)
Fixpoint handle_events (calls : nat -> call_env) (k : nat) (evs : list app_event) (st : St) : outcome (St * list sample_out) :=
  match evs with
  | [] => Ret (st, [])
  | Io _ :: evs => handle_events calls k evs st
  | HandlerTimeout :: evs =>
      '(st, out) ← h (calls k) true (-1) None st;
      '(st, out') ← handle_events calls (k + 1) evs st;
      Ret (st, out ++ out')
  | HandlerData i e :: evs =>
      '(st, out) ← h (calls k) false (Z.of_nat i) (Some e) st;
      '(st, out') ← handle_events calls (k + 1) evs st;
      Ret (st, out ++ out')
  end.

(** The calls for entries, each with its surroundings. *)
Fixpoint data_calls (calls : nat -> call_env) (k : nat) (evs : list app_event) : list (call_env * nat * jrtc_router_data_entry) :=
  match evs with
  | [] => []
  | Io _ :: evs => data_calls calls k evs
  | HandlerTimeout :: evs => data_calls calls (k + 1) evs
  | HandlerData i e :: evs => (calls k, i, e) :: data_calls calls (k + 1) evs
  end.

Fixpoint handle_calls (l : list (call_env * nat * jrtc_router_data_entry)) (st : St) : outcome (St * list sample_out) :=
  match l with
  | [] => Ret (st, [])
  | (env, i, e) :: l =>
      '(st, out) ← h env false (Z.of_nat i) (Some e) st;
      '(st, out') ← handle_calls l st;
      Ret (st, out ++ out')
  end.

(** A handler that does nothing on timeouts. *)
Lemma handle_events_calls calls k evs st : (forall env idx e st, h env true idx e st = Ret (st, [])) ->
  handle_events calls k evs st = handle_calls (data_calls calls k evs) st.
Proof.
  intros Ht. revert k st. induction evs as [|[|i e|l] evs IH]; intros k st; cbn [handle_events data_calls handle_calls]; [done| | |done].
  - rewrite Ht. cbn [mbind outcome_bind]. rewrite IH. by destruct (handle_calls _ st) as [[st' out]|].
  - destruct (h (calls k) false (Z.of_nat i) (Some e) st) as [[st' out]|]; cbn [mbind outcome_bind]; [|done]. by rewrite IH.
Qed.

Lemma data_calls_events calls k evs env i e : (env, i, e) ∈ data_calls calls k evs -> HandlerData i e ∈ evs.
Proof.
  revert k. induction evs as [|[|j e'|l] evs IH]; intros k; cbn [data_calls]; rewrite ?elem_of_cons; [by rewrite elem_of_nil| | |]; eauto.
  intros [[= -> -> ->]|H]; eauto.
Qed.

Lemma data_calls_nil calls k evs : (forall ev, ev ∈ evs -> exists l, ev = Io l) -> data_calls calls k evs = [].
Proof.
  revert k. induction evs as [|ev evs IH]; intros k H; [done|].
  destruct (H ev (list_elem_of_here _ _)) as [l ->]. cbn. apply IH. intros ev' Hin. apply H. by apply list_elem_of_further.
Qed.

Lemma handle_calls_app l l' st : handle_calls (l ++ l') st =
  ('(st, out) ← handle_calls l st; '(st, out') ← handle_calls l' st; Ret (st, out ++ out')).
Proof.
  revert st. induction l as [|[[env i] e] l IH]; intros st; cbn [app handle_calls mbind outcome_bind].
  { by destruct (handle_calls l' st) as [[st' out]|]. }
  destruct (h env false (Z.of_nat i) (Some e) st) as [[st1 out1]|]; cbn [mbind outcome_bind]; [|done]. rewrite IH.
  destruct (handle_calls l st1) as [[st2 out2]|]; cbn [mbind outcome_bind]; [|done].
  destruct (handle_calls l' st2) as [[st3 out3]|]; cbn [mbind outcome_bind]; [|done]. by rewrite app_assoc.
Qed.
End Handlers.
#[global] Arguments handler : clear implicits.

(** ** The main function of an application that uses the class *)

Section Start.
Context {cs : CharSign}.
Context {B It T C R M S : Type}.
Context `{HB : CkBitmap B It} `{HT : CkHt T nat} `{HC : CkPtrHt C} `{HR : CkRing R} `{HM : Mempool M} `{HS : JbpfIo S}.

Abbreviation router := (jrtc_router_ctx B T C R M).

(** Everything the surroundings answer during one execution. *)
Record start_env := mk_start_env {
  se_new : option nat;
  se_fuel : nat;
  se_init : app_env;
  se_start : Z;
  se_rounds : list (round_env B T C R M S);
  se_mem : nat -> nat -> list Z;
  se_calls : nat -> call_env
}.

(** [jrtc_app_create], [jrtc_app_run], [jrtc_app_destroy]: the handlers get the
    object, with its items, through the state. The first state component is what
    is left of the application's variables. *)
Definition start_app {St : Type} (h : list StreamItem -> handler St) (cfg : JrtcAppCfg_t) (st : St) (env : start_env)
    (ctx : nat) (heap : obj_heap) (r : router) (io : S) : outcome (St * list sample_out * router * S * obj_heap) :=
  '(heap, p) ← jrtc_app_create (se_new env) heap ctx cfg;
  '(r, io, heap, ev) ← jrtc_app_run (se_fuel env) (se_init env) (se_start env) (se_rounds env) (se_mem env) heap (Some p) r io;
  o ← deref heap p;
  '(st, out) ← handle_events (h (stream_items o)) (se_calls env) 0 ev st;
  heap ← jrtc_app_destroy heap (Some p);
  Ret (st, out, r, io, heap).

Context `{LB : !CkBitmapLaws B It} `{LT : !CkHtLaws T nat} `{LC : !CkPtrHtLaws C} `{LR : !CkRingLaws R} `{LM : !MempoolLaws M}.
Context `{LS : !JbpfIoLaws S}.

Record start_assumptions (cfg : JrtcAppCfg_t) (env : start_env) (a : nat) (d : dapp_router_ctx C R M) (heap : obj_heap)
    (r : router) : Prop := {
  sa_new : exists p, se_new env = Some p /\ heap !! p = None;
  sa_run : run_assumptions (se_fuel env) cfg a d (se_init env) (se_rounds env) (se_mem env) r
}.

(** An execution is the handler on the entries the application received: each
    for a stream of the configuration that it receives, with the items of all
    streams in place. The rest of the execution ends without a fault and leaves
    nothing behind. *)
Lemma start_app_facts {St : Type} (h : list StreamItem -> handler St) cfg (st : St) env a d heap r io :
  (forall items env idx e st, h items env true idx e st = Ret (st, [])) -> start_assumptions cfg env a d heap r ->
  exists r' io' items ev,
    run_from [] (se_fuel env) cfg a (se_init env) (se_start env) (se_rounds env) (se_mem env) r io = Ret (r', io', items, ev) /\
    router_wf r' /\ (forall s, subscribed r' (app_id d) s = false) /\
    let l := data_calls (se_calls env) 0 ev in
    (l = [] \/ Forall2 item_for (streams cfg) items) /\
    Forall (λ c, event_ok (streams cfg) items (HandlerData c.1.2 c.2)) l /\
    start_app h cfg st env a heap r io = ('(st, out) ← handle_calls (h items) l st; Ret (st, out, r', io', heap)).
Proof.
  intros Ht [(p & Hp & Hfr) Hrun].
  destruct (create_run (se_fuel env) p cfg a d (se_init env) (se_start env) (se_rounds env) (se_mem env) heap r io Hrun)
    as (heap0 & r' & io' & items & ev & E1 & E & E2 & Hi & Hn & Hall & Hev & Hlen).
  exists r', io', items, ev. cbv zeta. split_and!; try done.
  - destruct Hlen as [Hio|Hlen]; [left; by apply data_calls_nil|right]. by rewrite take_ge in Hall by lia.
  - apply Forall_forall. intros [[env' i] e] Hin. cbn [fst snd]. apply data_calls_events in Hin.
    by apply (Forall_forall (event_ok _ _) ev).
  - unfold start_app. rewrite Hp, E1. cbn [mbind outcome_bind]. rewrite E2. cbn [mbind outcome_bind].
    unfold deref. rewrite lookup_insert_eq. cbn [mbind outcome_bind stream_items]. rewrite handle_events_calls by apply Ht.
    destruct (handle_calls _ _ _) as [[st' out]|]; cbn [mbind outcome_bind]; [|done].
    unfold jrtc_app_destroy. by rewrite lookup_insert_eq, delete_insert_id.
Qed.
End Start.
#[global] Arguments start_env : clear implicits.
