(* ===== verification/FirstExampleC.v ===== *)
(** * first_example, with the application class

    [src/sample_apps/first_example_c/first_example.c]: adds up the numbers of
    the generator and sends every fifth sum to the input program. *)
From Stdlib Require Import QArith.
From S2P Require Import Prelude CData Codelets StreamId Ext Router RouterLookup RouterInv RouterChannels RouterForward RouterReceive RouterInit AppApi NorthIo JrtcApp JrtcAppFacts JrtcAppObject SampleApp.
#[local] Open Scope Z_scope.

(** The pointer to the object is not part of it: handlers are given the items. *)
Record AppStateVars_t := mk_state { agg_cnt : Z; received_counter : Z }.

Definition GENERATOR_OUT_SIDX : Z := 0.
Definition SIMPLE_INPUT_IN_SIDX : Z := 1.

Definition app_handler (items : list StreamItem) : handler AppStateVars_t := λ env timeout stream_idx data_entry st,
  if timeout then Ret (st, [])
  else
    st ← (if stream_idx =? GENERATOR_OUT_SIDX then
            rc ← add_i32 (received_counter st) 1;
            data ← entry_data env data_entry;
            cnt ← ld_i32 data;
            agg ← add_i32 (agg_cnt st) cnt;
            Ret (mk_state agg rc)
          else Ret st);
    if (Z.rem (received_counter st) 5 =? 0) && (0 <? received_counter st) then
      let '(res, sent) := send_input env items SIMPLE_INPUT_IN_SIDX (agg_cnt st) in
      _ ← c_assert (res =? 0);
      Ret (st, sent ++ [Printed "FirstExample: Aggregate counter so far is: %u " (agg_cnt st)])
    else Ret (st, []).

Definition app_streams : list JrtcStreamCfg_t := [
  mk_stream_cfg (mk_sid_cfg JRTC_ROUTER_DEST_ANY JRTC_ROUTER_DEVICE_ID_ANY
    (Some "FirstExample://jbpf_agent/data_generator_codeletset/codelet") (Some "ringbuf")) true None;
  mk_stream_cfg (mk_sid_cfg JRTC_ROUTER_DEST_NONE 1
    (Some "FirstExample://jbpf_agent/simple_input_codeletset/codelet") (Some "input_map")) false None
].

(** The timeouts are the values of [10.0f], [0.1f] and [1.0f]. *)
Definition app_cfg : JrtcAppCfg_t := mk_app_cfg (Some "FirstExample") 100 app_streams 10 (13421773 # 134217728) 1.

Section First.
Context {cs : CharSign}.
Context {B It T C R M S : Type}.
Context `{HB : CkBitmap B It} `{HT : CkHt T nat} `{HC : CkPtrHt C} `{HR : CkRing R} `{HM : Mempool M} `{HS : JbpfIo S}.

Definition jrtc_start_app (env : start_env B T C R M S) := start_app app_handler app_cfg (mk_state 0 0) env.

Context `{LB : !CkBitmapLaws B It} `{LT : !CkHtLaws T nat} `{LC : !CkPtrHtLaws C} `{LR : !CkRingLaws R} `{LM : !MempoolLaws M}.
Context `{LS : !JbpfIoLaws S}.

(** ** The handler on a sequence of entries *)

(** A call for the generator's stream. *)
Definition generator_call (c : call_env * nat * jrtc_router_data_entry) (v : Z) : Prop := c.1.2 = 0%nat /\ call_holds c v.

(** What is sent and printed after [k] numbers, if it is a fifth one. *)
Definition report (sid : jrtc_router_stream_id) (rc agg : Z) : list sample_out :=
  if (rc mod 5 =? 0) then [SentInput sid (le32 agg); Printed "FirstExample: Aggregate counter so far is: %u " agg] else [].

Definition reports (sid : jrtc_router_stream_id) (rc agg : Z) (vs : list Z) : list sample_out :=
  concat ((λ k, report sid (rc + Z.of_nat k) (agg + sum (take k vs))) <$> seq 1 (length vs)).

Lemma reports_cons sid rc agg v vs :
  reports sid rc agg (v :: vs) = report sid (rc + 1) (agg + v) ++ reports sid (rc + 1) (agg + v) vs.
Proof.
  unfold reports. cbn [length seq fmap list_fmap concat]. f_equal.
  { unfold sum. cbn [take foldr]. rewrite take_0. f_equal; cbn; lia. }
  rewrite <- fmap_S_seq, <- list_fmap_compose. f_equal. apply list_fmap_ext. intros i k _. unfold compose.
  unfold sum. cbn [take foldr]. f_equal; lia.
Qed.

Lemma first_handler_step items si0 si1 c v rc agg : items = [si0; si1] -> generator_call c v -> is_i32 v = true ->
  0 <= rc < INT32_MAX ->
  app_handler items c.1.1 false (Z.of_nat c.1.2) (Some c.2) (mk_state agg rc) =
    if is_i32 (agg + v) then Ret (mk_state (agg + v) (rc + 1), report (si_sid si1) (rc + 1) (agg + v))
    else Fault SignedOverflow.
Proof.
  intros -> (Hi & (t & Hm) & Hs) Hv Hrc. cbn [fst snd] in Hs. unfold app_handler. rewrite Hi.
  change (Z.of_nat 0 =? GENERATOR_OUT_SIDX) with true. cbn [received_counter agg_cnt].
  rewrite (add_i32_ok rc) by (apply is_i32_spec; unfold INT32_MAX in *; lia). cbn [mbind outcome_bind entry_data].
  rewrite Hm, ld_le32 by done. cbn [mbind outcome_bind]. unfold add_i32. destruct (is_i32 (agg + v)); cbn [mbind outcome_bind]; [|done].
  cbn [received_counter agg_cnt]. rewrite Z.rem_mod_nonneg by lia. unfold report.
  destruct ((rc + 1) mod 5 =? 0); cbn [andb]; [|done]. rewrite (proj2 (Z.ltb_lt 0 (rc + 1))) by lia.
  change SIMPLE_INPUT_IN_SIDX with (Z.of_nat 1). by rewrite (send_input_ok _ _ 1 si1).
Qed.

(** As long as the sums fit, the state is the sum and the number of entries;
    when one does not fit, the addition is undefined. *)
Lemma first_handler_fold si0 si1 l vs rc agg : Forall2 generator_call l vs -> Forall (λ v, is_i32 v = true) vs ->
  0 <= rc -> rc + Z.of_nat (length vs) <= INT32_MAX ->
  (Forall (λ k, is_i32 (agg + sum (take k vs)) = true) (seq 1 (length vs)) ->
   handle_calls (app_handler [si0; si1]) l (mk_state agg rc) =
     Ret (mk_state (agg + sum vs) (rc + Z.of_nat (length vs)), reports (si_sid si1) rc agg vs)) /\
  (Exists (λ k, is_i32 (agg + sum (take k vs)) = false) (seq 1 (length vs)) ->
   handle_calls (app_handler [si0; si1]) l (mk_state agg rc) = Fault SignedOverflow).
Proof.
  intros Hl. revert rc agg. induction Hl as [|c v l vs Hc Hl IH]; intros rc agg Hv Hrc Hn.
  { split; [|by intros H; inversion H]. intros _. cbn. unfold reports. cbn. by rewrite !Z.add_0_r. }
  apply Forall_cons in Hv as [Hv Hvs]. cbn [length] in Hn. destruct c as [[env i] e]. cbn [handle_calls].
  pose proof (first_handler_step [si0; si1] si0 si1 (env, i, e) v rc agg eq_refl Hc Hv ltac:(lia)) as Hstep. cbn [fst snd] in Hstep.
  rewrite Hstep. destruct (IH (rc + 1) (agg + v)) as [IH1 IH2]; [done|lia|lia|].
  assert (Hk : forall k, agg + sum (take (Datatypes.S k) (v :: vs)) = agg + v + sum (take k vs)).
  { intros k. cbn. unfold sum. lia. }
  cbn [length seq]. rewrite Forall_cons, Exists_cons, (Hk 0%nat), take_0. cbn [sum foldr]. rewrite Z.add_0_r.
  rewrite <- fmap_S_seq, Forall_fmap, Exists_fmap. split.
  - intros [-> Hrest]. cbn [mbind outcome_bind]. rewrite IH1.
    + cbn [mbind outcome_bind]. rewrite reports_cons. do 3 f_equal; [|lia]. unfold sum. cbn. lia.
    + eapply Forall_impl; [exact Hrest|]. intros k. unfold compose. cbv beta. by rewrite Hk.
  - destruct (is_i32 (agg + v)) eqn:Ev; cbn [mbind outcome_bind]; [|done]. intros [?|Hrest]; [done|].
    rewrite IH2; [done|]. eapply Exists_impl; [exact Hrest|]. intros k. unfold compose. cbv beta. by rewrite Hk.
Qed.
(** ** Whole executions *)

Lemma first_received_index items e i : event_ok app_streams items (HandlerData i e) -> i = 0%nat.
Proof. intros (s & si & Hs & _ & Hrx & _). destruct i as [|[|i]]; cbn in Hs; [done| |done]. by simplify_eq. Qed.

(** Every entry is the generator's; the items are those of the configuration. *)
Lemma start_facts env a d heap r (io : S) : start_assumptions app_cfg env a d heap r ->
  exists r' io' items ev si0 si1,
    run_from [] (se_fuel env) app_cfg a (se_init env) (se_start env) (se_rounds env) (se_mem env) r io = Ret (r', io', items, ev) /\
    router_wf r' /\ (forall s, subscribed r' (app_id d) s = false) /\
    cfg_id (nth 1 app_streams inhabitant) = Ret (si_sid si1) /\
    (forall vs, Forall2 call_holds (data_calls (se_calls env) 0 ev) vs -> Forall2 generator_call (data_calls (se_calls env) 0 ev) vs) /\
    jrtc_start_app env a heap r io =
      ('(st, out) ← handle_calls (app_handler [si0; si1]) (data_calls (se_calls env) 0 ev) (mk_state 0 0);
       Ret (st, out, r', io', heap)).
Proof.
  intros H. destruct (start_app_facts app_handler app_cfg (mk_state 0 0) env a d heap r io (fun _ _ _ _ _ => eq_refl) H)
    as (r' & io' & items & ev & E & Hi & Hn & Hit & Hev & Es).
  assert (Hg : forall vs, Forall2 call_holds (data_calls (se_calls env) 0 ev) vs ->
    Forall2 generator_call (data_calls (se_calls env) 0 ev) vs).
  { intros vs Hvs. eapply Forall2_impl_l; [exact Hev|exact Hvs|]. intros c v Hc Hh. split; [|done].
    by apply (first_received_index items c.2). }
  destruct Hit as [Hl|Hit].
  - destruct (cfg_id_total (nth 1 app_streams inhabitant)) as (sid & Hsid & _).
    exists r', io', items, ev, (mk_item sid false None), (mk_item sid false None).
    split_and!; [exact E|exact Hi|exact Hn|exact Hsid|exact Hg|]. unfold jrtc_start_app. rewrite Es, Hl. reflexivity.
  - inversion Hit as [|? si0 ? items0 _ H1]; subst. inversion H1 as [|? si1 ? items1 [Hsid _] H2]; subst. inversion H2; subst.
    exists r', io', [si0; si1], ev, si0, si1. split_and!; [exact E|exact Hi|exact Hn|exact Hsid|exact Hg|exact Es].
Qed.

(** The whole application: it comes to an end without a fault and leaves
    nothing behind; when the entries it was handed hold the numbers [vs] and no
    sum leaves 32 bits, its counter is their sum, and what it sent to the input
    program and printed is the sum after every fifth number, in order. *)
Theorem first_example_c_spec env a d heap r (io : S) : start_assumptions app_cfg env a d heap r ->
  exists r' io' items ev sid,
    run_from [] (se_fuel env) app_cfg a (se_init env) (se_start env) (se_rounds env) (se_mem env) r io = Ret (r', io', items, ev) /\
    router_wf r' /\ (forall s, subscribed r' (app_id d) s = false) /\ cfg_id (nth 1 app_streams inhabitant) = Ret sid /\
    forall vs, Forall2 call_holds (data_calls (se_calls env) 0 ev) vs -> Forall (λ v, is_i32 v = true) vs ->
      Forall (λ k, is_i32 (sum (take k vs)) = true) (seq 1 (length vs)) -> Z.of_nat (length vs) <= INT32_MAX ->
      jrtc_start_app env a heap r io =
        Ret (mk_state (sum vs) (Z.of_nat (length vs)), reports sid 0 0 vs, r', io', heap).
Proof.
  intros H. destruct (start_facts env a d heap r io H) as (r' & io' & items & ev & si0 & si1 & E & Hi & Hn & Hs & Hg & Es).
  exists r', io', items, ev, (si_sid si1). split_and!; [exact E|exact Hi|exact Hn|exact Hs|]. intros vs Hvs Hv Hk Hlen. rewrite Es.
  destruct (first_handler_fold si0 si1 _ vs 0 0 (Hg vs Hvs) Hv ltac:(lia) Hlen) as [-> _]; [reflexivity|].
  eapply Forall_impl; [exact Hk|]. intros k. by rewrite Z.add_0_l.
Qed.

(** C35: fed by the generator from its start, the application works for 4198463
    messages (48 days at one per second); the next one overflows its [int]. *)
Theorem first_example_c_capacity env a d heap r (io : S) n : start_assumptions app_cfg env a d heap r ->
  exists r' io' items ev sid,
    run_from [] (se_fuel env) app_cfg a (se_init env) (se_start env) (se_rounds env) (se_mem env) r io = Ret (r', io', items, ev) /\
    cfg_id (nth 1 app_streams inhabitant) = Ret sid /\
    (Forall2 call_holds (data_calls (se_calls env) 0 ev) (counts 0 n) ->
      ((n <= MAX_COUNTS)%nat -> jrtc_start_app env a heap r io =
         Ret (mk_state (sum (counts 0 n)) (Z.of_nat n), reports sid 0 0 (counts 0 n), r', io', heap)) /\
      ((MAX_COUNTS < n)%nat -> jrtc_start_app env a heap r io = Fault SignedOverflow)).
Proof.
  intros H. destruct (start_facts env a d heap r io H) as (r' & io' & items & ev & si0 & si1 & E & _ & _ & Hsid & Hg & Es).
  exists r', io', items, ev, (si_sid si1). split; [exact E|]. split; [exact Hsid|]. intros Hvs. specialize (Hg _ Hvs). rewrite Es. clear Es Hvs.
  assert (Hsmall : forall m, Forall (λ v, is_i32 v = true) (counts 0 m)).
  { intros m. eapply Forall_impl; [apply counts_range|]. intros v Hv. cbv beta in Hv. apply is_i32_spec. unfold INT32_MAX. lia. }
  assert (Hmax : Z.of_nat (Datatypes.S MAX_COUNTS) <= INT32_MAX) by (pose proof MAX_COUNTS_Z; unfold INT32_MAX; lia).
  split; intros Hn.
  - destruct (first_handler_fold si0 si1 _ (counts 0 n) 0 0 Hg (Hsmall n) ltac:(lia) ltac:(rewrite length_counts; lia)) as [-> _];
      rewrite length_counts; [reflexivity|].
    apply Forall_seq. intros k Hk. rewrite take_counts by lia. apply counts_fit. lia.
  - rewrite <- (take_drop (Datatypes.S MAX_COUNTS) (data_calls _ _ _)), handle_calls_app.
    apply (Forall2_take _ _ _ (Datatypes.S MAX_COUNTS)) in Hg. rewrite take_counts in Hg by lia.
    destruct (first_handler_fold si0 si1 _ _ 0 0 Hg (Hsmall _) ltac:(lia) ltac:(rewrite length_counts; lia)) as [_ ->];
      [reflexivity|]. rewrite length_counts.
    apply Exists_exists. exists (Datatypes.S MAX_COUNTS). split; [apply elem_of_seq; lia|].
    rewrite take_counts by lia. apply counts_overflow.
Qed.
End First.
