(* ===== verification/PlainApp.v ===== *)
(** * Sample applications on the router's own interface

    What [first_example.c] and the two [advanced_example] applications that do
    not use the class have in common: waiting for an input channel, and the loop
    that receives batches until the application is told to stop. *)
From S2P Require Import Prelude CData StreamId StreamIdSpec Bloom BloomFacts Ext Router RouterLookup RouterInv RouterChannels RouterForward RouterReceive RouterInit AppApi NorthIo JrtcApp JrtcAppFacts SampleApp.

(** The size of [data_entries]. *)
Definition DATA_ENTRIES_SIZE : nat := 100.

(** [jrtc_router_channel_release_buf(data)] for a pointer variable that may not
    have been written yet. *)
Definition release (data : option Z) : outcome (list sample_out) :=
  match data with
  | None => Fault Uninitialised
  | Some p => Ret (omap (λ ev, match ev with IoRelease b => Some (Released b) | _ => None end) (jrtc_router_channel_release_buf p))
  end.

(** [while (!jrtc_router_input_channel_exists(sid)) sleep(1)]: [find] is what the
    router finds at each poll. *)
Fixpoint wait_channel (fuel : nat) (find : nat -> jrtc_router_stream_id -> bool) (t : nat) (sid : jrtc_router_stream_id) : outcome nat :=
  match fuel with
  | O => Fault Divergence
  | S fuel => if jrtc_router_input_channel_exists true true (find t) sid =? 0 then wait_channel fuel find (t + 1) sid else Ret (t + 1)%nat
  end.

(** [jrtc_router_generate_stream_id(&sid, ...)]: the return value and what is in
    [sid] afterwards. *)
Definition generate {cs : CharSign} (mem : (bool * bool) * (bool * bool)) (fwd_dst device_id : Z) (path name : string) :
    outcome (Z * jrtc_router_stream_id) :=
  '(res, o) ← jrtc_router_generate_stream_id mem.1 mem.2 (Some (mk_stream_id [])) fwd_dst device_id (Some path) (Some name);
  match o with Some sid => Ret (res, sid) | None => Fault NullDeref end.

Section Plain.
Context {cs : CharSign}.
Context {B It T C R M S St : Type}.
Context `{HB : CkBitmap B It} `{HT : CkHt T nat} `{HC : CkPtrHt C} `{HR : CkRing R} `{HM : Mempool M} `{HS : JbpfIo S}.

Abbreviation router := (jrtc_router_ctx B T C R M).

(** One turn of the loop: what the other threads do before it, and the answers
    and the memory during it. *)
Record turn := mk_turn { t_others : router * S -> router * S; t_call : call_env }.

(** What the application does with a batch, in terms of its variables. *)
Variable on_batch : call_env -> list jrtc_router_data_entry -> St -> outcome (St * list sample_out).

(** [while (!atomic_load(&env_ctx->app_exit))]. *)
Fixpoint receive_loop (ctx : nat) (turns : list turn) (st : St) (r : router) (io : S) : outcome (St * list sample_out * router * S) :=
  match turns with
  | [] => Ret (st, [], r, io)
  | t :: turns =>
      let '(r, io) := t_others t (r, io) in
      '(r, io, des) ← jrtc_router_receive r io ctx DATA_ENTRIES_SIZE;
      '(st, out) ← on_batch (t_call t) des st;
      '(st, out', r, io) ← receive_loop ctx turns st r io;
      Ret (st, out ++ out', r, io)
  end.

(** The batches alone, and what is done with them. *)
Fixpoint batches (ctx : nat) (turns : list turn) (r : router) (io : S) :
    outcome (router * S * list (call_env * list jrtc_router_data_entry)) :=
  match turns with
  | [] => Ret (r, io, [])
  | t :: turns =>
      let '(r, io) := t_others t (r, io) in
      '(r, io, des) ← jrtc_router_receive r io ctx DATA_ENTRIES_SIZE;
      '(r, io, bs) ← batches ctx turns r io;
      Ret (r, io, (t_call t, des) :: bs)
  end.

Fixpoint on_batches (bs : list (call_env * list jrtc_router_data_entry)) (st : St) : outcome (St * list sample_out) :=
  match bs with
  | [] => Ret (st, [])
  | (env, des) :: bs =>
      '(st, out) ← on_batch env des st;
      '(st, out') ← on_batches bs st;
      Ret (st, out ++ out')
  end.

Context `{LB : !CkBitmapLaws B It} `{LT : !CkHtLaws T nat} `{LC : !CkPtrHtLaws C} `{LR : !CkRingLaws R} `{LM : !MempoolLaws M}.
Context `{LS : !JbpfIoLaws S}.

Lemma receive_loop_batches ctx turns st r io r' io' bs : batches ctx turns r io = Ret (r', io', bs) ->
  receive_loop ctx turns st r io = ('(st, out) ← on_batches bs st; Ret (st, out, r', io')).
Proof.
  revert st r io r' io' bs. induction turns as [|t turns IH]; intros st r io r' io' bs; cbn [batches receive_loop].
  { by intros [= <- <- <-]. }
  destruct (t_others t (r, io)) as [r1 io1]. destruct (jrtc_router_receive r1 io1 ctx _) as [[[r2 io2] des]|]; cbn [mbind outcome_bind]; [|done].
  destruct (batches ctx turns r2 io2) as [[[r3 io3] bs3]|] eqn:E; cbn [mbind outcome_bind]; [|done]. intros [= <- <- <-].
  cbn [on_batches]. destruct (on_batch (t_call t) des st) as [[st1 out1]|]; cbn [mbind outcome_bind]; [|done].
  rewrite (IH _ _ _ _ _ _ E). by destruct (on_batches bs3 st1) as [[st2 out2]|].
Qed.

(** The other threads leave the application alone. *)
Definition turn_ok (mem : nat -> nat -> list Z) (a aid : nat) (items : list StreamItem) (t : turn) : Prop :=
  forall r io, app_inv mem a aid items r -> app_inv mem a aid items (t_others t (r, io)).1.

Lemma batches_facts mem a aid items turns r io : app_inv mem a aid items r -> Forall (turn_ok mem a aid items) turns ->
  exists r' io' bs, batches a turns r io = Ret (r', io', bs) /\ app_inv mem a aid items r' /\
    Forall (λ b, (length b.2 <= DATA_ENTRIES_SIZE)%nat) bs.
Proof.
  intros I Ht. revert r io I. induction Ht as [|t turns Hok _ IH]; intros r io I; cbn [batches]; [by exists r, io, []|].
  specialize (Hok r io I). destruct (t_others t (r, io)) as [r1 io1]. cbn [fst] in Hok.
  destruct (receive_app_inv mem a aid items r1 io1 DATA_ENTRIES_SIZE Hok) as (d & r2 & io2 & des' & _ & -> & Hlen & I2).
  cbn [mbind outcome_bind]. destruct (IH r2 io2 I2) as (r3 & io3 & bs & -> & I3 & Hbs). cbn [mbind outcome_bind].
  eexists r3, io3, _. split; [done|]. split; [done|]. by constructor.
Qed.
End Plain.
#[global] Arguments turn : clear implicits.

(** A wait ends when the channel is found. *)
Lemma wait_channel_found fuel find t sid k : (forall j, (j < k)%nat -> find (t + j)%nat sid = false) -> find (t + k)%nat sid = true ->
  (k < fuel)%nat -> wait_channel fuel find t sid = Ret (t + k + 1)%nat.
Proof.
  revert t k. induction fuel as [|fuel IH]; intros t k Hn Hy Hf; [lia|]. cbn [wait_channel].
  unfold jrtc_router_input_channel_exists. cbn [negb]. destruct k as [|k].
  - rewrite Nat.add_0_r in Hy |- *. rewrite Hy. done.
  - specialize (Hn 0%nat ltac:(lia)) as H0. rewrite Nat.add_0_r in H0. rewrite H0. cbn [Z.eqb].
    rewrite (IH (t + 1)%nat k); [f_equal; lia| |rewrite <- Hy; f_equal; lia|lia].
    intros j Hj. rewrite <- (Hn (Datatypes.S j) ltac:(lia)). f_equal. lia.
Qed.

(** And it lasts for ever when the channel never appears: no fuel is enough. *)
Lemma wait_channel_forever find t sid : (forall k, find k sid = false) -> forall fuel, wait_channel fuel find t sid = Fault Divergence.
Proof.
  intros Hn fuel. revert t. induction fuel as [|fuel IH]; intros t; [done|]. cbn [wait_channel].
  unfold jrtc_router_input_channel_exists. cbn [negb]. rewrite Hn. apply IH.
Qed.
