(* ===== verification/FirstExample.v ===== *)
(** * first_example, on the router's interface

    [src/sample_apps/first_example/first_example.c]. It does what the version
    with the class does, but looks whether it has a fifth number only after each
    batch. *)
From S2P Require Import Prelude CData StreamId StreamIdSpec Bloom BloomFacts Ext Router RouterLookup RouterInv RouterChannels RouterForward RouterReceive RouterInit AppApi NorthIo JrtcApp JrtcAppFacts SampleApp PlainApp FirstExampleC.

(** The local variables that live across the loop; [data] is not initialised. *)
Record vars := mk_vars { v_agg_cnt : Z; v_received_counter : Z; v_data : option Z }.
Definition vars_init : vars := mk_vars 0 0 None.

Section First.
Context {cs : CharSign}.
Variables codelet_sid control_input_sid : jrtc_router_stream_id.

(** [for (int i = 0; i < num_rcv; i++)]. *)
Fixpoint entry_loop (env : call_env) (des : list jrtc_router_data_entry) (st : vars) : outcome (vars * list sample_out) :=
  match des with
  | [] => Ret (st, [])
  | e :: des =>
      st ← (if jrtc_router_stream_id_matches_req (de_stream_id e) codelet_sid then
              rc ← add_i32 (v_received_counter st) 1;
              cnt ← ld_i32 (ce_mem env (de_data e));
              agg ← add_i32 (v_agg_cnt st) cnt;
              Ret (mk_vars agg rc (Some (de_data e)))
            else Ret st);
      out ← release (v_data st);
      '(st, out') ← entry_loop env des st;
      Ret (st, out ++ out')
  end.

(** [if (num_rcv > 0)]; the result of sending is ignored. *)
Definition on_batch (env : call_env) (des : list jrtc_router_data_entry) (st : vars) : outcome (vars * list sample_out) :=
  if (0 <? Z.of_nat (length des)) then
    '(st, out) ← entry_loop env des st;
    Ret (st, out ++
      if (Z.rem (v_received_counter st) 5 =? 0) && (0 <? v_received_counter st) then
        [SentInput control_input_sid (le32 (v_agg_cnt st)); Printed "FirstExample: Aggregate counter so far is %u" (v_agg_cnt st)]
      else [])
  else Ret (st, []).

(** ** Batches of the generator's numbers *)

Definition entry_holds (env : call_env) (e : jrtc_router_data_entry) (v : Z) : Prop :=
  jrtc_router_stream_id_matches_req (de_stream_id e) codelet_sid = true /\ de_data e <> 0 /\ is_i32 v = true /\
  exists t, ce_mem env (de_data e) = le32 v ++ t.

Definition batch_holds (b : call_env * list jrtc_router_data_entry) (vs : list Z) : Prop := Forall2 (entry_holds b.1) b.2 vs.

Lemma entry_loop_facts env des vs st : Forall2 (entry_holds env) des vs -> 0 <= v_received_counter st ->
  v_received_counter st + Z.of_nat (length vs) <= INT32_MAX ->
  Forall (λ k, is_i32 (v_agg_cnt st + sum (take k vs)) = true) (seq 1 (length vs)) ->
  exists data, entry_loop env des st = Ret (mk_vars (v_agg_cnt st + sum vs) (v_received_counter st + Z.of_nat (length vs)) data,
    Released ∘ de_data <$> des).
Proof.
  intros H. revert st. induction H as [|e v des vs (Hm & Hnz & Hv & t & Ht) Hall IH]; intros [agg rc data] Hrc Hn Hf;
    cbn [entry_loop v_agg_cnt v_received_counter] in *.
  { exists data. cbn. by rewrite !Z.add_0_r. }
  cbn [length seq] in Hf, Hn. apply Forall_cons in Hf as [Hf1 Hf].
  assert (E1 : agg + sum (take 1 (v :: vs)) = agg + v) by (rewrite sum_take_S, sum_take_0; lia). rewrite E1 in Hf1.
  rewrite Hm, (add_i32_ok rc) by (apply is_i32_spec; unfold INT32_MAX in *; lia). cbn [mbind outcome_bind].
  rewrite Ht, ld_le32 by done. cbn [mbind outcome_bind]. rewrite add_i32_ok by done. cbn [mbind outcome_bind v_data release].
  unfold jrtc_router_channel_release_buf. rewrite (proj2 (Z.eqb_neq _ _)) by done. cbn [omap list_omap mbind outcome_bind].
  destruct (IH (mk_vars (agg + v) (rc + 1) (Some (de_data e)))) as (data' & ->); cbn [v_agg_cnt v_received_counter]; [lia|lia| |].
  { rewrite <- fmap_S_seq, Forall_fmap in Hf. eapply Forall_impl; [exact Hf|]. intros k. unfold compose. cbv beta.
    intros <-. f_equal. rewrite sum_take_S. lia. }
  exists data'. cbn [mbind outcome_bind app fmap list_fmap length]. do 3 f_equal; [|lia]. unfold sum. cbn [foldr]. lia.
Qed.

(** What a batch makes it send: the sum, when the count so far is a fifth one. *)
Definition batch_report (rc agg : Z) (vs : list Z) : list (list Z) :=
  if decide (vs = []) then [] else if (rc + Z.of_nat (length vs)) mod 5 =? 0 then [le32 (agg + sum vs)] else [].

Fixpoint batch_reports (rc agg : Z) (vss : list (list Z)) : list (list Z) :=
  match vss with
  | [] => []
  | vs :: vss => batch_report rc agg vs ++ batch_reports (rc + Z.of_nat (length vs)) (agg + sum vs) vss
  end.
End First.

(** The messages among what an application did, and the buffers it released. *)
Definition sent (out : list sample_out) : list (list Z) :=
  omap (λ o, match o with SentInput _ m => Some m | _ => None end) out.
Definition released (out : list sample_out) : list Z := omap (λ o, match o with Released b => Some b | _ => None end) out.

Lemma sent_app out out' : sent (out ++ out') = sent out ++ sent out'.
Proof. apply omap_app. Qed.
Lemma released_out_app out out' : released (out ++ out') = released out ++ released out'.
Proof. apply omap_app. Qed.
Lemma sent_released des : sent (Released ∘ de_data <$> des) = [].
Proof. by induction des. Qed.
Lemma released_released des : released (Released ∘ de_data <$> des) = de_data <$> des.
Proof. unfold released. induction des as [|e des IH]; cbn; [done|]. by rewrite IH. Qed.

Section Facts.
Context {cs : CharSign}.
Variables codelet_sid control_input_sid : jrtc_router_stream_id.

Lemma on_batch_facts env des vs st : Forall2 (entry_holds codelet_sid env) des vs -> 0 <= v_received_counter st ->
  v_received_counter st + Z.of_nat (length vs) <= INT32_MAX ->
  Forall (λ k, is_i32 (v_agg_cnt st + sum (take k vs)) = true) (seq 1 (length vs)) ->
  exists data out, on_batch codelet_sid control_input_sid env des st =
      Ret (mk_vars (v_agg_cnt st + sum vs) (v_received_counter st + Z.of_nat (length vs)) data, out) /\
    released out = de_data <$> des /\ sent out = batch_report (v_received_counter st) (v_agg_cnt st) vs.
Proof.
  intros H Hrc Hn Hf. pose proof (Forall2_length _ _ _ H) as Hlen. unfold on_batch, batch_report. destruct des as [|e des].
  { destruct vs; [|done]. exists (v_data st), []. cbn. rewrite !Z.add_0_r. destruct st. done. }
  rewrite (proj2 (Z.ltb_lt _ _)) by (cbn; lia). destruct (entry_loop_facts codelet_sid env (e :: des) vs st H Hrc Hn Hf) as (data & ->).
  cbn [mbind outcome_bind v_received_counter v_agg_cnt]. eexists data, _. split; [reflexivity|].
  rewrite released_out_app, sent_app, sent_released, released_released.
  rewrite decide_False by (by intros ->). rewrite Z.rem_mod_nonneg by lia.
  destruct (_ mod 5 =? 0); cbn [andb]; [|by rewrite app_nil_r].
  rewrite (proj2 (Z.ltb_lt _ _)) by (destruct vs; cbn in *; lia). cbn. by rewrite app_nil_r.
Qed.

Lemma on_batches_facts bs vss st : Forall2 (batch_holds codelet_sid) bs vss -> 0 <= v_received_counter st ->
  v_received_counter st + Z.of_nat (length (concat vss)) <= INT32_MAX ->
  Forall (λ k, is_i32 (v_agg_cnt st + sum (take k (concat vss))) = true) (seq 1 (length (concat vss))) ->
  exists data out, on_batches (on_batch codelet_sid control_input_sid) bs st =
      Ret (mk_vars (v_agg_cnt st + sum (concat vss)) (v_received_counter st + Z.of_nat (length (concat vss))) data, out) /\
    released out = de_data <$> concat bs.*2 /\ sent out = batch_reports (v_received_counter st) (v_agg_cnt st) vss.
Proof.
  intros H. revert st. induction H as [|[env des] vs bs vss Hb Hbs IH]; intros st Hrc Hn Hf; cbn [on_batches concat batch_reports].
  { exists (v_data st), []. cbn. rewrite !Z.add_0_r. by destruct st. }
  cbn [concat] in Hn, Hf. rewrite length_app in Hn, Hf. rewrite seq_app, Forall_app in Hf. destruct Hf as [Hf1 Hf2].
  destruct (on_batch_facts env des vs st Hb Hrc) as (data & out & -> & Hr & Hs); [lia| |].
  { apply Forall_seq. intros k Hk. rewrite Forall_seq in Hf1. specialize (Hf1 k Hk). rewrite take_app_le in Hf1 by lia. done. }
  cbn [mbind outcome_bind].
  destruct (IH (mk_vars (v_agg_cnt st + sum vs) (v_received_counter st + Z.of_nat (length vs)) data)) as (data' & out' & -> & Hr' & Hs');
    cbn [v_agg_cnt v_received_counter]; [lia|lia| |].
  { apply Forall_seq. intros k Hk. rewrite Forall_seq in Hf2. specialize (Hf2 (length vs + k)%nat ltac:(lia)).
    rewrite take_app_add, sum_app in Hf2. rewrite <- Hf2. f_equal. lia. }
  cbn [mbind outcome_bind v_agg_cnt v_received_counter] in *. eexists data', _. split; [|split].
  - do 3 f_equal; [rewrite sum_app; lia|rewrite length_app; lia].
  - rewrite released_out_app, Hr, Hr'. cbn. by rewrite fmap_app.
  - by rewrite sent_app, Hs, Hs'.
Qed.
End Facts.

(** ** The whole program *)

Section Start.
Context {cs : CharSign}.
Context {B It T C R M S : Type}.
Context `{HB : CkBitmap B It} `{HT : CkHt T nat} `{HC : CkPtrHt C} `{HR : CkRing R} `{HM : Mempool M} `{HS : JbpfIo S}.

Abbreviation router := (jrtc_router_ctx B T C R M).

(** The allocations of the ids and of the request, what the router finds at
    each poll, and the turns of the loop. *)
Record plain_env := mk_plain_env {
  pe_codelet : (bool * bool) * (bool * bool);
  pe_request : request_env;
  pe_control : (bool * bool) * (bool * bool);
  pe_fuel : nat;
  pe_find : nat -> jrtc_router_stream_id -> bool;
  pe_turns : list (turn B T C R M S)
}.

Definition CODELET_PATH : string := "FirstExample://jbpf_agent/data_generator_codeletset/codelet".
Definition CONTROL_PATH : string := "FirstExample://jbpf_agent/simple_input_codeletset/codelet".

(** The result of the second generation is not checked. *)
Definition jrtc_start_app (env : plain_env) (ctx : nat) (r : router) (io : S) : outcome (vars * list sample_out * router * S) :=
  '(res, codelet_sid) ← generate (pe_codelet env) JRTC_ROUTER_DEST_ANY JRTC_ROUTER_DEVICE_ID_ANY CODELET_PATH "ringbuf";
  _ ← c_assert (res =? 1);
  '(r, res) ← jrtc_router_channel_register_stream_id_req r (pe_request env) (Some ctx) codelet_sid;
  _ ← c_assert (res =? 1);
  '(_, control_input_sid) ← generate (pe_control env) JRTC_ROUTER_DEST_NONE 1 CONTROL_PATH "input_map";
  _ ← wait_channel (pe_fuel env) (pe_find env) 0 control_input_sid;
  '(st, out, r, io) ← receive_loop (on_batch codelet_sid control_input_sid) ctx (pe_turns env) vars_init r io;
  r ← jrtc_router_channel_deregister_stream_id_req r (Some ctx) codelet_sid;
  Ret (st, out, r, io).

Context `{LB : !CkBitmapLaws B It} `{LT : !CkHtLaws T nat} `{LC : !CkPtrHtLaws C} `{LR : !CkRingLaws R} `{LM : !MempoolLaws M}.
Context `{LS : !JbpfIoLaws S}.

(** The request of an application that has no other, and its withdrawal. *)
Lemma request_app_inv mem a d r renv sid r1 : router_wf r -> dapps r !! a = Some d ->
  (forall s, subscribed r (app_id d) s = false) -> request_env_fresh r renv ->
  jrtc_router_channel_register_stream_id_req r renv (Some a) sid = Ret (r1, 1) -> keys_ok mem a r1 ->
  app_inv mem a (app_id d) [mk_item sid true None] r1.
Proof.
  intros W Hd Hn Hf E Hk. destruct (register_req_facts r renv a d sid W Hf Hd) as (r' & res & E' & W' & Hdd & _ & Hres).
  rewrite E in E'. simplify_eq. destruct Hres as [[_ Hs]|[? _]]; [|lia]. constructor; [done| | |done|].
  - exists d. by rewrite Hdd.
  - apply Forall_singleton. by intros c Hcc.
  - intros s. rewrite (Hs (app_id d) s), Hn. case_decide as Hd'; [|done]. intros _. destruct Hd' as [_ ->].
    eexists. split; [apply list_elem_of_here|done].
Qed.

Lemma withdraw_app_inv mem a aid sid r : app_inv mem a aid [mk_item sid true None] r ->
  exists r', jrtc_router_channel_deregister_stream_id_req r (Some a) sid = Ret r' /\ router_wf r' /\
    forall s, subscribed r' aid s = false.
Proof.
  intros [Hr (d & Hd & <-) _ Hk Ho]. destruct (withdraw_step mem a d r (mk_item sid true None) Hr Hd Hk) as (r' & E & Hr' & _ & _ & Hm & _ & Hs).
  exists r'. split; [done|]. split; [done|]. intros s. destruct (subscribed r' (app_id d) s) eqn:Es; [|done].
  destruct (Ho s (Hm _ _ Es)) as (si & Hin & _ & <-). apply list_elem_of_singleton in Hin as ->. cbn in *. by rewrite (Hs eq_refl) in Es.
Qed.

(** The id whose generation succeeds. *)
Lemma generate_ok fd dv p n : exists sid, stream_id_wf sid /\ generate ((true, true), (true, true)) fd dv p n = Ret (1, sid) /\
  generated_id (true, true) (true, true) fd dv (Some p) (Some n) = Ret sid.
Proof.
  unfold generate, generated_id. destruct (generate_stream_id_facts (mk_stream_id []) fd dv (Some p) (Some n)) as (sid & vp & vn & E & W & _).
  cbn [fst snd]. rewrite E. by exists sid.
Qed.

(** What the program relies on: memory for its ids and its request, an input
    channel that appears, threads that leave it alone, and unused addresses. *)
Record plain_assumptions (env : plain_env) (a : nat) (d : dapp_router_ctx C R M) (mem : nat -> nat -> list Z)
    (codelet_sid control_sid : jrtc_router_stream_id) (r r1 : router) : Prop := {
  pa_inv : router_wf r;
  pa_app : dapps r !! a = Some d;
  pa_none : forall s, subscribed r (app_id d) s = false;
  pa_fresh : request_env_fresh r (pe_request env);
  pa_codelet : generate (pe_codelet env) JRTC_ROUTER_DEST_ANY JRTC_ROUTER_DEVICE_ID_ANY CODELET_PATH "ringbuf" = Ret (1, codelet_sid);
  pa_control : generate (pe_control env) JRTC_ROUTER_DEST_NONE 1 CONTROL_PATH "input_map" = Ret (1, control_sid);
  pa_request : jrtc_router_channel_register_stream_id_req r (pe_request env) (Some a) codelet_sid = Ret (r1, 1);
  pa_found : exists k, wait_channel (pe_fuel env) (pe_find env) 0 control_sid = Ret k;
  pa_keys : keys_ok mem a r1;
  pa_turns : Forall (turn_ok mem a (app_id d) [mk_item codelet_sid true None]) (pe_turns env)
}.

End Start.
#[global] Arguments plain_env : clear implicits.

(** ** The two versions *)

Lemma reports_app sid rc agg vs ws :
  reports sid rc agg (vs ++ ws) = reports sid rc agg vs ++ reports sid (rc + Z.of_nat (length vs)) (agg + sum vs) ws.
Proof.
  revert rc agg. induction vs as [|v vs IH]; intros rc agg; cbn [app length].
  { by rewrite !Z.add_0_r. }
  rewrite !reports_cons, IH, <- app_assoc. do 2 f_equal. f_equal; [lia|]. unfold sum. cbn [foldr]. lia.
Qed.

Lemma batch_report_sublist sid rc agg vs :
  batch_report rc agg vs `sublist_of` sent (reports sid rc agg vs) /\
  ((length vs <= 1)%nat -> batch_report rc agg vs = sent (reports sid rc agg vs)).
Proof.
  destruct vs as [|v vs _] using rev_ind; [done|]. unfold batch_report. rewrite decide_False by (by intros []%app_eq_nil).
  rewrite reports_app, sent_app, sum_app, length_app. cbn [length].
  assert (E : sent (reports sid (rc + Z.of_nat (length vs)) (agg + sum vs) [v]) =
    if (rc + Z.of_nat (length vs + 1)) mod 5 =? 0 then [le32 (agg + (sum vs + sum [v]))] else []).
  { rewrite reports_cons. unfold report, reports. cbn [length seq fmap list_fmap concat]. rewrite app_nil_r.
    replace (rc + Z.of_nat (length vs) + 1) with (rc + Z.of_nat (length vs + 1)) by lia.
    destruct (_ mod 5 =? 0); [|done]. cbn. do 2 f_equal. lia. }
  rewrite E. split; [apply sublist_inserts_l; done|]. intros Hl. destruct vs as [|w vs]; [done|cbn in Hl; lia].
Qed.

Lemma batch_reports_sublist sid vss rc agg :
  batch_reports rc agg vss `sublist_of` sent (reports sid rc agg (concat vss)) /\
  (Forall (λ vs, (length vs <= 1)%nat) vss -> batch_reports rc agg vss = sent (reports sid rc agg (concat vss))).
Proof.
  revert rc agg. induction vss as [|vs vss IH]; intros rc agg; cbn [batch_reports concat]; [done|].
  rewrite reports_app, sent_app. destruct (batch_report_sublist sid rc agg vs) as [H1 H2].
  destruct (IH (rc + Z.of_nat (length vs)) (agg + sum vs)) as [H3 H4]. split; [by apply sublist_app|].
  intros [Hl Hls]%Forall_cons. by rewrite H2, H4.
Qed.

(** The two versions of the application on the same numbers: their counters
    agree, and the version on the router's interface sends a part of the sums
    the version with the class sends, in the same order; all of them when it
    never receives more than one entry at a time. *)
Theorem first_example_agrees {cs : CharSign} codelet_sid control_sid bs vss si0 si1 l :
  Forall2 (batch_holds codelet_sid) bs vss -> Forall2 generator_call l (concat vss) ->
  Z.of_nat (length (concat vss)) <= INT32_MAX ->
  Forall (λ k, is_i32 (sum (take k (concat vss))) = true) (seq 1 (length (concat vss))) ->
  exists st out st' out', on_batches (on_batch codelet_sid control_sid) bs vars_init = Ret (st, out) /\
    handle_calls (app_handler [si0; si1]) l (mk_state 0 0) = Ret (st', out') /\
    v_agg_cnt st = agg_cnt st' /\ v_received_counter st = received_counter st' /\
    sent out `sublist_of` sent out' /\ (Forall (λ b, (length b.2 <= 1)%nat) bs -> sent out = sent out').
Proof.
  intros Hb Hl Hlen Hfit.
  destruct (on_batches_facts codelet_sid control_sid bs vss vars_init Hb) as (data & out & Eo & _ & Hs); [done|done| |].
  { eapply Forall_impl; [exact Hfit|]. intros j. done. }
  assert (Hv : Forall (λ v, is_i32 v = true) (concat vss)).
  { apply Forall_concat. clear -Hb. induction Hb as [|b vs bs vss H _ IH]; constructor; [|done].
    clear -H. induction H as [|e v des vs (_ & _ & Hv & _) _ IH]; by constructor. }
  destruct (first_handler_fold si0 si1 l (concat vss) 0 0 Hl Hv ltac:(lia) Hlen) as [Ec _].
  rewrite Ec by (eapply Forall_impl; [exact Hfit|]; intros k; by rewrite Z.add_0_l).
  eexists _, out, _, _. split; [exact Eo|]. split; [reflexivity|]. cbn [v_agg_cnt v_received_counter agg_cnt received_counter vars_init] in *.
  rewrite Hs. destruct (batch_reports_sublist (si_sid si1) vss 0 0) as [H1 H2]. split_and!; [lia|lia|done|].
  intros Hone. apply H2. clear -Hb Hone. induction Hb as [|b vs bs vss H _ IH]; [constructor|].
  apply Forall_cons in Hone as [H1 H2]. constructor; [|by apply IH]. by rewrite <- (Forall2_length _ _ _ H).
Qed.

(** Two batches of three numbers: the fifth sum is stepped over. *)
Example first_example_steps_over : batch_reports 0 0 [[1; 2; 3]; [4; 5; 6]] = [] /\
  batch_reports 0 0 [[1; 2; 3]; [4; 5]; [6]] = [le32 15].
Proof. done. Qed.
