(* ===== verification/AdvancedExampleC1.v ===== *)
(** * advanced_example, first application, with the application class

    [src/sample_apps/advanced_example_c/advanced_example1.c]: adds up the numbers
    of a generator, sends each sum to an input program, and prints what the
    second application sends it. *)
From Stdlib Require Import QArith.
From S2P Require Import Prelude CData StreamId StreamIdSpec Bloom BloomFacts Ext Router RouterLookup RouterInv RouterChannels RouterForward RouterReceive RouterInit AppApi NorthIo JrtcApp JrtcAppFacts JrtcAppObject SampleApp.
#[local] Open Scope Z_scope.

(** [agg_cnt]; the pointer to the object is not part of it. *)
Record AppStateVars_t := mk_state { agg_cnt : Z }.

Definition GENERATOR_OUT_SIDX : Z := 0.
Definition APP2_OUT_SIDX : Z := 1.
Definition SIMPLE_INPUT_CODELET_IN_SIDX : Z := 2.
Definition APP1_IN_SIDX : Z := 3.

Definition FROM_CODELET : string := "App1: Aggregate counter from codelet is %d".
Definition FROM_OUTPUT : string := "App1: Received aggregate counter %d from output channel of App2".
Definition FROM_INPUT : string := "App1: Received aggregate counter %d from input channel of App1".

(** The message is read from [&state->agg_cnt], of the size of the structure. *)
Definition app_handler (items : list StreamItem) : handler AppStateVars_t := λ env timeout stream_idx data_entry st,
  if timeout then Ret (st, [])
  else if stream_idx =? GENERATOR_OUT_SIDX then
    data ← entry_data env data_entry;
    cnt ← ld_i32 data;
    agg ← add_i32 (agg_cnt st) cnt;
    let '(res, sent) := send_input env items SIMPLE_INPUT_CODELET_IN_SIDX agg in
    _ ← c_assert (res =? 0);
    Ret (mk_state agg, Printed FROM_CODELET agg :: sent)
  else if stream_idx =? APP2_OUT_SIDX then
    data ← entry_data env data_entry;
    v ← ld_i32 data;
    Ret (st, [Printed FROM_OUTPUT v])
  else if stream_idx =? APP1_IN_SIDX then
    data ← entry_data env data_entry;
    v ← ld_i32 data;
    Ret (st, [Printed FROM_INPUT v])
  else Fault Aborted.

Definition app_streams : list JrtcStreamCfg_t := [
  mk_stream_cfg (mk_sid_cfg JRTC_ROUTER_DEST_ANY JRTC_ROUTER_DEVICE_ID_ANY
    (Some "AdvancedExample1://jbpf_agent/data_generator_codeletset/codelet") (Some "ringbuf")) true None;
  mk_stream_cfg (mk_sid_cfg JRTC_ROUTER_DEST_ANY 0 (Some "AdvancedExample2://intraapp") (Some "buffer")) true None;
  mk_stream_cfg (mk_sid_cfg JRTC_ROUTER_DEST_NONE 1
    (Some "AdvancedExample1://jbpf_agent/simple_input_pb_codeletset/codelet") (Some "input_map")) false None;
  mk_stream_cfg (mk_sid_cfg JRTC_ROUTER_DEST_NONE 0 (Some "AdvancedExample1://intraapp") (Some "buffer_input")) true
    (Some (mk_chan_cfg false 100 4))
].

Definition app_cfg : JrtcAppCfg_t := mk_app_cfg (Some "AdvancedExample1") 100 app_streams 10 (13421773 # 134217728) 1.

Section App1.
Context {cs : CharSign}.
Context {B It T C R M S : Type}.
Context `{HB : CkBitmap B It} `{HT : CkHt T nat} `{HC : CkPtrHt C} `{HR : CkRing R} `{HM : Mempool M} `{HS : JbpfIo S}.

Definition jrtc_start_app (env : start_env B T C R M S) := start_app app_handler app_cfg (mk_state 0) env.

Context `{LB : !CkBitmapLaws B It} `{LT : !CkHtLaws T nat} `{LC : !CkPtrHtLaws C} `{LR : !CkRingLaws R} `{LM : !MempoolLaws M}.
Context `{LS : !JbpfIoLaws S}.

(** The indices of the streams it receives. *)
Lemma app1_received_index items e i : event_ok app_streams items (HandlerData i e) -> i = 0%nat \/ i = 1%nat \/ i = 3%nat.
Proof.
  intros (s & si & Hs & _ & Hrx & _). destruct i as [|[|[|[|i]]]]; cbn in Hs; auto; [|done]. by simplify_eq.
Qed.

(** The numbers of the generator among those received. *)
Definition generated (ivs : list (nat * Z)) : list Z := omap (λ iv, if decide (iv.1 = 0%nat) then Some iv.2 else None) ivs.

(** What it prints and sends for each number, with the sum so far. *)
Fixpoint outputs (sid : jrtc_router_stream_id) (agg : Z) (ivs : list (nat * Z)) : list sample_out :=
  match ivs with
  | [] => []
  | (i, v) :: ivs =>
      match i with
      | 0%nat => [Printed FROM_CODELET (agg + v); SentInput sid (le32 (agg + v))] ++ outputs sid (agg + v) ivs
      | 1%nat => Printed FROM_OUTPUT v :: outputs sid agg ivs
      | _ => Printed FROM_INPUT v :: outputs sid agg ivs
      end
  end.

Definition app1_call (c : call_env * nat * jrtc_router_data_entry) (iv : nat * Z) : Prop :=
  c.1.2 = iv.1 /\ (iv.1 = 0%nat \/ iv.1 = 1%nat \/ iv.1 = 3%nat) /\ is_i32 iv.2 = true /\ call_holds c iv.2.

Lemma app1_handler_fold items si2 l ivs agg : items !! 2%nat = Some si2 -> length items = 4%nat -> Forall2 app1_call l ivs ->
  Forall (λ k, is_i32 (agg + sum (take k (generated ivs))) = true) (seq 1 (length (generated ivs))) ->
  handle_calls (app_handler items) l (mk_state agg) =
    Ret (mk_state (agg + sum (generated ivs)), outputs (si_sid si2) agg ivs).
Proof.
  intros Hi Hlen Hl. revert agg. induction Hl as [|[[env i] e] [j v] l ivs (Hij & Hr & Hv & (t & Hm) & Hs) _ IH]; intros agg Hf.
  { cbn. by rewrite Z.add_0_r. }
  cbn [fst snd] in *. subst i. cbn [handle_calls].
  destruct Hr as [->|[->| ->]]; cbn [generated omap list_omap fst snd] in *; unfold app_handler; cbn [entry_data outputs].
  - change (omap _ ivs) with (generated ivs) in Hf. destruct (decide (0%nat = 0%nat)) as [_|]; [|done]. cbn [length seq] in Hf.
    apply Forall_cons in Hf as [Hf1 Hf]. rewrite sum_take_S, sum_take_0, Z.add_0_r in Hf1.
    change (Z.of_nat 0 =? GENERATOR_OUT_SIDX) with true. cbn [mbind outcome_bind]. rewrite Hm, ld_le32 by done.
    cbn [mbind outcome_bind agg_cnt]. rewrite add_i32_ok by done. cbn [mbind outcome_bind].
    change SIMPLE_INPUT_CODELET_IN_SIDX with (Z.of_nat 2). rewrite (send_input_ok _ _ 2 si2) by (done || lia).
    cbn [Z.eqb c_assert mbind outcome_bind]. fold (app_handler items). rewrite IH.
    + cbn [mbind outcome_bind]. do 3 f_equal. change (omap _ ivs) with (generated ivs). unfold sum. cbn [foldr]. lia.
    + rewrite <- fmap_S_seq, Forall_fmap in Hf. eapply Forall_impl; [exact Hf|]. intros k. unfold compose. cbv beta.
      rewrite sum_take_S. intros <-. f_equal. lia.
  - change (Z.of_nat 1 =? GENERATOR_OUT_SIDX) with false. change (Z.of_nat 1 =? APP2_OUT_SIDX) with true.
    cbn [mbind outcome_bind]. rewrite Hm, ld_le32 by done. cbn [mbind outcome_bind]. fold (app_handler items). by rewrite IH.
  - change (Z.of_nat 3 =? GENERATOR_OUT_SIDX) with false. change (Z.of_nat 3 =? APP2_OUT_SIDX) with false.
    change (Z.of_nat 3 =? APP1_IN_SIDX) with true.
    cbn [mbind outcome_bind]. rewrite Hm, ld_le32 by done. cbn [mbind outcome_bind]. fold (app_handler items). by rewrite IH.
Qed.

(** The whole application: it ends without a fault and leaves nothing behind;
    the message it does not expect never comes. When the entries hold the
    numbers [vs] and the sums of the generator's fit 32 bits, each sum is
    printed and sent to the input program, and each number of the second
    application is printed with the channel it came through, in order. *)
Theorem advanced_example1_c_spec env a d heap r (io : S) : start_assumptions app_cfg env a d heap r ->
  exists r' io' items ev sid,
    run_from [] (se_fuel env) app_cfg a (se_init env) (se_start env) (se_rounds env) (se_mem env) r io = Ret (r', io', items, ev) /\
    router_wf r' /\ (forall s, subscribed r' (app_id d) s = false) /\ cfg_id (nth 2 app_streams inhabitant) = Ret sid /\
    let l := data_calls (se_calls env) 0 ev in
    Forall (λ c, c.1.2 = 0%nat \/ c.1.2 = 1%nat \/ c.1.2 = 3%nat) l /\
    forall vs, Forall2 call_holds l vs -> Forall (λ v, is_i32 v = true) vs ->
      let ivs := zip (snd ∘ fst <$> l) vs in
      Forall (λ k, is_i32 (sum (take k (generated ivs))) = true) (seq 1 (length (generated ivs))) ->
      jrtc_start_app env a heap r io = Ret (mk_state (sum (generated ivs)), outputs sid 0 ivs, r', io', heap).
Proof.
  intros H. destruct (start_app_facts app_handler app_cfg (mk_state 0) env a d heap r io (fun _ _ _ _ _ => eq_refl) H)
    as (r' & io' & items & ev & E & Hi & Hn & Hit & Hev & Es).
  assert (Hidx : Forall (λ c, c.1.2 = 0%nat \/ c.1.2 = 1%nat \/ c.1.2 = 3%nat) (data_calls (se_calls env) 0 ev)).
  { eapply Forall_impl; [exact Hev|]. intros c. apply (app1_received_index items). }
  assert (Hsi : exists si2, cfg_id (nth 2 app_streams inhabitant) = Ret (si_sid si2) /\
    (data_calls (se_calls env) 0 ev = [] \/ (items !! 2%nat = Some si2 /\ length items = 4%nat))).
  { destruct Hit as [Hl|Hit].
    - destruct (cfg_id_total (nth 2 app_streams inhabitant)) as (sid & Hsid & _).
      exists (mk_item sid false None). split; [exact Hsid|by left].
    - destruct (Forall2_lookup_l _ _ _ 2 _ Hit eq_refl) as (si2 & H2 & [Hsid _]). exists si2. split; [exact Hsid|right].
      split; [exact H2|]. by rewrite <- (Forall2_length _ _ _ Hit). }
  destruct Hsi as (si2 & Hsid & Hlk). exists r', io', items, ev, (si_sid si2).
  split_and!; [exact E|exact Hi|exact Hn|exact Hsid|]. cbv zeta. split; [exact Hidx|]. intros vs Hvs Hv Hf.
  unfold jrtc_start_app. rewrite Es. destruct Hlk as [Hl|[H2 Hlen]].
  { rewrite Hl in Hvs |- *. inversion Hvs. reflexivity. }
  rewrite (app1_handler_fold items si2 _ (zip (snd ∘ fst <$> data_calls (se_calls env) 0 ev) vs) 0 H2 Hlen); [reflexivity| |].
  - clear -Hvs Hidx Hv. induction Hvs as [|c v l vs Hc _ IH]; [constructor|]. apply Forall_cons in Hidx as [??], Hv as [??].
    cbn. constructor; [|by apply IH]. by split_and!.
  - eapply Forall_impl; [exact Hf|]. intros k. by rewrite Z.add_0_l.
Qed.
End App1.
