(* ===== verification/AdvancedExampleC2.v ===== *)
(** * advanced_example, second application, with the application class

    [src/sample_apps/advanced_example_c/advanced_example2.c]: adds up the numbers
    of a generator and sends each sum to the first application, once through an
    output channel of its own and once into an input channel of the other. *)
From Stdlib Require Import QArith.
From S2P Require Import Prelude CData StreamId StreamIdSpec Bloom BloomFacts Ext Router RouterLookup RouterInv RouterChannels RouterForward RouterReceive RouterInit AppApi NorthIo JrtcApp JrtcAppFacts JrtcAppObject SampleApp.
#[local] Open Scope Z_scope.

Record AppStateVars_t := mk_state { agg_cnt : Z; received_counter : Z }.

Definition GENERATOR_PB_OUT_SIDX : Z := 0.
Definition APP2_OUT_SIDX : Z := 1.
Definition APP1_IN_SIDX : Z := 2.

Definition FROM_CODELET : string := "App2: Aggregate counter from codelet is %d".
Definition SO_FAR : string := "App2: Aggregate counter so far is %u".
Definition UNEXPECTED : string := "App1: Got some unexpected message (stream_index=%d)".

(** [case GENERATOR_PB_OUT_SIDX]; [data->cnt] is a [uint32_t]. *)
Definition on_generator (items : list StreamItem) (env : call_env) (data_entry : option jrtc_router_data_entry)
    (st : AppStateVars_t) : outcome (AppStateVars_t * list sample_out) :=
  rc ← add_i32 (received_counter st) 1;
  data ← entry_data env data_entry;
  cnt ← ld_u32 data;
  let agg := add_u32 (agg_cnt st) cnt in
  counter ← jrtc_app_router_channel_reserve_buf (ce_reserve env) (ce_chans env) items APP2_OUT_SIDX;
  match counter with
  | None => Fault Aborted
  | Some elem =>
      elem ← st_32 elem agg;
      res ← jrtc_app_router_channel_send_output (ce_submit env) (ce_chans env) items APP2_OUT_SIDX;
      _ ← c_assert (res =? 0);
      let '(res, sent) := send_input env items APP1_IN_SIDX agg in
      _ ← c_assert (res =? 0);
      Ret (mk_state agg rc, [Printed FROM_CODELET agg; SentOutput APP2_OUT_SIDX elem] ++ sent)
  end.

Definition app_handler (items : list StreamItem) : handler AppStateVars_t := λ env timeout stream_idx data_entry st,
  if timeout then Ret (st, [])
  else
    '(st, out) ← (if stream_idx =? GENERATOR_PB_OUT_SIDX then on_generator items env data_entry st
                  else Ret (st, [Printed UNEXPECTED stream_idx]));
    Ret (st, out ++
      if (Z.rem (received_counter st) 5 =? 0) && (0 <? received_counter st) then [Printed SO_FAR (agg_cnt st)] else []).

Definition app_streams : list JrtcStreamCfg_t := [
  mk_stream_cfg (mk_sid_cfg JRTC_ROUTER_DEST_ANY JRTC_ROUTER_DEVICE_ID_ANY
    (Some "AdvancedExample2://jbpf_agent/data_generator_pb_codeletset/codelet") (Some "ringbuf")) true None;
  mk_stream_cfg (mk_sid_cfg JRTC_ROUTER_DEST_NONE 0 (Some "AdvancedExample2://intraapp") (Some "buffer")) false
    (Some (mk_chan_cfg true 100 4));
  mk_stream_cfg (mk_sid_cfg JRTC_ROUTER_DEST_NONE 0 (Some "AdvancedExample1://intraapp") (Some "buffer_input")) false None
].

Definition app_cfg : JrtcAppCfg_t := mk_app_cfg (Some "AdvancedExample2") 100 app_streams 10 (13421773 # 134217728) 1.

Section App2.
Context {cs : CharSign}.
Context {B It T C R M S : Type}.
Context `{HB : CkBitmap B It} `{HT : CkHt T nat} `{HC : CkPtrHt C} `{HR : CkRing R} `{HM : Mempool M} `{HS : JbpfIo S}.

Definition jrtc_start_app (env : start_env B T C R M S) := start_app app_handler app_cfg (mk_state 0 0) env.

Context `{LB : !CkBitmapLaws B It} `{LT : !CkHtLaws T nat} `{LC : !CkPtrHtLaws C} `{LR : !CkRingLaws R} `{LM : !MempoolLaws M}.
Context `{LS : !JbpfIoLaws S}.

Lemma app2_received_index items e i : event_ok app_streams items (HandlerData i e) -> i = 0%nat.
Proof. intros (s & si & Hs & _ & Hrx & _). destruct i as [|[|[|i]]]; cbn in Hs; [done|by simplify_eq..|done]. Qed.

(** A call in which the IO library accepts everything: the channel of the second
    item is live, and its element has the size of the structure. *)
Definition io_accepts (items : list StreamItem) (env : call_env) : Prop :=
  exists si1 c x elem, items !! 1%nat = Some si1 /\ chan_ctx si1 = Some c /\ ce_chans env !! c = Some x /\
    ce_reserve env (io_channel x) = Some elem /\ length elem = 4%nat /\ ce_submit env (io_channel x) = 0.

(** What it does with a number that makes the sum [agg]. *)
Definition output (sid : jrtc_router_stream_id) (rc agg : Z) : list sample_out :=
  [Printed FROM_CODELET agg; SentOutput APP2_OUT_SIDX (le32 agg); SentInput sid (le32 agg)] ++
  if (rc mod 5 =? 0) then [Printed SO_FAR agg] else [].

Lemma app2_handler_step items si2 env e v rc agg : items !! 2%nat = Some si2 -> length items = 3%nat ->
  call_holds (env, 0%nat, e) v -> io_accepts items env -> 0 <= rc < INT32_MAX ->
  app_handler items env false 0 (Some e) (mk_state agg rc) =
    Ret (mk_state (add_u32 agg (u32 v)) (rc + 1), output (si_sid si2) (rc + 1) (add_u32 agg (u32 v))).
Proof.
  intros H2 Hlen ((t & Hm) & Hs) (si1 & c & x & elem & H1 & Hc & Hx & Hr & Hel & Hsub) Hrc. cbn [fst snd] in *.
  unfold app_handler. change (0 =? GENERATOR_PB_OUT_SIDX) with true. cbv iota.
  unfold on_generator. cbn [received_counter agg_cnt].
  rewrite (add_i32_ok rc) by (apply is_i32_spec; unfold INT32_MAX in *; lia). cbn [mbind outcome_bind entry_data].
  rewrite Hm, ld_le32_u. cbn [mbind outcome_bind].
  destruct (indexed_channel (ce_reserve env) (ce_submit env) (ce_chans env) items 1 si1 c x H1 ltac:(lia) Hc Hx) as [Er Eo].
  change (Z.of_nat 1) with APP2_OUT_SIDX in Er, Eo. rewrite Er. cbn [mbind outcome_bind]. rewrite Hr, st_32_fits by lia.
  cbn [mbind outcome_bind]. rewrite Eo. cbn [mbind outcome_bind].
  rewrite Hsub. cbn [Z.eqb c_assert mbind outcome_bind]. change APP1_IN_SIDX with (Z.of_nat 2).
  rewrite (send_input_ok _ _ 2 si2) by (done || lia). cbn [Z.eqb c_assert mbind outcome_bind received_counter agg_cnt].
  rewrite Z.rem_mod_nonneg, (proj2 (Z.ltb_lt _ _)), andb_true_r by lia. rewrite drop_ge, app_nil_r by lia. done.
Qed.

(** The sums, with the wrap-around of 32 bits. *)
Fixpoint outputs (sid : jrtc_router_stream_id) (rc agg : Z) (vs : list Z) : list sample_out :=
  match vs with
  | [] => []
  | v :: vs => output sid (rc + 1) (add_u32 agg (u32 v)) ++ outputs sid (rc + 1) (add_u32 agg (u32 v)) vs
  end.

Definition wrapped_sum (agg : Z) (vs : list Z) : Z := foldl (λ a v, add_u32 a (u32 v)) agg vs.

Lemma app2_handler_fold items si2 l vs rc agg : items !! 2%nat = Some si2 -> length items = 3%nat ->
  Forall (λ c, c.1.2 = 0%nat /\ io_accepts items c.1.1) l -> Forall2 call_holds l vs ->
  0 <= rc -> rc + Z.of_nat (length vs) <= INT32_MAX ->
  handle_calls (app_handler items) l (mk_state agg rc) =
    Ret (mk_state (wrapped_sum agg vs) (rc + Z.of_nat (length vs)), outputs (si_sid si2) rc agg vs).
Proof.
  intros H2 Hlen Ha Hl. revert rc agg. induction Hl as [|[[env i] e] v l vs Hc _ IH]; intros rc agg Hrc Hn.
  { cbn. by rewrite Z.add_0_r. }
  apply Forall_cons in Ha as [[Hi Hacc] Ha]. cbn [fst snd] in *. subst i. cbn [handle_calls length] in *.
  change (Z.of_nat 0) with 0. rewrite (app2_handler_step items si2 env e v rc agg) by (done || lia). cbn [mbind outcome_bind].
  rewrite IH by (done || lia). cbn [mbind outcome_bind wrapped_sum foldl outputs]. do 3 f_equal. lia.
Qed.

(** The sum wraps around where the other applications' is undefined: it is the
    exact sum modulo 2^32. *)
Lemma wrapped_sum_mod agg vs : is_i32 agg = true -> is_i32 (wrapped_sum agg vs) = true /\ u32 (wrapped_sum agg vs) = u32 (agg + sum vs).
Proof.
  revert agg. induction vs as [|v vs IH]; intros agg Ha; cbn [wrapped_sum foldl]; [by rewrite Z.add_0_r|].
  destruct (IH (add_u32 agg (u32 v)) (add_u32_range _ _)) as [H1 H2]. split; [done|]. fold (wrapped_sum (add_u32 agg (u32 v)) vs).
  rewrite H2. unfold sum. cbn [foldr]. fold (sum vs). pose proof (u32_add_u32 agg v) as E. unfold wrap in *.
  rewrite Z.add_mod, E, <- Z.add_mod by done. f_equal. lia.
Qed.

(** The whole application: as long as the IO library accepts what it is given,
    it ends without a fault and leaves nothing behind; every number it receives
    is answered by the sum so far, in both channels, and no number of messages
    overflows the sum, which is exact modulo 2^32. *)
Theorem advanced_example2_c_spec env a d heap r (io : S) : start_assumptions app_cfg env a d heap r ->
  exists r' io' items ev sid,
    run_from [] (se_fuel env) app_cfg a (se_init env) (se_start env) (se_rounds env) (se_mem env) r io = Ret (r', io', items, ev) /\
    router_wf r' /\ (forall s, subscribed r' (app_id d) s = false) /\ cfg_id (nth 2 app_streams inhabitant) = Ret sid /\
    forall vs, Forall2 call_holds (data_calls (se_calls env) 0 ev) vs ->
      Forall (λ c, io_accepts items c.1.1) (data_calls (se_calls env) 0 ev) -> Z.of_nat (length vs) <= INT32_MAX ->
      jrtc_start_app env a heap r io =
        Ret (mk_state (wrapped_sum 0 vs) (Z.of_nat (length vs)), outputs sid 0 0 vs, r', io', heap) /\
      u32 (wrapped_sum 0 vs) = u32 (sum vs).
Proof.
  intros H. destruct (start_app_facts app_handler app_cfg (mk_state 0 0) env a d heap r io (fun _ _ _ _ _ => eq_refl) H)
    as (r' & io' & items & ev & E & Hi & Hn & Hit & Hev & Es).
  assert (Hsi : exists si2, cfg_id (nth 2 app_streams inhabitant) = Ret (si_sid si2) /\
    (data_calls (se_calls env) 0 ev = [] \/ (items !! 2%nat = Some si2 /\ length items = 3%nat))).
  { destruct Hit as [Hl|Hit].
    - destruct (cfg_id_total (nth 2 app_streams inhabitant)) as (sid & Hsid & _).
      exists (mk_item sid false None). split; [exact Hsid|by left].
    - destruct (Forall2_lookup_l _ _ _ 2 _ Hit eq_refl) as (si2 & H2 & [Hsid _]). exists si2. split; [exact Hsid|right].
      split; [exact H2|]. by rewrite <- (Forall2_length _ _ _ Hit). }
  destruct Hsi as (si2 & Hsid & Hlk). exists r', io', items, ev, (si_sid si2).
  split_and!; [exact E|exact Hi|exact Hn|exact Hsid|]. intros vs Hvs Hacc Hmax.
  split; [|exact (proj2 (wrapped_sum_mod 0 vs eq_refl))]. unfold jrtc_start_app. rewrite Es. destruct Hlk as [Hl|[H2 Hlen]].
  { rewrite Hl in Hvs |- *. inversion Hvs. reflexivity. }
  rewrite (app2_handler_fold items si2 _ vs 0 0 H2 Hlen); [reflexivity| |exact Hvs|lia|lia].
  apply Forall_and. split; [|exact Hacc]. eapply Forall_impl; [exact Hev|]. intros c. apply (app2_received_index items).
Qed.

(** Without a free element in its channel the application, and with it the
    process, is aborted. *)
Lemma no_element_aborts items env si1 c x e st : items !! 1%nat = Some si1 -> (length items < 4)%nat -> chan_ctx si1 = Some c ->
  ce_chans env !! c = Some x -> ce_reserve env (io_channel x) = None -> received_counter st < INT32_MAX -> 0 <= received_counter st ->
  (4 <= length (ce_mem env (de_data e)))%nat -> app_handler items env false 0 (Some e) st = Fault Aborted.
Proof.
  intros H1 Hlen Hc Hx Hr Hrc Hrc' Hm. unfold app_handler. change (0 =? GENERATOR_PB_OUT_SIDX) with true. cbv iota. unfold on_generator.
  rewrite add_i32_ok by (apply is_i32_spec; unfold INT32_MAX in *; lia). cbn [mbind outcome_bind entry_data].
  assert (Hv : exists v, ld_u32 (ce_mem env (de_data e)) = Ret v).
  { destruct (ce_mem env (de_data e)) as [|b0 [|b1 [|b2 [|b3 m]]]]; cbn in Hm; try lia. by eexists. }
  destruct Hv as [v ->]. cbn [mbind outcome_bind].
  destruct (indexed_channel (ce_reserve env) (ce_submit env) (ce_chans env) items 1 si1 c x H1 ltac:(lia) Hc Hx) as [Er _].
  change (Z.of_nat 1) with APP2_OUT_SIDX in Er. rewrite Er. cbn [mbind outcome_bind]. by rewrite Hr.
Qed.
End App2.
