(* ===== verification/AdvancedPair.v ===== *)
(** * The two advanced applications together

    What the second application sends is what the first one prints: through the
    router, from an output channel to a queue, and directly, into an input
    channel that the first one receives from. *)
From S2P Require Import Prelude CData StreamId StreamIdSpec Bloom BloomFacts Ext Router RouterLookup RouterInv RouterChannels RouterForward RouterReceive RouterInit AppApi NorthIo JrtcApp JrtcAppFacts JrtcAppObject SampleApp.
From S2P Require Import AdvancedExampleC1 AdvancedExampleC2.

Section Pair.
Context {cs : CharSign}.

Definition app1_stream (k : nat) : JrtcStreamCfg_t := nth k AdvancedExampleC1.app_streams inhabitant.
Definition app2_stream (k : nat) : JrtcStreamCfg_t := nth k AdvancedExampleC2.app_streams inhabitant.

End Pair.

(** The id of a stream. *)
Definition the_id {cs : CharSign} (s : JrtcStreamCfg_t) : jrtc_router_stream_id :=
  match cfg_id s with Ret sid => sid | Fault _ => mk_stream_id [] end.

(** The hashes keep the streams of the first application apart. *)
Definition apart_b (o g a i : jrtc_router_stream_id) : bool :=
  negb (jrtc_router_stream_id_matches_req o g) && jrtc_router_stream_id_matches_req o a &&
  negb (jrtc_router_stream_id_matches_req i g) && negb (jrtc_router_stream_id_matches_req i a) &&
  jrtc_router_stream_id_matches_req i i.

Lemma apart_ids {cs : CharSign} :
  apart_b (the_id (app2_stream 1)) (the_id (app1_stream 0)) (the_id (app1_stream 1)) (the_id (app1_stream 3)) = true.
Proof. destruct cs; vm_compute; reflexivity. Qed.

Lemma the_id_eq {cs : CharSign} s sid : cfg_id s = Ret sid -> the_id s = sid.
Proof. unfold the_id. by intros ->. Qed.

Lemma streams_apart {cs : CharSign} o g a i :
  cfg_id (app2_stream 1) = Ret o -> cfg_id (app1_stream 0) = Ret g -> cfg_id (app1_stream 1) = Ret a -> cfg_id (app1_stream 3) = Ret i ->
  jrtc_router_stream_id_matches_req o g = false /\ jrtc_router_stream_id_matches_req o a = true /\
  jrtc_router_stream_id_matches_req i g = false /\ jrtc_router_stream_id_matches_req i a = false /\
  jrtc_router_stream_id_matches_req i i = true.
Proof.
  intros <-%the_id_eq <-%the_id_eq <-%the_id_eq <-%the_id_eq. pose proof apart_ids as H. revert H.
  generalize (the_id (app2_stream 1)) (the_id (app1_stream 0)) (the_id (app1_stream 1)) (the_id (app1_stream 3)).
  intros o g a i H. unfold apart_b in H. rewrite !andb_true_iff, !negb_true_iff in H. tauto.
Qed.

Section Pair.
Context {cs : CharSign}.

(** The input channel the second application sends to is the first one's. *)
Lemma same_input : cfg_id (app2_stream 2) = cfg_id (app1_stream 3).
Proof.
  unfold cfg_id, app1_stream, app2_stream.
  cbn [nth AdvancedExampleC1.app_streams AdvancedExampleC2.app_streams cfg_sid destination cfg_device_id stream_source io_map].
  reflexivity.
Qed.

(** The stream the first application asks for is the second one's. *)
Lemma same_output : cfg_id (app2_stream 1) = generated_id (true, true) (true, true) JRTC_ROUTER_DEST_NONE 0
  (stream_source (cfg_sid (app1_stream 1))) (io_map (cfg_sid (app1_stream 1))).
Proof.
  unfold cfg_id, app1_stream, app2_stream.
  cbn [nth AdvancedExampleC1.app_streams AdvancedExampleC2.app_streams cfg_sid destination cfg_device_id stream_source io_map].
  reflexivity.
Qed.

Lemma item_cfg_id s si : item_for s si -> cfg_id s = Ret (si_sid si).
Proof. by intros [H _]. Qed.

Lemma find_stream_four s0 s1 s2 s3 si0 si1 si2 si3 e :
  find_stream [s0; s1; s2; s3] [si0; si1; si2; si3] 0 e = Ret (
    if is_rx s0 && jrtc_router_stream_id_matches_req (de_stream_id e) (si_sid si0) then Some 0%nat
    else if is_rx s1 && jrtc_router_stream_id_matches_req (de_stream_id e) (si_sid si1) then Some 1%nat
    else if is_rx s2 && jrtc_router_stream_id_matches_req (de_stream_id e) (si_sid si2) then Some 2%nat
    else if is_rx s3 && jrtc_router_stream_id_matches_req (de_stream_id e) (si_sid si3) then Some 3%nat else None).
Proof. cbn. repeat case_match; reflexivity. Qed.

Lemma app1_items items : Forall2 item_for AdvancedExampleC1.app_streams items ->
  exists si0 si1 si2 si3, items = [si0; si1; si2; si3] /\ item_for (app1_stream 0) si0 /\
    cfg_id (app1_stream 1) = Ret (si_sid si1) /\ cfg_id (app1_stream 3) = Ret (si_sid si3).
Proof.
  change AdvancedExampleC1.app_streams with [app1_stream 0; app1_stream 1; app1_stream 2; app1_stream 3].
  generalize (app1_stream 0) (app1_stream 1) (app1_stream 2) (app1_stream 3). intros s0 s1 s2 s3 H.
  inversion H as [|? si0 ? l0 H0 Hl0]; subst. inversion Hl0 as [|? si1 ? l1 H1 Hl1]; subst.
  inversion Hl1 as [|? si2 ? l2 H2 Hl2]; subst. inversion Hl2 as [|? si3 ? l3 H3 Hl3]; subst. inversion Hl3; subst.
  exists si0, si1, si2, si3. split; [done|]. split; [exact H0|]. split; apply item_cfg_id; assumption.
Qed.

(** The output channel of the second application is no generator of the first. *)
Lemma app2_not_generator sid si0 : cfg_id (app2_stream 1) = Ret sid -> item_for (app1_stream 0) si0 ->
  jrtc_router_stream_id_matches_req sid (si_sid si0) = true -> False.
Proof.
  intros Hsid H0 Hm. destruct (cfg_id_total (app1_stream 1)) as (s1 & E1 & _), (cfg_id_total (app1_stream 3)) as (s3 & E3 & _).
  destruct (streams_apart sid (si_sid si0) s1 s3 Hsid (item_cfg_id _ _ H0) E1 E3) as (T1 & _). congruence.
Qed.

(** How the first application sorts its entries: numbers of the generator, from
    any device and for any destination, what comes from the second application's
    output channel, and what comes through its own input channel. *)
Lemma app1_dispatch items e : Forall2 item_for AdvancedExampleC1.app_streams items ->
  (forall fd dv, generated_id (true, true) (true, true) fd dv (stream_source (cfg_sid (app1_stream 0)))
     (io_map (cfg_sid (app1_stream 0))) = Ret (de_stream_id e) ->
     find_stream AdvancedExampleC1.app_streams items 0 e = Ret (Some 0%nat)) /\
  (cfg_id (app2_stream 1) = Ret (de_stream_id e) -> find_stream AdvancedExampleC1.app_streams items 0 e = Ret (Some 1%nat)) /\
  (cfg_id (app1_stream 3) = Ret (de_stream_id e) -> find_stream AdvancedExampleC1.app_streams items 0 e = Ret (Some 3%nat)).
Proof.
  intros H. destruct (cfg_id_total (app2_stream 1)) as (o & Eo & _).
  destruct (app1_items items H) as (si0 & si1 & si2 & si3 & -> & H0 & E1 & E3). pose proof (item_cfg_id _ _ H0) as E0.
  destruct (streams_apart o (si_sid si0) (si_sid si1) (si_sid si3) Eo E0 E1 E3) as (T1 & T2 & T3 & T4 & T5).
  change AdvancedExampleC1.app_streams with [app1_stream 0; app1_stream 1; app1_stream 2; app1_stream 3].
  rewrite find_stream_four. change (is_rx (app1_stream 0)) with true. change (is_rx (app1_stream 1)) with true.
  change (is_rx (app1_stream 2)) with false. change (is_rx (app1_stream 3)) with true. cbn [andb]. split_and!.
  - intros fd dv Hg.
    destruct (item_selects (app1_stream 0) si0 fd dv (stream_source (cfg_sid (app1_stream 0))) (io_map (cfg_sid (app1_stream 0)))
      (de_stream_id e) H0 (or_intror eq_refl) (or_intror eq_refl) (or_introl eq_refl) (or_introl eq_refl) Hg) as (_ & _ & ->).
    reflexivity.
  - rewrite Eo. intros [= <-]. rewrite T1, T2. reflexivity.
  - rewrite E3. intros [= <-]. rewrite T3, T4, T5. reflexivity.
Qed.
End Pair.

(** ** Through the router, and directly *)

Section Compose.
Context {cs : CharSign}.
Context {B It T C R M S : Type}.
Context `{HB : CkBitmap B It} `{HT : CkHt T nat} `{HC : CkPtrHt C} `{HR : CkRing R} `{HM : Mempool M} `{HS : JbpfIo S}.
Context `{LB : !CkBitmapLaws B It} `{LT : !CkHtLaws T nat} `{LC : !CkPtrHtLaws C} `{LR : !CkRingLaws R} `{LM : !MempoolLaws M}.
Context `{LS : !JbpfIoLaws S}.

Abbreviation router := (jrtc_router_ctx B T C R M).
Abbreviation dapp := (dapp_router_ctx C R M).

(** The handler of the first application on a number of the second. *)
Lemma app1_prints items env e st v i fmt : is_i32 v = true -> ce_mem env (de_data e) = le32 v ->
  (i = 1%nat /\ fmt = AdvancedExampleC1.FROM_OUTPUT) \/ (i = 3%nat /\ fmt = AdvancedExampleC1.FROM_INPUT) ->
  AdvancedExampleC1.app_handler items env false (Z.of_nat i) (Some e) st = Ret (st, [Printed fmt v]).
Proof.
  intros Hv Hm [[-> ->]|[-> ->]]; unfold AdvancedExampleC1.app_handler.
  - change (Z.of_nat 1 =? AdvancedExampleC1.GENERATOR_OUT_SIDX) with false. change (Z.of_nat 1 =? AdvancedExampleC1.APP2_OUT_SIDX) with true.
    cbn [entry_data mbind outcome_bind]. rewrite Hm, <- (app_nil_r (le32 v)), ld_le32 by done. done.
  - change (Z.of_nat 3 =? AdvancedExampleC1.GENERATOR_OUT_SIDX) with false. change (Z.of_nat 3 =? AdvancedExampleC1.APP2_OUT_SIDX) with false.
    change (Z.of_nat 3 =? AdvancedExampleC1.APP1_IN_SIDX) with true.
    cbn [entry_data mbind outcome_bind]. rewrite Hm, <- (app_nil_r (le32 v)), ld_le32 by done. done.
Qed.

Lemma ret_four {A D E F} (m : outcome (A * D * E * F)) a b c d a' b' c' d' :
  m = Ret (a, b, c, d) -> m = Ret (a', b', c', d') -> a = a' /\ b = b' /\ c = c' /\ d = d'.
Proof. intros -> H. by injection H. Qed.

(** ** The input channel of an application that has one *)

(** A stream for which [Init] creates no input channel. *)
Definition no_input (s : JrtcStreamCfg_t) : bool :=
  match appChannel s with Some k => cfg_is_output k | None => true end.

Lemma create_inputs (r r' : router) env a (d : dapp) o sid res ev : dapps r !! a = Some d ->
  jrtc_router_channel_create r env (Some a) o sid = Ret (r', res, ev) ->
  exists d', dapps r' !! a = Some d' /\ (o = true -> app_in_channel_list d' = app_in_channel_list d) /\
    (o = false -> ptr_ht_values (app_in_channel_list d) = [] -> forall c, res = Some c -> ptr_ht_values (app_in_channel_list d') = [c]).
Proof.
  intros Hd. unfold jrtc_router_channel_create. destruct (malloc_channel env) as [c|]; [|intros [= <- <- _]; by exists d].
  rewrite (deref_Some _ _ _ Hd). cbn [mbind outcome_bind]. destruct (create_channel env) as [io|]; [|intros [= <- <- _]; by exists d].
  destruct (ptr_ht_set_spmc _ _ _ _) as [ok t] eqn:Et.
  assert (Hr : exists d', <[a := upd_channel_list d o t]> (dapps r) !! a = Some d' /\ d' = upd_channel_list d o t)
    by (rewrite lookup_insert_eq; by eexists).
  destruct Hr as (d' & Hd' & E'). destruct ok; intros [= <- <- _]; exists d'; (split; [exact Hd'|]); subst d'; (split; [by intros ->|]);
    [|done]. intros -> Hv c' [= <-]. cbn [upd_channel_list channel_list app_in_channel_list] in *. rewrite ptr_ht_values_spec in *.
  destruct (ptr_ht_set_ok _ _ _ _ _ Et) as (l & Hp & Hl). apply fmap_nil_inv in Hv. rewrite Hv in Hl.
  destruct Hl as [Hl|(e & _ & Hl)]; [|by apply Permutation_nil_cons in Hl]. apply Permutation_nil in Hl as ->.
  apply Permutation_singleton_r in Hp. by rewrite Hp.
Qed.

Lemma request_dapps (r r' : router) env a sid res :
  jrtc_router_channel_register_stream_id_req r env (Some a) sid = Ret (r', res) -> dapps r' = dapps r.
Proof. unfold jrtc_router_channel_register_stream_id_req. open_calls. Qed.

Lemma init_stream_inputs cfg a env s (r r' : router) new ev d : dapps r !! a = Some d ->
  init_stream cfg (Some a) env s r = Ret (r', new, true, ev) ->
  exists d' si, dapps r' !! a = Some d' /\ new = [si] /\
    (no_input s = true -> app_in_channel_list d' = app_in_channel_list d) /\
    (no_input s = false -> ptr_ht_values (app_in_channel_list d) = [] ->
     exists c, chan_ctx si = Some c /\ ptr_ht_values (app_in_channel_list d') = [c]).
Proof.
  intros Hd. unfold init_stream. destruct (Bloom.jrtc_router_generate_stream_id _ _ _ _ _ _ _) as [[res o]|]; cbn [mbind outcome_bind]; [|done].
  destruct (negb (res =? 1)); [done|]. destruct o as [sid|]; [|done].
  destruct (init_channel (Some a) env s sid r) as [[[[r1 chan] ok1] ev1]|] eqn:E1; cbn [mbind outcome_bind]; [|done].
  destruct ok1; cbn [negb]; [|done].
  assert (H1 : exists d', dapps r1 !! a = Some d' /\ (no_input s = true -> app_in_channel_list d' = app_in_channel_list d) /\
    (no_input s = false -> ptr_ht_values (app_in_channel_list d) = [] -> exists c, chan = Some c /\ ptr_ht_values (app_in_channel_list d') = [c])).
  { unfold init_channel, no_input in *. destruct (appChannel s) as [k|]; [|injection E1 as <- _ _; by exists d].
    destruct (jrtc_router_channel_create r (chan_env env) (Some a) (cfg_is_output k) sid) as [[[r2 ch] ev2]|] eqn:E2;
      cbn [mbind outcome_bind] in E1; [|done]. injection E1 as <- <- Hok _. apply bool_decide_eq_true in Hok as [c ->].
    destruct (create_inputs _ _ _ _ _ _ _ _ _ Hd E2) as (d' & Hd' & Ho & Hi). exists d'. split_and!; [done|done|]. intros Hn Hv. eauto. }
  destruct H1 as (d' & Hd' & Ho & Hi).
  destruct (init_request (Some a) env s sid r1) as [[[r2 reg] ok2]|] eqn:E2; cbn [mbind outcome_bind]; [|done].
  destruct ok2; cbn [negb]; [|done]. intros [= <- <- _ _]. exists d', (mk_item sid reg chan). cbn [chan_ctx]. split_and!; try done.
  unfold init_request in E2. destruct (is_rx s); [|by injection E2 as <- _].
  destruct (jrtc_router_channel_register_stream_id_req r1 (req_env env) (Some a) sid) as [[r3 res3]|] eqn:E3; cbn [mbind outcome_bind] in E2; [|done].
  injection E2 as <- _ _. by rewrite (request_dapps _ _ _ _ _ _ E3).
Qed.

Lemma init_streams_inputs cfg a env ss s i (r r' : router) items ev d : dapps r !! a = Some d -> ptr_ht_values (app_in_channel_list d) = [] ->
  Forall (λ s, no_input s = true) ss -> no_input s = false -> init_streams cfg (Some a) env i (ss ++ [s]) r = Ret (r', items, true, ev) ->
  exists d' si c, dapps r' !! a = Some d' /\ items !! length ss = Some si /\ chan_ctx si = Some c /\
    ptr_ht_values (app_in_channel_list d') = [c].
Proof.
  intros Hd Hv Hss Hs. revert i r d items ev Hd Hv. induction Hss as [|s0 ss H0 _ IH]; intros i r d items ev Hd Hv; cbn [app init_streams].
  - destruct (init_stream cfg (Some a) (env i) s r) as [[[[r1 new] ok] ev1]|] eqn:E1; cbn [mbind outcome_bind]; [|done].
    destruct ok; [|done]. cbn. intros [= <- <- _].
    destruct (init_stream_inputs _ _ _ _ _ _ _ _ _ Hd E1) as (d' & si & Hd' & -> & _ & Hi). destruct (Hi Hs Hv) as (c & Hc & Hval).
    by exists d', si, c.
  - destruct (init_stream cfg (Some a) (env i) s0 r) as [[[[r1 new] ok] ev1]|] eqn:E1; cbn [mbind outcome_bind]; [|done].
    destruct ok; [|done]. destruct (init_stream_inputs _ _ _ _ _ _ _ _ _ Hd E1) as (d' & si & Hd' & -> & Ho & _).
    destruct (init_streams cfg (Some a) env (i + 1) (ss ++ [s]) r1) as [[[[r2 its] ok2] ev2]|] eqn:E2; cbn [mbind outcome_bind]; [|done].
    intros [= <- <- -> _]. cbn [length app lookup list_lookup]. eapply IH; [exact Hd'|by rewrite (Ho H0)|exact E2].
Qed.

(** After [Init] the first application has one input channel, that of its last
    stream. *)
Lemma app1_inputs fuel a d env (r r1 : router) items ev : dapps r !! a = Some d -> ptr_ht_values (app_in_channel_list d) = [] ->
  Init fuel AdvancedExampleC1.app_cfg (Some a) env r = Ret (r1, items, 0, ev) ->
  exists d' si c, dapps r1 !! a = Some d' /\ items !! 3%nat = Some si /\ chan_ctx si = Some c /\ ptr_ht_values (app_in_channel_list d') = [c].
Proof.
  intros Hd Hv. unfold Init, Init_from. cbn [app].
  destruct (init_streams _ _ _ _ _ _) as [[[[r2 its] ok] ev2]|] eqn:E; cbn [mbind outcome_bind]; [|done].
  destruct ok; [|done]. destruct (wait_streams _ _ _ _ _ _ _ _) as [ok|]; cbn [mbind outcome_bind]; [|done]. intros [= <- <- _ _].
  apply (init_streams_inputs AdvancedExampleC1.app_cfg a (stream_envs env) [app1_stream 0; app1_stream 1; app1_stream 2] (app1_stream 3)
    0 r r2 its ev2 d Hd Hv); [by repeat constructor|reflexivity|exact E].
Qed.

(** Receiving with one input channel. *)
Lemma receive_input r (io : S) a d n c x : router_wf r -> dapps r !! a = Some d -> ptr_ht_values (app_in_channel_list d) = [c] ->
  channels r !! c = Some x -> (length (queue d) < n)%nat -> Z.of_nat n < 2 ^ 31 ->
  exists r' io', jrtc_router_receive r io a n = Ret (r', io', queue d ++ (mk_data_entry (ch_stream_id x) <$>
    (jbpf_io_channel_recv_data io (io_channel x) (Nat.min (n - length (queue d)) 16)).1)).
Proof.
  intros W Hd Hv Hx Hn Hmax. unfold jrtc_router_receive. rewrite (deref_Some _ _ _ Hd). cbn [mbind outcome_bind].
  destruct (wf_app _ W _ _ (wf_dapp _ W _ _ Hd)) as (_ & d0 & Hd0 & _ & Wd). simplify_eq.
  destruct (ring_loop_spec n d Wd) as (d' & -> & _ & _ & (_ & _ & Hin & _)). cbn [mbind outcome_bind]. rewrite Hin, Hv, take_ge by lia.
  cbn [channel_loop]. rewrite (proj2 (Z.ltb_lt _ _)), (deref_Some _ _ _ Hx) by lia. cbn [mbind outcome_bind].
  assert (Hk : sext 32 (u32 (Z.of_nat n - Z.of_nat (length (queue d)))) = Z.of_nat (n - length (queue d))).
  { rewrite <- Nat2Z.inj_sub by lia. apply sext32_small. lia. }
  rewrite Hk. match goal with |- context [Z.to_nat ?z] => replace (Z.to_nat z) with (Nat.min (n - length (queue d)) 16) end.
  2:{ unfold JRTC_ROUTER_DATA_BATCH_SIZE. destruct (Z.ltb_spec (Z.of_nat (n - length (queue d))) 16); lia. }
  destruct (jbpf_io_channel_recv_data io (io_channel x) _) as [ptrs io1]. cbn. rewrite app_nil_r. eauto.
Qed.

(** ** Both ways *)

(** What the IO library promises: an element that the router polls from the
    output channel, and a message that is received from the input channel, point
    to the bytes that were put in. *)
Definition polled_holds (out : list sample_out) (stream_idx : Z) (mem : Z -> list Z) (data : Z) : Prop :=
  forall bytes, SentOutput stream_idx bytes ∈ out -> mem data = bytes.
Definition received_holds (out : list sample_out) (sid : jrtc_router_stream_id) (mem : Z -> list Z) (data : Z) : Prop :=
  forall bytes, SentInput sid bytes ∈ out -> mem data = bytes.

(** The round in which the first application takes [ptr] out of its input
    channel. *)
Lemma app1_takes_input fuel a d env r n r1 items1 ev0 sid (io : S) last :
  router_wf r -> dapps r !! a = Some d -> ptr_ht_values (app_in_channel_list d) = [] ->
  allocs_fresh AdvancedExampleC1.app_cfg a (stream_envs env) 0 AdvancedExampleC1.app_streams r ->
  time_ends AdvancedExampleC1.app_cfg (poll_clock env) n -> (n < fuel)%nat ->
  Init fuel AdvancedExampleC1.app_cfg (Some a) env r = Ret (r1, items1, 0, ev0) -> Z.of_nat (length (queue d)) < 100 ->
  cfg_id (app1_stream 3) = Ret sid ->
  exists si3 c x, items1 !! 3%nat = Some si3 /\ chan_ctx si3 = Some c /\ channels r1 !! c = Some x /\ ch_stream_id x = sid /\
    forall renv io1 ptr, others renv (r1, io) = (r1, io1) ->
      ptr ∈ (jbpf_io_channel_recv_data io1 (io_channel x) (Nat.min (100 - length (queue d)) 16)).1 ->
      exists r3 io3 last' evs, run_round AdvancedExampleC1.app_cfg a items1 renv r1 io last = Ret (r3, io3, last', evs) /\
        HandlerData 3 (mk_data_entry sid ptr) ∈ evs.
Proof.
  intros Hr Hd Hv Hf He Hn Hinit Hq Hsid.
  destruct (init_whole fuel AdvancedExampleC1.app_cfg a d env r n
    (conj Hr (ex_intro _ d (conj Hd (conj eq_refl (conj eq_refl eq_refl))))) Hf He Hn)
    as (r1' & items' & rc' & ev' & E' & [(W1 & d1 & Hd1 & _ & Hq1 & _) _ _ _] & _ & [Hl _] & Hall & _ & Hok).
  destruct (ret_four _ _ _ _ _ _ _ _ _ Hinit E') as (<- & <- & <- & <-). destruct (Hok eq_refl) as [Hlen _].
  rewrite Hlen, firstn_all in Hall.
  destruct (app1_inputs fuel a d env r r1 items1 ev0 Hd Hv Hinit) as (d2 & si3 & c & Hd2 & Hsi & Hc & Hval).
  assert (d2 = d1) as -> by congruence.
  destruct (Forall2_lookup_r _ _ _ 3 si3 Hall Hsi) as (s3 & Hs3 & Hitem). assert (app1_stream 3 = s3) as <- by (by injection Hs3).
  pose proof (item_cfg_id _ _ Hitem) as Es3. assert (si_sid si3 = sid) as Esid by congruence.
  rewrite Forall_forall in Hl. destruct (Hl si3 (list_elem_of_lookup_2 _ _ _ Hsi)) as [_ Hlive].
  destruct (Hlive c Hc) as (x & Hx & _ & Hxs). exists si3, c, x. split_and!; [done|done|done|congruence|].
  intros renv io1 ptr Hoth Hptr. unfold run_round. rewrite Hoth. change (Z.to_nat (q_size AdvancedExampleC1.app_cfg)) with 100%nat.
  destruct (receive_input r1 io1 a d1 100 c x W1 Hd1 Hval Hx ltac:(rewrite Hq1; lia) ltac:(done)) as (r3 & io3 & ->). cbn [mbind outcome_bind].
  change (streams AdvancedExampleC1.app_cfg) with AdvancedExampleC1.app_streams in Hlen |- *. rewrite dispatch_facts by lia. cbn [mbind outcome_bind].
  eexists _, _, _, _. split; [reflexivity|]. apply elem_of_app. right. rewrite fmap_app, concat_app. apply elem_of_app. right.
  rewrite Hq1. apply list_elem_of_In, in_concat. exists (entry_events AdvancedExampleC1.app_streams items1 (mk_data_entry sid ptr)).
  split; [apply list_elem_of_In, list_elem_of_fmap_2|apply list_elem_of_In].
  - rewrite Hxs, Esid. by apply list_elem_of_fmap_2.
  - pose proof (proj2 (proj2 (app1_dispatch items1 (mk_data_entry sid ptr) Hall)) Hsid) as Hfs.
    rewrite find_stream_facts, drop_0 in Hfs by (rewrite Hlen; reflexivity). unfold entry_events.
    destruct (list_find _ _) as [[k y]|]; cbn in Hfs; [|done]. injection Hfs as ->. apply list_elem_of_here.
Qed.

End Compose.
