(* ===== verification/AdvancedExample1.v ===== *)
(** * advanced_example, first application, on the router's interface

    [src/sample_apps/advanced_example/advanced_example1.c]. Of the entries it
    receives it releases the right buffer only for those of the generator, and
    it withdraws only one of its two requests. *)
From S2P Require Import Prelude CData StreamId StreamIdSpec Bloom BloomFacts Ext Router RouterLookup RouterInv RouterApps RouterChannels RouterForward RouterReceive RouterInit AppApi NorthIo JrtcApp JrtcAppFacts SampleApp PlainApp FirstExample.

(** The variables that live across the loop; [data] is not initialised. *)
Record vars1 := mk_vars1 { v1_agg_cnt : Z; v1_data : option Z }.
Definition vars1_init : vars1 := mk_vars1 0 None.

Section App1.
Variables data_generator_codelet_sid app2_output_sid input_codelet_sid stream_id_app_input : jrtc_router_stream_id.

(** What one entry does before the release. *)
Definition on_entry (env : call_env) (e : jrtc_router_data_entry) (st : vars1) : outcome (vars1 * list sample_out) :=
  if jrtc_router_stream_id_matches_req (de_stream_id e) data_generator_codelet_sid then
    cnt ← ld_i32 (ce_mem env (de_data e));
    agg ← add_i32 (v1_agg_cnt st) cnt;
    let res := jrtc_router_channel_send_input_msg (ce_send env) input_codelet_sid (Some (le32 agg)) 4 in
    _ ← c_assert (res =? 0);
    Ret (mk_vars1 agg (Some (de_data e)),
         [Printed "App1: Aggregate counter from codelet is %d" agg; SentInput input_codelet_sid (le32 agg)])
  else if jrtc_router_stream_id_matches_req (de_stream_id e) app2_output_sid then
    v ← ld_i32 (ce_mem env (de_data e));
    Ret (st, [Printed "App1: Received aggregate counter %d from output channel of App2" v])
  else if jrtc_router_stream_id_matches_req (de_stream_id e) stream_id_app_input then
    v ← ld_i32 (ce_mem env (de_data e));
    Ret (st, [Printed "App1: Received aggregate counter %d from input channel of App1" v])
  else Fault Aborted.

Fixpoint entry_loop1 (env : call_env) (des : list jrtc_router_data_entry) (st : vars1) : outcome (vars1 * list sample_out) :=
  match des with
  | [] => Ret (st, [])
  | e :: des =>
      '(st, out) ← on_entry env e st;
      rel ← release (v1_data st);
      '(st, out') ← entry_loop1 env des st;
      Ret (st, out ++ rel ++ out')
  end.

Definition on_batch1 (env : call_env) (des : list jrtc_router_data_entry) (st : vars1) : outcome (vars1 * list sample_out) :=
  if (0 <? Z.of_nat (length des)) then entry_loop1 env des st else Ret (st, []).

(** ** Which buffers are released *)

Definition from_generator (e : jrtc_router_data_entry) : bool :=
  jrtc_router_stream_id_matches_req (de_stream_id e) data_generator_codelet_sid.

(** One entry: the variable is the generator's buffer or what it was. *)
Lemma on_entry_data env e st st' out : on_entry env e st = Ret (st', out) ->
  v1_data st' = (if from_generator e then Some (de_data e) else v1_data st) /\ released out = [].
Proof.
  unfold on_entry, from_generator. destruct (jrtc_router_stream_id_matches_req _ data_generator_codelet_sid).
  - destruct (ld_i32 _) as [cnt|]; cbn [mbind outcome_bind]; [|done]. destruct (add_i32 _ _) as [agg|]; cbn [mbind outcome_bind]; [|done].
    destruct (c_assert _); cbn [mbind outcome_bind]; [|done]. by intros [= <- <-].
  - destruct (jrtc_router_stream_id_matches_req _ app2_output_sid); [|destruct (jrtc_router_stream_id_matches_req _ stream_id_app_input); [|done]];
      (destruct (ld_i32 _) as [v|]; cbn [mbind outcome_bind]; [|done]; by intros [= <- <-]).
Qed.

(** One turn of the loop: the buffer that is released is the last one of the
    generator, when there has been one. *)
Lemma entry_loop1_step env e des st st' out : entry_loop1 env (e :: des) st = Ret (st', out) ->
  exists p st1 out', (if from_generator e then Some (de_data e) else v1_data st) = Some p /\ v1_data st1 = Some p /\
    entry_loop1 env des st1 = Ret (st', out') /\ released out = (if p =? 0 then [] else [p]) ++ released out'.
Proof.
  cbn [entry_loop1]. destruct (on_entry env e st) as [[st1 out1]|] eqn:E; cbn [mbind outcome_bind]; [|done].
  apply on_entry_data in E as [Hd Hr]. destruct (v1_data st1) as [p|] eqn:Ep; cbn [release mbind outcome_bind]; [|done].
  destruct (entry_loop1 env des st1) as [[st2 out2]|] eqn:E2; cbn [mbind outcome_bind]; [|done]. intros [= <- <-].
  exists p, st1, out2. split; [done|]. split; [done|]. split; [done|]. rewrite !released_out_app, Hr. cbn [app]. f_equal.
  unfold jrtc_router_channel_release_buf. by destruct (p =? 0).
Qed.

Lemma entry_loop1_released env des st st' out : Forall (λ e, de_data e <> 0) des -> v1_data st <> Some 0 ->
  entry_loop1 env des st = Ret (st', out) ->
  length (released out) = length des /\
  (forall b, b ∈ released out -> v1_data st = Some b \/ exists e, e ∈ des /\ from_generator e = true /\ de_data e = b) /\
  (Forall (λ e, from_generator e = true) des -> released out = de_data <$> des).
Proof.
  revert st out. induction des as [|e des IH]; intros st out Hnz Hst E.
  { injection E as <- <-. split_and!; [done| |done]. intros b Hb. by apply not_elem_of_nil in Hb. }
  apply Forall_cons in Hnz as [Hz Hnz]. destruct (entry_loop1_step env e des st st' out E) as (p & st1 & out1 & Hp & Hp1 & E1 & ->).
  assert (p <> 0) by (destruct (from_generator e); congruence). rewrite (proj2 (Z.eqb_neq _ _)) by done.
  destruct (IH st1 out1 Hnz ltac:(congruence) E1) as (Hlen & Hin & Hall). split_and!.
  - cbn. by rewrite Hlen.
  - intros b [->|Hb]%elem_of_cons.
    + destruct (from_generator e) eqn:Eg; [right|by left]. exists e. split; [apply list_elem_of_here|]. split; [done|congruence].
    + destruct (Hin b Hb) as [Hb'|(e' & H1 & H2 & H3)].
      * assert (p = b) as <- by congruence. destruct (from_generator e) eqn:Eg; [right|by left].
        exists e. split; [apply list_elem_of_here|]. split; [done|congruence].
      * right. exists e'. split; [by apply list_elem_of_further|done].
  - intros [Hg Hgs]%Forall_cons. cbn. rewrite (Hall Hgs). f_equal. rewrite Hg in Hp. congruence.
Qed.

(** For a batch whose buffers are all different, as they are while the
    application holds them: it releases as many times as there are entries, but
    never the buffer of an entry that is not the generator's; as soon as there is
    one such entry, some buffer is released twice; when the first entry of all is
    one, an uninitialised pointer is released. The releases are right exactly
    when every entry is the generator's. *)
Theorem advanced_example1_releases env des agg : NoDup (de_data <$> des) -> Forall (λ e, de_data e <> 0) des ->
  (forall st' out, on_batch1 env des (mk_vars1 agg None) = Ret (st', out) ->
     length (released out) = length des /\
     (forall e, e ∈ des -> from_generator e = false -> de_data e ∉ released out) /\
     (NoDup (released out) <-> Forall (λ e, from_generator e = true) des) /\
     (Forall (λ e, from_generator e = true) des -> released out = de_data <$> des)) /\
  (forall e des', des = e :: des' -> from_generator e = false -> is_Some (ce_mem env (de_data e) !! 3%nat) ->
     jrtc_router_stream_id_matches_req (de_stream_id e) app2_output_sid = true ->
     on_batch1 env des (mk_vars1 agg None) = Fault Uninitialised).
Proof.
  intros Hnd Hnz. split.
  - intros st' out E. assert (El : entry_loop1 env des (mk_vars1 agg None) = Ret (st', out)).
    { unfold on_batch1 in E. destruct des; [done|]. by rewrite (proj2 (Z.ltb_lt _ _)) in E by (cbn; lia). }
    destruct (entry_loop1_released env des (mk_vars1 agg None) st' out Hnz ltac:(discriminate) El) as (Hlen & Hin & Hall).
    assert (Hno : forall e, e ∈ des -> from_generator e = false -> de_data e ∉ released out).
    { intros e He Hg Hr. destruct (Hin _ Hr) as [?|(e' & He' & Hg' & Heq)]; [done|].
      assert (e' = e) as ->; [|congruence]. apply list_elem_of_lookup in He as [i Hi], He' as [j Hj].
      assert (i = j) as ->; [|congruence]. eapply (NoDup_lookup (de_data <$> des)); [done|by rewrite list_lookup_fmap, Hi|].
      rewrite list_lookup_fmap, Hj. cbn. by rewrite Heq. }
    split_and!; try done. split; [|intros H; by rewrite (Hall H)].
    intros Hn. apply Forall_forall. intros e He. destruct (from_generator e) eqn:Eg; [done|exfalso].
    specialize (Hno e He Eg). assert (Hsub : de_data e :: released out ⊆+ (de_data <$> des)).
    { apply NoDup_submseteq; [by apply NoDup_cons|]. intros b [->|Hb]%elem_of_cons; [by apply list_elem_of_fmap_2|].
      destruct (Hin b Hb) as [?|(e' & He' & _ & <-)]; [done|]. by apply list_elem_of_fmap_2. }
    apply submseteq_length in Hsub. cbn in Hsub. rewrite length_fmap in Hsub. lia.
  - intros e des' -> Hg [b3 Hm] Ha. unfold on_batch1. rewrite (proj2 (Z.ltb_lt _ _)) by (cbn; lia). cbn [entry_loop1].
    unfold on_entry. unfold from_generator in Hg. rewrite Hg, Ha.
    destruct (ce_mem env (de_data e)) as [|x0 [|x1 [|x2 [|x3 m]]]]; try done.
Qed.
End App1.

(** ** The whole program *)

Lemma generate_one {cs : CharSign} m fd dv p n sid : generate m fd dv p n = Ret (1, sid) ->
  generated_id (true, true) (true, true) fd dv (Some p) (Some n) = Ret sid.
Proof.
  unfold generate, generated_id. destruct (generate_stream_id_cases m.1 m.2 (mk_stream_id []) fd dv (Some p) (Some n)) as [->| ->].
  - cbn [mbind outcome_bind]. intros H. discriminate H.
  - destruct (jrtc_router_generate_stream_id _ _ _ _ _ _ _) as [[res [s|]]|]; cbn [mbind outcome_bind]; intros H; try discriminate H.
    by injection H as _ ->.
Qed.

(** Two generated ids with different devices are different. *)
Lemma ids_differ {cs : CharSign} m m' p n p' n' a b :
  generate m JRTC_ROUTER_DEST_ANY JRTC_ROUTER_DEVICE_ID_ANY p n = Ret (1, a) ->
  generate m' JRTC_ROUTER_DEST_ANY 0 p' n' = Ret (1, b) -> b <> a.
Proof.
  intros Ha%generate_one Hb%generate_one <-. unfold generated_id in *.
  destruct (generate_stream_id_facts (mk_stream_id []) JRTC_ROUTER_DEST_ANY JRTC_ROUTER_DEVICE_ID_ANY (Some p) (Some n))
    as (s1 & vp & vn & E1 & _ & D1 & _).
  destruct (generate_stream_id_facts (mk_stream_id []) JRTC_ROUTER_DEST_ANY 0 (Some p') (Some n')) as (s2 & vp' & vn' & E2 & _ & D2 & _).
  rewrite E1 in Ha. rewrite E2 in Hb. cbn [mbind outcome_bind] in Ha, Hb. injection Ha as ->. injection Hb as ->.
  rewrite D1 in D2. apply (f_equal device_id) in D2. discriminate D2.
Qed.

Section Start.
Context {cs : CharSign}.
Context {B It T C R M S : Type}.
Context `{HB : CkBitmap B It} `{HT : CkHt T nat} `{HC : CkPtrHt C} `{HR : CkRing R} `{HM : Mempool M} `{HS : JbpfIo S}.

Abbreviation router := (jrtc_router_ctx B T C R M).

(** The allocations of the four ids, of the two requests and of the channel,
    what the router finds at each poll, and the turns of the loop. *)
Record env1 := mk_env1 {
  e1_ids : nat -> (bool * bool) * (bool * bool);
  e1_reqs : nat -> request_env;
  e1_chan : channel_env;
  e1_fuel : nat;
  e1_find : nat -> jrtc_router_stream_id -> bool;
  e1_turns : list (turn B T C R M S)
}.

(** The ids, in the order in which they are generated. *)
Record ids1 := mk_ids1 { i1_generator : jrtc_router_stream_id; i1_app2 : jrtc_router_stream_id;
  i1_codelet : jrtc_router_stream_id; i1_input : jrtc_router_stream_id }.

Definition GENERATOR1_PATH : string := "AdvancedExample1://jbpf_agent/data_generator_codeletset/codelet".
Definition INTRAAPP2_PATH : string := "AdvancedExample2://intraapp".

(** Everything before the wait: an id or a request that cannot be had aborts. *)
Definition setup1 (env : env1) (ctx : nat) (r : router) : outcome (router * ids1 * list io_event) :=
  '(res, gen) ← generate (e1_ids env 0) JRTC_ROUTER_DEST_ANY JRTC_ROUTER_DEVICE_ID_ANY
                  GENERATOR1_PATH "ringbuf";
  _ ← c_assert (res =? 1);
  '(r, res) ← jrtc_router_channel_register_stream_id_req r (e1_reqs env 0) (Some ctx) gen;
  _ ← c_assert (res =? 1);
  '(res, out) ← generate (e1_ids env 1) JRTC_ROUTER_DEST_ANY 0 INTRAAPP2_PATH "buffer";
  _ ← c_assert (res =? 1);
  '(r, res) ← jrtc_router_channel_register_stream_id_req r (e1_reqs env 1) (Some ctx) out;
  _ ← c_assert (res =? 1);
  '(res, cod) ← generate (e1_ids env 2) JRTC_ROUTER_DEST_NONE 1
                  "AdvancedExample1://jbpf_agent/simple_input_pb_codeletset/codelet" "input_map";
  _ ← c_assert (res =? 1);
  '(res, inp) ← generate (e1_ids env 3) JRTC_ROUTER_DEST_NONE 0 "AdvancedExample1://intraapp" "buffer_input";
  _ ← c_assert (res =? 1);
  '(r, ctx_input, ev) ← jrtc_router_channel_create r (e1_chan env) (Some ctx) false inp;
  _ ← c_assert (bool_decide (is_Some ctx_input));
  Ret (r, mk_ids1 gen out cod inp, ev).

Definition jrtc_start_app (env : env1) (ctx : nat) (r : router) (io : S) : outcome (vars1 * list sample_out * router * S) :=
  '(r, ids, _) ← setup1 env ctx r;
  _ ← wait_channel (e1_fuel env) (e1_find env) 0 (i1_codelet ids);
  '(st, out, r, io) ← receive_loop (on_batch1 (i1_generator ids) (i1_app2 ids) (i1_codelet ids) (i1_input ids)) ctx (e1_turns env) vars1_init r io;
  r ← jrtc_router_channel_deregister_stream_id_req r (Some ctx) (i1_generator ids);
  Ret (st, out, r, io).

(** Addresses are unused when they are handed out. *)
Definition setup1_fresh (env : env1) (a : nat) (r : router) : Prop :=
  request_env_fresh r (e1_reqs env 0) /\
  forall gen r1, generate (e1_ids env 0) JRTC_ROUTER_DEST_ANY JRTC_ROUTER_DEVICE_ID_ANY GENERATOR1_PATH "ringbuf" = Ret (1, gen) ->
    jrtc_router_channel_register_stream_id_req r (e1_reqs env 0) (Some a) gen = Ret (r1, 1) ->
    request_env_fresh r1 (e1_reqs env 1) /\
    forall out r2, generate (e1_ids env 1) JRTC_ROUTER_DEST_ANY 0 INTRAAPP2_PATH "buffer" = Ret (1, out) ->
      jrtc_router_channel_register_stream_id_req r1 (e1_reqs env 1) (Some a) out = Ret (r2, 1) ->
      channel_env_fresh r2 (e1_chan env).

Context `{LB : !CkBitmapLaws B It} `{LT : !CkHtLaws T nat} `{LC : !CkPtrHtLaws C} `{LR : !CkRingLaws R} `{LM : !MempoolLaws M}.
Context `{LS : !JbpfIoLaws S}.

(** The application is registered, under [aid], and has asked for [sid]. *)
Definition holds_request (a aid : nat) (sid : jrtc_router_stream_id) (r : router) : Prop :=
  router_wf r /\ (exists d, dapps r !! a = Some d /\ app_id d = aid) /\ subscribed r aid sid = true.

Lemma receive_holds a aid sid (r : router) (io : S) n r' io' des : holds_request a aid sid r ->
  jrtc_router_receive r io a n = Ret (r', io', des) -> holds_request a aid sid r'.
Proof.
  intros (W & (d & Hd & Hi) & Hs) E.
  destruct (receive_facts r io a d n W Hd) as (r2 & io2 & des2 & E2 & (W' & _ & _ & Hrq & Hre & _ & _) & _).
  rewrite E in E2. simplify_eq. destruct (receive_lists _ _ _ _ _ _ _ _ Hd E) as (d' & Hd' & Hi' & _).
  split; [done|]. split; [by exists d'|]. by rewrite (subscribed_same r r2 Hrq Hre).
Qed.

Lemma receive_loop_holds {St} (f : call_env -> list jrtc_router_data_entry -> St -> outcome (St * list sample_out))
    a aid sid (turns : list (turn B T C R M S)) st (r : router) io st' out r' io' :
  Forall (λ t, forall r io, holds_request a aid sid r -> holds_request a aid sid (t_others t (r, io)).1) turns ->
  holds_request a aid sid r -> receive_loop f a turns st r io = Ret (st', out, r', io') -> holds_request a aid sid r'.
Proof.
  intros Ht. revert st r io out. induction Ht as [|t turns Hok _ IH]; intros st r io out Hr; cbn [receive_loop]; [by intros [= _ _ <- _]|].
  specialize (Hok r io Hr). destruct (t_others t (r, io)) as [r1 io1]. cbn [fst] in Hok.
  destruct (jrtc_router_receive r1 io1 a _) as [[[r2 io2] des]|] eqn:E; cbn [mbind outcome_bind]; [|done].
  apply (receive_holds _ _ _ _ _ _ _ _ _ Hok) in E. destruct (f _ _ _) as [[st1 out1]|]; cbn [mbind outcome_bind]; [|done].
  destruct (receive_loop f a turns st1 r2 io2) as [[[[st3 out3] r3] io3]|] eqn:E3; cbn [mbind outcome_bind]; [|done].
  intros [= -> _ -> ->]. by apply (IH _ _ _ _ E E3).
Qed.

(** Withdrawing another request does not matter. *)
Lemma withdraw_holds a aid sid sid' (r r' : router) : sid <> sid' -> holds_request a aid sid r ->
  jrtc_router_channel_deregister_stream_id_req r (Some a) sid' = Ret r' -> holds_request a aid sid r'.
Proof.
  intros Hne (W & (d & Hd & Hi) & Hs) E. destruct (deregister_req_facts r a d sid' W Hd) as (r2 & E2 & W2 & Hdd & _ & Hsub & _).
  rewrite E in E2. simplify_eq. split; [done|split; [exists d; by rewrite Hdd|]].
  rewrite (Hsub (app_id d) sid), decide_False; [done|]. intros [_ ?]. done.
Qed.

(** What the set-up leaves in place. *)
Lemma register_holds a d renv sid (r r' : router) : router_wf r -> dapps r !! a = Some d -> request_env_fresh r renv ->
  jrtc_router_channel_register_stream_id_req r renv (Some a) sid = Ret (r', 1) ->
  holds_request a (app_id d) sid r' /\ dapps r' !! a = Some d.
Proof.
  intros W Hd Hf E. destruct (register_req_facts r renv a d sid W Hf Hd) as (r2 & res & E2 & W2 & Hdd & _ & Hres).
  rewrite E in E2. simplify_eq. destruct Hres as [[_ Hs]|[? _]]; [|lia]. rewrite Hdd. split; [|done].
  split; [done|split; [exists d; by rewrite Hdd|]]. by rewrite (Hs (app_id d) sid), decide_True.
Qed.

Lemma create_holds a aid sid cenv o s (r r' : router) c ev : holds_request a aid sid r -> channel_env_fresh r cenv ->
  jrtc_router_channel_create r cenv (Some a) o s = Ret (r', c, ev) -> holds_request a aid sid r'.
Proof.
  intros (W & (d & Hd & Hi) & Hs) Hf E.
  destruct (channel_create_facts r cenv a d o s W Hf Hd) as (r2 & res & ev2 & E2 & W2 & Hsub & t & Ht & _).
  rewrite E in E2. simplify_eq. split; [done|split; [|by rewrite Hsub]].
  exists (upd_channel_list d o t). rewrite Ht, lookup_insert_eq. split; [done|]. apply upd_channel_list_facts.
Qed.

Lemma setup1_holds env a d r r1 ids ev : router_wf r -> dapps r !! a = Some d -> setup1_fresh env a r ->
  setup1 env a r = Ret (r1, ids, ev) ->
  holds_request a (app_id d) (i1_app2 ids) r1 /\
  generate (e1_ids env 0) JRTC_ROUTER_DEST_ANY JRTC_ROUTER_DEVICE_ID_ANY
    GENERATOR1_PATH "ringbuf" = Ret (1, i1_generator ids) /\
  generate (e1_ids env 1) JRTC_ROUTER_DEST_ANY 0 INTRAAPP2_PATH "buffer" = Ret (1, i1_app2 ids).
Proof.
  intros Hr Hd [Hf1 Hf2] E. unfold setup1 in E.
  repeat match type of E with
  | context [generate ?m ?f ?d ?p ?n] => destruct (generate m f d p n) as [[? ?]|] eqn:?; cbn [mbind outcome_bind] in E; [|done]
  | context [c_assert (?x =? 1)] => destruct (Z.eqb_spec x 1) as [->|]; cbn [c_assert mbind outcome_bind] in E; [|done]
  | context [jrtc_router_channel_register_stream_id_req ?r ?e ?a ?s] =>
      destruct (jrtc_router_channel_register_stream_id_req r e a s) as [[? ?]|] eqn:?; cbn [mbind outcome_bind] in E; [|done]
  | context [jrtc_router_channel_create ?r ?e ?a ?o ?s] =>
      destruct (jrtc_router_channel_create r e a o s) as [[[? ?] ?]|] eqn:?; cbn [mbind outcome_bind] in E; [|done]
  end.
  destruct (bool_decide (is_Some _)); cbn [c_assert mbind outcome_bind] in E; [|done]. injection E as <- <- <-.
  split; [|done]. cbn [i1_app2].
  match goal with
  | H1 : jrtc_router_channel_register_stream_id_req r _ _ ?gen = Ret (?ra, 1),
    H2 : jrtc_router_channel_register_stream_id_req ?ra _ _ ?out = Ret (?rb, 1),
    H3 : jrtc_router_channel_create ?rb _ _ _ _ = _ |- _ =>
      destruct (register_holds a d _ gen r ra Hr Hd Hf1 H1) as [[Hra _] Hda];
      destruct (Hf2 gen ra eq_refl H1) as [Hfa Hfb];
      destruct (register_holds a d _ out ra rb Hra Hda Hfa H2) as [Hrb _];
      exact (create_holds a (app_id d) out _ _ _ _ _ _ _ Hrb (Hfb out rb eq_refl H2) H3)
  end.
Qed.


(** The application leaves one of its requests behind. However it was run, once
    it has returned it is still asked for the output of the second application;
    so when it is unloaded and another application is registered in its place,
    that application has a request it never made. *)
Theorem advanced_example1_leaves_request env a d r (io : S) st out r' io' r1 ids ev1 :
  router_wf r -> dapps r !! a = Some d -> setup1_fresh env a r -> setup1 env a r = Ret (r1, ids, ev1) ->
  Forall (λ t, forall r io, holds_request a (app_id d) (i1_app2 ids) r ->
            holds_request a (app_id d) (i1_app2 ids) (t_others t (r, io)).1) (e1_turns env) ->
  jrtc_start_app env a r io = Ret (st, out, r', io') ->
  subscribed r' (app_id d) (i1_app2 ids) = true /\
  forall r2 ev2 renv q r3 p3 ev3, jrtc_router_deregister_app r' (Some a) = Ret (r2, ev2) ->
    0 <= q -> register_env_ok r2 renv q -> least_free_id r2 (app_id d) ->
    jrtc_router_register_app r2 renv q = Ret (r3, Some p3, ev3) ->
    exists d3, dapps r3 !! p3 = Some d3 /\ app_id d3 = app_id d /\ subscribed r3 (app_id d3) (i1_app2 ids) = true.
Proof.
  intros Hr Hd Hf Hset Ht E. destruct (setup1_holds env a d r r1 ids ev1 Hr Hd Hf Hset) as (Hr1 & Eg & Ea).
  pose proof (ids_differ _ _ _ _ _ _ _ _ Eg Ea) as Hne. unfold jrtc_start_app in E. rewrite Hset in E. cbn [mbind outcome_bind] in E.
  destruct (wait_channel _ _ _ _); cbn [mbind outcome_bind] in E; [|done].
  destruct (receive_loop _ _ _ _ _ _) as [[[[st2 out2] r2] io2]|] eqn:El; cbn [mbind outcome_bind] in E; [|done].
  apply (receive_loop_holds _ _ _ _ _ _ _ _ _ _ _ _ Ht Hr1) in El.
  destruct (jrtc_router_channel_deregister_stream_id_req r2 _ _) as [r3|] eqn:Ed; cbn [mbind outcome_bind] in E; [|done].
  injection E as -> -> -> ->. apply (withdraw_holds _ _ _ _ _ _ Hne El) in Ed as (W & (d' & Hd' & Hi) & Hs).
  split; [done|]. intros r4 ev4 renv q r5 p5 ev5 Hde Hq Hok Hfree Hre. rewrite <- Hi in Hs, Hfree |- *.
  by apply (stale_subscription r' a d' (i1_app2 ids) renv q r4 ev4 r5 p5 ev5).
Qed.
End Start.
#[global] Arguments env1 : clear implicits.
