(* ===== verification/AdvancedExample2.v ===== *)
(** * advanced_example, second application, on the router's interface

    [src/sample_apps/advanced_example/advanced_example2.c]. *)
From S2P Require Import Prelude CData StreamId StreamIdSpec Bloom BloomFacts Ext Router RouterLookup RouterInv RouterChannels RouterForward RouterReceive RouterInit AppApi NorthIo JrtcApp JrtcAppFacts SampleApp PlainApp FirstExample AdvancedExampleC2.

(** The variables that live across the loop; [data] is not initialised. *)
Record vars2 := mk_vars2 { v2_agg_cnt : Z; v2_received_counter : Z; v2_sent_counter : Z; v2_data : option Z }.
Definition vars2_init : vars2 := mk_vars2 0 0 0 None.

Section App2.
Variables codelet_stream_id stream_id_app_input : jrtc_router_stream_id.
(** [output_channel_ctx]. *)
Variable output_channel_ctx : nat.

(** What an entry of the generator does; only the result of sending to the
    output channel is checked. *)
Definition on_codelet (env : call_env) (e : jrtc_router_data_entry) (st : vars2) : outcome (vars2 * list sample_out) :=
  rc ← add_i32 (v2_received_counter st) 1;
  cnt ← ld_u32 (ce_mem env (de_data e));
  let agg := add_u32 (v2_agg_cnt st) cnt in
  counter ← jrtc_router_channel_reserve_buf (ce_reserve env) (ce_chans env) (Some output_channel_ctx);
  match counter with
  | None => Fault Aborted
  | Some elem =>
      elem ← st_32 elem agg;
      res ← jrtc_router_channel_send_output (ce_submit env) (ce_chans env) (Some output_channel_ctx);
      _ ← c_assert (res =? 0);
      sc ← add_i32 (v2_sent_counter st) 1;
      Ret (mk_vars2 agg rc sc (Some (de_data e)),
           [Printed FROM_CODELET agg; SentOutput APP2_OUT_SIDX elem; SentInput stream_id_app_input (le32 agg)])
  end.

Fixpoint entry_loop2 (env : call_env) (des : list jrtc_router_data_entry) (st : vars2) : outcome (vars2 * list sample_out) :=
  match des with
  | [] => Ret (st, [])
  | e :: des =>
      '(st, out) ← (if jrtc_router_stream_id_matches_req (de_stream_id e) codelet_stream_id then on_codelet env e st
                    else Ret (st, [Printed "App2: Got some unexpected message" 0]));
      rel ← release (v2_data st);
      '(st, out') ← entry_loop2 env des st;
      Ret (st, out ++ rel ++ out')
  end.

Definition on_batch2 (env : call_env) (des : list jrtc_router_data_entry) (st : vars2) : outcome (vars2 * list sample_out) :=
  if (0 <? Z.of_nat (length des)) then
    '(st, out) ← entry_loop2 env des st;
    Ret (st, out ++
      if (Z.rem (v2_received_counter st) 5 =? 0) && (0 <? v2_received_counter st) then [Printed SO_FAR (v2_agg_cnt st)] else [])
  else Ret (st, []).

(** ** Batches of the generator's numbers *)

(** The IO library accepts everything, and the element has the size of the
    structure. *)
Definition io_takes (env : call_env) : Prop := exists x elem, ce_chans env !! output_channel_ctx = Some x /\
  ce_reserve env (io_channel x) = Some elem /\ length elem = 4%nat /\ ce_submit env (io_channel x) = 0.

Definition entry_number (env : call_env) (e : jrtc_router_data_entry) (v : Z) : Prop :=
  jrtc_router_stream_id_matches_req (de_stream_id e) codelet_stream_id = true /\ de_data e <> 0 /\
  exists t, ce_mem env (de_data e) = le32 v ++ t.

(** What is sent for the sums, and the messages among what an application did. *)
Fixpoint messages_of (agg : Z) (vs : list Z) : list (list Z) :=
  match vs with
  | [] => []
  | v :: vs => let agg := add_u32 agg (u32 v) in [le32 agg; le32 agg] ++ messages_of agg vs
  end.

Lemma messages_of_app agg vs ws : messages_of agg (vs ++ ws) = messages_of agg vs ++ messages_of (wrapped_sum agg vs) ws.
Proof. revert agg. induction vs as [|v vs IH]; intros agg; cbn [app messages_of wrapped_sum foldl]; [done|]. cbn. by rewrite IH. Qed.
End App2.

Definition messages (out : list sample_out) : list (list Z) :=
  omap (λ o, match o with SentInput _ m | SentOutput _ m => Some m | _ => None end) out.

Lemma messages_app out out' : messages (out ++ out') = messages out ++ messages out'.
Proof. apply omap_app. Qed.

Section Facts.
Variables codelet_stream_id stream_id_app_input : jrtc_router_stream_id.
Variable output_channel_ctx : nat.

Lemma entry_loop2_facts env des vs st : io_takes output_channel_ctx env -> Forall2 (entry_number codelet_stream_id env) des vs ->
  0 <= v2_received_counter st -> v2_sent_counter st = v2_received_counter st ->
  v2_received_counter st + Z.of_nat (length vs) <= INT32_MAX ->
  exists data out, entry_loop2 codelet_stream_id stream_id_app_input output_channel_ctx env des st =
      Ret (mk_vars2 (wrapped_sum (v2_agg_cnt st) vs) (v2_received_counter st + Z.of_nat (length vs))
             (v2_received_counter st + Z.of_nat (length vs)) data, out) /\
    released out = de_data <$> des /\ messages out = messages_of (v2_agg_cnt st) vs.
Proof.
  intros (x & elem & Hx & Hr & Hel & Hsub) H. revert st. induction H as [|e v des vs (Hm & Hnz & t & Ht) _ IH]; intros [agg rc sc data] Hrc Hsc Hn;
    cbn [entry_loop2 v2_agg_cnt v2_received_counter v2_sent_counter length] in *; subst sc.
  { exists data, []. cbn. by rewrite Z.add_0_r. }
  rewrite Hm. unfold on_codelet. cbn [v2_received_counter v2_agg_cnt v2_sent_counter].
  rewrite (add_i32_ok rc) by (apply is_i32_spec; unfold INT32_MAX in *; lia). cbn [mbind outcome_bind]. rewrite Ht, ld_le32_u.
  cbn [mbind outcome_bind jrtc_router_channel_reserve_buf jrtc_router_channel_send_output]. rewrite (deref_Some _ _ _ Hx).
  cbn [mbind outcome_bind]. rewrite Hr, st_32_fits by lia. cbn [mbind outcome_bind]. rewrite Hsub. cbn [Z.eqb c_assert mbind outcome_bind v2_data release].
  unfold jrtc_router_channel_release_buf. rewrite (proj2 (Z.eqb_neq _ _)) by done. cbn [omap list_omap mbind outcome_bind].
  destruct (IH (mk_vars2 (add_u32 agg (u32 v)) (rc + 1) (rc + 1) (Some (de_data e)))) as (data' & out & -> & Hrel & Hmsg);
    cbn [v2_agg_cnt v2_received_counter v2_sent_counter] in *; [lia|done|lia|].
  cbn [mbind outcome_bind]. eexists data', _. split; [|split].
  - do 2 f_equal. cbn [wrapped_sum foldl]. f_equal; lia.
  - cbn. by rewrite <- Hrel.
  - cbn [messages_of]. rewrite <- Hmsg, drop_ge, app_nil_r by lia. done.
Qed.

Lemma on_batch2_facts env des vs st : io_takes output_channel_ctx env -> Forall2 (entry_number codelet_stream_id env) des vs ->
  0 <= v2_received_counter st -> v2_sent_counter st = v2_received_counter st ->
  v2_received_counter st + Z.of_nat (length vs) <= INT32_MAX ->
  exists data out, on_batch2 codelet_stream_id stream_id_app_input output_channel_ctx env des st =
      Ret (mk_vars2 (wrapped_sum (v2_agg_cnt st) vs) (v2_received_counter st + Z.of_nat (length vs))
             (v2_received_counter st + Z.of_nat (length vs)) data, out) /\
    released out = de_data <$> des /\ messages out = messages_of (v2_agg_cnt st) vs.
Proof.
  intros Hio H Hrc Hsc Hn. pose proof (Forall2_length _ _ _ H) as Hlen. unfold on_batch2. destruct des as [|e des].
  { destruct vs; [|done]. exists (v2_data st), []. cbn. rewrite Z.add_0_r. destruct st. cbn in *. by subst. }
  rewrite (proj2 (Z.ltb_lt _ _)) by (cbn; lia). destruct (entry_loop2_facts env (e :: des) vs st Hio H Hrc Hsc Hn) as (data & out & -> & Hr & Hm).
  cbn [mbind outcome_bind]. eexists data, _. split; [reflexivity|]. rewrite released_out_app, messages_app, Hr, Hm.
  case_match; cbn; by rewrite !app_nil_r.
Qed.

Lemma on_batches2_facts bs vss st : Forall (λ b, io_takes output_channel_ctx b.1) bs ->
  Forall2 (λ b vs, Forall2 (entry_number codelet_stream_id b.1) b.2 vs) bs vss ->
  0 <= v2_received_counter st -> v2_sent_counter st = v2_received_counter st ->
  v2_received_counter st + Z.of_nat (length (concat vss)) <= INT32_MAX ->
  exists data out, on_batches (on_batch2 codelet_stream_id stream_id_app_input output_channel_ctx) bs st =
      Ret (mk_vars2 (wrapped_sum (v2_agg_cnt st) (concat vss)) (v2_received_counter st + Z.of_nat (length (concat vss)))
             (v2_received_counter st + Z.of_nat (length (concat vss))) data, out) /\
    released out = de_data <$> concat bs.*2 /\ messages out = messages_of (v2_agg_cnt st) (concat vss).
Proof.
  intros Hio H. revert st. induction H as [|[env des] vs bs vss Hb _ IH]; intros st Hrc Hsc Hn; cbn [on_batches concat].
  { exists (v2_data st), []. cbn. rewrite Z.add_0_r. destruct st. cbn in *. by subst. }
  apply Forall_cons in Hio as [Hio1 Hio]. cbn [concat fst snd] in *. rewrite length_app in Hn.
  destruct (on_batch2_facts env des vs st Hio1 Hb Hrc Hsc) as (data & out & -> & Hr & Hm); [lia|]. cbn [mbind outcome_bind].
  destruct (IH Hio (mk_vars2 (wrapped_sum (v2_agg_cnt st) vs) (v2_received_counter st + Z.of_nat (length vs))
             (v2_received_counter st + Z.of_nat (length vs)) data)) as (data' & out' & -> & Hr' & Hm');
    cbn [v2_agg_cnt v2_received_counter v2_sent_counter] in *; [lia|done|lia|].
  cbn [mbind outcome_bind]. eexists data', _. split; [|split].
  - rewrite length_app. unfold wrapped_sum. rewrite foldl_app. do 3 f_equal; lia.
  - rewrite released_out_app, Hr, Hr'. cbn. by rewrite fmap_app.
  - by rewrite messages_app, Hm, Hm', messages_of_app.
Qed.

(** The two versions of the application on the same numbers: the counters agree
    and the messages in both directions are the same, whatever the batches; every
    buffer is released once. *)
Theorem advanced_example2_agrees bs vss items si2 l : Forall (λ b, io_takes output_channel_ctx b.1) bs ->
  Forall2 (λ b vs, Forall2 (entry_number codelet_stream_id b.1) b.2 vs) bs vss ->
  items !! 2%nat = Some si2 -> length items = 3%nat ->
  Forall (λ c, c.1.2 = 0%nat /\ io_accepts items c.1.1) l -> Forall2 call_holds l (concat vss) ->
  Z.of_nat (length (concat vss)) <= INT32_MAX ->
  exists st out st' out',
    on_batches (on_batch2 codelet_stream_id stream_id_app_input output_channel_ctx) bs vars2_init = Ret (st, out) /\
    handle_calls (app_handler items) l (mk_state 0 0) = Ret (st', out') /\
    v2_agg_cnt st = agg_cnt st' /\ v2_received_counter st = received_counter st' /\ v2_sent_counter st = v2_received_counter st /\
    messages out = messages out' /\ released out = de_data <$> concat bs.*2.
Proof.
  intros Hio Hb H2 Hlen Hl Hc Hmax.
  destruct (on_batches2_facts bs vss vars2_init Hio Hb) as (data & out & E & Hr & Hm); [done|done|done|].
  pose proof (app2_handler_fold items si2 l (concat vss) 0 0 H2 Hlen Hl Hc ltac:(lia) Hmax) as E'.
  eexists _, out, _, _. split; [exact E|]. split; [exact E'|]. split_and!; try done. rewrite Hm. cbn [v2_agg_cnt vars2_init].
  generalize 0 at 2 as rc. generalize 0 as agg. generalize (concat vss). clear. induction l as [|v vs IH]; intros agg rc; [done|].
  cbn [messages_of outputs]. rewrite messages_app, <- IH. unfold output. rewrite messages_app. by case_match.
Qed.
End Facts.

(** ** The whole program *)

Section Start.
Context {cs : CharSign}.
Context {B It T C R M S : Type}.
Context `{HB : CkBitmap B It} `{HT : CkHt T nat} `{HC : CkPtrHt C} `{HR : CkRing R} `{HM : Mempool M} `{HS : JbpfIo S}.

Abbreviation router := (jrtc_router_ctx B T C R M).

Record env2 := mk_env2 {
  e2_ids : nat -> (bool * bool) * (bool * bool);
  e2_req : request_env;
  e2_chan : channel_env;
  e2_fuel : nat;
  e2_find : nat -> jrtc_router_stream_id -> bool;
  e2_turns : list (turn B T C R M S)
}.

(** The third [assert] only asks that the result is not zero, which holds of an
    error too. *)
Definition jrtc_start_app (env : env2) (ctx : nat) (r : router) (io : S) : outcome (vars2 * list sample_out * router * S) :=
  '(res, codelet) ← generate (e2_ids env 0) JRTC_ROUTER_DEST_ANY JRTC_ROUTER_DEVICE_ID_ANY
                      "AdvancedExample2://jbpf_agent/data_generator_pb_codeletset/codelet" "ringbuf";
  _ ← c_assert (res =? 1);
  '(r, res) ← jrtc_router_channel_register_stream_id_req r (e2_req env) (Some ctx) codelet;
  _ ← c_assert (res =? 1);
  '(res, out) ← generate (e2_ids env 1) JRTC_ROUTER_DEST_NONE 0 "AdvancedExample2://intraapp" "buffer";
  _ ← c_assert (res =? 1);
  '(r, chan, _) ← jrtc_router_channel_create r (e2_chan env) (Some ctx) true out;
  match chan with
  | None => Fault Aborted
  | Some chan =>
      '(res, input) ← generate (e2_ids env 2) JRTC_ROUTER_DEST_NONE 0 "AdvancedExample1://intraapp" "buffer_input";
      _ ← c_assert (negb (res =? 0));
      _ ← wait_channel (e2_fuel env) (e2_find env) 0 input;
      '(st, out, r, io) ← receive_loop (on_batch2 codelet input chan) ctx (e2_turns env) vars2_init r io;
      r ← jrtc_router_channel_deregister_stream_id_req r (Some ctx) codelet;
      Ret (st, out, r, io)
  end.

Definition zero_id : jrtc_router_stream_id := mk_stream_id (replicate JRTC_ROUTER_STREAM_ID_BYTE_LEN 0).

Lemma generate_no_memory b mn fd dv p n : generate ((false, b), mn) fd dv p n = Ret (-1, zero_id).
Proof.
  unfold generate, jrtc_router_generate_stream_id. cbn [fst snd]. destruct (get_hash_total mn n) as [v ->].
  assert (jrtc_router_get_hash (false, b) p = Ret 0) as -> by reflexivity. reflexivity.
Qed.

(** When there is no memory to hash the path of its third id, the program goes
    on with an id of zeros, as the [assert] holds of the error code; it then waits
    for a channel nobody creates: no fuel is enough. *)
Theorem advanced_example2_waits_forever env a r (io : S) b mn codelet r1 out r2 chan ev :
  generate (e2_ids env 0) JRTC_ROUTER_DEST_ANY JRTC_ROUTER_DEVICE_ID_ANY
    "AdvancedExample2://jbpf_agent/data_generator_pb_codeletset/codelet" "ringbuf" = Ret (1, codelet) ->
  jrtc_router_channel_register_stream_id_req r (e2_req env) (Some a) codelet = Ret (r1, 1) ->
  generate (e2_ids env 1) JRTC_ROUTER_DEST_NONE 0 "AdvancedExample2://intraapp" "buffer" = Ret (1, out) ->
  jrtc_router_channel_create r1 (e2_chan env) (Some a) true out = Ret (r2, Some chan, ev) ->
  e2_ids env 2 = ((false, b), mn) -> (forall t, e2_find env t zero_id = false) ->
  forall fuel, jrtc_start_app (mk_env2 (e2_ids env) (e2_req env) (e2_chan env) fuel (e2_find env) (e2_turns env)) a r io = Fault Divergence.
Proof.
  intros E0 Er E1 Ec E2 Hn fuel. unfold jrtc_start_app. cbn [e2_ids e2_req e2_chan e2_find e2_fuel e2_turns].
  rewrite E0. cbn [mbind outcome_bind]. rewrite Er. cbn [c_assert Z.eqb Pos.eqb mbind outcome_bind].
  rewrite E1. cbn [c_assert Z.eqb Pos.eqb mbind outcome_bind]. rewrite Ec. cbn [mbind outcome_bind].
  rewrite E2, (generate_no_memory b mn). cbn [mbind outcome_bind Z.eqb negb c_assert].
  by rewrite wait_channel_forever.
Qed.
End Start.
#[global] Arguments env2 : clear implicits.
