(* ===== verification/SimpleAgent.v ===== *)
(** * The program that runs the codelets

    [simple_agent_ipc.c] of the sample applications: it starts jbpf, calls a
    hook once a second, and ends when a signal arrives. The same file lies
    beside each sample application; the one of [sample_apps/advanced_example]
    is modelled, the others differ in comments only. The program and the
    handlers it is interrupted by are threads of small steps: a signal can
    arrive between any two of them, a handler can itself be interrupted by the
    other signal, and jbpf may have threads that take signals as well. *)
From stdpp Require Import relations.
From S2P Require Import Prelude Logging Config Agent CData.
From Stdlib Require Import Ascii.


Record packet := mk_packet { counter_a : Z; counter_b : Z }.

(** [struct jbpf_generic_ctx] as [HOOK_ASSIGN] fills it for a packet at the
    address [p]; the packet takes eight bytes. *)
Record hook_ctx := mk_hook_ctx { data : Z; data_end : Z; hc_ctx_id : Z }.

Definition HOOK_ASSIGN (p ctx_id : Z) : hook_ctx := mk_hook_ctx p (u64 (p + 8)) ctx_id.

(** The part of [struct jbpf_config] that [main] sets. *)
Record jbpf_config := mk_jbpf_config {
  io_type : Z;
  ipc_mem_size : Z;
  cfg_ipc_name : list ascii;
  has_lcm_ipc_thread : bool;
  lcm_ipc_name : list ascii
}.

Inductive signal := SIGINT | SIGTERM.

#[global] Instance signal_eq_dec : EqDecision signal.
Proof. solve_decision. Defined.

Inductive agent_event :=
| JbpfInit (c : jbpf_config)
| JbpfRegister
| Hook (ctx : hook_ctx) (p : packet)
| JbpfCleanup
| JbpfStop.

(** How a process ends: [exit], or the default action of a signal. *)
Inductive ended := Exited (code : Z) | Killed (s : signal).

(** The next step of [main], and of [sig_handler]. *)
Inductive main_pc := M_sigint | M_sigterm | M_config | M_init (c : jbpf_config) | M_register | M_loop (p : packet).

Inductive handler_pc := H_test | H_set | H_cleanup | H_stop | H_exit.

Record frame := mk_frame { signo : signal; hpc : handler_pc }.

(** The process. [stacks] holds, for each thread, the handlers that interrupt
    it, the running one first; thread 0 is that of [main]. *)
Record process := mk_process {
  pc : main_pc;
  sig_handler_called : bool;
  handled : list signal;
  stacks : list (list frame);
  events : list agent_event;
  status : option ended
}.

(** What the calls return: whether [signal] succeeds, the options
    [jbpf_set_default_config_options] leaves, what [jbpf_init] returns, and the
    address of the packet. *)
Record agent_env := mk_agent_env {
  signal_ok : signal -> bool;
  default_config : jbpf_config;
  jbpf_init_ret : jbpf_config -> Z;
  packet_addr : Z
}.

Section Program.
Variables JBPF_IO_IPC_CONFIG JBPF_HUGEPAGE_SIZE_1GB : Z.
Variables JBPF_IO_IPC_MAX_NAMELEN LCM_IPC_NAME_LEN : nat.
Variable JBPF_DEFAULT_LCM_SOCKET : list ascii.
(** The threads of jbpf that can take a signal. *)
Variable workers : nat.
Variable env : agent_env.

Definition ipc_name_of_agent : list ascii := chars "jrt_controller".

(** [snprintf] writes the characters that fit and a NUL; the rest of the array
    is kept. *)
Definition snprintf_into (buf : list ascii) (n : nat) (s : list ascii) : list ascii :=
  let t := snprintf n s ++ [NUL] in t ++ drop (length t) buf.

Definition configure (c : jbpf_config) : outcome jbpf_config :=
  name ← strncpy (cfg_ipc_name c) ipc_name_of_agent JBPF_IO_IPC_MAX_NAMELEN;
  Ret (mk_jbpf_config JBPF_IO_IPC_CONFIG JBPF_HUGEPAGE_SIZE_1GB name true
         (snprintf_into (lcm_ipc_name c) (LCM_IPC_NAME_LEN - 1) JBPF_DEFAULT_LCM_SOCKET)).

Definition at_pc (st : process) (p : main_pc) : process :=
  mk_process p (sig_handler_called st) (handled st) (stacks st) (events st) (status st).

Definition emit (st : process) (e : agent_event) : process :=
  mk_process (pc st) (sig_handler_called st) (handled st) (stacks st) (events st ++ [e]) (status st).

Definition exit_ (st : process) (code : Z) : process :=
  mk_process (pc st) (sig_handler_called st) (handled st) (stacks st) (events st) (Some (Exited code)).

Definition set_stack (st : process) (t : nat) (fs : list frame) : process :=
  mk_process (pc st) (sig_handler_called st) (handled st) (<[t := fs]> (stacks st)) (events st) (status st).

Definition set_called (st : process) : process :=
  mk_process (pc st) true (handled st) (stacks st) (events st) (status st).

(** One call of [handle_signal]: [signal(s, sig_handler)]; on an error
    [handle_signal] returns 0, and [main] ends. *)
Definition install (st : process) (s : signal) (next : main_pc) : process :=
  if signal_ok env s then
    mk_process next (sig_handler_called st) (s :: handled st) (stacks st) (events st) (status st)
  else exit_ st 1.

(** One step of [main]; the loop has no end. *)
Definition main_step (st : process) : outcome process :=
  match pc st with
  | M_sigint => Ret (install st SIGINT M_sigterm)
  | M_sigterm => Ret (install st SIGTERM M_config)
  | M_config => c ← configure (default_config env); Ret (at_pc st (M_init c))
  | M_init c =>
      if jbpf_init_ret env c <? 0 then Ret (exit_ (emit st (JbpfInit c)) 1)
      else Ret (at_pc (emit st (JbpfInit c)) M_register)
  | M_register => Ret (at_pc (emit st JbpfRegister) (M_loop (mk_packet 1 2)))
  | M_loop p => Ret (at_pc (emit st (Hook (HOOK_ASSIGN (packet_addr env) 1) p)) (M_loop p))
  end.

(** One step of [sig_handler] in the thread [t]; [rest] are the handlers below
    it. *)
Definition sig_handler (st : process) (t : nat) (f : frame) (rest : list frame) : process :=
  let to p := set_stack st t (mk_frame (signo f) p :: rest) in
  match hpc f with
  | H_test => if sig_handler_called st then set_stack st t rest else to H_set
  | H_set => set_called (to H_cleanup)
  | H_cleanup => emit (to H_stop) JbpfCleanup
  | H_stop => emit (to H_exit) JbpfStop
  | H_exit => exit_ st 0
  end.

(** A signal interrupts a thread unless that thread is handling it already;
    without a handler it ends the process. Threads other than that of [main]
    exist once jbpf is initialised. *)
Definition deliver (st : process) (t : nat) (fs : list frame) (s : signal) : process :=
  if decide (s ∈ handled st) then set_stack st t (mk_frame s H_test :: fs)
  else mk_process (pc st) (sig_handler_called st) (handled st) (stacks st) (events st) (Some (Killed s)).

Definition thread_exists (st : process) (t : nat) : Prop :=
  t = O \/ match pc st with M_register | M_loop _ => True | _ => False end.

Definition main_start : process := mk_process M_sigint false [] (replicate (S workers) []) [] None.

Inductive agent_step : process -> process -> Prop :=
| step_main st st' : status st = None -> stacks st !! O = Some [] -> main_step st = Ret st' -> agent_step st st'
| step_handler st t f rest : status st = None -> stacks st !! t = Some (f :: rest) -> agent_step st (sig_handler st t f rest)
| step_signal st t fs s : status st = None -> stacks st !! t = Some fs -> thread_exists st t -> s ∉ (signo <$> fs) ->
    agent_step st (deliver st t fs s).

Definition agent_reachable : process -> Prop := rtc agent_step main_start.

(** ** Handlers *)

(** Before the flag is set, and after; what a handler has done so far. *)
Definition early (f : frame) : Prop := hpc f = H_test \/ hpc f = H_set.
Definition late (f : frame) : Prop := hpc f = H_cleanup \/ hpc f = H_stop \/ hpc f = H_exit.
Definition done_by (f : frame) : list agent_event :=
  match hpc f with H_stop => [JbpfCleanup] | H_exit => [JbpfCleanup; JbpfStop] | _ => [] end.

Definition the_hook : agent_event := Hook (HOOK_ASSIGN (packet_addr env) 1) (mk_packet 1 2).

(** What [main] has done. *)
Inductive main_did : list agent_event -> Prop :=
| did_nothing : main_did []
| did_init c : configure (default_config env) = Ret c -> main_did [JbpfInit c]
| did_loop c n : configure (default_config env) = Ret c -> 0 <= jbpf_init_ret env c ->
    main_did (JbpfInit c :: JbpfRegister :: replicate n the_hook).

(** What it has done when it is at [p]. *)
Inductive main_at : main_pc -> list signal -> list agent_event -> Prop :=
| at_sigint : main_at M_sigint [] []
| at_sigterm : main_at M_sigterm [SIGINT] []
| at_config : main_at M_config [SIGTERM; SIGINT] []
| at_init c : configure (default_config env) = Ret c -> main_at (M_init c) [SIGTERM; SIGINT] []
| at_register c : configure (default_config env) = Ret c -> 0 <= jbpf_init_ret env c ->
    main_at M_register [SIGTERM; SIGINT] [JbpfInit c]
| at_loop c n : configure (default_config env) = Ret c -> 0 <= jbpf_init_ret env c ->
    main_at (M_loop (mk_packet 1 2)) [SIGTERM; SIGINT] (JbpfInit c :: JbpfRegister :: replicate n the_hook).

Lemma main_at_did p hs ev : main_at p hs ev -> main_did ev.
Proof. intros []; try (by constructor); econstructor; eauto. Qed.

(** ** One thread

    The handlers of the only thread: before the flag is set all are early;
    afterwards one is late, those that interrupt it have just begun, and those
    below it wait. *)
Inductive handlers : bool -> list frame -> list agent_event -> Prop :=
| handlers_early fs : Forall early fs -> handlers false fs []
| handlers_late ts f fs : Forall (fun g => hpc g = H_test) ts -> late f -> Forall early fs ->
    handlers true (ts ++ f :: fs) (done_by f).

Inductive ended_after : list signal -> list agent_event -> ended -> Prop :=
| after_exit hs ev : main_did ev -> ended_after hs (ev ++ [JbpfCleanup; JbpfStop]) (Exited 0)
| after_signal_error hs s : signal_ok env s = false -> ended_after hs [] (Exited 1)
| after_init_error hs c : configure (default_config env) = Ret c -> jbpf_init_ret env c < 0 ->
    ended_after hs [JbpfInit c] (Exited 1)
| after_kill hs s f : s ∉ hs -> ended_after hs (done_by f) (Killed s).

Inductive agent_inv : process -> Prop :=
| inv_running p called hs fs ev ev' : main_at p hs ev -> handlers called fs ev' ->
    agent_inv (mk_process p called hs [fs] (ev ++ ev') None)
| inv_ended p called hs ss ev e : ended_after hs ev e -> agent_inv (mk_process p called hs ss ev (Some e)).

Lemma handlers_nil_inv called ev : handlers called [] ev -> called = false /\ ev = [].
Proof. inversion 1; [done|]. by destruct ts. Qed.

Lemma main_step_inv st st' : agent_inv st -> status st = None -> stacks st !! O = Some [] -> main_step st = Ret st' -> agent_inv st'.
Proof.
  intros [p called hs fs ev ev' Ha Hh|] Hs Hk; [|discriminate Hs]. cbn in Hk. injection Hk as ->.
  apply handlers_nil_inv in Hh as [-> ->]. rewrite app_nil_r. clear Hs.
  assert (H0 : handlers false [] []) by (by constructor).
  assert (Hrun : forall q hs' ev', main_at q hs' ev' -> agent_inv (mk_process q false hs' [[]] ev' None)).
  { intros q hs' ev' Hq. rewrite <- (app_nil_r ev'). by constructor. }
  destruct Ha as [| | |c Hc|c Hc Hi|c n Hc Hi]; unfold main_step, install; cbn.
  - destruct (signal_ok env SIGINT) eqn:E; intros [= <-]; [apply Hrun; constructor|constructor; by econstructor].
  - destruct (signal_ok env SIGTERM) eqn:E; intros [= <-]; [apply Hrun; constructor|constructor; by econstructor].
  - intros (c & Hc & [= <-])%bind_ret_inv. apply Hrun. by constructor.
  - destruct (Z.ltb_spec (jbpf_init_ret env c) 0); intros [= <-]; [constructor; by constructor|apply Hrun; by constructor].
  - intros [= <-]. apply Hrun. by apply (at_loop c 0).
  - intros [= <-]. unfold at_pc, emit. cbn. fold the_hook. rewrite <- replicate_cons_app. apply Hrun. by apply (at_loop c (S n)).
Qed.

Lemma handler_step_inv st t f rest :
  agent_inv st -> status st = None -> stacks st !! t = Some (f :: rest) -> agent_inv (sig_handler st t f rest).
Proof.
  intros [p called hs fs ev ev' Ha Hh|] Hs Hk; [|discriminate Hs]. clear Hs.
  destruct t as [|t]; [|discriminate Hk]. cbn in Hk. injection Hk as ->. destruct f as [s q]. unfold sig_handler. cbn.
  remember (mk_frame s q :: rest) as fs eqn:Efs. destruct Hh as [fs Hf|ts f fs Ht Hl Hf].
  - subst fs. apply Forall_cons in Hf as [[E|E] Hf]; cbn in E; subst q; unfold set_stack, set_called; cbn; constructor; try done.
    + constructor. constructor; [by right|done].
    + apply (handlers_late [] (mk_frame s H_cleanup)); [done|by left|done].
  - destruct ts as [|g ts]; cbn in Efs; [injection Efs as -> ->|injection Efs as -> <-].
    + unfold emit, set_stack, exit_. cbn.
      destruct Hl as [E|[E|E]]; cbn in E; subst q; cbn; rewrite <- ?app_assoc; cbn.
      * constructor; [done|]. apply (handlers_late [] (mk_frame s H_stop)); [done|right; by left|done].
      * constructor; [done|]. apply (handlers_late [] (mk_frame s H_exit)); [done|right; by right|done].
      * constructor. constructor. by eapply main_at_did.
    + apply Forall_cons in Ht as [E Ht]. cbn in E. subst q. unfold set_stack. cbn. constructor; [done|]. by constructor.
Qed.

Lemma signal_step_inv st t fs s : agent_inv st -> status st = None -> stacks st !! t = Some fs -> agent_inv (deliver st t fs s).
Proof.
  intros [p called hs fs' ev ev' Ha Hh|] Hs Hk; [|discriminate Hs]. clear Hs.
  destruct t as [|t]; [|discriminate Hk]. cbn in Hk. injection Hk as ->. unfold deliver, set_stack. cbn.
  destruct (decide (s ∈ hs)) as [Hin|Hn].
  - constructor; [done|]. destruct Hh as [fs Hf|ts f fs Ht Hl Hf].
    + constructor. constructor; [by left|done].
    + apply (handlers_late (mk_frame s H_test :: ts)); [by constructor|done..].
  - constructor. assert (ev = []) as -> by (destruct Ha; first [done|by destruct Hn; destruct s; repeat constructor]).
    destruct Hh as [fs Hf|ts f fs Ht Hl Hf]; [|by constructor]. by apply (after_kill hs s (mk_frame s H_test)).
Qed.

Lemma agent_reachable_inv st : workers = O -> agent_reachable st -> agent_inv st.
Proof.
  intros one_thread. unfold agent_reachable, main_start. rewrite one_thread.
  revert st. apply rtc_ind_r.
  - cbn. apply (inv_running M_sigint false [] [] [] []); by constructor.
  - intros a b _ Hab IH. destruct Hab; eauto using main_step_inv, handler_step_inv, signal_step_inv.
Qed.

(** Runs the handlers of the thread of [main] for [n] steps. *)
Fixpoint run_handlers (n : nat) (st : process) : process :=
  match n with
  | O => st
  | S n =>
      match status st, stacks st with
      | None, (f :: rest) :: _ => run_handlers n (sig_handler st O f rest)
      | _, _ => st
      end
  end.

Lemma run_handlers_steps n st : rtc agent_step st (run_handlers n st).
Proof.
  revert st. induction n as [|n IH]; intros st; [done|]. cbn [run_handlers].
  destruct (status st) eqn:Es; [done|]. destruct (stacks st) as [|[|f rest] ss] eqn:Ek; [done..|].
  eapply rtc_l, IH. constructor; [done|by rewrite Ek].
Qed.

(** The first handler that passes its test ends the process: [n] steps for a
    late one, five for one at its beginning. *)
Lemma late_ends p hs f fs ev : late f ->
  status (run_handlers 3 (mk_process p true hs [f :: fs] ev None)) = Some (Exited 0).
Proof. destruct f as [s q]. by intros [E|[E|E]]; cbn in E; subst q. Qed.

Lemma early_ends p hs f fs ev : early f ->
  status (run_handlers 5 (mk_process p false hs [f :: fs] ev None)) = Some (Exited 0).
Proof. destruct f as [s q]. by intros [E|E]; cbn in E; subst q. Qed.

Lemma tests_return ts k p hs fs ev : Forall (fun g => hpc g = H_test) ts ->
  run_handlers (length ts + k) (mk_process p true hs [ts ++ fs] ev None) = run_handlers k (mk_process p true hs [fs] ev None).
Proof. induction 1 as [|[s q] ts Eq _ IH]; [done|]. cbn in Eq. subst q. exact IH. Qed.

Hypothesis name_array : length (cfg_ipc_name (default_config env)) = JBPF_IO_IPC_MAX_NAMELEN.

Lemma configure_ok : exists c, configure (default_config env) = Ret c /\ has_lcm_ipc_thread c = true /\
  ((length ipc_name_of_agent < JBPF_IO_IPC_MAX_NAMELEN)%nat -> cstr (cfg_ipc_name c) = ipc_name_of_agent).
Proof.
  unfold configure, strncpy. rewrite decide_True by lia. cbn [mbind outcome_bind].
  eexists. split; [reflexivity|]. split; [done|]. intros Hl. cbn [cfg_ipc_name].
  rewrite take_app_ge, take_replicate, (drop_ge (cfg_ipc_name _)), app_nil_r by lia.
  replace (_ `min` _)%nat with (S (JBPF_IO_IPC_MAX_NAMELEN - length ipc_name_of_agent - 1)) by lia.
  apply cstr_app_nul. apply (bool_decide_unpack _). vm_compute. done.
Qed.

Lemma handlers_done called fs ev : handlers called fs ev -> exists k, ev = take k [JbpfCleanup; JbpfStop].
Proof.
  intros [fs' _|ts f fs' _ Hl _]; [by exists O|]. unfold done_by.
  destruct Hl as [E|[E|E]]; rewrite E; [by exists O|by exists 1%nat|by exists 2%nat].
Qed.

Lemma ended_after_did hs ev e : ended_after hs ev e -> exists ev0 k, main_did ev0 /\ ev = ev0 ++ take k [JbpfCleanup; JbpfStop].
Proof.
  intros [h ev0 H|h s _|h c Hc _|h s f _]; [exists ev0, 2%nat|exists [], O|exists [JbpfInit c], O|].
  - done.
  - split; [constructor|done].
  - split; [by constructor|done].
  - exists []. destruct f as [s' []]; cbn; [exists O|exists O|exists O|exists 1%nat|exists 2%nat]; (split; [constructor|done]).
Qed.

(** ** Any number of threads *)

(** What [main] does, what the handlers do, and how often. *)
Definition is_cleanup (e : agent_event) : bool := match e with JbpfCleanup => true | _ => false end.
Definition is_stop (e : agent_event) : bool := match e with JbpfStop => true | _ => false end.
Definition of_main (e : agent_event) : bool := negb (is_cleanup e || is_stop e).
Definition main_part (ev : list agent_event) : list agent_event := List.filter of_main ev.
#[local] Arguments main_part : simpl never.
Definition tally (q : agent_event -> bool) (ev : list agent_event) : nat := sum_list_with (fun e => Nat.b2n (q e)) ev.
#[local] Arguments tally : simpl never.

(** The clean-ups and stops done by the handlers of a thread. *)
Definition cleanups_of (fs : list frame) : nat :=
  sum_list_with (fun f => match hpc f with H_stop | H_exit => 1 | _ => 0 end)%nat fs.
Definition stops_of (fs : list frame) : nat := sum_list_with (fun f => match hpc f with H_exit => 1 | _ => 0 end)%nat fs.

(** The handlers of a thread: all early, or one late with those that interrupt
    it just begun and those below it early. *)
Inductive thread_ok : list frame -> Prop :=
| all_early fs : Forall early fs -> thread_ok fs
| one_late ts f fs : Forall (fun g => hpc g = H_test) ts -> late f -> Forall early fs -> thread_ok (ts ++ f :: fs).

Record agent_wf (st : process) : Prop := {
  aw_threads : length (stacks st) = S workers;
  aw_main : main_at (pc st) (handled st) (main_part (events st));
  aw_stack : Forall thread_ok (stacks st);
  aw_called : sig_handler_called st = false -> Forall (Forall early) (stacks st);
  aw_cleanups : tally is_cleanup (events st) = sum_list_with cleanups_of (stacks st);
  aw_stops : tally is_stop (events st) = sum_list_with stops_of (stacks st)
}.

(** Why a process has ended. *)
Definition ended_because (st : process) (e : ended) : Prop :=
  match e with
  | Exited c => (c = 0 /\ (1 <= tally is_stop (events st))%nat) \/
      (c = 1 /\ ((exists s, signal_ok env s = false) \/
                 exists c, configure (default_config env) = Ret c /\ jbpf_init_ret env c < 0))
  | Killed s => s ∉ handled st
  end.

Record agent_over (st : process) (e : ended) : Prop := {
  ao_main : main_did (main_part (events st));
  ao_cleanups : (tally is_cleanup (events st) <= S workers)%nat;
  ao_stops : (tally is_stop (events st) <= tally is_cleanup (events st))%nat;
  ao_why : ended_because st e
}.

Lemma tally_app q ev ev' : tally q (ev ++ ev') = (tally q ev + tally q ev')%nat.
Proof. apply sum_list_with_app. Qed.

Lemma main_part_app ev ev' : main_part (ev ++ ev') = main_part ev ++ main_part ev'.
Proof. apply List.filter_app. Qed.

Lemma sum_insert {A} (g : A -> nat) (l : list A) t x y : l !! t = Some x ->
  (sum_list_with g (<[t := y]> l) + g x = sum_list_with g l + g y)%nat.
Proof.
  intros H. revert t H. induction l as [|z l IH]; intros [|t] H; [done..|injection H as ->; cbn; lia|].
  change (g z + sum_list_with g (<[t := y]> l) + g x = g z + sum_list_with g l + g y)%nat. specialize (IH t H). lia.
Qed.

Lemma early_counts fs : Forall early fs -> cleanups_of fs = O /\ stops_of fs = O.
Proof.
  unfold cleanups_of, stops_of. induction 1 as [|f fs [E|E] _ [IH1 IH2]]; [done|..]; cbn; rewrite E, IH1, IH2; done.
Qed.

Lemma tests_early ts : Forall (fun g => hpc g = H_test) ts -> Forall early ts.
Proof. intros H. eapply Forall_impl; [exact H|]. by left. Qed.

Lemma late_counts ts f fs : Forall (fun g => hpc g = H_test) ts -> Forall early fs ->
  cleanups_of (ts ++ f :: fs) = cleanups_of [f] /\ stops_of (ts ++ f :: fs) = stops_of [f].
Proof.
  intros H1%tests_early%early_counts H2%early_counts. unfold cleanups_of, stops_of in *.
  rewrite !sum_list_with_app. cbn. lia.
Qed.

Lemma thread_counts fs : thread_ok fs -> (stops_of fs <= cleanups_of fs <= 1)%nat.
Proof.
  intros [fs' H|ts f fs' H1 Hl H2]; [destruct (early_counts _ H) as [-> ->]; lia|].
  destruct (late_counts ts f fs' H1 H2) as [-> ->]. unfold cleanups_of, stops_of. cbn. destruct (hpc f); lia.
Qed.

Lemma threads_counts l : Forall thread_ok l ->
  (sum_list_with stops_of l <= sum_list_with cleanups_of l)%nat /\ (sum_list_with cleanups_of l <= length l)%nat.
Proof. induction 1 as [|fs l H _ [IH1 IH2]]; cbn; [lia|]. pose proof (thread_counts fs H). lia. Qed.

(** A step that ends the process without an event of a handler. *)
Lemma wf_over st e ev : agent_wf st -> main_did (main_part (events st ++ ev)) -> Forall (fun x => of_main x = true) ev ->
  ended_because (mk_process (pc st) (sig_handler_called st) (handled st) (stacks st) (events st ++ ev) (Some e)) e ->
  agent_over (mk_process (pc st) (sig_handler_called st) (handled st) (stacks st) (events st ++ ev) (Some e)) e.
Proof.
  intros W Hd Hev Hw. destruct (threads_counts _ (aw_stack _ W)) as [H1 H2].
  assert (H0 : tally is_cleanup ev = O /\ tally is_stop ev = O).
  { clear -Hev. unfold tally. induction Hev as [|x ev Hx _ [IH1 IH2]]; [done|]. cbn. rewrite IH1, IH2. by destruct x. }
  destruct H0 as [E1 E2]. constructor; cbn [events]; try done; rewrite !tally_app, E1, ?E2, (aw_cleanups _ W), ?(aw_stops _ W), ?(aw_threads _ W) in *; lia.
Qed.

(** [main] at one place and at the next, with what it does between. *)
Lemma main_moves st st' : main_at (pc st) (handled st) (main_part (events st)) -> status st = None -> main_step st = Ret st' ->
  exists ev, events st' = events st ++ ev /\ Forall (fun x => of_main x = true) ev /\ stacks st' = stacks st /\
    sig_handler_called st' = sig_handler_called st /\
    match status st' with
    | None => main_at (pc st') (handled st') (main_part (events st'))
    | Some e => pc st' = pc st /\ handled st' = handled st /\ main_did (main_part (events st')) /\ ended_because st' e
    end.
Proof.
  intros Ha Hs. unfold main_step, install. pose proof (main_at_did _ _ _ Ha) as Hd0.
  remember (main_part (events st)) as mp eqn:Emp. destruct st as [p called hs ss ev0 stt]. cbn in Ha, Hs, Hd0, Emp |- *. subst stt.
  assert (Hev : forall x, of_main x = true -> main_part (ev0 ++ [x]) = mp ++ [x]).
  { intros x Hx. rewrite main_part_app, Emp. unfold main_part at 2. cbn. by rewrite Hx. }
  destruct Ha as [| | |c Hc|c Hc Hi|c n Hc Hi]; cbn.
  - destruct (signal_ok env SIGINT) eqn:E; intros [= <-]; exists []; cbn; rewrite app_nil_r, <- Emp; split_and!; try done; [constructor|].
    right. split; [done|]. left. eauto.
  - destruct (signal_ok env SIGTERM) eqn:E; intros [= <-]; exists []; cbn; rewrite app_nil_r, <- Emp; split_and!; try done; [constructor|].
    right. split; [done|]. left. eauto.
  - intros (c & Hc & [= <-])%bind_ret_inv. exists []. cbn. rewrite app_nil_r, <- Emp. split_and!; try done. by constructor.
  - destruct (Z.ltb_spec (jbpf_init_ret env c) 0) as [Hlt|Hge]; intros [= <-]; exists [JbpfInit c]; cbn; rewrite Hev by done;
      split_and!; try done; try (by constructor); try (by repeat constructor).
    right. split; [done|]. right. eauto.
  - intros [= <-]. exists [JbpfRegister]. cbn. rewrite Hev by done. split_and!; try done; [by repeat constructor|]. by apply (at_loop c 0).
  - intros [= <-]. unfold at_pc, emit. cbn. eexists [_]. split; [reflexivity|]. rewrite Hev by done. split_and!; try done; [by repeat constructor|].
    fold the_hook. cbn [app]. rewrite <- replicate_cons_app. by apply (at_loop c (S n)).
Qed.

(** One more handler in a thread, or one less. *)
Lemma thread_push fs s : thread_ok fs -> thread_ok (mk_frame s H_test :: fs).
Proof.
  intros [fs' H|ts f fs' H1 Hl H2]; [apply all_early; constructor; [by left|done]|].
  apply (one_late (mk_frame s H_test :: ts)); [by constructor|done..].
Qed.

Lemma thread_pop f fs : thread_ok (f :: fs) -> hpc f = H_test -> thread_ok fs.
Proof.
  intros H Ef. remember (f :: fs) as l eqn:El. destruct H as [l H|[|g ts] g' fs' H1 Hl H2]; subst.
  - apply Forall_cons in H as [_ H]. by apply all_early.
  - injection El as -> ->. destruct Hl as [E|[E|E]]; congruence.
  - injection El as -> <-. apply Forall_cons in H1 as [_ H1]. by apply one_late.
Qed.

(** The handler on top is late, or all are early. *)
Lemma thread_top f fs : thread_ok (f :: fs) -> hpc f <> H_test -> Forall early fs /\ (early f \/ late f).
Proof.
  intros H Ef. remember (f :: fs) as l eqn:El. destruct H as [l H|[|g ts] g' fs' H1 Hl H2]; subst.
  - apply Forall_cons in H as [H1 H2]. auto.
  - injection El as -> ->. auto.
  - injection El as -> <-. by apply Forall_cons in H1 as [? _].
Qed.

(** A thread that replaces its handlers by [fs] and does [ev]. *)
Lemma wf_thread st t old fs called ev : agent_wf st -> stacks st !! t = Some old -> thread_ok fs ->
  (called = false -> sig_handler_called st = false /\ Forall early fs) -> main_part ev = [] ->
  (tally is_cleanup ev + cleanups_of old = cleanups_of fs)%nat -> (tally is_stop ev + stops_of old = stops_of fs)%nat ->
  agent_wf (mk_process (pc st) called (handled st) (<[t := fs]> (stacks st)) (events st ++ ev) (status st)).
Proof.
  intros W Ht Hfs Hcalled Hm H1 H2. constructor; cbn.
  - rewrite length_insert. apply W.
  - rewrite main_part_app, Hm, app_nil_r. apply W.
  - apply Forall_insert; [apply W|done].
  - intros E. destruct (Hcalled E) as [E1 E2]. apply Forall_insert; [by apply (aw_called _ W)|done].
  - rewrite tally_app, (aw_cleanups _ W). pose proof (sum_insert cleanups_of _ t old fs Ht). lia.
  - rewrite tally_app, (aw_stops _ W). pose proof (sum_insert stops_of _ t old fs Ht). lia.
Qed.

Definition agent_state_ok (st : process) : Prop :=
  match status st with None => agent_wf st | Some e => agent_over st e end.

(** One step of a handler. *)
Lemma handler_wf st t f rest : agent_wf st -> status st = None -> stacks st !! t = Some (f :: rest) -> agent_state_ok (sig_handler st t f rest).
Proof.
  intros W Hs Ht. pose proof (proj1 (Forall_lookup _ _) (aw_stack _ W) _ _ Ht) as Hok. destruct f as [s q]. unfold sig_handler.
  assert (Hcount : forall q' l, (cleanups_of (mk_frame s q' :: l) = cleanups_of [mk_frame s q'] + cleanups_of l)%nat /\
            (stops_of (mk_frame s q' :: l) = stops_of [mk_frame s q'] + stops_of l)%nat).
  { intros q' l. unfold cleanups_of, stops_of. cbn. lia. }
  pose proof (Hcount q rest) as [C1 C2].
  assert (Hgo : forall q' called ev, thread_ok (mk_frame s q' :: rest) ->
      (called = false -> sig_handler_called st = false /\ Forall early (mk_frame s q' :: rest)) -> main_part ev = [] ->
      (tally is_cleanup ev + cleanups_of [mk_frame s q] = cleanups_of [mk_frame s q'])%nat ->
      (tally is_stop ev + stops_of [mk_frame s q] = stops_of [mk_frame s q'])%nat ->
      agent_wf (mk_process (pc st) called (handled st) (<[t := mk_frame s q' :: rest]> (stacks st)) (events st ++ ev) (status st))).
  { intros q' called ev H1 H2 H3 H4 H5. pose proof (Hcount q' rest) as [D1 D2]. apply (wf_thread st t (mk_frame s q :: rest)); try done; lia. }
  destruct q; cbn [hpc signo].
  - destruct (sig_handler_called st) eqn:Ec; unfold agent_state_ok, set_stack; cbn [status]; rewrite Hs, <- (app_nil_r (events st)).
    + rewrite Ec, <- Hs. apply (wf_thread st t (mk_frame s H_test :: rest)); try done. by eapply thread_pop.
    + rewrite Ec, <- Hs. pose proof (proj1 (Forall_lookup _ _) (aw_called _ W Ec) _ _ Ht) as He. apply Forall_cons in He as [_ He].
      assert (Hn : Forall early (mk_frame s H_set :: rest)) by (constructor; [by right|done]). apply Hgo; try done. by apply all_early.
  - destruct (thread_top _ _ Hok ltac:(done)) as [He _].
    unfold agent_state_ok, set_called, set_stack; cbn [status]. rewrite Hs, <- (app_nil_r (events st)), <- Hs. cbn.
    apply Hgo; try done. apply (one_late [] (mk_frame s H_cleanup)); [done|by left|done].
  - destruct (thread_top _ _ Hok ltac:(done)) as [He _].
    assert (Hc : sig_handler_called st = true).
    { destruct (sig_handler_called st) eqn:Ec; [done|]. pose proof (proj1 (Forall_lookup _ _) (aw_called _ W Ec) _ _ Ht) as Hb.
      apply Forall_cons in Hb as [[E|E] _]; done. }
    unfold agent_state_ok, emit, set_stack; cbn. rewrite Hs, Hc, <- Hs.
    apply Hgo; try done. apply (one_late [] (mk_frame s H_stop)); [done|right; by left|done].
  - destruct (thread_top _ _ Hok ltac:(done)) as [He _].
    assert (Hc : sig_handler_called st = true).
    { destruct (sig_handler_called st) eqn:Ec; [done|]. pose proof (proj1 (Forall_lookup _ _) (aw_called _ W Ec) _ _ Ht) as Hb.
      apply Forall_cons in Hb as [[E|E] _]; done. }
    unfold agent_state_ok, emit, set_stack; cbn. rewrite Hs, Hc, <- Hs.
    apply Hgo; try done. apply (one_late [] (mk_frame s H_exit)); [done|right; by right|done].
  - unfold agent_state_ok, exit_. cbn [status]. rewrite <- (app_nil_r (events st)). apply wf_over; [done| |done|].
    + rewrite app_nil_r. by eapply main_at_did, W.
    + left. split; [done|]. cbn [events]. rewrite app_nil_r, (aw_stops _ W).
      destruct (take_drop_middle _ _ _ Ht). rewrite sum_list_with_app. cbn. unfold stops_of at 2. cbn. lia.
Qed.

Lemma agent_reachable_ok st : agent_reachable st -> agent_state_ok st.
Proof.
  revert st. apply rtc_ind_r.
  - unfold agent_state_ok, main_start. cbn [status]. constructor; cbn [stacks pc handled events sig_handler_called].
    + by rewrite length_replicate.
    + constructor.
    + apply Forall_replicate. by apply all_early.
    + intros _. by apply Forall_replicate.
    + unfold tally. cbn. induction (workers); cbn; lia.
    + unfold tally. cbn. induction (workers); cbn; lia.
  - intros a b _ Hab IH. unfold agent_state_ok in IH. destruct Hab as [st st' Hs Hk Hm|st t f rest Hs Hk|st t fs s Hs Hk Hx Hn]; rewrite Hs in IH.
    + destruct (main_moves st st' (aw_main _ IH) Hs Hm) as (ev & E1 & E2 & E3 & E4 & H). unfold agent_state_ok.
      assert (Hev : tally is_cleanup ev = O /\ tally is_stop ev = O).
      { clear -E2. unfold tally. induction E2 as [|x ev Hx _ [IH1 IH2]]; [done|]. cbn. rewrite IH1, IH2. by destruct x. }
      destruct Hev as [T1 T2]. destruct st' as [p' c' hs' ss' ev' [e|]]; cbn in E1, E3, E4, H |- *; subst.
      * destruct H as (-> & -> & Hd & Hw). by apply wf_over.
      * constructor; cbn; try apply IH; [done| |]; rewrite tally_app, ?T1, ?T2, Nat.add_0_r; apply IH.
    + by apply handler_wf.
    + unfold deliver. destruct (decide (s ∈ handled st)).
      * unfold agent_state_ok, set_stack. cbn [status]. rewrite Hs, <- (app_nil_r (events st)), <- Hs.
        pose proof (proj1 (Forall_lookup _ _) (aw_stack _ IH) _ _ Hk) as Hok.
        apply (wf_thread st t fs); try done; [by apply thread_push|].
        intros Ec. split; [done|]. constructor; [by left|]. exact (proj1 (Forall_lookup _ _) (aw_called _ IH Ec) _ _ Hk).
      * unfold agent_state_ok. cbn [status]. rewrite <- (app_nil_r (events st)). apply wf_over; [done| |done|done].
        rewrite app_nil_r. by eapply main_at_did, IH.
Qed.


(** Once a signal is being handled the program ends, if no thread of jbpf can
    take a signal: left to themselves, the
    handlers that are running reach [exit] with 0, after one clean-up and one
    stop. *)
Theorem agent_program_ends st f fs : workers = O -> agent_reachable st -> status st = None -> stacks st = [f :: fs] ->
  exists n ev, (n <= length fs + 5)%nat /\ rtc agent_step st (run_handlers n st) /\
    status (run_handlers n st) = Some (Exited 0) /\ main_did ev /\
    events (run_handlers n st) = ev ++ [JbpfCleanup; JbpfStop].
Proof.
  clear name_array. intros Hw Hr Hs Hk.
  assert (exists n, (n <= length fs + 5)%nat /\ status (run_handlers n st) = Some (Exited 0)) as (n & Hn & He).
  { apply (agent_reachable_inv st Hw) in Hr. destruct Hr as [p called hs fs' ev ev' Ha Hh|]; [|discriminate Hs].
    cbn in Hk. injection Hk as ->. remember (f :: fs) as all eqn:E. destruct Hh as [all Hf|ts g gs Ht Hl Hf].
    - subst all. apply Forall_cons in Hf as [Hf _]. exists 5%nat. split; [lia|by apply early_ends].
    - exists (length ts + 3)%nat. apply (f_equal length) in E. rewrite length_app in E. cbn in E.
      split; [lia|]. rewrite tests_return by done. by apply late_ends. }
  pose proof (run_handlers_steps n st) as Hn'.
  assert (Hi : agent_inv (run_handlers n st)) by (apply agent_reachable_inv; [exact Hw|]; unfold agent_reachable; by etrans).
  exists n. revert He Hn' Hi. generalize (run_handlers n st). intros st' He Hst Hi.
  destruct Hi as [|p called hs ss ev e He']; [discriminate He|]. cbn in He. injection He as ->.
  inversion He' as [hs' ev0 Hd| | |]; subst. by exists ev0.
Qed.
End Program.

(** ** Schedules *)

(** Who goes next: [main], the running handler of a thread, or a signal that
    arrives in a thread. *)
Inductive choice := Main | Handler (t : nat) | Signal (t : nat) (s : signal).

Section Schedules.
Variables JBPF_IO_IPC_CONFIG JBPF_HUGEPAGE_SIZE_1GB : Z.
Variables JBPF_IO_IPC_MAX_NAMELEN LCM_IPC_NAME_LEN : nat.
Variable JBPF_DEFAULT_LCM_SOCKET : list ascii.
Variable workers : nat.
Variable env : agent_env.

Abbreviation next := (main_step JBPF_IO_IPC_CONFIG JBPF_HUGEPAGE_SIZE_1GB JBPF_IO_IPC_MAX_NAMELEN LCM_IPC_NAME_LEN
  JBPF_DEFAULT_LCM_SOCKET env).
Abbreviation step := (agent_step JBPF_IO_IPC_CONFIG JBPF_HUGEPAGE_SIZE_1GB JBPF_IO_IPC_MAX_NAMELEN LCM_IPC_NAME_LEN
  JBPF_DEFAULT_LCM_SOCKET env).

#[global] Instance thread_exists_dec st t : Decision (thread_exists st t).
Proof. unfold thread_exists. destruct (pc st); apply _. Defined.

Definition take_choice (st : process) (c : choice) : option process :=
  match status st, c with
  | Some _, _ => None
  | None, Main =>
      match stacks st !! O, next st with Some [], Ret st' => Some st' | _, _ => None end
  | None, Handler t =>
      match stacks st !! t with Some (f :: rest) => Some (sig_handler st t f rest) | _ => None end
  | None, Signal t s =>
      match stacks st !! t with
      | Some fs => if decide (thread_exists st t /\ s ∉ (signo <$> fs)) then Some (deliver st t fs s) else None
      | None => None
      end
  end.

Fixpoint follow (st : process) (cs : list choice) : option process :=
  match cs with
  | [] => Some st
  | c :: cs => match take_choice st c with Some st' => follow st' cs | None => None end
  end.

Lemma take_choice_step st c st' : take_choice st c = Some st' -> step st st'.
Proof.
  unfold take_choice. destruct (status st) eqn:Es; [discriminate|]. destruct c as [|t|t s].
  - destruct (stacks st !! O) as [[|]|] eqn:Ek; try discriminate. destruct (next st) eqn:En; [|discriminate].
    intros [= <-]. by constructor.
  - destruct (stacks st !! t) as [[|f rest]|] eqn:Ek; try discriminate. intros [= <-]. by constructor.
  - destruct (stacks st !! t) as [fs|] eqn:Ek; [|discriminate]. destruct (decide _) as [[H1 H2]|]; [|discriminate].
    intros [= <-]. by constructor.
Qed.

Lemma follow_reachable st cs st' : follow st cs = Some st' -> rtc step st st'.
Proof.
  revert st. induction cs as [|c cs IH]; intros st; cbn [follow]; [by intros [= <-]|].
  destruct (take_choice st c) as [st1|] eqn:E; [|discriminate]. intros H. eapply rtc_l; [by eapply take_choice_step|by apply IH].
Qed.
End Schedules.

(** ** Runs that go wrong *)

(** Every call succeeds. *)
Definition ex_agent_env : agent_env :=
  mk_agent_env (fun _ => true) (mk_jbpf_config 0 0 (replicate 32 NUL) false (replicate 64 NUL)) (fun _ => 0) 4096.

Abbreviation ex_socket := (chars "/tmp/jbpf/lcm").
Abbreviation ex_reachable := (fun w => agent_reachable 1 1073741824 32 64 ex_socket w ex_agent_env).
Abbreviation ex_follow := (fun w => follow 1 1073741824 32 64 ex_socket ex_agent_env (main_start w)).

(** A signal between the installation of the handlers and [jbpf_init] cleans
    up and stops a jbpf that was never started, and reports success. *)
Theorem agent_stops_before_start : exists st, ex_reachable O st /\
  events st = [JbpfCleanup; JbpfStop] /\ status st = Some (Exited 0).
Proof.
  destruct (ex_follow O [Main; Main; Signal 0 SIGINT; Handler 0; Handler 0; Handler 0; Handler 0; Handler 0]) as [st|] eqn:E;
    [|vm_compute in E; discriminate E].
  exists st. split; [by eapply follow_reachable|]. vm_compute in E. injection E as <-. done.
Qed.

(** The test of the flag and its setting are two steps. If a thread of jbpf
    can take a signal too, both handlers can pass the test, and jbpf is cleaned
    up and stopped twice. *)
Theorem agent_two_threads_stop_twice : exists st c, ex_reachable 1%nat st /\
  events st = [JbpfInit c; JbpfCleanup; JbpfStop; JbpfCleanup; JbpfStop] /\ status st = None.
Proof.
  destruct (ex_follow 1%nat ([Main; Main; Main; Main; Signal 0 SIGINT; Signal 1 SIGTERM; Handler 0; Handler 1]
    ++ replicate 3 (Handler 0) ++ replicate 3 (Handler 1))) as [st|] eqn:E;
    [|vm_compute in E; discriminate E].
  eexists st, _. split; [by eapply follow_reachable|]. vm_compute in E. injection E as <-. done.
Qed.

(** ** Witnesses *)


Lemma agent_program_ends_witness : exists st n, ex_reachable O st /\ status st = None /\
  status (run_handlers n st) = Some (Exited 0).
Proof.
  destruct (ex_follow O [Main; Main; Signal 0 SIGINT; Handler 0; Handler 0; Signal 0 SIGTERM]) as [st|] eqn:E;
    [|vm_compute in E; discriminate E].
  assert (Hr : ex_reachable O st) by (by eapply follow_reachable).
  assert (status st = None /\ stacks st = [[mk_frame SIGTERM H_test; mk_frame SIGINT H_cleanup]]) as [Es Ek]
    by (vm_compute in E; injection E as <-; done).
  destruct (agent_program_ends 1 1073741824 32 64 ex_socket O ex_agent_env st _ _ eq_refl Hr Es Ek) as (n & _ & _ & _ & Hn & _).
  by exists st, n.
Defined.
