(* ===== verification/SampleExample.v ===== *)
(** * The sample applications at work

    Routers that forward the messages of the sample codelets between the rounds
    of an application, and the theorems about the sample applications applied
    to such executions. *)
From Stdlib Require Import QArith.
From S2P Require Import Prelude CData Codelets StreamId StreamIdSpec Bloom BloomFacts Ext Router RouterLookup RouterInv RouterChannels RouterForward RouterReceive RouterInit RouterExample AppApi NorthIo JrtcApp JrtcAppFacts JrtcAppObject JrtcAppExample SampleApp FirstExampleC PlainApp FirstExample.
#[local] Open Scope Z_scope.

(** ** Forwarding between the rounds *)

Section Forwarding.
Context {cs : CharSign}.
Context {B It T C R M S : Type}.
Context `{HB : CkBitmap B It} `{HT : CkHt T nat} `{HC : CkPtrHt C} `{HR : CkRing R} `{HM : Mempool M} `{HS : JbpfIo S}.
Context `{LB : !CkBitmapLaws B It} `{LT : !CkHtLaws T nat} `{LC : !CkPtrHtLaws C} `{LR : !CkRingLaws R} `{LM : !MempoolLaws M}.

Abbreviation router := (jrtc_router_ctx B T C R M).

(** [r'] is [r] but for the queues: channels, ids and channel lists are kept. *)
Definition same_lists (r r' : router) : Prop :=
  channels r' = channels r /\ forall p d', dapps r' !! p = Some d' -> exists d, dapps r !! p = Some d /\
    app_id d' = app_id d /\ forall o, channel_list d' o = channel_list d o.

Lemma same_lists_refl r : same_lists r r.
Proof. split; [done|]. intros p d Hd. by exists d. Qed.

Lemma same_lists_trans r r1 r2 : same_lists r r1 -> same_lists r1 r2 -> same_lists r r2.
Proof.
  intros [H1 H2] [H3 H4]. split; [congruence|]. intros p d2 Hd2. destruct (H4 _ _ Hd2) as (d1 & Hd1 & E1 & E2).
  destruct (H2 _ _ Hd1) as (d & Hd & E3 & E4). exists d. split_and!; [done|congruence|]. intros o. by rewrite E2, E4.
Qed.

Lemma enqueue_app_lists r sid buf i r' ev : enqueue_app r sid buf i = Ret (r', ev) -> same_lists r r'.
Proof.
  unfold enqueue_app. destruct (array_get _ i) as [[p|]|]; cbn [mbind outcome_bind]; [|intros [= <- _]; apply same_lists_refl|done].
  unfold deref. destruct (dapps r !! p) as [d|] eqn:Hd; cbn [mbind outcome_bind]; [|done].
  destruct (jbpf_mbuf_alloc _) as [[b pool]|]; [|intros [= <- _]; apply same_lists_refl].
  destruct (ring_enqueue d b) as [[o ring']|]; cbn [mbind outcome_bind]; [|done]. intros [= <- _]. split; [done|].
  intros q d'. unfold upd_dapp. cbn. rewrite lookup_insert_Some. intros [[<- <-]|[_ Hq]]; [|by exists d'].
  exists d. split_and!; [done|done|]. by intros [].
Qed.

Lemma app_loop_lists fuel lr it r sid buf it' r' ev : app_loop fuel lr it r sid buf = Ret (it', r', ev) -> same_lists r r'.
Proof.
  revert it r ev. induction fuel as [|fuel IH]; intros it r ev; cbn [app_loop]; [done|].
  destruct (ck_bitmap_next lr it) as [[i|] it1]; [|intros [= _ <- _]; apply same_lists_refl].
  destruct (enqueue_app r sid buf i) as [[r1 ev1]|] eqn:E1; cbn [mbind outcome_bind]; [|done].
  destruct (app_loop fuel lr it1 r1 sid buf) as [[[it2 r2] ev2]|] eqn:E2; cbn [mbind outcome_bind]; [|done].
  intros [= <- <- _]. eapply same_lists_trans; [by eapply enqueue_app_lists|by eapply IH].
Qed.

Lemma buf_loop_lists lr it r sid bufs r' ev : buf_loop lr it r sid bufs = Ret (r', ev) -> same_lists r r'.
Proof.
  revert it r ev. induction bufs as [|b bufs IH]; intros it r ev; cbn [buf_loop]; [intros [= <- _]; apply same_lists_refl|].
  destruct (app_loop _ lr it r sid b) as [[[it1 r1] ev1]|] eqn:E1; cbn [mbind outcome_bind]; [|done].
  destruct (buf_loop lr it1 r1 sid bufs) as [[r2 ev2]|] eqn:E2; cbn [mbind outcome_bind]; [|done].
  intros [= <- _]. eapply same_lists_trans; [by eapply app_loop_lists|by eapply IH].
Qed.

Lemma forward_lists r has sid bufs r' ev : _jrtc_router_forward_msgs r has sid bufs = Ret (r', ev) -> same_lists r r'.
Proof.
  unfold _jrtc_router_forward_msgs. destruct (_ || _); [intros [= <- _]; apply same_lists_refl|].
  destruct (lookup_loop _ _ _ _) as [lr|]; cbn [mbind outcome_bind]; [|done]. apply buf_loop_lists.
Qed.

(** The router thread forwards a message of each of the streams [msgs]. *)
Fixpoint forward_all (msgs : list (jrtc_router_stream_id * Z)) (r : router) : router :=
  match msgs with
  | [] => r
  | (sid, buf) :: msgs =>
      forward_all msgs (match _jrtc_router_forward_msgs r true sid [buf] with Ret (r', _) => r' | Fault _ => r end)
  end.

Lemma forward_app_inv mem a aid items msgs r : app_inv mem a aid items r -> app_inv mem a aid items (forward_all msgs r).
Proof.
  revert r. induction msgs as [|[sid buf] msgs IH]; intros r I; cbn [forward_all]; [done|]. apply IH. clear IH.
  pose proof I as [W (d & Hd & Hi) Hl Hk Ho].
  destruct (forward_any r sid [buf] W) as [(r' & ev & E & W' & _ & Hctx & Hs & _)|[E _]]; rewrite E; [|exact I].
  destruct (forward_lists _ _ _ _ _ _ E) as [Hch Hdd].
  pose proof (wf_dapp _ W _ _ Hd) as Hslot. rewrite <- Hctx in Hslot.
  destruct (wf_app _ W' _ _ Hslot) as (_ & d' & Hd' & Hi' & _). constructor.
  - done.
  - exists d'. split; [done|congruence].
  - eapply Forall_impl; [exact Hl|]. intros si Hsi c Hcc. rewrite Hch. by apply Hsi.
  - intros k p x d0 Hd0 Hx Hxa. rewrite Hch in Hx. destruct (Hdd _ _ Hd0) as (d1 & Hd1 & _ & Ho1). rewrite Ho1. by apply (Hk k p x d1).
  - intros s. rewrite Hs. apply Ho.
Qed.

(** A round, and a turn, in which messages arrive. *)
Definition round_with (msgs : list (jrtc_router_stream_id * Z)) (now after : Z) : round_env B T C R M S :=
  mk_round_env (fun x => (forward_all msgs x.1, x.2)) now after.

Lemma round_with_ok mem a aid items msgs now after : round_ok mem a aid items (round_with msgs now after).
Proof. intros r io I. by apply forward_app_inv. Qed.

Definition turn_with (msgs : list (jrtc_router_stream_id * Z)) (call : call_env) : turn B T C R M S :=
  mk_turn (fun x => (forward_all msgs x.1, x.2)) call.

Lemma turn_with_ok mem a aid items msgs call : turn_ok mem a aid items (turn_with msgs call).
Proof. intros r io I. by apply forward_app_inv. Qed.

(** ** Addresses in order *)

(** The requests have addresses below [n], the channels below [c], and the ids
    of the channels are not empty. *)
Definition below (n c : nat) (r : router) : Prop :=
  (forall p e, req_entries r !! p = Some e -> (p < n)%nat) /\
  (forall p x, channels r !! p = Some x -> (p < c)%nat /\ id (ch_stream_id x) <> []).

Lemma below_mono n c n' c' r : below n c r -> (n <= n')%nat -> (c <= c')%nat -> below n' c' r.
Proof. intros [H1 H2] Hn Hc. split; [intros p e Hp; specialize (H1 p e Hp); lia|intros p x Hx; specialize (H2 p x Hx); intuition lia]. Qed.

Lemma register_below n c r renv ctx sid r' res : below n c r -> (forall p, malloc_entry renv = Some p -> (p <= n)%nat) ->
  jrtc_router_channel_register_stream_id_req r renv ctx sid = Ret (r', res) -> below (n + 1) c r'.
Proof.
  intros Hb Hp. assert (Hb' : below (n + 1) c r) by (eapply below_mono; [exact Hb|lia|lia]).
  unfold jrtc_router_channel_register_stream_id_req. destruct ctx as [a|]; [|by intros [= <- _]].
  destruct (deref _ a) as [d|]; cbn [mbind outcome_bind]; [|done]. destruct (decide _); [by intros [= <- _]|].
  destruct (ck_ht_get_spmc _ _) as [p|].
  - unfold deref. destruct (req_entries r !! p) as [e|] eqn:He; cbn [mbind outcome_bind]; [|done]. intros [= <- _].
    split; [|exact (proj2 Hb')]. intros q e'. cbn. rewrite lookup_insert_Some. intros [[<- _]|[_ Hq]]; by eapply Hb'.
  - destruct (malloc_entry renv) as [p|]; [|by intros [= <- _]]. specialize (Hp p eq_refl).
    destruct (malloc_bitmap renv); [|by intros [= <- _]]. destruct (ck_ht_set_spmc _ _ _) as [ok t]. intros [= <- _].
    split; [|exact (proj2 Hb')]. intros q e'. cbn. rewrite lookup_insert_Some. intros [[<- _]|[_ Hq]]; [lia|by eapply Hb'].
Qed.

Lemma create_below n c r cenv ctx o sid r' res ev : below n c r -> id sid <> [] -> (forall p, malloc_channel cenv = Some p -> (p <= c)%nat) ->
  jrtc_router_channel_create r cenv ctx o sid = Ret (r', res, ev) -> below n (c + 1) r'.
Proof.
  intros Hb Hs Hp. assert (Hb' : below n (c + 1) r) by (eapply below_mono; [exact Hb|lia|lia]).
  unfold jrtc_router_channel_create. destruct ctx as [a|]; [|by intros [= <- _]].
  destruct (malloc_channel cenv) as [p|]; [|by intros [= <- _]]. specialize (Hp p eq_refl).
  destruct (deref _ a) as [d|]; cbn [mbind outcome_bind]; [|done]. destruct (create_channel cenv) as [io|]; [|by intros [= <- _]].
  destruct (ptr_ht_set_spmc _ _ _ _) as [[] t]; intros [= <- _ _]; (split; [exact (proj1 Hb')|]); [|exact (proj2 Hb')].
  intros q x. cbn. rewrite lookup_insert_Some. intros [[<- <-]|[_ Hq]]; [split; [lia|exact Hs]|by eapply Hb'].
Qed.

(** The addresses of an environment that counts up. *)
Definition counting (n c : nat) (env : nat -> stream_env) : Prop := forall i, hash_source (env i) = (true, true) /\
  hash_io_map (env i) = (true, true) /\ malloc_entry (req_env (env i)) = Some (n + i)%nat /\ malloc_channel (chan_env (env i)) = Some (c + i)%nat.

Lemma init_stream_below n c cfg ctx env i s r r' new ok ev : counting n c env -> below (n + i) (c + i) r ->
  init_stream cfg ctx (env i) s r = Ret (r', new, ok, ev) -> below (n + (i + 1)) (c + (i + 1)) r'.
Proof.
  intros Henv Hb. destruct (Henv i) as (E1 & E2 & E3 & E4). unfold init_stream. rewrite E1, E2.
  destruct (generate_stream_id_facts (mk_stream_id []) (destination (cfg_sid s)) (cfg_device_id (cfg_sid s))
    (stream_source (cfg_sid s)) (io_map (cfg_sid s))) as (sid & vp & vn & -> & W & _). cbn [mbind outcome_bind].
  change (negb (1 =? 1)) with false. cbv iota.
  assert (Hs : id sid <> []) by (destruct W as [Hl _]; intros E; rewrite E in Hl; discriminate Hl).
  assert (Hb' : below (n + (i + 1)) (c + (i + 1)) r) by (eapply below_mono; [exact Hb|lia|lia]).
  destruct (init_channel ctx (env i) s sid r) as [[[[r1 chan] ok1] ev1]|] eqn:Ec; cbn [mbind outcome_bind]; [|done].
  assert (H1 : below (n + i) (c + (i + 1)) r1).
  { unfold init_channel in Ec. destruct (appChannel s) as [a|]; [|injection Ec as <- _ _ _; eapply below_mono; [exact Hb|lia|lia]].
    destruct (jrtc_router_channel_create _ _ _ _ _) as [[[r2 ch] ev2]|] eqn:E; cbn [mbind outcome_bind] in Ec; [|done].
    injection Ec as <- _ _ _. replace (c + (i + 1))%nat with (c + i + 1)%nat by lia.
    eapply (create_below _ _ r); [exact Hb|exact Hs| |exact E]. rewrite E4. intros p [= <-]. lia. }
  assert (H2 : below (n + (i + 1)) (c + (i + 1)) r1) by (eapply below_mono; [exact H1|lia|lia]).
  destruct (negb ok1); [by intros [= <- _ _ _]|].
  destruct (init_request ctx (env i) s sid r1) as [[[r3 reg] ok3]|] eqn:Er; cbn [mbind outcome_bind]; [|done].
  assert (H3 : below (n + (i + 1)) (c + (i + 1)) r3).
  { unfold init_request in Er. destruct (is_rx s); [|by injection Er as <- _ _].
    destruct (jrtc_router_channel_register_stream_id_req _ _ _ _) as [[r4 res]|] eqn:E; cbn [mbind outcome_bind] in Er; [|done].
    injection Er as <- _ _. replace (n + (i + 1))%nat with (n + i + 1)%nat by lia.
    eapply (register_below _ _ r1); [exact H1| |exact E]. rewrite E3. intros p [= <-]. lia. }
  destruct (negb ok3); by intros [= <- _ _ _].
Qed.

Lemma counting_fresh n c cfg a env i ss r : counting n c env -> below (n + i) (c + i) r -> allocs_fresh cfg a env i ss r.
Proof.
  intros Henv. revert i r. induction ss as [|s ss IH]; intros i r Hb; cbn [allocs_fresh]; [done|]. split.
  - destruct (Henv i) as (_ & _ & E3 & E4). split.
    + intros p Hp. rewrite E3 in Hp. injection Hp as <-. destruct (req_entries r !! _) as [e|] eqn:E; [|done].
      apply Hb in E. lia.
    + intros p Hp. rewrite E4 in Hp. injection Hp as <-. destruct (channels r !! _) as [x|] eqn:E; [|done].
      apply Hb in E. lia.
  - intros r' new ev E. apply IH. by eapply init_stream_below.
Qed.

Lemma init_streams_below n c cfg ctx env i ss r r' new ok ev : counting n c env -> below (n + i) (c + i) r ->
  init_streams cfg ctx env i ss r = Ret (r', new, ok, ev) ->
  exists k, (k <= i + length ss)%nat /\ below (n + k) (c + k) r'.
Proof.
  intros Henv. revert i r r' new ok ev. induction ss as [|s ss IH]; intros i r r' new ok ev Hb; cbn [init_streams].
  { intros [= <- _ _ _]. exists i. split; [cbn; lia|done]. }
  destruct (init_stream cfg ctx (env i) s r) as [[[[r1 new1] ok1] ev1]|] eqn:E1; cbn [mbind outcome_bind]; [|done].
  apply (init_stream_below n c) in E1; [|done|done]. destruct ok1; [|intros [= <- _ _ _]; exists (i + 1)%nat; split; [cbn; lia|done]].
  destruct (init_streams cfg ctx env (i + 1) ss r1) as [[[[r2 new2] ok2] ev2]|] eqn:E2; cbn [mbind outcome_bind]; [|done].
  intros [= <- _ _ _]. destruct (IH (i + 1)%nat _ _ _ _ _ E1 E2) as (k & Hk & Hb'). exists k. split; [cbn; lia|done].
Qed.
End Forwarding.

(** ** first_example *)

Import Reference.
#[local] Instance signed_char_s : CharSign := true.

Abbreviation ex_rnd := (round_env (list bool) (list (list Z * nat)) (list (nat * nat)) ring_ref (Z * list nat) ex_io).
Abbreviation ex_start := (start_env (list bool) (list (list Z * nat)) (list (nat * nat)) ring_ref (Z * list nat) ex_io).

(** The memory at an address holds the address; the IO library accepts
    everything, and hands out elements of four bytes. *)
Definition ex_call : call_env := mk_call_env (fun _ => 0) (fun _ => Some [0; 0; 0; 0]) (fun _ _ _ => 0) le32 ∅.

(** Sixty seconds pass per poll. *)
Definition sample_env : app_env :=
  mk_app_env ex_stream_env (fun _ _ => true) (fun k => 60000000000 * (Z.of_nat k + 1)).

Lemma sample_time_ends cfg : initialization_timeout_secs cfg = 10%Q -> time_ends cfg (poll_clock sample_env) 0.
Proof.
  intros Hc k _. unfold init_expired. rewrite Hc. change (Qltb 0 10) with true. cbv iota.
  cbn [poll_clock sample_env]. rewrite Z.mul_comm. replace (60000000000) with (60 * 1000000000) by lia.
  rewrite Z.mul_assoc, Z.quot_mul by lia. unfold Qltb, Qle_bool. cbn. apply negb_true_iff, Z.leb_gt. lia.
Qed.

Lemma ex_counting : counting 70 50 ex_stream_env.
Proof. intros i. done. Qed.

Lemma r1_below : below 70 50 r1.
Proof. split; intros p x Hp; vm_compute in Hp; discriminate Hp. Qed.

(** The keys in the memory are gone: none is found. *)
Lemma keys_gone n c a (r : ex_router) : below n c r -> keys_ok ex_mem a r.
Proof. intros H k p x d _ Hx _ e _ Hm. apply H in Hx as [_ Hx]. by destruct Hx. Qed.

Lemma sample_assumptions cfg (rounds : list ex_rnd) : initialization_timeout_secs cfg = 10%Q -> 0 <= q_size cfg ->
  (forall mem a aid items, Forall (round_ok mem a aid items) rounds) ->
  run_assumptions 1 cfg 10 d1 sample_env rounds ex_mem r1.
Proof.
  intros Ht Hq Hr. constructor; [exact r1_inv|exact r1_d1|exact r1_none| | |exact Hq|].
  - exact (counting_fresh 70 50 cfg 10 ex_stream_env 0 (streams cfg) r1 ex_counting r1_below).
  - exists 0%nat. split; [by apply sample_time_ends|lia].
  - intros r' items ok ev E. split; [|apply Hr].
    destruct (init_streams_below 70 50 _ _ _ _ _ _ _ _ _ _ ex_counting r1_below E) as (k & _ & Hk). by eapply keys_gone.
Qed.

Definition sid_of (path name : string) : jrtc_router_stream_id :=
  ret_or example_sid (generated_id (true, true) (true, true) JRTC_ROUTER_DEST_NONE 1 (Some path) (Some name)).

Definition entry_of (sid : jrtc_router_stream_id) (buf : Z) : jrtc_router_data_entry := mk_data_entry sid buf.

(** The channels of a run, and the index and the data of each call. *)
Definition run_of (cfg : JrtcAppCfg_t) (env : ex_start) : outcome (ex_router * ex_io * list StreamItem * list app_event) :=
  run_from [] (se_fuel env) cfg 10 (se_init env) (se_start env) (se_rounds env) (se_mem env) r1 (∅ : ex_io).

Definition call_of (c : call_env * nat * jrtc_router_data_entry) : nat * Z := (c.1.2, de_data c.2).

Definition summary (cfg : JrtcAppCfg_t) (env : ex_start) : outcome (list (option nat) * list (nat * Z)) :=
  match run_of cfg env with
  | Ret (_, _, items, ev) => Ret (chan_ctx <$> items, call_of <$> data_calls (se_calls env) 0 ev)
  | Fault f => Fault f
  end.

Lemma summary_run cfg env chans l r' io' items ev : summary cfg env = Ret (chans, l) -> run_of cfg env = Ret (r', io', items, ev) ->
  chan_ctx <$> items = chans /\ call_of <$> data_calls (se_calls env) 0 ev = l.
Proof. unfold summary. intros H E. rewrite E in H. by injection H. Qed.

(** In a memory that holds at each address the address, the calls hold their
    addresses. *)
Definition self_memory (env : call_env) : Prop := (forall a, ce_mem env a = le32 a) /\ forall sid d n, ce_send env sid d n = 0.

Lemma self_call env i e : self_memory env -> call_holds (env, i, e) (de_data e).
Proof. intros [Hm Hs]. split; [|exact Hs]. exists []. rewrite app_nil_r. apply Hm. Qed.

Lemma calls_hold env l evs : self_memory env ->
  call_of <$> data_calls (fun _ => env) 0 evs = l ->
  Forall2 call_holds (data_calls (fun _ => env) 0 evs) l.*2 /\
  snd ∘ fst <$> data_calls (fun _ => env) 0 evs = l.*1.
Proof.
  intros Henv <-. generalize 0%nat. intros k. revert k.
  induction evs as [|[|i e|o] evs IH]; intros k; cbn [data_calls fmap list_fmap]; [by split; constructor|apply IH| |apply IH].
  destruct (IH (k + 1)%nat) as [H1 H2]. split; [constructor; [by apply self_call|exact H1]|]. cbn. f_equal. exact H2.
Qed.

Lemma ex_call_self : self_memory ex_call.
Proof. done. Qed.

Definition first_gen : jrtc_router_stream_id :=
  Eval vm_compute in sid_of "FirstExample://jbpf_agent/data_generator_codeletset/codelet" "ringbuf".

(** Five numbers in two rounds. *)
Definition first_rounds : list ex_rnd :=
  [round_with ((first_gen,.) <$> [1; 2; 3]) 1 2; round_with ((first_gen,.) <$> [4; 5]) 3 4].

Definition first_env : ex_start := mk_start_env (Some 1%nat) 1 sample_env 0 first_rounds ex_mem (fun _ => ex_call).

Lemma first_assumptions : start_assumptions FirstExampleC.app_cfg first_env 10 d1 ∅ r1.
Proof.
  constructor; [by exists 1%nat|]. apply sample_assumptions; [done|done|].
  intros mem a aid items. apply Forall_cons. split; [apply round_with_ok|]. apply Forall_singleton. apply round_with_ok.
Qed.

Lemma first_summary : summary FirstExampleC.app_cfg first_env = Ret ([None; None], (0%nat,.) <$> [1; 2; 3; 4; 5]).
Proof. vm_compute. reflexivity. Qed.

Lemma first_calls_hold r' io' items ev : run_of FirstExampleC.app_cfg first_env = Ret (r', io', items, ev) ->
  Forall2 call_holds (data_calls (se_calls first_env) 0 ev) [1; 2; 3; 4; 5].
Proof. intros E. exact (proj1 (calls_hold ex_call _ ev ex_call_self (proj2 (summary_run _ _ _ _ _ _ _ _ first_summary E)))). Qed.

Lemma first_example_c_spec_witness : exists sid r' io',
  FirstExampleC.jrtc_start_app first_env 10 ∅ r1 (∅ : ex_io) =
    Ret (FirstExampleC.mk_state 15 5, [SentInput sid (le32 15); Printed "FirstExample: Aggregate counter so far is: %u " 15], r', io', ∅).
Proof.
  destruct (first_example_c_spec first_env 10 d1 ∅ r1 (∅ : ex_io) first_assumptions) as (r' & io' & items & ev & sid & E & _ & _ & _ & H).
  exists sid, r', io'. rewrite (H [1; 2; 3; 4; 5] (first_calls_hold _ _ _ _ E)); [reflexivity| | |vm_compute; discriminate].
  - repeat constructor.
  - repeat constructor.
Defined.

Lemma first_example_c_capacity_witness : exists sid r' io',
  FirstExampleC.jrtc_start_app first_env 10 ∅ r1 (∅ : ex_io) =
    Ret (FirstExampleC.mk_state (sum (counts 0 5)) 5, FirstExampleC.reports sid 0 0 (counts 0 5), r', io', ∅).
Proof.
  destruct (first_example_c_capacity first_env 10 d1 ∅ r1 (∅ : ex_io) 5 first_assumptions) as (r' & io' & items & ev & sid & E & _ & H).
  exists sid, r', io'. apply H; [exact (first_calls_hold _ _ _ _ E)|pose proof MAX_COUNTS_Z; lia].
Defined.
