(* ===== verification/AdvancedSample.v ===== *)
(** * The two advanced applications at work

    Executions of the applications of [src/sample_apps/advanced_example_c] on
    the router of [RouterExample], alone and together. *)
From Stdlib Require Import QArith.
From S2P Require Import Prelude CData Codelets StreamId StreamIdSpec Bloom BloomFacts Ext Router RouterLookup RouterInv RouterChannels RouterForward RouterReceive RouterInit RouterExample AppApi NorthIo JrtcApp JrtcAppFacts JrtcAppObject JrtcAppExample SampleApp AdvancedExampleC1 AdvancedExampleC2 AdvancedPair SampleExample.
Import Reference.
#[local] Open Scope Z_scope.

#[local] Instance signed_char_t : CharSign := true.

Definition gen1 : jrtc_router_stream_id :=
  Eval vm_compute in sid_of "AdvancedExample1://jbpf_agent/data_generator_codeletset/codelet" "ringbuf".
Definition gen2 : jrtc_router_stream_id :=
  Eval vm_compute in sid_of "AdvancedExample2://jbpf_agent/data_generator_pb_codeletset/codelet" "ringbuf".
Definition out2 : jrtc_router_stream_id := Eval vm_compute in the_id (app2_stream 1).

(** ** The first application *)

(** A number of the generator, one of the second application, another one. *)
Definition rounds1 : list ex_rnd := [round_with [(gen1, 1); (out2, 7)] 1 2; round_with [(gen1, 2)] 3 4].
Definition env_1 : ex_start := mk_start_env (Some 1%nat) 1 sample_env 0 rounds1 ex_mem (fun _ => ex_call).

Lemma app1_assumptions : start_assumptions AdvancedExampleC1.app_cfg env_1 10 d1 ∅ r1.
Proof.
  constructor; [by exists 1%nat|]. apply sample_assumptions; [done|done|].
  intros mem a aid items. apply Forall_cons. split; [apply round_with_ok|]. apply Forall_singleton. apply round_with_ok.
Qed.

Lemma app1_summary : summary AdvancedExampleC1.app_cfg env_1 =
  Ret ([None; None; None; Some 53%nat], [(0%nat, 1); (1%nat, 7); (0%nat, 2)]).
Proof. vm_compute. reflexivity. Qed.

Lemma advanced_example1_c_spec_witness : exists sid r' io',
  AdvancedExampleC1.jrtc_start_app env_1 10 ∅ r1 (∅ : ex_io) =
    Ret (AdvancedExampleC1.mk_state 3, AdvancedExampleC1.outputs sid 0 [(0%nat, 1); (1%nat, 7); (0%nat, 2)], r', io', ∅).
Proof.
  destruct (advanced_example1_c_spec env_1 10 d1 ∅ r1 (∅ : ex_io) app1_assumptions)
    as (r' & io' & items & ev & sid & E & _ & _ & _ & _ & H). cbv zeta in H.
  destruct (calls_hold ex_call _ ev ex_call_self (proj2 (summary_run _ _ _ _ _ _ _ _ app1_summary E))) as [Hc Hi].
  specialize (H _ Hc). cbn [se_calls env_1] in H. rewrite Hi in H. exists sid, r', io'. apply H; repeat constructor.
Defined.

(** ** The second application *)

(** Its output channel is at 51; the IO library's channel is 61. *)
Definition ex_chan2 : dapp_channel_ctx := mk_channel 61 out2 10 true.
Definition ex_call2 : call_env := mk_call_env (fun _ => 0) (fun _ => Some [0; 0; 0; 0]) (fun _ _ _ => 0) le32 {[51%nat := ex_chan2]}.

Definition rounds2 : list ex_rnd := [round_with [(gen2, 4294967295); (gen2, 3)] 1 2].
Definition env_2 : ex_start := mk_start_env (Some 1%nat) 1 sample_env 0 rounds2 ex_mem (fun _ => ex_call2).

Lemma app2_assumptions : start_assumptions AdvancedExampleC2.app_cfg env_2 10 d1 ∅ r1.
Proof.
  constructor; [by exists 1%nat|]. apply sample_assumptions; [done|done|].
  intros mem a aid items. apply Forall_singleton. apply round_with_ok.
Qed.

Lemma app2_summary : summary AdvancedExampleC2.app_cfg env_2 = Ret ([None; Some 51%nat; None], [(0%nat, 4294967295); (0%nat, 3)]).
Proof. vm_compute. reflexivity. Qed.

Lemma ex_call2_self : self_memory ex_call2.
Proof. done. Qed.

Lemma ex_accepts items : chan_ctx <$> items = [None; Some 51%nat; None] -> io_accepts items ex_call2.
Proof.
  intros H. assert (H1 : (chan_ctx <$> items) !! 1%nat = Some (Some 51%nat)) by (rewrite H; reflexivity).
  rewrite list_lookup_fmap in H1. apply fmap_Some in H1 as (si & Hsi & Hc).
  exists si, 51%nat, ex_chan2, [0; 0; 0; 0]. split; [exact Hsi|]. split; [by rewrite <- Hc|]. by split_and!.
Qed.

(** The sum of 4294967295 and 3 wraps around. *)
Lemma advanced_example2_c_spec_witness : exists sid r' io',
  AdvancedExampleC2.jrtc_start_app env_2 10 ∅ r1 (∅ : ex_io) =
    Ret (AdvancedExampleC2.mk_state 2 2, AdvancedExampleC2.outputs sid 0 0 [4294967295; 3], r', io', ∅).
Proof.
  destruct (advanced_example2_c_spec env_2 10 d1 ∅ r1 (∅ : ex_io) app2_assumptions)
    as (r' & io' & items & ev & sid & E & _ & _ & _ & H).
  destruct (summary_run _ _ _ _ _ _ _ _ app2_summary E) as [Hchan Hsum].
  destruct (calls_hold ex_call2 _ ev ex_call2_self Hsum) as [Hc Hi].
  exists sid, r', io'. apply (H _ Hc); [|vm_compute; discriminate].
  apply Forall_forall. intros c Hin.
  assert (c.1.1 = ex_call2) as ->; [|exact (ex_accepts items Hchan)].
  clear -Hin. revert Hin. cbn [se_calls env_2]. generalize 0%nat.
  induction ev as [|[|i e|o] ev IH]; intros k; cbn [data_calls]; [by intros ?%elem_of_nil|apply IH| |apply IH].
  intros [->|Hin]%elem_of_cons; [reflexivity|by eapply IH].
Defined.

(** ** Both *)

(** Two items with a channel between them; the last is the input of the first
    application. *)
Definition items_2 : list StreamItem :=
  [mk_item gen2 true None; mk_item out2 false (Some 51%nat); mk_item (the_id (app2_stream 2)) false None].

Lemma id_of s : cfg_id s = Ret (the_id s).
Proof. destruct (cfg_id_total s) as (sid & E & _). rewrite E. by rewrite (the_id_eq _ _ E). Qed.

Lemma app1_starts : (λ x, x.1.2) <$> Init 1 AdvancedExampleC1.app_cfg (Some 10%nat) sample_env r1 = Ret 0.
Proof. vm_compute. reflexivity. Qed.

Lemma app1_initialised : exists r items ev, Init 1 AdvancedExampleC1.app_cfg (Some 10%nat) sample_env r1 = Ret (r, items, 0, ev) /\ router_wf r.
Proof.
  destruct (init_whole 1 AdvancedExampleC1.app_cfg 10 d1 sample_env r1 0) as (r & items & rc & ev & E & [[K _] _ _ _] & _);
    [split; [exact r1_inv|exists d1; split; [exact r1_d1|done]]|exact (ra_fresh _ _ _ _ _ _ _ _ (sa_run _ _ _ _ _ _ app1_assumptions))
    |by apply sample_time_ends|lia|].
  pose proof app1_starts as H. rewrite E in H. injection H as ->. exists r, items, ev. split; [exact E|exact K].
Qed.

(** There is room in the ring of the first application. *)
Lemma app1_forwards r items ev : Init 1 AdvancedExampleC1.app_cfg (Some 10%nat) sample_env r1 = Ret (r, items, 0, ev) ->
  is_ret (_jrtc_router_forward_msgs r true (the_id (app2_stream 1)) [9]) = true.
Proof.
  intros E. assert (H : (λ x, is_ret (_jrtc_router_forward_msgs x.1.1.1 true (the_id (app2_stream 1)) [9])) <$>
    Init 1 AdvancedExampleC1.app_cfg (Some 10%nat) sample_env r1 = Ret true) by (vm_compute; reflexivity).
  rewrite E in H. cbn [fmap outcome_fmap fst] in H. congruence.
Qed.

(** What the second application does with 5 when its sum is 4. *)
Definition out_9 : list sample_out :=
  [Printed AdvancedExampleC2.FROM_CODELET 9; SentOutput 1 (le32 9); SentInput (the_id (app2_stream 2)) (le32 9)].

Lemma app2_step : AdvancedExampleC2.app_handler items_2 ex_call2 false 0 (Some (entry_of gen2 5)) (AdvancedExampleC2.mk_state 4 1) =
  Ret (AdvancedExampleC2.mk_state 9 2, out_9).
Proof. vm_compute. reflexivity. Qed.

(** A memory that holds at an address the number of the address. *)
Lemma self_carries fmt sid v : let out := [Printed fmt v; SentOutput 1 (le32 v); SentInput sid (le32 v)] in
  polled_holds out 1 le32 v /\ received_holds out sid le32 v.
Proof.
  split; intros bytes Hin; repeat (apply elem_of_cons in Hin as [E|Hin]; [first [discriminate E | injection E; intros ->; reflexivity]|]);
    by apply elem_of_nil in Hin.
Qed.

Lemma d1_facts : ptr_ht_values (app_in_channel_list d1) = [] /\ queue d1 = [].
Proof. split; vm_compute; reflexivity. Qed.

