(* ===== verification/PlainSample.v ===== *)
(** * The applications on the router's interface at work

    Executions of the applications of [src/sample_apps/first_example] and
    [src/sample_apps/advanced_example], and of objects of the application class
    that are used more than once. *)
From Stdlib Require Import QArith.
From S2P Require Import Prelude CData Codelets StreamId StreamIdSpec Bloom BloomFacts Ext Router RouterLookup RouterInv RouterApps RouterChannels RouterForward RouterReceive RouterInit RouterExample AppApi NorthIo JrtcApp JrtcAppFacts JrtcAppObject JrtcAppExample SampleApp PlainApp FirstExampleC FirstExample AdvancedExample1 AdvancedExampleC2 AdvancedExample2 SampleExample.
Import Reference.
#[local] Open Scope Z_scope.

#[local] Instance signed_char_u : CharSign := true.

Abbreviation ex_turn := (turn (list bool) (list (list Z * nat)) (list (nat * nat)) ring_ref (Z * list nat) ex_io).
Abbreviation all_memory := ((true, true), (true, true)).

(** ** first_example *)

Definition ret_id (o : outcome (Z * jrtc_router_stream_id)) : jrtc_router_stream_id := (ret_or (0, example_sid) o).2.

Definition codelet_id : jrtc_router_stream_id :=
  Eval vm_compute in ret_id (generate all_memory JRTC_ROUTER_DEST_ANY JRTC_ROUTER_DEVICE_ID_ANY CODELET_PATH "ringbuf").
Definition control_id : jrtc_router_stream_id :=
  Eval vm_compute in ret_id (generate all_memory JRTC_ROUTER_DEST_NONE 1 CONTROL_PATH "input_map").

(** The input channel appears at the third poll. *)
Definition ex_find (t : nat) (sid : jrtc_router_stream_id) : bool := (2 <=? t)%nat.

Definition first_turns : list ex_turn :=
  [turn_with ((first_gen,.) <$> [1; 2; 3]) ex_call; turn_with ((first_gen,.) <$> [4; 5]) ex_call].

Definition plain1 : plain_env (list bool) (list (list Z * nat)) (list (nat * nat)) ring_ref (Z * list nat) ex_io :=
  mk_plain_env all_memory (mk_request_env (Some 70%nat) true) all_memory 3 ex_find first_turns.

Definition r_plain : ex_router :=
  Eval vm_compute in (ret_or (r1, 0) (jrtc_router_channel_register_stream_id_req r1 (pe_request plain1) (Some 10%nat) codelet_id)).1.

Lemma plain1_request : jrtc_router_channel_register_stream_id_req r1 (pe_request plain1) (Some 10%nat) codelet_id = Ret (r_plain, 1).
Proof. vm_compute. reflexivity. Qed.

Lemma plain1_assumptions : plain_assumptions plain1 10 d1 ex_mem codelet_id control_id r1 r_plain.
Proof.
  constructor; [exact r1_inv|exact r1_d1|exact r1_none|by intros p [= <-]|vm_compute; reflexivity|vm_compute; reflexivity
    |exact plain1_request| | |].
  - exists 3%nat. reflexivity.
  - apply (keys_gone (70 + 1) 50). refine (register_below _ _ _ _ _ _ _ _ r1_below _ plain1_request). intros p [= <-]. lia.
  - apply Forall_cons. split; [apply turn_with_ok|]. apply Forall_singleton. apply turn_with_ok.
Qed.

Definition first_batches : list (call_env * list jrtc_router_data_entry) :=
  [(ex_call, entry_of first_gen <$> [1; 2; 3]); (ex_call, entry_of first_gen <$> [4; 5])].

Lemma plain1_batches : snd <$> batches 10 first_turns r_plain (∅ : ex_io) = Ret first_batches.
Proof. vm_compute. reflexivity. Qed.

Lemma first_batches_hold : Forall2 (batch_holds codelet_id) first_batches [[1; 2; 3]; [4; 5]].
Proof.
  assert (H : forall v, is_i32 v = true -> v <> 0 -> entry_holds codelet_id ex_call (entry_of first_gen v) v).
  { intros v Hv Hne. split; [vm_compute; reflexivity|]. split; [exact Hne|]. split; [exact Hv|]. exists []. by rewrite app_nil_r. }
  constructor; [|constructor; [|constructor]]; repeat first [apply Forall2_cons; split; [apply H; [reflexivity|discriminate]|]|apply Forall2_nil; exact I].
Qed.


Lemma first_example_agrees_witness : exists st out st' out',
  on_batches (on_batch codelet_id control_id) first_batches vars_init = Ret (st, out) /\
  handle_calls (FirstExampleC.app_handler [mk_item codelet_id true None; mk_item control_id false None])
    ((λ v, (ex_call, 0%nat, entry_of first_gen v)) <$> [1; 2; 3; 4; 5]) (FirstExampleC.mk_state 0 0) = Ret (st', out') /\
  v_agg_cnt st = FirstExampleC.agg_cnt st' /\ sent out `sublist_of` sent out'.
Proof.
  destruct (first_example_agrees codelet_id control_id first_batches [[1; 2; 3]; [4; 5]] (mk_item codelet_id true None)
    (mk_item control_id false None) ((λ v, (ex_call, 0%nat, entry_of first_gen v)) <$> [1; 2; 3; 4; 5]) first_batches_hold)
    as (st & out & st' & out' & E & E' & Ha & _ & Hs & _).
  - repeat first [apply Forall2_cons; split; [split; [reflexivity|exact (self_call ex_call 0 (entry_of first_gen _) ex_call_self)]|]|apply Forall2_nil; exact I].
  - vm_compute. discriminate.
  - repeat constructor.
  - exists st, out, st', out'. split; [exact E|]. split; [exact E'|]. split; [exact Ha|exact Hs].
Defined.

(** ** advanced_example, first application *)

Definition gen1_id : jrtc_router_stream_id :=
  Eval vm_compute in ret_id (generate all_memory JRTC_ROUTER_DEST_ANY JRTC_ROUTER_DEVICE_ID_ANY GENERATOR1_PATH "ringbuf").
Definition app2_id : jrtc_router_stream_id := Eval vm_compute in ret_id (generate all_memory JRTC_ROUTER_DEST_ANY 0 INTRAAPP2_PATH "buffer").
Definition gen1_msg : jrtc_router_stream_id := Eval vm_compute in sid_of GENERATOR1_PATH "ringbuf".
Definition app2_msg : jrtc_router_stream_id :=
  Eval vm_compute in ret_or example_sid (generated_id (true, true) (true, true) JRTC_ROUTER_DEST_NONE 0 (Some INTRAAPP2_PATH) (Some "buffer")).

(** A number of the generator, then one of the second application. *)
Definition mixed : list jrtc_router_data_entry := [entry_of gen1_msg 1; entry_of app2_msg 2].

Lemma mixed_run : (λ x, released x.2) <$> on_batch1 gen1_id app2_id control_id control_id ex_call mixed (mk_vars1 0 None) = Ret [1; 1].
Proof. vm_compute. reflexivity. Qed.
Lemma mixed_from : from_generator gen1_id (entry_of app2_msg 2) = false.
Proof. vm_compute. reflexivity. Qed.

Lemma advanced_example1_releases_witness : exists st out,
  on_batch1 gen1_id app2_id control_id control_id ex_call mixed (mk_vars1 0 None) = Ret (st, out) /\
  (2 ∉ released out) /\ ~ NoDup (released out).
Proof.
  destruct (advanced_example1_releases gen1_id app2_id control_id control_id ex_call mixed 0) as [H _].
  - apply (bool_decide_unpack _). vm_compute. exact I.
  - repeat constructor; discriminate.
  - destruct (on_batch1 gen1_id app2_id control_id control_id ex_call mixed (mk_vars1 0 None)) as [[st out]|] eqn:E.
    + exists st, out. destruct (H st out eq_refl) as (_ & Hno & Hnd & _). split; [reflexivity|]. split.
      * exact (Hno (entry_of app2_msg 2) (list_elem_of_further _ _ _ (list_elem_of_here _ _)) mixed_from).
      * intros Hn. apply Hnd in Hn.         rewrite Forall_forall in Hn.
        specialize (Hn (entry_of app2_msg 2) (list_elem_of_further _ _ _ (list_elem_of_here _ _))). rewrite mixed_from in Hn. discriminate Hn.
    + exfalso. pose proof mixed_run as Hr. rewrite E in Hr. discriminate Hr.
Defined.

(** The whole application: a number arrives in its only turn. *)
Definition ex_env1 : env1 (list bool) (list (list Z * nat)) (list (nat * nat)) ring_ref (Z * list nat) ex_io :=
  mk_env1 (fun _ => all_memory) (fun i => mk_request_env (Some (70 + i)%nat) true)
    (mk_channel_env (Some 50%nat) (Some 60%nat) 5 (fun _ => [])) 3 ex_find [turn_with [(gen1_msg, 1)] ex_call].

Definition after_setup : outcome (ex_router * ids1 * list io_event) := setup1 ex_env1 10 r1.
Definition r_setup : ex_router := Eval vm_compute in (ret_or (r1, mk_ids1 codelet_id codelet_id codelet_id codelet_id, []) after_setup).1.1.
Definition ids_setup : ids1 := Eval vm_compute in (ret_or (r1, mk_ids1 codelet_id codelet_id codelet_id codelet_id, []) after_setup).1.2.

Lemma setup_eq : setup1 ex_env1 10 r1 = Ret (r_setup, ids_setup, []).
Proof. vm_compute. reflexivity. Qed.

Lemma ex_setup1_fresh : setup1_fresh ex_env1 10 r1.
Proof.
  split; [by intros p [= <-]|]. intros gen ra _ H1. apply (register_below 70 50 _ _ _ _ _ _ r1_below) in H1; [|intros p [= <-]; lia].
  split.
  - intros p [= <-]. destruct (req_entries ra !! 71%nat) as [e|] eqn:E; [|done]. apply H1 in E. lia.
  - intros out rb _ H2. apply (register_below _ 50 _ _ _ _ _ _ H1) in H2; [|intros p [= <-]; lia].
    intros p [= <-]. destruct (channels rb !! 50%nat) as [x|] eqn:E; [|done]. apply H2 in E. lia.
Qed.

(** Forwarding keeps a request. *)
Lemma forward_holds a aid sid msgs (r : ex_router) : holds_request a aid sid r -> holds_request a aid sid (forward_all msgs r).
Proof.
  revert r. induction msgs as [|[s b] msgs IH]; intros r H; cbn [forward_all]; [exact H|]. apply IH. clear IH.
  pose proof H as (W & (d & Hd & Hi) & Hs).
  destruct (forward_any r s [b] W) as [(r' & ev & E & W' & _ & Hctx & Hsub & _)|[E _]]; rewrite E; [|exact H].
  pose proof (wf_dapp _ W _ _ Hd) as Hslot. rewrite <- Hctx in Hslot.
  destruct (wf_app _ W' _ _ Hslot) as (_ & d' & Hd' & Hi' & _).
  split; [exact W'|]. split; [exists d'; split; [exact Hd'|congruence]|]. by rewrite Hsub.
Qed.

Lemma run1_returns : exists st out r' io', AdvancedExample1.jrtc_start_app ex_env1 10 r1 (∅ : ex_io) = Ret (st, out, r', io').
Proof.
  unfold AdvancedExample1.jrtc_start_app. rewrite setup_eq. cbn [mbind outcome_bind].
  match goal with |- exists st out r' io', ?m = _ => assert (H : is_ret m = true) by (vm_compute; reflexivity);
    destruct m as [[[[st out] r'] io']|]; [|discriminate H] end. by exists st, out, r', io'.
Qed.

Lemma turns1_hold : Forall (λ t, forall r io, holds_request 10 0 (i1_app2 ids_setup) r ->
  holds_request 10 0 (i1_app2 ids_setup) (t_others t (r, io)).1) (e1_turns ex_env1).
Proof. apply Forall_singleton. intros r io H. by apply forward_holds. Qed.

Lemma advanced_example1_leaves_request_witness : exists st out r' io',
  AdvancedExample1.jrtc_start_app ex_env1 10 r1 (∅ : ex_io) = Ret (st, out, r', io') /\ subscribed r' (app_id d1) (i1_app2 ids_setup) = true.
Proof.
  destruct run1_returns as (st & out & r' & io' & E). exists st, out, r', io'. split; [exact E|].
  exact (proj1 (advanced_example1_leaves_request ex_env1 10 d1 r1 (∅ : ex_io) st out r' io' r_setup ids_setup [] r1_inv r1_d1
    ex_setup1_fresh setup_eq turns1_hold E)).
Defined.

(** ** advanced_example, second application *)

Definition gen2_path : string := "AdvancedExample2://jbpf_agent/data_generator_pb_codeletset/codelet".
Definition gen2_id : jrtc_router_stream_id :=
  Eval vm_compute in ret_id (generate all_memory JRTC_ROUTER_DEST_ANY JRTC_ROUTER_DEVICE_ID_ANY gen2_path "ringbuf").
Definition gen2_msg : jrtc_router_stream_id := Eval vm_compute in sid_of gen2_path "ringbuf".

(** Its output channel is at 51. *)
Definition chan_51 : dapp_channel_ctx := mk_channel 61 gen2_msg 10 true.
Definition call_51 : call_env := mk_call_env (fun _ => 0) (fun _ => Some [0; 0; 0; 0]) (fun _ _ _ => 0) le32 {[51%nat := chan_51]}.
Definition batches_2 : list (call_env * list jrtc_router_data_entry) :=
  [(call_51, entry_of gen2_msg <$> [1; 2]); (call_51, entry_of gen2_msg <$> [3])].
Definition items_51 : list StreamItem := [mk_item gen2_id true None; mk_item gen2_msg false (Some 51%nat); mk_item control_id false None].

Lemma takes_51 : io_takes 51 call_51.
Proof. exists chan_51, [0; 0; 0; 0]. by split_and!. Qed.
Lemma accepts_51 : io_accepts items_51 call_51.
Proof. exists (mk_item gen2_msg false (Some 51%nat)), 51%nat, chan_51, [0; 0; 0; 0]. by split_and!. Qed.
Lemma number_51 v : v <> 0 -> entry_number gen2_id call_51 (entry_of gen2_msg v) v.
Proof. intros H. split; [vm_compute; reflexivity|]. split; [exact H|]. exists []. by rewrite app_nil_r. Qed.
Lemma holds_51 i v : call_holds (call_51, i, entry_of gen2_msg v) v.
Proof. split; [|done]. exists []. by rewrite app_nil_r. Qed.

Lemma advanced_example2_agrees_witness : exists st out st' out',
  on_batches (on_batch2 gen2_id control_id 51) batches_2 vars2_init = Ret (st, out) /\
  handle_calls (AdvancedExampleC2.app_handler items_51) ((λ v, (call_51, 0%nat, entry_of gen2_msg v)) <$> [1; 2; 3])
    (AdvancedExampleC2.mk_state 0 0) = Ret (st', out') /\
  messages out = messages out' /\ released out = [1; 2; 3].
Proof.
  destruct (advanced_example2_agrees gen2_id control_id 51 batches_2 [[1; 2]; [3]] items_51 (mk_item control_id false None)
    ((λ v, (call_51, 0%nat, entry_of gen2_msg v)) <$> [1; 2; 3])) as (st & out & st' & out' & E & E' & _ & _ & _ & Hm & Hr).
  - apply Forall_cons. split; [exact takes_51|]. apply Forall_singleton. exact takes_51.
  - constructor; [|constructor; [|constructor]]; repeat first [apply Forall2_cons; split; [apply number_51; discriminate|]|apply Forall2_nil; exact I].
  - reflexivity.
  - reflexivity.
  - repeat first [apply Forall_cons; split; [split; [reflexivity|exact accepts_51]|]|apply Forall_nil; exact I].
  - repeat first [apply Forall2_cons; split; [apply holds_51|]|apply Forall2_nil; exact I].
  - vm_compute. discriminate.
  - exists st, out, st', out'. split; [exact E|]. split; [exact E'|]. split; [exact Hm|exact Hr].
Defined.

(** There is no memory for the third id, and nobody has a channel with the id of zeros. *)
Definition ex_env2 : env2 (list bool) (list (list Z * nat)) (list (nat * nat)) ring_ref (Z * list nat) ex_io :=
  mk_env2 (fun i => if decide (i = 2)%nat then ((false, true), (true, true)) else all_memory) (mk_request_env (Some 70%nat) true)
    (mk_channel_env (Some 50%nat) (Some 60%nat) 5 (fun _ => [])) 1 (fun _ _ => false) [].

Definition out2_id : jrtc_router_stream_id :=
  Eval vm_compute in ret_id (generate all_memory JRTC_ROUTER_DEST_NONE 0 "AdvancedExample2://intraapp" "buffer").
Definition r_gen2 : ex_router :=
  Eval vm_compute in (ret_or (r1, 0) (jrtc_router_channel_register_stream_id_req r1 (e2_req ex_env2) (Some 10%nat) gen2_id)).1.
Definition r_out2 : ex_router :=
  Eval vm_compute in (ret_or (r1, None, []) (jrtc_router_channel_create r_gen2 (e2_chan ex_env2) (Some 10%nat) true out2_id)).1.1.

Lemma advanced_example2_waits_forever_witness : forall fuel,
  AdvancedExample2.jrtc_start_app
    (mk_env2 (e2_ids ex_env2) (e2_req ex_env2) (e2_chan ex_env2) fuel (e2_find ex_env2) (e2_turns ex_env2)) 10 r1 (∅ : ex_io) = Fault Divergence.
Proof.
  refine (advanced_example2_waits_forever ex_env2 10 r1 (∅ : ex_io) true (true, true) gen2_id r_gen2 out2_id r_out2 50 [] _ _ _ _ _ _).
  - vm_compute. reflexivity.
  - vm_compute. reflexivity.
  - vm_compute. reflexivity.
  - vm_compute. reflexivity.
  - reflexivity.
  - reflexivity.
Defined.

(** ** Objects of the application class *)

Lemma object_lifecycle_witness : exists heap1 r' io' ev,
  jrtc_app_run 1 ex_app_env 0 [ex_round_quiet; ex_round_quiet] ex_mem (<[1%nat := mk_JrtcApp 10 ex_cfg []]> ∅) (Some 1%nat) r1 (∅ : ex_io) =
    Ret (r', io', heap1, ev) /\ jrtc_app_destroy heap1 (Some 1%nat) = Ret ∅.
Proof.
  destruct (object_lifecycle 1 1 ex_cfg 10 d1 ex_app_env 0 [ex_round_quiet; ex_round_quiet] ex_mem ∅ r1 (∅ : ex_io) (lookup_empty _) ex_run_assumptions)
    as (heap0 & heap1 & r' & io' & ev & E0 & E & Ed & _). injection E0 as <-. exists heap1, r', io', ev. split; [exact E|exact Ed].
Defined.

(** The memory of the key of channel 51 still holds the id: the first run
    destroys the channel. *)
Definition mem_tx (k addr : nat) : list Z := if decide (addr = 5)%nat then id (ch_stream_id ex_channel_51) else [].

Definition d_app : dapp_router_ctx (list (nat * nat)) ring_ref (Z * list nat) := mk_dapp (mk_ring 3 0 []) 4 (3, []) ∅ [(5, 51)]%nat [] 0.
Lemma r_app_app : dapps r_app !! 10%nat = Some d_app.
Proof. vm_compute. reflexivity. Qed.

Lemma keys_tx : keys_ok mem_tx 10 r_app.
Proof.
  intros k p x d Hd Hx _ e He Hm. rewrite r_app_channels in Hx. apply lookup_singleton_Some in Hx as [<- <-].
  rewrite r_app_app in Hd. injection Hd as <-. apply list_elem_of_singleton in He as ->. reflexivity.
Qed.

Lemma first_run_assumptions : run_assumptions 1 ex_cfg 10 d1 ex_app_env [ex_round_quiet] mem_tx r1.
Proof.
  constructor; [exact r1_inv|exact r1_d1|exact r1_none|exact ex_allocs_fresh| |by vm_compute|].
  - exists 0%nat. split; [exact ex_time_ends|lia].
  - intros r' items ok ev E. destruct (ret_front _ _ _ _ _ _ _ ex_init_streams E) as [<- <-].
    split; [exact keys_tx|]. apply Forall_singleton. intros r io H. exact H.
Qed.

Definition first_run : outcome (ex_router * ex_io * gmap nat JrtcAppObj * list app_event) :=
  jrtc_app_run 1 ex_app_env 0 [ex_round_quiet] mem_tx (<[1%nat := mk_JrtcApp 10 ex_cfg []]> ∅) (Some 1%nat) r1 ∅.
Definition r_again : ex_router := Eval vm_compute in (ret_or (r1, ∅, ∅, []) first_run).1.1.1.

Lemma first_run_eq : (λ x, (x.1.1.1, x.1.2)) <$> first_run = Ret (r_again, <[1%nat := mk_JrtcApp 10 ex_cfg ex_items]> ∅).
Proof. vm_compute. reflexivity. Qed.

Lemma ret_inj {A} (a b : A) : Ret a = Ret b -> a = b.
Proof. congruence. Qed.

Lemma r_again_facts : router_wf r_again /\ forall s, subscribed r_again 0 s = false.
Proof.
  destruct (create_run 1 1 ex_cfg 10 d1 ex_app_env 0 [ex_round_quiet] mem_tx ∅ r1 (∅ : ex_io) first_run_assumptions)
    as (heap0 & r' & io' & items & ev & E0 & _ & E & Hi & Hn & _). injection E0 as <-.
  pose proof first_run_eq as H. unfold first_run in H. rewrite E in H. cbn [fmap outcome_fmap fst snd] in H.
  apply ret_inj in H. injection H as <- _. split; [exact Hi|exact Hn].
Qed.

(** The second run gets other addresses. *)
Definition env_again : app_env :=
  mk_app_env (fun i => mk_stream_env (true, true) (true, true) (mk_channel_env (Some (20 + i)%nat) (Some (90 + i)%nat) 6 (fun _ => []))
    (mk_request_env (Some (70 + i)%nat) true) 1000) (fun _ _ => true) (poll_clock ex_app_env).

Lemma again_counting : counting 70 20 (stream_envs env_again).
Proof. intros i. done. Qed.
Lemma r_again_empty : req_entries r_again = ∅ /\ channels r_again = ∅.
Proof. split; vm_compute; reflexivity. Qed.
Lemma r_again_below : below 70 20 r_again.
Proof. destruct r_again_empty as [E1 E2]. split; intros p x Hp; rewrite ?E1, ?E2 in Hp; by apply lookup_empty_Some in Hp. Qed.

Definition d_again : dapp_router_ctx (list (nat * nat)) ring_ref (Z * list nat) := mk_dapp (mk_ring 3 0 []) 4 (3, []) ∅ [] [] 0.
Lemma r_again_app : dapps r_again !! 10%nat = Some d_again.
Proof. vm_compute. reflexivity. Qed.

Lemma second_run_assumptions : run_assumptions 1 ex_cfg 10 d_again env_again [ex_round_quiet] ex_mem r_again.
Proof.
  constructor; [exact (proj1 r_again_facts)|exact r_again_app|exact (proj2 r_again_facts)
    |exact (counting_fresh 70 20 _ _ _ 0 _ _ again_counting r_again_below)| |by vm_compute|].
  - exists 0%nat. split; [exact ex_time_ends|lia].
  - intros r' items ok ev E. destruct (init_streams_below 70 20 _ _ _ 0 _ _ _ _ _ _ again_counting r_again_below E) as (k & _ & Hk).
    split; [by eapply keys_gone|]. apply Forall_singleton. intros r io H. exact H.
Qed.

