(* ===== verification/RestServer.v ===== *)
(** * The REST server

    [src/src/rest_api_lib/src/lib.rs]: the handlers of the four routes, over the
    callbacks that the controller installs, and the functions that create, start
    and stop the server. The framework (axum, tokio, serde) decodes a request
    and encodes the answer; a handler starts from the decoded request.

    The server runs in one thread and waits only for the lock of the store,
    which no handler keeps while it waits: requests are handled one after the
    other. *)
From stdpp Require Import pretty.
From S2P Require Import Prelude StreamId Ext Router RouterInit Sched Logging Config Controller Process.
From Stdlib Require Import Ascii.

(** ** Data *)

(** [JrtcAppLoadRequest]; the bytes of a [String] are a [string]. *)
Record JrtcAppLoadRequest := mk_payload {
  pl_app : list Z;
  pl_app_name : string;
  pl_runtime_us : Z;
  pl_deadline_us : Z;
  pl_period_us : Z;
  pl_ioq_size : Z;
  pl_app_path : string;
  pl_app_type : string;
  pl_app_params : gmap string string;
  pl_device_mapping : gmap string string;
  pl_app_modules : list string
}.

(** [JrtcAppState]. *)
Record JrtcAppState := mk_app_state {
  as_id : Z;
  as_request : JrtcAppLoadRequest;
  as_start_time : string
}.

(** The body of an answer: one application, all of them, the details of
    [JrtcAppError], or nothing. *)
Inductive body :=
| BApp (a : JrtcAppState)
| BApps (l : list JrtcAppState)
| BError (details : string)
| BNone.

(** [Closed]: the handler panicked, and the connection ends without an answer. *)
Inductive reply :=
| Reply (status : Z) (b : body)
| Closed.

Definition OK : Z := 200.
Definition NO_CONTENT : Z := 204.
Definition BAD_REQUEST : Z := 400.
Definition NOT_FOUND : Z := 404.
Definition INTERNAL_SERVER_ERROR : Z := 500.

(** ** Strings for C *)

(** The strings that were turned into pointers with [into_raw] and not taken
    back with [from_raw], by address. *)
Record raw_heap := mk_raw { raw_strings : gmap nat (list ascii); raw_next : nat }.

(** [CString::new]: a string with a NUL byte in it is an error. *)
Definition cstring_new (s : string) : option (list ascii) :=
  if decide (Ascii.zero ∈ chars s) then None else Some (chars s).

Definition into_raw (h : raw_heap) (s : list ascii) : nat * raw_heap :=
  (raw_next h, mk_raw (<[raw_next h := s]> (raw_strings h)) (S (raw_next h))).

(** [CString::from_raw], whose result is dropped. *)
Definition from_raw (h : raw_heap) (p : nat) : outcome raw_heap :=
  match raw_strings h !! p with
  | Some _ => Ret (mk_raw (delete p (raw_strings h)) (raw_next h))
  | None => Fault DoubleFree
  end.

(** [KeyValuePair] and [LoadAppRequest]: pointers, NULL is [None]. *)
Record KeyValuePair := mk_kvp { kvp_key : option nat; kvp_val : option nat }.

Record LoadAppRequest := mk_c_request {
  cr_app : list Z;
  cr_app_size : Z;
  cr_app_name : nat;
  cr_runtime_us : Z;
  cr_deadline_us : Z;
  cr_period_us : Z;
  cr_ioq_size : Z;
  cr_app_path : nat;
  cr_app_type : nat;
  cr_app_params : list KeyValuePair;
  cr_device_mapping : list KeyValuePair;
  cr_app_modules : list (option nat)
}.

Definition MAX_ENTRIES : nat := 255.

(** The loops over a map, next entry [i], in the order [l] of the iterator;
    without an array as result: a panic of [unwrap]. *)
Fixpoint pairs_loop (i : nat) (l : list (string * string)) (arr : list KeyValuePair) (h : raw_heap) :
    outcome (option (list KeyValuePair) * raw_heap) :=
  match l with
  | [] => Ret (Some arr, h)
  | (key, value) :: l =>
      if decide (MAX_ENTRIES <= i)%nat then Ret (Some arr, h)
      else
        match cstring_new key with
        | None => Ret (None, h)
        | Some k =>
            let '(c_key, h) := into_raw h k in
            match cstring_new value with
            | None => Ret (None, h)
            | Some v =>
                let '(c_val, h) := into_raw h v in
                arr ← array_set arr i (mk_kvp (Some c_key) (Some c_val));
                pairs_loop (S i) l arr h
            end
        end
  end.

Fixpoint modules_loop (i : nat) (l : list string) (arr : list (option nat)) (h : raw_heap) :
    outcome (option (list (option nat)) * raw_heap) :=
  match l with
  | [] => Ret (Some arr, h)
  | module :: l =>
      if decide (MAX_ENTRIES <= i)%nat then Ret (Some arr, h)
      else
        match cstring_new module with
        | None => Ret (None, h)
        | Some m =>
            let '(c_module, h) := into_raw h m in
            arr ← array_set arr i (Some c_module);
            modules_loop (S i) l arr h
        end
  end.

(** What C reads through the pointers of the request. *)
Definition c_string (h : raw_heap) (p : option nat) : outcome cstring :=
  match p with
  | None => Ret None
  | Some p => s ← deref (raw_strings h) p; Ret (Some s)
  end.

Definition c_pair (h : raw_heap) (p : KeyValuePair) : outcome key_value_pair :=
  k ← c_string h (kvp_key p);
  v ← c_string h (kvp_val p);
  Ret (mk_kv k v).

Definition c_view (h : raw_heap) (r : LoadAppRequest) : outcome load_app_request :=
  name ← c_string h (Some (cr_app_name r));
  path ← c_string h (Some (cr_app_path r));
  type ← c_string h (Some (cr_app_type r));
  params ← mapM (c_pair h) (cr_app_params r);
  mapping ← mapM (c_pair h) (cr_device_mapping r);
  modules ← mapM (c_string h) (cr_app_modules r);
  Ret (mk_load_req (Some (cr_app r)) (cr_app_size r) name (cr_runtime_us r) (cr_deadline_us r) (cr_period_us r)
         (cr_ioq_size r) path type params mapping modules).

(** ** Handlers

    [W] is the state behind the callbacks. *)
Section Handlers.
Context {W : Type}.

(** [Callbacks]. *)
Record Callbacks := mk_callbacks {
  cb_load_app : option (W -> load_app_request -> outcome (W * Z));
  cb_unload_app : option (W -> Z -> outcome (W * Z))
}.

(** [ServerState], with the strings that C holds and the state of the callbacks. *)
Record ServerState := mk_server { store : list JrtcAppState; raw : raw_heap; world : W }.

Definition get_app (id : Z) (st : ServerState) : reply :=
  match list_find (λ a, as_id a = id) (store st) with
  | Some (_, x) => Reply OK (BApp x)
  | None => Reply NOT_FOUND (BError (String.append "id = " (pretty id)))
  end.

Definition get_apps (st : ServerState) : reply := Reply OK (BApps (store st)).

(** The pointers, made in the order of the source. *)
Definition marshal (pl : JrtcAppLoadRequest) (params mapping : list (string * string)) (name path type : list ascii)
    (h : raw_heap) : outcome (option LoadAppRequest * raw_heap) :=
  '(c_params, h) ← pairs_loop 0 params (replicate MAX_ENTRIES (mk_kvp None None)) h;
  match c_params with
  | None => Ret (None, h)
  | Some c_params =>
      '(c_mapping, h) ← pairs_loop 0 mapping (replicate MAX_ENTRIES (mk_kvp None None)) h;
      match c_mapping with
      | None => Ret (None, h)
      | Some c_mapping =>
          '(c_modules, h) ← modules_loop 0 (pl_app_modules pl) (replicate MAX_ENTRIES None) h;
          match c_modules with
          | None => Ret (None, h)
          | Some c_modules =>
              let '(c_name, h) := into_raw h name in
              let '(c_path, h) := into_raw h path in
              let '(c_type, h) := into_raw h type in
              Ret (Some (mk_c_request (pl_app pl) (Z.of_nat (length (pl_app pl))) c_name (pl_runtime_us pl)
                     (pl_deadline_us pl) (pl_period_us pl) (pl_ioq_size pl) c_path c_type c_params c_mapping c_modules), h)
          end
      end
  end.

(** The answer to what the callback returned. *)
Definition loaded_reply (pl : JrtcAppLoadRequest) (now : string) (response : Z) (st : ServerState) : reply * ServerState :=
  if response =? -1 then (Reply BAD_REQUEST (BError "Bad request"), st)
  else if response <=? -2 then (Reply INTERNAL_SERVER_ERROR (BError "Internal server error"), st)
  else
    let app := mk_app_state response pl now in
    (Reply OK (BApp app), mk_server (store st ++ [app]) (raw st) (world st)).

Definition bad_string (what : string) (s : string) : reply :=
  Reply BAD_REQUEST (BError (String.append what (String.append " cannot be converted into c string = " s))).

(** [load_app]: [params] and [mapping] are the orders in which the maps of the
    request are iterated, [now] is the formatted time. *)
Definition rest_load_app (cbs : Callbacks) (pl : JrtcAppLoadRequest) (params mapping : list (string * string)) (now : string)
    (st : ServerState) : outcome (reply * ServerState) :=
  match cstring_new (pl_app_name pl) with
  | None => Ret (bad_string "app_name" (pl_app_name pl), st)
  | Some name =>
  match cstring_new (pl_app_path pl) with
  | None => Ret (bad_string "app_path" (pl_app_path pl), st)
  | Some path =>
  match cstring_new (pl_app_type pl) with
  | None => Ret (bad_string "app_type" (pl_app_type pl), st)
  | Some type =>
      '(req, h) ← marshal pl params mapping name path type (raw st);
      match req with
      | None => Ret (Closed, mk_server (store st) h (world st))
      | Some req =>
          match cb_load_app cbs with
          | None => Ret (Reply INTERNAL_SERVER_ERROR (BError "load_app callback is not set"), mk_server (store st) h (world st))
          | Some load_app_cbk =>
              load_req ← c_view h req;
              '(w, response) ← load_app_cbk (world st) load_req;
              h ← from_raw h (cr_app_name req);
              h ← from_raw h (cr_app_path req);
              h ← from_raw h (cr_app_type req);
              Ret (loaded_reply pl now response (mk_server (store st) h w))
          end
      end
  end
  end
  end.

(** [unload_app]. *)
Definition rest_unload_app (cbs : Callbacks) (id : Z) (st : ServerState) : outcome (reply * ServerState) :=
  match cb_unload_app cbs with
  | None => Ret (Reply INTERNAL_SERVER_ERROR BNone, st)
  | Some unload_app_cbk =>
      '(w, response) ← unload_app_cbk (world st) id;
      let st := mk_server (store st) (raw st) w in
      if response =? -1 then Ret (Reply NO_CONTENT BNone, st)
      else if response <=? -2 then Ret (Reply INTERNAL_SERVER_ERROR (BError "Internal server error"), st)
      else
        match list_find (λ a, as_id a = id) (store st) with
        | Some (index, _) => Ret (Reply NO_CONTENT BNone, mk_server (delete index (store st)) (raw st) w)
        | None => Ret (Reply NOT_FOUND (BError "App not found"), st)
        end
  end.

End Handlers.

#[global] Arguments Callbacks : clear implicits.
#[global] Arguments ServerState : clear implicits.

(** ** The server of the controller *)

Section Server.
Context {cs : CharSign}.
Context {B It T C R M S : Type}.
Context `{HB : CkBitmap B It} `{HT : CkHt T nat} `{HC : CkPtrHt C} `{HR : CkRing R} `{HM : Mempool M} `{HS : JbpfIo S}.

Abbreviation ctl := (controller B T C R M).
Abbreviation server := (ServerState (ctl * list ctl_event)).

(** The callbacks of [_start_rest_server], with what the system calls of one
    request return; the second component collects the calls that are observable. *)
Definition ctl_callbacks (env : load_env) (join : unload_env) : Callbacks (ctl * list ctl_event) :=
  mk_callbacks
    (Some (λ '(st, tr) rq, '(st, res, ev) ← load_app st rq env; Ret (st, tr ++ ev, res)))
    (Some (λ '(st, tr) id, '(st, res, ev) ← unload_app st id join; Ret (st, tr ++ ev, res))).

(** The routes of [spawn_server], and the start of the thread of an
    application, which happens beside them. *)
Inductive rest_op :=
| GetApps
| GetApp (id : Z)
| PostApp (pl : JrtcAppLoadRequest) (params mapping : list (string * string)) (now : string) (env : load_env)
| DeleteApp (id : Z) (join : unload_env)
| AppThread (os : sched_call -> Z) (p : nat) (renv : register_env C M) (has_entry : bool).

Definition with_world (st : server) (w : ctl * list ctl_event) : server := mk_server (store st) (raw st) w.

Definition rest_exec (up : bool) (st : server) (op : rest_op) : outcome (option reply * server) :=
  match op with
  | GetApps => Ret (Some (get_apps st), st)
  | GetApp id => Ret (Some (get_app id st), st)
  | PostApp pl params mapping now env =>
      '(r, st) ← rest_load_app (ctl_callbacks env unload_fine) pl params mapping now st; Ret (Some r, st)
  | DeleteApp id join =>
      '(r, st) ← rest_unload_app (ctl_callbacks (mk_load_env None None 0) join) id st; Ret (Some r, st)
  | AppThread os p renv has_entry =>
      '(w, ev) ← ctl_exec up (world st).1 (OpRun os p renv has_entry);
      Ret (None, with_world st (w, (world st).2 ++ ev))
  end.

Fixpoint rest_serve (up : bool) (st : server) (ops : list rest_op) : outcome (list (option reply) * server) :=
  match ops with
  | [] => Ret ([], st)
  | op :: ops =>
      '(r, st) ← rest_exec up st op;
      '(rs, st) ← rest_serve up st ops;
      Ret (r :: rs, st)
  end.

End Server.

(** ** The handle of the server *)

(** The reference counts of [Arc<Handle>] by address, and the state that all
    clones of a [Handle] share: whether the shutdown was requested. *)
Record handle_heap := mk_handles { arcs : gmap nat nat; shutdown : bool }.

Definition arc_clone (h : handle_heap) (p : nat) : outcome handle_heap :=
  match arcs h !! p with
  | Some n => Ret (mk_handles (<[p := S n]> (arcs h)) (shutdown h))
  | None => Fault UseAfterFree
  end.

Definition arc_drop (h : handle_heap) (p : nat) : outcome handle_heap :=
  match arcs h !! p with
  | Some (S (S n)) => Ret (mk_handles (<[p := S n]> (arcs h)) (shutdown h))
  | Some _ => Ret (mk_handles (delete p (arcs h)) (shutdown h))
  | None => Fault UseAfterFree
  end.

(** [p] is the address of the allocation. *)
Definition jrtc_create_rest_server (h : handle_heap) (p : nat) : option nat * handle_heap :=
  (Some p, mk_handles (<[p := 1%nat]> (arcs h)) (shutdown h)).

(** [jrtc_start_rest_server] up to the call of [spawn_server]: the port it
    binds and the handle that the server watches, or [None] for an early
    return. The C declaration has an [unsigned int] for the port, the function
    takes a [u16]. What follows [spawn_server] gives the pointer back and
    accesses nothing. *)
Definition jrtc_start_rest_server (h : handle_heap) (ptr : option nat) (port : Z) (cbs : bool) : outcome (option Z) :=
  match ptr with
  | Some p => if cbs then (_ ← deref (arcs h) p; Ret (Some (u16 port))) else Ret None
  | None => Ret None
  end.

(** [stop_server], on a clone of the handle which it drops at its end. *)
Definition stop_server (h : handle_heap) (p : nat) : outcome handle_heap :=
  _ ← deref (arcs h) p;
  arc_drop (mk_handles (arcs h) true) p.

(** [jrtc_stop_rest_server], which waits until the thread it starts has sent
    the signal; a panic in it cannot leave the function. The reference it took
    over belongs to that thread. *)
Definition jrtc_stop_rest_server (h : handle_heap) (ptr : option nat) : outcome handle_heap :=
  match ptr with
  | None => Fault Aborted
  | Some p =>
      h ← arc_clone h p;
      stop_server h p
  end.

(** The end of that thread, at some time after the function has returned:
    [drop(handle)]. *)
Definition stop_thread_end (h : handle_heap) (p : nat) : outcome handle_heap := arc_drop h p.
