(* ===== verification/RestServerFacts.v ===== *)
(** * Properties of the REST server's handlers

    What C sees of a request, for every order in which its maps are iterated;
    which strings are never taken back; the life of the server's handle when
    the threads that use it interleave. *)
From S2P Require Import Prelude StreamId Ext Router RouterInit Sched Logging Config Controller Process RestServer.
From Stdlib Require Import Ascii.

(** ** Results of [mapM] *)

Lemma mapM_ret {A B} (f : A -> outcome B) (l : list A) (k : list B) :
  Forall2 (λ x y, f x = Ret y) l k -> mapM f l = Ret k.
Proof. induction 1 as [|x y l k E _ IH]; [done|]. cbn. by rewrite E; cbn; rewrite IH. Qed.

(** ** The strings *)

(** Addresses that are not handed out yet are unused. *)
Definition raw_ok (h : raw_heap) : Prop := forall p, is_Some (raw_strings h !! p) -> (p < raw_next h)%nat.

(** Later: [n] strings more, and all the old ones. *)
Record later (n : nat) (h h' : raw_heap) : Prop := {
  lt_ok : raw_ok h';
  lt_sub : raw_strings h ⊆ raw_strings h';
  lt_size : size (raw_strings h') = (size (raw_strings h) + n)%nat
}.

Lemma later_refl h : raw_ok h -> later 0 h h.
Proof. intros H. split; [done|done|lia]. Qed.

Lemma later_trans n m h1 h2 h3 : later n h1 h2 -> later m h2 h3 -> later (n + m) h1 h3.
Proof. intros [] []. split; [done|by etrans|lia]. Qed.

Lemma raw_unused h : raw_ok h -> raw_strings h !! raw_next h = None.
Proof. intros H. apply eq_None_not_Some. intros Hs%H. lia. Qed.

Lemma from_raw_live h p s : raw_strings h !! p = Some s -> from_raw h p = Ret (mk_raw (delete p (raw_strings h)) (raw_next h)).
Proof. unfold from_raw. by intros ->. Qed.

Lemma into_raw_facts h s : raw_ok h ->
  let '(p, h') := into_raw h s in later 1 h h' /\ raw_strings h' !! p = Some s.
Proof.
  intros H. cbn. pose proof (raw_unused h H) as Hn. split; [split|by rewrite lookup_insert_eq].
  - intros p. cbn. destruct (decide (p = raw_next h)) as [->|]; [lia|]. rewrite lookup_insert_ne by done. intros Hp%H. lia.
  - by apply insert_subseteq.
  - cbn. rewrite map_size_insert_None by done. lia.
Qed.

Definition clean (s : string) : Prop := Ascii.zero ∉ chars s.
#[global] Instance clean_dec s : Decision (clean s).
Proof. unfold clean. apply _. Defined.

Lemma cstring_new_clean s : clean s -> cstring_new s = Some (chars s).
Proof. unfold clean, cstring_new. intros H. by rewrite decide_False. Qed.
Lemma cstring_new_unclean s : ~ clean s -> cstring_new s = None.
Proof. unfold clean, cstring_new. intros H. rewrite decide_True; [done|]. by apply dec_stable. Qed.

(** Reading through a pointer gives the same later. *)
Lemma c_string_later n h h' p s : later n h h' -> c_string h p = Ret s -> c_string h' p = Ret s.
Proof.
  intros L. destruct p as [p|]; cbn; [|done]. unfold deref. destruct (raw_strings h !! p) as [x|] eqn:E; [|done].
  by rewrite (lookup_weaken _ _ _ _ E (lt_sub _ _ _ L)).
Qed.

Lemma c_pair_later n h h' p kv : later n h h' -> c_pair h p = Ret kv -> c_pair h' p = Ret kv.
Proof.
  intros L E. unfold c_pair in *. apply bind_ret_inv in E as (k & Ek & E). apply bind_ret_inv in E as (v & Ev & E).
  by rewrite (c_string_later _ _ _ _ _ L Ek), (c_string_later _ _ _ _ _ L Ev).
Qed.

(** ** The loops *)

Definition clean_pair (kv : string * string) : Prop := clean kv.1 /\ clean kv.2.
#[global] Instance clean_pair_dec kv : Decision (clean_pair kv).
Proof. unfold clean_pair. apply _. Defined.

Definition kv_of (kv : string * string) : key_value_pair := mk_kv (Some (chars kv.1)) (Some (chars kv.2)).
Definition module_of (m : string) : cstring := Some (chars m).

Lemma pairs_loop_facts l : forall i arr vs h, raw_ok h -> (i <= MAX_ENTRIES)%nat -> length arr = MAX_ENTRIES ->
  Forall2 (λ x y, c_pair h x = Ret y) arr vs ->
  let used := take (MAX_ENTRIES - i) l in
  exists o n h', pairs_loop i l arr h = Ret (o, h') /\ later n h h' /\
    match o with
    | Some arr' => Forall clean_pair used /\ n = (2 * length used)%nat /\
        Forall2 (λ x y, c_pair h' x = Ret y) arr' (list_inserts i (kv_of <$> used) vs)
    | None => ~ Forall clean_pair used
    end.
Proof.
  induction l as [|[k v] l IH]; intros i arr vs h Hh Hi Hl Hvs; cbn [pairs_loop].
  { rewrite take_nil. exists (Some arr), 0%nat, h. split_and!; [done|by apply later_refl|done|done|done]. }
  case_decide as Hge.
  { replace (MAX_ENTRIES - i)%nat with 0%nat by lia. cbn [take].
    exists (Some arr), 0%nat, h. split_and!; [done|by apply later_refl|done|done|done]. }
  replace (MAX_ENTRIES - i)%nat with (S (MAX_ENTRIES - S i)) by lia. cbn [take].
  destruct (decide (clean k)) as [Hk|Hk].
  2:{ rewrite cstring_new_unclean by done. exists None, 0%nat, h. split_and!; [done|by apply later_refl|].
      intros [[? ?] _]%Forall_cons. by apply Hk. }
  rewrite cstring_new_clean by done. pose proof (into_raw_facts h (chars k) Hh) as F1.
  destruct (into_raw h (chars k)) as [pk h1]. destruct F1 as [L1 E1]. cbv beta iota.
  destruct (decide (clean v)) as [Hv|Hv].
  2:{ rewrite cstring_new_unclean by done. exists None, 1%nat, h1. split_and!; [done|done|].
      intros [[? ?] _]%Forall_cons. by apply Hv. }
  rewrite cstring_new_clean by done. pose proof (into_raw_facts h1 (chars v) (lt_ok _ _ _ L1)) as F2.
  destruct (into_raw h1 (chars v)) as [pv h2]. destruct F2 as [L2 E2]. cbv beta iota.
  rewrite array_set_lt by lia. cbn [mbind outcome_bind].
  pose proof (later_trans _ _ _ _ _ L1 L2) as L. set (arr1 := <[i := mk_kvp (Some pk) (Some pv)]> arr).
  destruct (IH (S i) arr1 (<[i := kv_of (k, v)]> vs) h2) as (o & n & h' & E & L' & Ho).
  - apply (lt_ok _ _ _ L2).
  - lia.
  - unfold arr1. by rewrite length_insert.
  - apply Forall2_insert.
    + eapply Forall2_impl; [exact Hvs|]. intros x y. by apply c_pair_later with (n := (1 + 1)%nat).
    + unfold c_pair. cbn. unfold deref. by rewrite (lookup_weaken _ _ _ _ E1 (lt_sub _ _ _ L2)), E2.
  - exists o, (2 + n)%nat, h'. split_and!; [done|apply (later_trans _ _ _ _ _ L L')|].
    destruct o as [arr'|].
    + destruct Ho as (H1 & -> & H2). split_and!; [by constructor|cbn [length]; lia|].
      rewrite fmap_cons. cbn [list_inserts]. by rewrite list_insert_inserts_lt by lia.
    + intros [_ ?]%Forall_cons. by apply Ho.
Qed.

Lemma modules_loop_facts l : forall i arr vs h, raw_ok h -> (i <= MAX_ENTRIES)%nat -> length arr = MAX_ENTRIES ->
  Forall2 (λ x y, c_string h x = Ret y) arr vs ->
  let used := take (MAX_ENTRIES - i) l in
  exists o n h', modules_loop i l arr h = Ret (o, h') /\ later n h h' /\
    match o with
    | Some arr' => Forall clean used /\ n = length used /\
        Forall2 (λ x y, c_string h' x = Ret y) arr' (list_inserts i (module_of <$> used) vs)
    | None => ~ Forall clean used
    end.
Proof.
  induction l as [|m l IH]; intros i arr vs h Hh Hi Hl Hvs; cbn [modules_loop].
  { rewrite take_nil. exists (Some arr), 0%nat, h. split_and!; [done|by apply later_refl|done|done|done]. }
  case_decide as Hge.
  { replace (MAX_ENTRIES - i)%nat with 0%nat by lia. cbn [take].
    exists (Some arr), 0%nat, h. split_and!; [done|by apply later_refl|done|done|done]. }
  replace (MAX_ENTRIES - i)%nat with (S (MAX_ENTRIES - S i)) by lia. cbn [take].
  destruct (decide (clean m)) as [Hm|Hm].
  2:{ rewrite cstring_new_unclean by done. exists None, 0%nat, h. split_and!; [done|by apply later_refl|].
      intros [? _]%Forall_cons. by apply Hm. }
  rewrite cstring_new_clean by done. pose proof (into_raw_facts h (chars m) Hh) as F1.
  destruct (into_raw h (chars m)) as [pm h1]. destruct F1 as [L1 E1]. cbv beta iota.
  rewrite array_set_lt by lia. cbn [mbind outcome_bind]. set (arr1 := <[i := Some pm]> arr).
  destruct (IH (S i) arr1 (<[i := module_of m]> vs) h1) as (o & n & h' & E & L' & Ho).
  - apply (lt_ok _ _ _ L1).
  - lia.
  - unfold arr1. by rewrite length_insert.
  - apply Forall2_insert.
    + eapply Forall2_impl; [exact Hvs|]. intros x y. by apply c_string_later with (n := 1%nat).
    + cbn. unfold deref. by rewrite E1.
  - exists o, (1 + n)%nat, h'. split_and!; [done|apply (later_trans _ _ _ _ _ L1 L')|].
    destruct o as [arr'|].
    + destruct Ho as (H1 & -> & H2). split_and!; [by constructor|cbn [length]; lia|].
      rewrite fmap_cons. cbn [list_inserts]. by rewrite list_insert_inserts_lt by lia.
    + intros [_ ?]%Forall_cons. by apply Ho.
Qed.

(** ** What C is given *)

(** An array of 255 entries that starts with [xs]. *)
Definition padded {A} (xs : list A) (d : A) : list A := xs ++ replicate (MAX_ENTRIES - length xs) d.

Lemma inserts_padded {A} (xs : list A) d : (length xs <= MAX_ENTRIES)%nat ->
  list_inserts 0 xs (replicate MAX_ENTRIES d) = padded xs d.
Proof.
  unfold padded. intros H. replace MAX_ENTRIES with (length xs + (MAX_ENTRIES - length xs))%nat at 1 by lia.
  rewrite replicate_add. rewrite list_inserts_0_r by (rewrite length_replicate; lia). done.
Qed.

(** The request without pointers: at most 255 entries of each kind, the rest NULL. *)
Definition request_of (pl : JrtcAppLoadRequest) (params mapping : list (string * string)) : load_app_request :=
  mk_load_req (Some (pl_app pl)) (Z.of_nat (length (pl_app pl))) (Some (chars (pl_app_name pl))) (pl_runtime_us pl)
    (pl_deadline_us pl) (pl_period_us pl) (pl_ioq_size pl) (Some (chars (pl_app_path pl))) (Some (chars (pl_app_type pl)))
    (padded (kv_of <$> take MAX_ENTRIES params) (mk_kv None None))
    (padded (kv_of <$> take MAX_ENTRIES mapping) (mk_kv None None))
    (padded (module_of <$> take MAX_ENTRIES (pl_app_modules pl)) None).

(** The strings of the entries that are used have no NUL byte. *)
Definition clean_entries (pl : JrtcAppLoadRequest) (params mapping : list (string * string)) : Prop :=
  Forall clean_pair (take MAX_ENTRIES params) /\ Forall clean_pair (take MAX_ENTRIES mapping) /\
  Forall clean (take MAX_ENTRIES (pl_app_modules pl)).
#[global] Instance clean_entries_dec pl params mapping : Decision (clean_entries pl params mapping).
Proof. unfold clean_entries. apply _. Defined.

(** The number of strings in them. *)
Definition entry_strings (pl : JrtcAppLoadRequest) (params mapping : list (string * string)) : nat :=
  2 * length (take MAX_ENTRIES params) + 2 * length (take MAX_ENTRIES mapping) + length (take MAX_ENTRIES (pl_app_modules pl)).

Lemma null_pairs h : Forall2 (λ x y, c_pair h x = Ret y) (replicate MAX_ENTRIES (mk_kvp None None)) (replicate MAX_ENTRIES (mk_kv None None)).
Proof. apply Forall2_replicate. done. Qed.
Lemma null_strings h : Forall2 (λ x y, c_string h x = Ret y) (replicate MAX_ENTRIES None) (replicate MAX_ENTRIES None).
Proof. apply Forall2_replicate. done. Qed.

Lemma pairs_loop_0 l h : raw_ok h -> let used := take MAX_ENTRIES l in
  exists o n h', pairs_loop 0 l (replicate MAX_ENTRIES (mk_kvp None None)) h = Ret (o, h') /\ later n h h' /\
    match o with
    | Some arr' => Forall clean_pair used /\ n = (2 * length used)%nat /\
        Forall2 (λ x y, c_pair h' x = Ret y) arr' (padded (kv_of <$> used) (mk_kv None None))
    | None => ~ Forall clean_pair used
    end.
Proof.
  intros Hh used. destruct (pairs_loop_facts l 0 _ _ h Hh (Nat.le_0_l _) (length_replicate _ _) (null_pairs h))
    as (o & n & h' & E & L & Ho). rewrite Nat.sub_0_r in Ho. exists o, n, h'. split_and!; [done|done|].
  destruct o; [|done]. rewrite inserts_padded in Ho by (rewrite length_fmap, length_take; lia). done.
Qed.

Lemma modules_loop_0 l h : raw_ok h -> let used := take MAX_ENTRIES l in
  exists o n h', modules_loop 0 l (replicate MAX_ENTRIES None) h = Ret (o, h') /\ later n h h' /\
    match o with
    | Some arr' => Forall clean used /\ n = length used /\
        Forall2 (λ x y, c_string h' x = Ret y) arr' (padded (module_of <$> used) None)
    | None => ~ Forall clean used
    end.
Proof.
  intros Hh used. destruct (modules_loop_facts l 0 _ _ h Hh (Nat.le_0_l _) (length_replicate _ _) (null_strings h))
    as (o & n & h' & E & L & Ho). rewrite Nat.sub_0_r in Ho. exists o, n, h'. split_and!; [done|done|].
  destruct o; [|done]. rewrite inserts_padded in Ho by (rewrite length_fmap, length_take; lia). done.
Qed.

(** Taking back the three strings of a request leaves those of its entries. *)
Definition take_back (h : raw_heap) (req : LoadAppRequest) : outcome raw_heap :=
  h ← from_raw h (cr_app_name req); h ← from_raw h (cr_app_path req); from_raw h (cr_app_type req).

Lemma raw_three h a b c : raw_ok h ->
  let '(p1, h1) := into_raw h a in let '(p2, h2) := into_raw h1 b in let '(p3, h3) := into_raw h2 c in
  later 3 h h3 /\ c_string h3 (Some p1) = Ret (Some a) /\ c_string h3 (Some p2) = Ret (Some b) /\
  c_string h3 (Some p3) = Ret (Some c) /\
  exists h', (h ← from_raw h3 p1; h ← from_raw h p2; from_raw h p3) = Ret h' /\ later 0 h h'.
Proof.
  intros Hh. pose proof (into_raw_facts h a Hh) as F1. destruct (into_raw h a) as [p1 h1] eqn:I1.
  destruct F1 as [L1 E1]. pose proof (into_raw_facts h1 b (lt_ok _ _ _ L1)) as F2.
  destruct (into_raw h1 b) as [p2 h2] eqn:I2. destruct F2 as [L2 E2].
  pose proof (into_raw_facts h2 c (lt_ok _ _ _ L2)) as F3. destruct (into_raw h2 c) as [p3 h3] eqn:I3.
  destruct F3 as [L3 E3]. pose proof (later_trans _ _ _ _ _ (later_trans _ _ _ _ _ L1 L2) L3) as L.
  pose proof (lookup_weaken _ _ _ _ E1 (lt_sub _ _ _ (later_trans _ _ _ _ _ L2 L3))) as V1.
  pose proof (lookup_weaken _ _ _ _ E2 (lt_sub _ _ _ L3)) as V2.
  unfold c_string, deref. rewrite V1, V2, E3. split_and!; try done.
  unfold into_raw in I1, I2, I3. simplify_eq/=. pose proof (raw_unused h Hh) as Hn.
  rewrite (from_raw_live (mk_raw _ _) _ _ V1). cbn [mbind outcome_bind raw_strings raw_next].
  rewrite (delete_insert_ne _ (raw_next h)), (delete_insert_ne _ (raw_next h)) by lia. rewrite delete_insert_id by done.
  rewrite (from_raw_live _ (S (raw_next h)) b) by (cbn; rewrite lookup_insert_ne, lookup_insert_eq by lia; done).
  cbn [mbind outcome_bind raw_strings raw_next]. rewrite (delete_insert_ne _ (S (raw_next h))) by lia.
  assert (Hn1 : raw_strings h !! S (raw_next h) = None) by (apply eq_None_not_Some; intros Hs%Hh; lia).
  assert (Hn2 : raw_strings h !! S (S (raw_next h)) = None) by (apply eq_None_not_Some; intros Hs%Hh; lia).
  rewrite delete_insert_id by done. rewrite (from_raw_live _ _ c) by (cbn; by rewrite lookup_insert_eq). cbn [raw_strings raw_next].
  rewrite delete_insert_id by done. eexists. split; [done|]. split; [|done|cbn; lia].
  intros p Hp%Hh. cbn. lia.
Qed.

Lemma marshal_facts pl params mapping name path type h : raw_ok h ->
  exists o n h', marshal pl params mapping name path type h = Ret (o, h') /\ later n h h' /\
    match o with
    | Some req => clean_entries pl params mapping /\ n = (3 + entry_strings pl params mapping)%nat /\
        c_view h' req = Ret (mk_load_req (Some (pl_app pl)) (Z.of_nat (length (pl_app pl))) (Some name) (pl_runtime_us pl)
          (pl_deadline_us pl) (pl_period_us pl) (pl_ioq_size pl) (Some path) (Some type)
          (rq_params (request_of pl params mapping)) (rq_device_mapping (request_of pl params mapping))
          (rq_app_modules (request_of pl params mapping))) /\
        exists h'', take_back h' req = Ret h'' /\ later (entry_strings pl params mapping) h h''
    | None => ~ clean_entries pl params mapping
    end.
Proof.
  intros Hh. unfold marshal. destruct (pairs_loop_0 params h Hh) as (o1 & n1 & h1 & -> & L1 & H1). cbn [mbind outcome_bind].
  destruct o1 as [a1|]; [|exists None, n1, h1; split_and!; [done|done|by intros [? _]]].
  destruct (pairs_loop_0 mapping h1 (lt_ok _ _ _ L1)) as (o2 & n2 & h2 & -> & L2 & H2). cbn [mbind outcome_bind].
  pose proof (later_trans _ _ _ _ _ L1 L2) as L12.
  destruct o2 as [a2|]; [|exists None, (n1 + n2)%nat, h2; split_and!; [done|done|by intros (_ & ? & _)]].
  destruct (modules_loop_0 (pl_app_modules pl) h2 (lt_ok _ _ _ L2)) as (o3 & n3 & h3 & -> & L3 & H3). cbn [mbind outcome_bind].
  pose proof (later_trans _ _ _ _ _ L12 L3) as L123.
  destruct o3 as [a3|]; [|exists None, (n1 + n2 + n3)%nat, h3; split_and!; [done|done|by intros (_ & _ & ?)]].
  pose proof (raw_three h3 name path type (lt_ok _ _ _ L3)) as F.
  destruct (into_raw h3 name) as [p1 g1]. destruct (into_raw g1 path) as [p2 g2]. destruct (into_raw g2 type) as [p3 g3].
  destruct F as (L4 & V1 & V2 & V3 & h'' & E & L5). cbv beta iota.
  destruct H1 as (C1 & N1 & F1), H2 as (C2 & N2 & F2), H3 as (C3 & N3 & F3).
  assert (Hn : entry_strings pl params mapping = (n1 + n2 + n3)%nat) by (unfold entry_strings; lia).
  eexists (Some _), (n1 + n2 + n3 + 3)%nat, g3. split_and!; [done|by apply (later_trans _ _ _ _ _ L123 L4)|done|lia| |].
  - unfold c_view. cbn [cr_app cr_app_size cr_app_name cr_runtime_us cr_deadline_us cr_period_us cr_ioq_size cr_app_path
      cr_app_type cr_app_params cr_device_mapping cr_app_modules]. rewrite V1, V2, V3. cbn [mbind outcome_bind].
    rewrite (mapM_ret _ a1 (padded (kv_of <$> take MAX_ENTRIES params) (mk_kv None None))).
    2:{ eapply Forall2_impl; [exact F1|]. intros x y. eapply c_pair_later.
        exact (later_trans _ _ _ _ _ (later_trans _ _ _ _ _ L2 L3) L4). }
    cbn [mbind outcome_bind].
    rewrite (mapM_ret _ a2 (padded (kv_of <$> take MAX_ENTRIES mapping) (mk_kv None None))).
    2:{ eapply Forall2_impl; [exact F2|]. intros x y. eapply c_pair_later. exact (later_trans _ _ _ _ _ L3 L4). }
    cbn [mbind outcome_bind].
    rewrite (mapM_ret _ a3 (padded (module_of <$> take MAX_ENTRIES (pl_app_modules pl)) None)); [done|].
    eapply Forall2_impl; [exact F3|]. intros x y. by eapply c_string_later.
  - exists h''. split; [exact E|]. rewrite Hn. pose proof (later_trans _ _ _ _ _ L123 L5) as L6. by rewrite Nat.add_0_r in L6.
Qed.

(** ** Loading *)

(** The answer to a request that never reaches the callback. *)
Definition screened (pl : JrtcAppLoadRequest) (params mapping : list (string * string)) : option reply :=
  if decide (clean (pl_app_name pl)) then
    if decide (clean (pl_app_path pl)) then
      if decide (clean (pl_app_type pl)) then
        if decide (clean_entries pl params mapping) then None else Some Closed
      else Some (bad_string "app_type" (pl_app_type pl))
    else Some (bad_string "app_path" (pl_app_path pl))
  else Some (bad_string "app_name" (pl_app_name pl)).

Section Loading.
Context {W : Type}.
Implicit Types (st : ServerState W) (cbs : Callbacks W).

Lemma rest_load_screened cbs pl params mapping now st r : raw_ok (raw st) -> screened pl params mapping = Some r ->
  exists n h', rest_load_app cbs pl params mapping now st = Ret (r, mk_server (store st) h' (world st)) /\ later n (raw st) h'.
Proof.
  intros Hh. unfold screened, rest_load_app.
  assert (Hst : mk_server (store st) (raw st) (world st) = st) by (by destruct st).
  destruct (decide (clean (pl_app_name pl))).
  2:{ intros [= <-]. exists 0%nat, (raw st). rewrite cstring_new_unclean, Hst by done. split; [done|by apply later_refl]. }
  rewrite cstring_new_clean by done. destruct (decide (clean (pl_app_path pl))).
  2:{ intros [= <-]. exists 0%nat, (raw st). rewrite cstring_new_unclean, Hst by done. split; [done|by apply later_refl]. }
  rewrite cstring_new_clean by done. destruct (decide (clean (pl_app_type pl))).
  2:{ intros [= <-]. exists 0%nat, (raw st). rewrite cstring_new_unclean, Hst by done. split; [done|by apply later_refl]. }
  rewrite cstring_new_clean by done. destruct (decide (clean_entries pl params mapping)); [done|]. intros [= <-].
  destruct (marshal_facts pl params mapping (chars (pl_app_name pl)) (chars (pl_app_path pl)) (chars (pl_app_type pl)) (raw st) Hh)
    as (o & n' & h' & -> & L & Ho). destruct o as [req|]; [by destruct Ho|]. exists n', h'. done.
Qed.

Lemma rest_load_passed pl params mapping st : raw_ok (raw st) -> screened pl params mapping = None ->
  exists h h3, later (entry_strings pl params mapping) (raw st) h /\ later (3 + entry_strings pl params mapping) (raw st) h3 /\
  forall cbs now, rest_load_app cbs pl params mapping now st =
    match cb_load_app cbs with
    | None => Ret (Reply INTERNAL_SERVER_ERROR (BError "load_app callback is not set"), mk_server (store st) h3 (world st))
    | Some f => '(w, response) ← f (world st) (request_of pl params mapping);
                Ret (loaded_reply pl now response (mk_server (store st) h w))
    end.
Proof.
  intros Hh. unfold screened, rest_load_app.
  destruct (decide (clean (pl_app_name pl))); [|done]. destruct (decide (clean (pl_app_path pl))); [|done].
  destruct (decide (clean (pl_app_type pl))); [|done]. destruct (decide (clean_entries pl params mapping)); [|done]. intros _.
  rewrite !cstring_new_clean by done.
  destruct (marshal_facts pl params mapping (chars (pl_app_name pl)) (chars (pl_app_path pl)) (chars (pl_app_type pl)) (raw st) Hh)
    as (o & n' & h3 & -> & L & Ho). destruct o as [req|]; [|by destruct Ho].
  destruct Ho as (_ & -> & Hv & h & Et & L'). exists h, h3. split_and!; [done|done|]. intros cbs now. cbn [mbind outcome_bind].
  destruct (cb_load_app cbs) as [f|]; [|done]. rewrite Hv. cbn [mbind outcome_bind].
  change (f (world st) _) with (f (world st) (request_of pl params mapping)).
  destruct (f (world st) (request_of pl params mapping)) as [[w res]|]; [|done]. cbn [mbind outcome_bind].
  unfold take_back in Et. apply bind_ret_inv in Et as (g1 & -> & Et). cbn [mbind outcome_bind].
  apply bind_ret_inv in Et as (g2 & -> & Et). cbn [mbind outcome_bind]. by rewrite Et.
Qed.

(** C23: loading through the REST server: for every order in which the maps are
    iterated, a request whose name, path, type and first 255 entries of each
    kind have no NUL byte reaches the callback with the values of the request,
    cut off after these entries and filled up with NULL; the answer follows the
    value that comes back. The strings of the entries are never freed: each
    such request leaves [entry_strings] of them behind, whatever the callback
    says, and three more when there is no callback. A NUL byte in name, path or
    type gives 400, one in an entry a panic; both without a call. *)
Theorem rest_load_spec cbs pl params mapping now st :
  raw_ok (raw st) -> params ≡ₚ map_to_list (pl_app_params pl) -> mapping ≡ₚ map_to_list (pl_device_mapping pl) ->
  match screened pl params mapping with
  | Some r => exists n h', rest_load_app cbs pl params mapping now st = Ret (r, mk_server (store st) h' (world st)) /\
      later n (raw st) h' /\ (r = Closed \/ exists what, r = Reply BAD_REQUEST (BError what))
  | None =>
      entry_strings pl params mapping = (2 * min 255 (size (pl_app_params pl)) + 2 * min 255 (size (pl_device_mapping pl)) +
        min 255 (length (pl_app_modules pl)))%nat /\
      length (rq_params (request_of pl params mapping)) = MAX_APP_PARAMS /\
      exists h h3, later (entry_strings pl params mapping) (raw st) h /\ later (3 + entry_strings pl params mapping) (raw st) h3 /\
      rest_load_app cbs pl params mapping now st =
        match cb_load_app cbs with
        | None => Ret (Reply INTERNAL_SERVER_ERROR (BError "load_app callback is not set"), mk_server (store st) h3 (world st))
        | Some f => '(w, response) ← f (world st) (request_of pl params mapping);
                    Ret (loaded_reply pl now response (mk_server (store st) h w))
        end
  end.
Proof.
  intros Hh Hp Hm. destruct (screened pl params mapping) as [r|] eqn:Es.
  - destruct (rest_load_screened cbs pl params mapping now st r Hh Es) as (n & h' & E & L). exists n, h'.
    split_and!; [done|done|]. revert Es. unfold screened, bad_string. repeat case_decide; intros [= <-]; eauto.
  - split_and!.
    + unfold entry_strings. rewrite !length_take, Hp, Hm, !length_map_to_list. unfold MAX_ENTRIES. reflexivity.
    + cbn [rq_params request_of]. unfold padded. rewrite length_app, length_replicate, length_fmap, length_take.
      unfold MAX_ENTRIES, MAX_APP_PARAMS. lia.
    + destruct (rest_load_passed pl params mapping st Hh Es) as (h & h3 & L1 & L2 & E). exists h, h3. auto.
Qed.

End Loading.

(** ** The life of the handle

    The main thread stops the server and then frees the arguments of its thread;
    the thread that [jrtc_stop_rest_server] starts gives the last reference to
    the handle back some time after that function has returned; the thread of the
    server reads its arguments and starts the server. Nothing else orders the
    three threads. *)

Inductive life_step :=
| MainStop
| MainFreeArgs
| StopDrop
| RestReadArgs
| RestBind.

#[global] Instance life_step_eq_dec : EqDecision life_step.
Proof. solve_decision. Defined.

(** The handle, whether the arguments are still there, and the port bound. *)
Record life := mk_life { lf_handles : handle_heap; lf_args : bool; lf_port : option Z }.

Definition life_exec (p : nat) (port : Z) (l : life) (s : life_step) : outcome life :=
  match s with
  | MainStop => h ← jrtc_stop_rest_server (lf_handles l) (Some p); Ret (mk_life h (lf_args l) (lf_port l))
  | MainFreeArgs => if lf_args l then Ret (mk_life (lf_handles l) false (lf_port l)) else Fault DoubleFree
  | StopDrop => h ← stop_thread_end (lf_handles l) p; Ret (mk_life h (lf_args l) (lf_port l))
  | RestReadArgs => if lf_args l then Ret l else Fault UseAfterFree
  | RestBind =>
      bound ← jrtc_start_rest_server (lf_handles l) (Some p) port true;
      Ret (mk_life (lf_handles l) (lf_args l) bound)
  end.

Fixpoint life_run (p : nat) (port : Z) (l : life) (ss : list life_step) : outcome life :=
  match ss with
  | [] => Ret l
  | s :: ss => l ← life_exec p port l s; life_run p port l ss
  end.

(** The orders of two sequences of steps. *)
Inductive interleaving {A} : list A -> list A -> list A -> Prop :=
| il_nil : interleaving [] [] []
| il_left x l k m : interleaving l k m -> interleaving (x :: l) k (x :: m)
| il_right x l k m : interleaving l k m -> interleaving l (x :: k) (x :: m).

(** The steps of the main thread with the one of the thread it starts, which
    comes after [MainStop]. *)
Definition main_steps (l : list life_step) : Prop := exists k, interleaving [MainFreeArgs] [StopDrop] k /\ l = MainStop :: k.

(** Whether the step [a] comes before the step [b]. *)
Fixpoint before (a b : life_step) (ss : list life_step) : bool :=
  match ss with
  | [] => false
  | s :: ss => if decide (s = a) then existsb (λ x, bool_decide (x = b)) ss else before a b ss
  end.

Definition born (h : handle_heap) (p : nat) : life := mk_life (jrtc_create_rest_server h p).2 true None.

(** Stopping a server leaves its handle to the thread that stopped it, whose
    end frees it. *)
Lemma stop_keeps h p : arcs h !! p = Some 1%nat -> jrtc_stop_rest_server h (Some p) = Ret (mk_handles (arcs h) true).
Proof.
  intros Hp. unfold jrtc_stop_rest_server, arc_clone, stop_server, deref. rewrite Hp. cbn [mbind outcome_bind arcs shutdown].
  rewrite lookup_insert_eq. cbn [mbind outcome_bind]. unfold arc_drop. cbn [arcs shutdown]. rewrite lookup_insert_eq, insert_insert_eq.
  by rewrite insert_id.
Qed.

Lemma stop_end_frees h p : arcs h !! p = Some 1%nat -> stop_thread_end h p = Ret (mk_handles (delete p (arcs h)) (shutdown h)).
Proof. intros Hp. unfold stop_thread_end, arc_drop. by rewrite Hp. Qed.

