(* ===== verification/RestServerInv.v ===== *)
(** * The REST server on top of the controller

    A run of the server is a run of the controller on the operations that its
    requests stand for, and the list of applications that the server keeps
    agrees with the controller's table. *)
From stdpp Require Import pretty.
From S2P Require Import Prelude StreamId Ext Router RouterInv RouterApps RouterInit Sched Logging Config Controller ControllerFacts Process ProcessFacts RestServer RestServerFacts.
From Stdlib Require Import Ascii.

Section Inv.
Context {cs : CharSign}.
Context {B It T C R M S : Type}.
Context `{HB : CkBitmap B It} `{HT : CkHt T nat} `{HC : CkPtrHt C} `{HR : CkRing R} `{HM : Mempool M} `{HS : JbpfIo S}.
Context `{LB : !CkBitmapLaws B It} `{LT : !CkHtLaws T nat} `{LC : !CkPtrHtLaws C} `{LR : !CkRingLaws R} `{LM : !MempoolLaws M}.

Abbreviation ctl := (controller B T C R M).
Abbreviation server := (ServerState (ctl * list ctl_event)).
Abbreviation op := (rest_op (C := C) (M := M)).
Implicit Types (st : server).

(** ** A run of the controller *)

(** What a request makes the controller do. *)
Definition ctl_ops_of (o : op) : list (ctl_op (C := C) (M := M)) :=
  match o with
  | GetApps | GetApp _ => []
  | PostApp pl params mapping _ env =>
      match screened pl params mapping with Some _ => [] | None => [OpLoad (request_of pl params mapping) env] end
  | DeleteApp id join => [OpUnload id join]
  | AppThread os p renv has_entry => [OpRun os p renv has_entry]
  end.

Lemma loaded_reply_state {W} pl now res (s : ServerState W) :
  raw (loaded_reply pl now res s).2 = raw s /\ world (loaded_reply pl now res s).2 = world s.
Proof. unfold loaded_reply. by repeat case_match. Qed.

Lemma serve_one up (c : ctl) o :
  serve up c [o] = ('(c, ev) ← ctl_exec up c o; Ret (c, ev)).
Proof. cbn [serve]. destruct (ctl_exec up c o) as [[c' ev]|]; [|done]. cbn. by rewrite app_nil_r. Qed.

(** One request, against the operations it stands for. *)
Lemma rest_exec_serve up st o : raw_ok (raw st) ->
  match serve up (world st).1 (ctl_ops_of o) with
  | Ret (c, ev) => exists r st', rest_exec up st o = Ret (r, st') /\ raw_ok (raw st') /\ world st' = (c, (world st).2 ++ ev)
  | Fault f => rest_exec up st o = Fault f
  end.
Proof.
  intros Hh. assert (Hw : world st = ((world st).1, (world st).2)) by (by destruct (world st)).
  destruct o as [|id|pl params mapping now env|id join|os p renv entry].
  - cbn. eexists _, st. split_and!; [done|done|]. by rewrite app_nil_r.
  - cbn. eexists _, st. split_and!; [done|done|]. by rewrite app_nil_r.
  - cbn [ctl_ops_of rest_exec]. destruct (screened pl params mapping) as [r|] eqn:Es.
    + destruct (rest_load_screened (ctl_callbacks env unload_fine) pl params mapping now st r Hh Es) as (n & h' & -> & L). cbn.
      eexists _, _. split_and!; [done|apply (lt_ok _ _ _ L)|]. cbn. by rewrite app_nil_r.
    + destruct (rest_load_passed pl params mapping st Hh Es) as (h & h3 & L & _ & ->). rewrite serve_one. cbn [ctl_exec ctl_callbacks cb_load_app].
      rewrite Hw. cbn [fst snd].
      destruct (load_app (world st).1 (request_of pl params mapping) env) as [[[c res] ev]|]; [|done]. cbn [mbind outcome_bind].
      destruct (loaded_reply pl now res _) as [r st'] eqn:Er. eexists _, st'. split; [done|].
      destruct (loaded_reply_state pl now res (mk_server (store st) h (c, (world st).2 ++ ev))) as [H1 H2].
      rewrite Er in H1, H2. cbn in H1, H2. rewrite H1, H2. split; [apply (lt_ok _ _ _ L)|done].
  - cbn [ctl_ops_of rest_exec]. rewrite serve_one. cbn [ctl_exec]. unfold rest_unload_app. cbn [ctl_callbacks cb_unload_app].
    rewrite Hw. cbn [fst snd]. destruct (unload_app (world st).1 id join) as [[[c res] ev]|]; [|done]. cbn [mbind outcome_bind].
    repeat case_match; eexists _, _; (split_and!; [done|done|done]).
  - cbn [ctl_ops_of rest_exec]. rewrite serve_one. destruct (ctl_exec up (world st).1 (OpRun os p renv entry)) as [[c ev]|]; [|done].
    cbn. eexists _, _. by split_and!.
Qed.

Lemma serve_app up (c : ctl) os os' :
  serve up c (os ++ os') = ('(c, ev) ← serve up c os; '(c, ev') ← serve up c os'; Ret (c, ev ++ ev')).
Proof.
  revert c. induction os as [|o os IH]; intros c; cbn [serve app].
  - cbn. destruct (serve up c os') as [[c' ev]|]; done.
  - destruct (ctl_exec up c o) as [[c1 ev1]|]; [|done]. cbn [mbind outcome_bind]. rewrite IH.
    destruct (serve up c1 os) as [[c2 ev2]|]; [|done]. cbn [mbind outcome_bind].
    destruct (serve up c2 os') as [[c3 ev3]|]; [|done]. cbn. by rewrite app_assoc.
Qed.

Lemma rest_serve_runs up ops : forall st, raw_ok (raw st) ->
  match serve up (world st).1 (ops ≫= ctl_ops_of) with
  | Ret (c, ev) => exists rs st', rest_serve up st ops = Ret (rs, st') /\ raw_ok (raw st') /\ world st' = (c, (world st).2 ++ ev)
  | Fault f => rest_serve up st ops = Fault f
  end.
Proof.
  induction ops as [|o ops IH]; intros st Hh; [cbn; eexists _, st; split_and!; [done|done|]; rewrite app_nil_r; by destruct (world st)|].
  change ((o :: ops) ≫= ctl_ops_of) with (ctl_ops_of o ++ (ops ≫= ctl_ops_of)). rewrite serve_app.
  pose proof (rest_exec_serve up st o Hh) as H. cbn [rest_serve].
  destruct (serve up (world st).1 (ctl_ops_of o)) as [[c1 ev1]|f]; [|by rewrite H].
  destruct H as (r & st1 & -> & Hh1 & Hw). cbn [mbind outcome_bind]. specialize (IH st1 Hh1). rewrite Hw in IH. cbn [fst snd] in IH.
  destruct (serve up c1 (ops ≫= ctl_ops_of)) as [[c2 ev2]|f]; [|by rewrite IH].
  destruct IH as (rs & st2 & -> & Hh2 & Hw2). cbn. eexists _, st2. split_and!; [done|done|]. by rewrite Hw2, app_assoc.
Qed.

(** C11: the REST server refines the operations of the controller: a run of
    the server on any requests, in any order and with any iteration order of
    their maps, makes the controller go through exactly the operations that the
    requests stand for, with the same observable calls, and faults exactly when
    they do. A request that was screened, and every request that only reads,
    stands for none. *)
Theorem rest_refines_serve up ops st : raw_ok (raw st) ->
  match serve up (world st).1 (ops ≫= ctl_ops_of) with
  | Ret (c, ev) => exists rs st', rest_serve up st ops = Ret (rs, st') /\ length rs = length ops /\ world st' = (c, (world st).2 ++ ev)
  | Fault f => rest_serve up st ops = Fault f
  end.
Proof.
  intros Hh. pose proof (rest_serve_runs up ops st Hh) as H. destruct (serve up _ _) as [[c ev]|f]; [|done].
  destruct H as (rs & st' & E & _ & Hw). exists rs, st'. split_and!; [done| |done].
  clear -E. revert st rs E. induction ops as [|o ops IH]; intros st rs E; cbn [rest_serve] in E; [by simplify_eq|].
  apply bind_ret_inv in E as ([r st1] & _ & E). apply bind_ret_inv in E as ([rs' st2] & E' & E). simplify_eq/=.
  f_equal. by eapply IH.
Qed.

(** ** The store and the table *)

(** The environment of an application in the store: that of its request, for
    the orders in which its maps were iterated, with or without its context. *)
Definition env_for (pl : JrtcAppLoadRequest) (e : jrtc_app_env) : Prop :=
  exists params mapping h d, params ≡ₚ map_to_list (pl_app_params pl) /\ mapping ≡ₚ map_to_list (pl_device_mapping pl) /\
    e = set_dapp_ctx (env_of_request (request_of pl params mapping) h) d.

(** Slot [i] holds the application [pl] describes. *)
Definition holds (c : ctl) (i : nat) (pl : JrtcAppLoadRequest) : Prop :=
  exists p e, app_envs c !! i = Some (Some p) /\ heap c !! p = Some e /\ env_for pl e.

Record rest_wf (st : server) : Prop := {
  rw_raw : raw_ok (raw st);
  rw_ctl : ctl_wf (world st).1;
  rw_ids : NoDup (as_id <$> store st);
  rw_slots : forall a, a ∈ store st -> exists i, as_id a = Z.of_nat i /\ holds (world st).1 i (as_request a)
}.

(** A slot that is in use and not in the store: its application was not loaded
    through the server. *)
Definition hidden (st : server) (i : nat) : Prop :=
  (exists p, app_envs (world st).1 !! i = Some (Some p)) /\ Z.of_nat i ∉ (as_id <$> store st).

(** The orders are orders of the maps, and the controller can deal with the
    operation. *)
Definition rest_op_ok (st : server) (o : op) : Prop :=
  match o with
  | PostApp pl params mapping _ _ => params ≡ₚ map_to_list (pl_app_params pl) /\ mapping ≡ₚ map_to_list (pl_device_mapping pl)
  | _ => True
  end /\ Forall (op_ok (world st).1) (ctl_ops_of o).

(** What a request or a thread may rely on, without a word on what fails. *)
Definition rest_op_env_ok (st : server) (o : op) : Prop :=
  match o with
  | PostApp pl params mapping _ _ => params ≡ₚ map_to_list (pl_app_params pl) /\ mapping ≡ₚ map_to_list (pl_device_mapping pl)
  | _ => True
  end /\ Forall (op_env_ok (world st).1) (ctl_ops_of o).

Fixpoint rest_ops_env_ok (st : server) (ops : list op) : Prop :=
  match ops with
  | [] => True
  | o :: ops => rest_op_env_ok st o /\ forall r st', rest_exec true st o = Ret (r, st') -> rest_ops_env_ok st' ops
  end.

(** The controller breaks at the operation [o] stands for, and the server with
    it: it faults as the controller does. *)
Definition rest_breaks (st : server) (o : op) : Prop :=
  exists c, ctl_ops_of o = [c] /\ op_breaks (world st).1 c /\
    forall f, ctl_exec true (world st).1 c = Fault f -> rest_exec true st o = Fault f.

(** ** What the operations leave alone *)

(** The heap and the slots of [c], where they are in use, are those of [c']. *)
Definition keeps (c c' : ctl) : Prop := forall j q, app_envs c !! j = Some (Some q) ->
  app_envs c' !! j = Some (Some q) /\ heap c' !! q = heap c !! q.

Lemma keeps_holds c c' i pl : keeps c c' -> holds c i pl -> holds c' i pl.
Proof. intros Hk (p & e & Hi & He & Hf). destruct (Hk _ _ Hi) as [? E]. exists p, e. by rewrite E. Qed.

Lemma load_app_cases (c : ctl) rq env : ctl_wf c -> load_env_ok c env -> (0 < length (rq_params rq))%nat ->
  is_Some (le_handle env) -> le_pthread_create env = 0 ->
  exists c' res ev, load_app c rq env = Ret (c', res, ev) /\ ctl_wf c' /\ keeps c c' /\
    ((res = -1 /\ app_envs c' = app_envs c) \/
     (exists i p h, res = Z.of_nat i /\ app_envs c !! i = Some None /\ app_envs c' = <[i := Some p]> (app_envs c) /\
        heap c' !! p = Some (env_of_request rq h) /\ le_calloc env = Some p /\ rt c' = rt c)).
Proof.
  intros W Hok Hp [h Eh] Ep. destruct (load_app_wf c rq env W Hok Hp (ex_intro _ h Eh) Ep) as (c' & res & ev & E & W').
  exists c', res, ev. split; [done|]. split; [done|]. revert E. unfold load_app.
  assert (Hsame : keeps c c) by (by intros j q).
  destruct (_ || _); [intros [= <- <- <-]; auto|]. destruct (_is_app_loaded c (Some rq)) as [[]|]; [|..|done]; cbn [mbind outcome_bind];
    [intros [= <- <- <-]; auto|].
  destruct (le_calloc env) as [p|] eqn:Ec; [|intros [= <- <- <-]; auto].
  assert (Hpn : forall j q, app_envs c !! j = Some (Some q) -> q <> p).
  { intros j q Hj ->. destruct (cw_slot _ W _ _ Hj) as (e & He & _). rewrite Hok in He by done. done. }
  destruct (reserve_new_env c p W) as [(i & Hi & Hs & ->)|[_ ->]]; cbn [mbind outcome_bind].
  - rewrite (proj2 (Z.ltb_ge _ _)), Eh, Ep by lia. cbn [Z.eqb negb]. intros [= <- <- <-]. split.
    + intros j q Hj. cbn [app_envs heap upd_handles upd_heap]. pose proof (Hpn j q Hj).
      rewrite list_lookup_insert_ne by congruence. by rewrite !lookup_insert_ne by done.
    + right. exists i, p, h. split_and!; try done. cbn. by rewrite lookup_insert_eq.
  - cbn. intros [= <- <- <-]. split; [|by left]. intros j q Hj. cbn. by rewrite lookup_insert_ne by (symmetry; eauto).
Qed.

Lemma run_app_heap os (c c' : ctl) p renv ev : run_app os c p renv true = Ret (c', ev) ->
  exists e d, heap c !! p = Some e /\ app_envs c' = app_envs c /\ heap c' = <[p := set_dapp_ctx e d]> (heap c).
Proof.
  unfold run_app, deref. destruct (heap c !! p) as [e|]; [|done]. cbn [mbind outcome_bind].
  destruct (jrtc_router_register_app _ _ _) as [[[r d] evr]|]; [|done]. cbn. intros [= <- _]. by exists e, d.
Qed.

Lemma run_app_holds os (c c' : ctl) p renv ev i pl : run_app os c p renv true = Ret (c', ev) -> holds c i pl -> holds c' i pl.
Proof.
  intros (e & d & He & Ha & Hh)%run_app_heap (q & x & Hi & Hx & Hf). destruct (decide (q = p)) as [->|Hq].
  - exists p, (set_dapp_ctx e d). rewrite Ha, Hh, lookup_insert_eq. split_and!; [done|done|]. simplify_eq.
    destruct Hf as (params & mapping & h & d' & ? & ? & ->). by exists params, mapping, h, d.
  - exists q, x. by rewrite Ha, Hh, lookup_insert_ne.
Qed.

(** ** Finding an application *)

Lemma find_None (l : list JrtcAppState) id : id ∉ (as_id <$> l) -> list_find (λ a, as_id a = id) l = None.
Proof. intros H. apply list_find_None, Forall_forall. intros a Ha <-. apply H. by apply list_elem_of_fmap_2. Qed.

Lemma find_Some (l : list JrtcAppState) id : id ∈ (as_id <$> l) -> exists k a, list_find (λ a, as_id a = id) l = Some (k, a).
Proof.
  intros (a & -> & Ha)%list_elem_of_fmap. destruct (list_find (λ x, as_id x = as_id a) l) as [[k x]|] eqn:E; [eauto|].
  apply list_find_None in E. rewrite Forall_forall in E. by destruct (E a Ha).
Qed.

Lemma list_filter_all {A} (P : A -> Prop) `{!forall x, Decision (P x)} (l : list A) : Forall P l -> filter P l = l.
Proof. induction 1; [done|]. rewrite filter_cons_True by done. by f_equal. Qed.

(** Removing the first application with an id leaves all the others. *)
Lemma delete_found (l : list JrtcAppState) id k a : NoDup (as_id <$> l) -> list_find (λ a, as_id a = id) l = Some (k, a) ->
  delete k l = filter (λ a, as_id a <> id) l.
Proof.
  revert k. induction l as [|x l IH]; intros k Hn; [done|]. cbn [list_find]. rewrite fmap_cons in Hn.
  apply NoDup_cons in Hn as [Hx Hn]. case_decide as E.
  - intros [= <- <-]. rewrite filter_cons_False by (by intros []). cbn [delete list_delete]. symmetry. apply list_filter_all.
    apply Forall_forall. intros y Hy <-. apply Hx. rewrite E. by apply list_elem_of_fmap_2.
  - destruct (list_find _ l) as [[k' a']|] eqn:Ef; [|done]. intros [= <- <-]. rewrite filter_cons_True by done.
    cbn [delete list_delete]. f_equal. by apply IH.
Qed.

Lemma ids_filter (l : list JrtcAppState) id : NoDup (as_id <$> l) -> NoDup (as_id <$> filter (λ a, as_id a <> id) l).
Proof.
  induction l as [|x l IH]; [done|]. rewrite fmap_cons. intros [Hx Hn]%NoDup_cons. rewrite filter_cons. case_decide; [|by apply IH].
  rewrite fmap_cons. apply NoDup_cons. split; [|by apply IH]. intros (y & Ey & [_ Hy]%list_elem_of_filter)%list_elem_of_fmap.
  apply Hx. rewrite Ey. by apply list_elem_of_fmap_2.
Qed.

(** An application that is pushed with a new id and removed again. *)
Lemma filter_pushed (l : list JrtcAppState) a : as_id a ∉ (as_id <$> l) -> filter (λ x, as_id x <> as_id a) (l ++ [a]) = l.
Proof.
  intros H. rewrite filter_app, filter_cons_False, filter_nil, app_nil_r by (by intros []). apply list_filter_all.
  apply Forall_forall. intros x Hx Ex. apply H. rewrite <- Ex. by apply list_elem_of_fmap_2.
Qed.

Lemma pushed_listed (l : list JrtcAppState) a : as_id a ∈ (as_id <$> (l ++ [a])).
Proof. rewrite fmap_app. apply elem_of_app. right. by apply list_elem_of_singleton. Qed.

(** The number of a free slot is not listed. *)
Lemma free_slot_unlisted st i : rest_wf st -> app_envs (world st).1 !! i = Some None -> Z.of_nat i ∉ (as_id <$> store st).
Proof.
  intros W Hi (a & Hid & Hin)%list_elem_of_fmap. destruct (rw_slots _ W a Hin) as (j & Hj & q & e & Hq & _).
  assert (j = i) by lia. simplify_eq.
Qed.

(** ** The requests *)

Lemma post_cases st pl params mapping now env : rest_wf st -> rest_op_ok st (PostApp pl params mapping now env) ->
  exists r st', rest_exec true st (PostApp pl params mapping now env) = Ret (Some r, st') /\ rest_wf st' /\
    ((store st' = store st /\ app_envs (world st').1 = app_envs (world st).1 /\
      (r = Closed \/ exists m, r = Reply BAD_REQUEST (BError m))) \/
     (exists i p, let a := mk_app_state (Z.of_nat i) pl now in r = Reply OK (BApp a) /\ store st' = store st ++ [a] /\
        app_envs (world st).1 !! i = Some None /\ app_envs (world st').1 = <[i := Some p]> (app_envs (world st).1) /\
        le_calloc env = Some p /\ rt (world st').1 = rt (world st).1 /\
        exists h, heap (world st').1 !! p = Some (env_of_request (request_of pl params mapping) h))).
Proof.
  intros W [[Hp Hm] Hops]. cbn [rest_exec ctl_ops_of] in *. destruct (screened pl params mapping) as [r|] eqn:Es.
  - destruct (rest_load_screened (ctl_callbacks env unload_fine) pl params mapping now st r (rw_raw _ W) Es) as (n & h' & -> & L). cbn [mbind outcome_bind].
    eexists r, _. split; [done|]. split.
    + constructor; cbn [raw world store]; [apply (lt_ok _ _ _ L)|apply W..].
    + left. split_and!; [done|done|]. revert Es. unfold screened, bad_string. repeat case_decide; intros [= <-]; eauto.
  - apply Forall_singleton in Hops as ((H1 & H2) & H3 & H4).
    destruct (rest_load_passed pl params mapping st (rw_raw _ W) Es) as (h & h3 & L & _ & ->). cbn [ctl_callbacks cb_load_app].
    destruct (load_app_cases (world st).1 _ env (rw_ctl _ W) H1 H2 H3 H4) as (c & res & ev & E & Wc & Hk & Hc).
    destruct (world st) as [c0 tr] eqn:Ew. cbn [fst] in *. rewrite E. cbn [mbind outcome_bind]. unfold loaded_reply.
    destruct Hc as [[-> Ha]|(i & p & hd & -> & Hi & Ha & He & Hcp & Hrt)].
    + cbn. eexists _, _. split; [done|]. split; [|left; split_and!; [done|exact Ha|eauto]].
      constructor; cbn [raw world store fst]; [apply (lt_ok _ _ _ L)|done|apply W|].
      intros a (i & Hi & Hh)%(rw_slots _ W). exists i. split; [done|]. rewrite Ew in Hh. by eapply keeps_holds.
    + rewrite (proj2 (Z.eqb_neq _ _)), (proj2 (Z.leb_gt _ _)) by lia. eexists _, _. split; [done|].
      split; [|right; exists i, p; split_and!; [done|done|done|done|done|done|by exists hd]].
      constructor; cbn [raw world store fst]; [apply (lt_ok _ _ _ L)|done| |].
      * rewrite fmap_app. apply NoDup_app. split_and!; [apply W| |apply NoDup_singleton].
        intros id Hid ->%list_elem_of_singleton. apply (free_slot_unlisted st i W) in Hid; [done|]. by rewrite Ew.
      * intros a [Ha'|Ha']%elem_of_app.
        -- destruct (rw_slots _ W a Ha') as (j & Hj & Hh). exists j. split; [done|]. rewrite Ew in Hh. by eapply keeps_holds.
        -- apply list_elem_of_singleton in Ha' as ->. exists i. split; [done|]. exists p, (env_of_request (request_of pl params mapping) hd).
           split_and!; [|done|by exists params, mapping, hd, None].
           rewrite Ha. apply list_lookup_insert_eq. by eapply lookup_lt_Some.
Qed.

Lemma delete_cases st id : rest_wf st -> 0 <= id < Z.of_nat MAX_NUM_JRTC_APPS ->
  exists r st', rest_exec true st (DeleteApp id unload_fine) = Ret (Some r, st') /\ rest_wf st' /\
    match app_envs (world st).1 !! Z.to_nat id with
    | Some (Some p) => app_envs (world st').1 = <[Z.to_nat id := None]> (app_envs (world st).1) /\
        store st' = filter (λ a, as_id a <> id) (store st) /\
        r = (if decide (id ∈ (as_id <$> store st)) then Reply NO_CONTENT BNone else Reply NOT_FOUND (BError "App not found")) /\
        forall e, heap (world st).1 !! p = Some e -> dapps (rt (world st').1) = dapps_without (world st).1 e
    | _ => st' = st /\ r = Reply NO_CONTENT BNone
    end.
Proof.
  intros W Hid. cbn [rest_exec]. unfold rest_unload_app. cbn [ctl_callbacks cb_unload_app].
  destruct (world st) as [c tr] eqn:Ew. pose proof (rw_ctl _ W) as Wc. rewrite Ew in Wc. cbn [fst] in *.
  destruct (lookup_lt_is_Some_2 (app_envs c) (Z.to_nat id)) as [[p|] Hs]; [rewrite (cw_len _ Wc); lia| |]; rewrite Hs.
  - destruct (cw_slot _ Wc _ _ Hs) as (e & He & _).
    destruct (unload_facts c (Z.to_nat id) p e Wc Hs He) as (c' & ev & E & Wc' & Ha & Hh & Hdw).
    rewrite Z2Nat.id in E by lia. rewrite E. cbn [mbind outcome_bind]. change (0 =? -1) with false. change (0 <=? -2) with false.
    cbv iota. cbn [store].
    assert (Hrest : forall a, a ∈ store st -> as_id a <> id -> exists i, as_id a = Z.of_nat i /\ holds c' i (as_request a)).
    { intros a (i & Hi & q & x & Hq & Hx & Hf)%(rw_slots _ W) Hne. exists i. split; [done|]. rewrite Ew in Hq, Hx. cbn [fst] in Hq, Hx.
      assert (Hni : Z.to_nat id <> i) by lia. exists q, x. rewrite Ha, Hh, list_lookup_insert_ne by done. split_and!; [done| |done].
      rewrite lookup_delete_ne; [done|]. intros ->. apply Hni. eapply (cw_inj _ Wc); try done. by left. }
    destruct (decide (id ∈ (as_id <$> store st))) as [Hin|Hout].
    + destruct (find_Some _ _ Hin) as (k & a & Ef). rewrite Ef. pose proof (delete_found _ _ _ _ (rw_ids _ W) Ef) as Ed.
      cbn [mbind outcome_bind]. eexists _, _. split; [done|]. cbn [store world fst]. rewrite Ed. split; [|split_and!; [done|done|done|intros e' He'; by simplify_eq]].
      constructor; cbn [raw world store fst]; [apply W|done|by apply ids_filter, W|].
      intros a' [Hne Ha']%list_elem_of_filter. by apply Hrest.
    + rewrite (find_None _ _ Hout). cbn [mbind outcome_bind]. eexists _, _. split; [done|]. cbn [store world fst].
      assert (Hall : Forall (λ a, as_id a <> id) (store st)).
      { apply Forall_forall. intros a Ha' <-. apply Hout. by apply list_elem_of_fmap_2. }
      rewrite (list_filter_all _ _ Hall). split; [|split_and!; [done|done|done|intros e' He'; by simplify_eq]].
      constructor; cbn [raw world store fst]; [apply W|done|apply W|]. intros a Ha'. rewrite Forall_forall in Hall. apply Hrest; auto.
  - unfold unload_app. rewrite (proj2 (Z.ltb_ge _ _)), (proj2 (Z.leb_gt _ _)) by lia. cbn [orb].
    rewrite (array_get_Some _ _ _ Hs). cbn. eexists _, st. split; [|done]. rewrite app_nil_r. destruct st; cbn in Ew; by subst.
Qed.

Lemma thread_cases st os p renv entry : rest_wf st -> rest_op_ok st (AppThread os p renv entry) ->
  exists r st', rest_exec true st (AppThread os p renv entry) = Ret (r, st') /\ rest_wf st' /\ store st' = store st /\
    app_envs (world st').1 = app_envs (world st).1.
Proof.
  intros W [_ Hop]. cbn [ctl_ops_of] in Hop. apply Forall_singleton in Hop as ((i & e & Hi & He & Hd & Hq & Hr) & Hentry). cbn in Hentry. subst entry.
  destruct (run_app_facts os _ i p e renv (rw_ctl _ W) Hi He Hd Hq Hr) as (c & ev & E & Wc & Ha). cbn [rest_exec ctl_exec]. rewrite E. cbn.
  eexists _, _. split; [done|]. cbn. split; [|done]. constructor; cbn [raw world store fst with_world]; [apply W|done|apply W|].
  intros a (j & Hj & Hh)%(rw_slots _ W). exists j. split; [done|]. by eapply run_app_holds.
Qed.

Lemma rest_exec_wf st o : rest_wf st -> rest_op_ok st o ->
  exists r st', rest_exec true st o = Ret (r, st') /\ rest_wf st' /\ (forall i, hidden st' i -> hidden st i).
Proof.
  intros W Hok. destruct o as [|id|pl params mapping now env|id join|os p renv entry].
  - eexists _, st. by split_and!.
  - eexists _, st. by split_and!.
  - destruct (post_cases st pl params mapping now env W Hok) as (r & st' & E & W' & Hc). exists (Some r), st'. split_and!; [done|done|].
    intros j [[q Hq] Hj]. unfold hidden. destruct Hc as [(Es & Ea & _)|(i & p & _ & Es & Hi & Ea & _)]; rewrite Es in Hj; rewrite Ea in Hq; [eauto|].
    rewrite fmap_app, not_elem_of_app in Hj. destruct Hj as [Hj Hji]. split; [|done].
    rewrite list_lookup_insert_ne in Hq by (intros <-; apply Hji; by apply list_elem_of_singleton). eauto.
  - destruct Hok as [_ [_ [Hid ->]]%Forall_singleton].
    destruct (delete_cases st id W Hid) as (r & st' & E & W' & Hc). exists (Some r), st'. split_and!; [done|done|].
    destruct (app_envs (world st).1 !! Z.to_nat id) as [[p|]|] eqn:Hs; [|by destruct Hc as [-> _]..].
    destruct Hc as (Ea & Es & _ & _). intros j [[q Hq] Hj]. rewrite Ea in Hq. rewrite Es in Hj.
    rewrite list_lookup_insert in Hq. case_decide as Hji; [done|]. split; [eauto|].
    intros (a & Ha & Hin)%list_elem_of_fmap. apply Hj. rewrite Ha. apply list_elem_of_fmap_2, list_elem_of_filter. split; [|done].
    rewrite <- Ha. intros <-. apply Hji. rewrite Nat2Z.id in *. split; [done|]. by eapply lookup_lt_Some.
  - destruct (thread_cases st os p renv entry W Hok) as (r & st' & E & W' & Es & Ea). exists r, st'. split_and!; [done|done|].
    unfold hidden. by rewrite Es, Ea.
Qed.

(** A POST depends on its environment through [load_app] alone. *)
Lemma post_same st pl params mapping now env env' : raw_ok (raw st) -> screened pl params mapping = None ->
  load_app (world st).1 (request_of pl params mapping) env = load_app (world st).1 (request_of pl params mapping) env' ->
  rest_exec true st (PostApp pl params mapping now env) = rest_exec true st (PostApp pl params mapping now env').
Proof.
  intros Hh Es E. cbn [rest_exec]. destruct (rest_load_passed pl params mapping st Hh Es) as (h & h3 & L & _ & Heq).
  rewrite !Heq. cbn [ctl_callbacks cb_load_app]. destruct (world st) as [c tr]. cbn [fst] in E. by rewrite E.
Qed.

(** A request that can be dealt with, or one at which the controller breaks. *)
Lemma rest_exec_cases st o : rest_wf st -> rest_op_env_ok st o ->
  (exists r st', rest_exec true st o = Ret (r, st') /\ rest_wf st' /\ (forall i, hidden st' i -> hidden st i)) \/ rest_breaks st o.
Proof.
  intros W [Hord Henv].
  assert (Hone : ctl_ops_of o = [] \/ exists c, ctl_ops_of o = [c]) by (destruct o; cbn; repeat case_match; eauto).
  destruct Hone as [Hno|(c & Ec)]; [left; apply rest_exec_wf; [done|split; [done|by rewrite Hno]]|].
  rewrite Ec in Henv. pose proof (proj1 (Forall_singleton _ _) Henv) as He.
  assert (Hb : op_breaks (world st).1 c -> rest_breaks st o).
  { intros Hb. exists c. split; [done|]. split; [done|]. intros f Hf. pose proof (rest_exec_serve true st o (rw_raw _ W)) as H.
    rewrite Ec, serve_one, Hf in H. exact H. }
  destruct (decide (op_handled c)) as [Hh|Hh].
  - left. apply rest_exec_wf; [done|]. split; [done|]. rewrite Ec. apply Forall_singleton. by split.
  - destruct o as [|id|pl params mapping now env|id join|os p renv entry]; try done; cbn [ctl_ops_of] in Ec.
    + destruct (screened pl params mapping) eqn:Es; [done|]. injection Ec as <-. destruct He as [Hfresh Hlen].
      destruct (load_refused_same _ _ env (rw_ctl _ W) Hfresh Hlen Hh) as [Ef|Es'].
      * right. apply Hb. split; [done|]. cbn [ctl_exec]. by rewrite Ef.
      * left. rewrite (post_same st pl params mapping now _ _ (rw_raw _ W) Es Es'). apply rest_exec_wf; [done|].
        split; [done|]. cbn [ctl_ops_of]. rewrite Es. apply Forall_singleton. split; [done|]. by split; [eexists|].
    + injection Ec as <-. destruct (decide (0 <= id < Z.of_nat MAX_NUM_JRTC_APPS)) as [Hid|Hid].
      * destruct (unload_aborts _ id join (rw_ctl _ W) Hid) as [E|E]; [intros ->; by apply Hh| |].
        -- left. eexists _, st. split; [|done]. cbn [rest_exec]. unfold rest_unload_app. cbn [ctl_callbacks cb_unload_app].
           destruct st as [sto rw [c0 tr]]. cbn [world fst] in *. rewrite E. cbn. by rewrite app_nil_r.
        -- right. apply Hb. split; [done|]. rewrite decide_True by done. cbn [ctl_exec]. by rewrite E.
      * right. apply Hb. destruct (ctl_exec_cases (world st).1 (OpUnload id join) (rw_ctl _ W) I) as [(c' & ev & E & _)|?]; [|done].
        exfalso. revert E. cbn [ctl_exec]. unfold unload_app.
        destruct (Z.ltb_spec id 0); [done|]. by rewrite (proj2 (Z.leb_le _ _)) by lia.
    + injection Ec as <-. right. apply Hb. destruct entry; [by destruct (Hh eq_refl)|]. apply run_breaks; [apply W|exact He].
Qed.


(** Deleting through the REST server, on every path: the id of an empty
    slot gives 204 and changes nothing; a listed application is unloaded and
    removed from the list, with 204; an application that was not loaded through
    the server, as the default one, is unloaded all the same, but the answer is
    404, not found; an id outside the table, which nobody checks, reads past its
    end. *)
Theorem rest_delete_spec st id : rest_wf st ->
  (~ (0 <= id < Z.of_nat MAX_NUM_JRTC_APPS) -> rest_exec true st (DeleteApp id unload_fine) = Fault OutOfBounds) /\
  (0 <= id < Z.of_nat MAX_NUM_JRTC_APPS ->
   exists r st', rest_exec true st (DeleteApp id unload_fine) = Ret (Some r, st') /\ rest_wf st' /\
    match app_envs (world st).1 !! Z.to_nat id with
    | Some (Some p) => app_envs (world st').1 = <[Z.to_nat id := None]> (app_envs (world st).1) /\
        store st' = filter (λ a, as_id a <> id) (store st) /\
        r = if decide (id ∈ (as_id <$> store st)) then Reply NO_CONTENT BNone else Reply NOT_FOUND (BError "App not found")
    | _ => st' = st /\ r = Reply NO_CONTENT BNone
    end).
Proof.
  intros W. split; cycle 1.
  { intros Hid. destruct (delete_cases st id W Hid) as (r & st' & E & W' & H). exists r, st'. split_and!; [done|done|].
    destruct (app_envs (world st).1 !! Z.to_nat id) as [[p|]|]; [|done..]. by destruct H as (? & ? & ? & _). }
  intros Hid. cbn [rest_exec]. unfold rest_unload_app. cbn [ctl_callbacks cb_unload_app].
  destruct (world st) as [c tr]. unfold unload_app. destruct (Z.ltb_spec id 0); [done|]. by rewrite (proj2 (Z.leb_le _ _)) by lia.
Qed.

(** C21: round trip of an application through the REST server: a POST that is
    answered with 200 carries the request and a new id; GET of this id gives the
    same answer, and 404 before; DELETE of it gives 204 and leaves the list, the
    table and all answers as they were before the POST. A POST that is answered
    otherwise changes neither. *)
Theorem rest_roundtrip st pl params mapping now env :
  rest_wf st -> rest_op_ok st (PostApp pl params mapping now env) ->
  exists r st1, rest_exec true st (PostApp pl params mapping now env) = Ret (Some r, st1) /\
    match r with
    | Reply 200 (BApp a) => as_request a = pl /\
        get_app (as_id a) st = Reply NOT_FOUND (BError (String.append "id = " (pretty (as_id a)))) /\
        get_app (as_id a) st1 = r /\ get_apps st1 = Reply OK (BApps (store st ++ [a])) /\
        exists st2, rest_exec true st1 (DeleteApp (as_id a) unload_fine) = Ret (Some (Reply NO_CONTENT BNone), st2) /\
          store st2 = store st /\ app_envs (world st2).1 = app_envs (world st).1 /\
          forall id, get_app id st2 = get_app id st
    | _ => store st1 = store st /\ app_envs (world st1).1 = app_envs (world st).1
    end.
Proof.
  intros W Hok. destruct (post_cases st pl params mapping now env W Hok) as (r & st1 & E & W1 & Hc). exists r, st1. split; [done|].
  destruct Hc as [(Es & Ea & [->|[m ->]])|(i & p & -> & Es & Hi & Ea & _)]; [by split..|]. cbn [as_request as_id].
  pose proof (free_slot_unlisted st i W Hi) as Hnew.
  assert (Hlt : (i < MAX_NUM_JRTC_APPS)%nat).
  { rewrite <- (cw_len _ (rw_ctl _ W)). by eapply lookup_lt_Some. }
  set (a := mk_app_state (Z.of_nat i) pl now) in *. split; [done|].
  assert (Hg : forall s : server, store s = store st -> get_app (Z.of_nat i) s = Reply NOT_FOUND (BError (String.append "id = " (pretty (Z.of_nat i))))).
  { intros s Hs. unfold get_app. by rewrite Hs, (find_None _ _ Hnew). }
  split_and!; [by apply Hg| | |].
  - unfold get_app. rewrite Es. destruct (find_Some _ _ (pushed_listed (store st) a)) as (k & x & Ef). cbn [as_id a] in Ef. rewrite Ef. apply list_find_Some in Ef as (Hk & Hx & _).
    apply lookup_app_Some in Hk as [Hk|[_ Hk]].
    + destruct Hnew. rewrite <- Hx. apply list_elem_of_fmap_2. by eapply list_elem_of_lookup_2.
    + apply list_elem_of_lookup_2, list_elem_of_singleton in Hk as ->. done.
  - unfold get_apps. by rewrite Es.
  - destruct (delete_cases st1 (Z.of_nat i) W1 ltac:(lia)) as (r2 & st2 & E2 & W2 & H2). rewrite Nat2Z.id in H2.
    rewrite Ea, list_lookup_insert_eq in H2 by (by eapply lookup_lt_Some).
    destruct H2 as (Ea2 & Es2 & -> & _). rewrite decide_True in E2 by (rewrite Es; apply (pushed_listed _ a)).
    exists st2. split; [done|].
    assert (Hs2 : store st2 = store st) by (rewrite Es2, Es; by apply (filter_pushed _ a)).
    split_and!; [done| |].
    + rewrite Ea2, list_insert_insert_eq. by apply list_insert_id.
    + intros id. unfold get_app. by rewrite Hs2.
Qed.

(** ** The life of an application *)

(** What the start of a thread does to the router. *)
Lemma run_app_router os (c : ctl) i p e renv : ctl_wf c -> app_envs c !! i = Some (Some p) -> heap c !! p = Some e ->
  dapp_ctx e = None -> 0 <= io_queue_size e -> register_env_ok (rt c) renv (io_queue_size e) ->
  exists c' d ev, run_app os c p renv true = Ret (c', ev) /\ ctl_wf c' /\ app_envs c' = app_envs c /\
    heap c' = <[p := set_dapp_ctx e d]> (heap c) /\
    match d with
    | Some a => calloc_dapp renv = Some a /\ dapps (rt c) !! a = None /\ exists x, dapps (rt c') = <[a := x]> (dapps (rt c))
    | None => dapps (rt c') = dapps (rt c)
    end.
Proof.
  intros W Hi He Hd Hq Hr. destruct (run_app_facts os c i p e renv W Hi He Hd Hq Hr) as (c' & ev & E & W' & Ha).
  pose proof E as E0. revert E0. unfold run_app. rewrite (deref_Some _ _ _ He). cbn [mbind outcome_bind].
  destruct (register_app_facts (rt c) renv (io_queue_size e) (cw_rt _ W) Hq Hr) as (r & d & evr & Er & _ & _ & _ & Hres).
  rewrite Er. cbn [mbind outcome_bind]. intros [= <- <-]. eexists _, d, _. split_and!; [done|done|done|done|].
  destruct d as [a|]; cbn.
  - destruct Hres as (k & x & _ & _ & Hdapps & _). pose proof (register_app_addr _ _ _ _ _ _ Er) as Ec.
    split_and!; [done|by apply (env_fresh _ _ _ Hr)|by exists x].
  - by destruct Hres as (_ & Hdapps & _).
Qed.

(** C10: an application from POST to DELETE, through the server, the
    controller and the router: the POST touches nothing of the router; when the
    thread of the application starts, the router gains at most one context, a new
    one, for it; the DELETE answers 204 and takes exactly this context away, so
    that the contexts of the router, the table of the controller and the list of
    the server are all as before the POST. *)
Theorem rest_app_lives st pl params mapping now env i st1 p os renv :
  rest_wf st -> rest_op_ok st (PostApp pl params mapping now env) ->
  rest_exec true st (PostApp pl params mapping now env) = Ret (Some (Reply OK (BApp (mk_app_state (Z.of_nat i) pl now))), st1) ->
  le_calloc env = Some p -> 0 <= pl_ioq_size pl -> register_env_ok (rt (world st1).1) renv (pl_ioq_size pl) ->
  dapps (rt (world st1).1) = dapps (rt (world st).1) /\
  exists st2 d st3, rest_exec true st1 (AppThread os p renv true) = Ret (None, st2) /\
    match d with
    | Some a => calloc_dapp renv = Some a /\ dapps (rt (world st).1) !! a = None /\
        exists x, dapps (rt (world st2).1) = <[a := x]> (dapps (rt (world st).1))
    | None => dapps (rt (world st2).1) = dapps (rt (world st).1)
    end /\
    rest_exec true st2 (DeleteApp (Z.of_nat i) unload_fine) = Ret (Some (Reply NO_CONTENT BNone), st3) /\
    dapps (rt (world st3).1) = dapps (rt (world st).1) /\ app_envs (world st3).1 = app_envs (world st).1 /\ store st3 = store st.
Proof.
  intros W Hok E Hp Hq Hr. destruct (post_cases st pl params mapping now env W Hok) as (r & st1' & E' & W1 & Hc).
  rewrite E in E'. injection E' as <- <-.
  destruct Hc as [(_ & _ & [?|[m ?]])|(j & p' & Ej & Es & Hi & Ea & Hp' & Hrt & h & He)]; [done|done|].
  injection Ej as Hij. apply Nat2Z.inj in Hij as <-. rewrite Hp in Hp'. injection Hp' as <-. rewrite Hrt. split; [done|].
  assert (Hlt : (i < length (app_envs (world st).1))%nat) by (by eapply lookup_lt_Some).
  assert (Hi1 : app_envs (world st1).1 !! i = Some (Some p)) by (rewrite Ea; by apply list_lookup_insert_eq).
  destruct (run_app_router os (world st1).1 i p _ renv (rw_ctl _ W1) Hi1 He eq_refl Hq Hr) as (c2 & d & ev & Er & Wc2 & Ha2 & Hh2 & Hd).
  rewrite Hrt in Hd. cbn [rest_exec ctl_exec]. rewrite Er. cbn [mbind outcome_bind].
  set (st2 := with_world st1 (c2, (world st1).2 ++ ev)).
  assert (W2 : rest_wf st2).
  { constructor; cbn [st2 raw world store fst with_world]; [apply W1|done|apply W1|].
    intros a (k & Hk & Hh)%(rw_slots _ W1). exists k. split; [done|]. by eapply run_app_holds. }
  destruct (delete_cases st2 (Z.of_nat i) W2) as (r3 & st3 & E3 & _ & H3).
  { rewrite (cw_len _ (rw_ctl _ W)) in Hlt. lia. }
  rewrite Nat2Z.id in H3. change (world st2).1 with c2 in H3. change (store st2) with (store st1) in H3. rewrite Ha2, Hi1 in H3.
  destruct H3 as (Ea3 & Es3 & -> & Hdw). rewrite Hh2 in Hdw. specialize (Hdw _ (lookup_insert_eq _ _ _)).
  rewrite decide_True in E3 by (rewrite Es; apply (pushed_listed _ (mk_app_state (Z.of_nat i) pl now))).
  exists st2, d, st3. split_and!; [done|done|done| | |].
  - rewrite Hdw. unfold dapps_without. cbn [dapp_ctx set_dapp_ctx]. destruct d as [a|]; [|done].
    destruct Hd as (_ & Hn & x & ->). by rewrite delete_insert_id.
  - rewrite Ea3, Ea, list_insert_insert_eq. by apply list_insert_id.
  - rewrite Es3, Es. apply (filter_pushed _ (mk_app_state (Z.of_nat i) pl now)). by apply free_slot_unlisted.
Qed.

(** ** Loading a Python application again *)

(** Whether an environment counts as the same Python application depends on the
    first entry alone. *)
Lemma same_python pl kv rest mapping e : pl_app_type pl = "python"%string ->
  same_app_as (request_of pl (kv :: rest) mapping) e = true <-> params e !! 0%nat = Some (kv_of kv).
Proof.
  intros Ht. unfold same_app_as. cbn [rq_app_type request_of]. rewrite Ht, decide_True by done.
  cbn [rq_params request_of]. unfold padded, MAX_ENTRIES. cbn [take fmap list_fmap app lookup list_lookup].
  destruct (params e) as [|[k' v'] l]; cbn [lookup list_lookup]; [done|].
  rewrite bool_decide_true by (by split; eexists). cbn [andb kv_of kv_key kv_val]. unfold same_string.
  destruct k' as [k'|], v' as [v'|]; rewrite ?andb_false_r; (split; [|intros [= -> ->]; by rewrite !bool_decide_true]); try done.
  intros [?%bool_decide_eq_true ?%bool_decide_eq_true]%andb_true_iff. by subst.
Qed.

Lemma python_post_valid pl ps mapping : pl_app pl <> [] -> valid_request (request_of pl ps mapping).
Proof.
  intros H. unfold valid_request. split_and!; [by eexists| |].
  - cbn. destruct (pl_app pl); [done|]. cbn. lia.
  - cbn [rq_params request_of]. unfold padded. rewrite length_app, length_replicate, length_fmap, length_take. unfold MAX_ENTRIES. lia.
Qed.

(** Loading the same Python application twice: a second POST is refused
    when the iteration of its parameters starts with the entry the loaded
    application has first, and accepted when it starts with one that no loaded
    application has first. The order of the iteration is not determined by the
    request, so whether an application can be loaded twice is not either. *)
Theorem rest_python_duplicate st pl kv kv' rest rest' mapping now env e :
  rest_wf st -> pl_app_type pl = "python"%string -> pl_app pl <> [] -> loaded (world st).1 e -> params e !! 0%nat = Some (kv_of kv) ->
  screened pl (kv :: rest) mapping = None -> screened pl (kv' :: rest') mapping = None ->
  (exists st', rest_exec true st (PostApp pl (kv :: rest) mapping now env) = Ret (Some (Reply BAD_REQUEST (BError "Bad request")), st') /\
     store st' = store st /\ (world st').1 = (world st).1) /\
  ((forall e', loaded (world st).1 e' -> params e' !! 0%nat <> Some (kv_of kv')) -> has_free_slot (world st).1 ->
   load_env_ok (world st).1 env -> is_Some (le_calloc env) -> is_Some (le_handle env) -> le_pthread_create env = 0 ->
   exists i st', let a := mk_app_state (Z.of_nat i) pl now in
     rest_exec true st (PostApp pl (kv' :: rest') mapping now env) = Ret (Some (Reply OK (BApp a)), st') /\ store st' = store st ++ [a]).
Proof.
  intros W Ht Hne He Hkv Hs Hs'. cbn [rest_exec]. split.
  - destruct (rest_load_passed pl (kv :: rest) mapping st (rw_raw _ W) Hs) as (h & h3 & _ & _ & ->). cbn [ctl_callbacks cb_load_app].
    pose proof (proj1 (load_app_refused (world st).1 _ env (rw_ctl _ W) (python_post_valid pl (kv :: rest) mapping Hne))) as E.
    specialize (E (ex_intro _ e (conj He (proj2 (same_python pl kv rest mapping e Ht) Hkv)))).
    destruct (world st) as [c tr]. cbn [fst] in *. rewrite E. cbn. eexists. by split_and!.
  - intros Hno Hfree Hok [p Ec] [hd Eh] Ep.
    destruct (rest_load_passed pl (kv' :: rest') mapping st (rw_raw _ W) Hs') as (h & h3 & _ & _ & ->). cbn [ctl_callbacks cb_load_app].
    destruct (load_app_facts (world st).1 (request_of pl (kv' :: rest') mapping) env p hd (rw_ctl _ W) Hok (python_post_valid _ _ _ Hne))
      as (c' & i & E & _); [|done..|].
    { intros e' He'. apply not_true_is_false. rewrite same_python by done. by apply Hno. }
    destruct (world st) as [c tr]. cbn [fst] in *. rewrite E. cbn [mbind outcome_bind]. unfold loaded_reply.
    rewrite (proj2 (Z.eqb_neq _ _)), (proj2 (Z.leb_gt _ _)) by lia. eexists i, _. by split.
Qed.

End Inv.
