(* ===== verification/CtlTool.v ===== *)
(** * The command-line tool

    [src/tools/jrtc-ctl/], as far as it configures, loads and unloads
    applications: the merging and checking of configuration files
    ([cmd/clicommon/config.go]), the request made for an application
    ([cmd/load/load.go], [services/jrt-controller/request.go]), and loading and
    unloading by name over the REST server ([cmd/app/load], [cmd/app/unload]).
    A dereference of a nil pointer, which panics in Go, is a fault; the parsers
    of YAML and JSON, [os.ExpandEnv] and [time.ParseDuration] are arguments. *)
From stdpp Require Import pretty.
From S2P Require Import Prelude StreamId Ext Router RouterInv RouterApps RouterInit Sched Logging Config Controller ControllerFacts Process ProcessFacts PyLoader RestServer RestServerFacts RestServerInv.
From Stdlib Require Import Ascii.

(** ** Configuration *)

(** A value of [map[string]interface{}]; what comes from a file is never a
    [[]string], since an array of JSON is a [[]interface{}]. *)
Inductive pvalue :=
| PString (s : string)
| PStrings (l : list string)
| POther.

Record App := mk_app {
  Name : string;
  SharedLibraryPath : string;
  AppType : string;
  Port : Z;
  OptionalIP : option string;
  OptionalDeadline : option string;
  OptionalPeriod : option string;
  OptionalRuntime : option string;
  OptionalIOQSize : option Z;
  IP : string;
  Deadline : Z;
  Period : Z;
  Runtime : Z;
  IOQSize : Z;
  SharedLibraryCode : list Z;
  AppParams : gmap string pvalue;
  DeviceMapping : gmap string pvalue;
  AppModules : list string
}.

Record JBPFDevice := mk_device { dev_ID : Z; dev_IP : string; dev_OptionalIP : option string; dev_Port : Z }.
Record JBPFCodelet := mk_codelet { ConfigFile : string; Device : Z }.
Record Decoder := mk_decoder {
  HTTPRelativePath : string; dec_IP : string; dec_OptionalIP : option string; dec_Port : Z; Typ : string }.
Record JBPFConfig := mk_jbpf { Devices : list JBPFDevice; JBPFCodelets : list JBPFCodelet }.

(** The pointer to the jbpf part may be nil. *)
Record CLIConfig := mk_cli { Apps : list App; Decoders : list Decoder; JBPF : option JBPFConfig; cli_Name : string }.

Definition mergeConfigs (c1 : option CLIConfig) (c2 : CLIConfig) : option CLIConfig :=
  match c1 with
  | None => Some c2
  | Some c1 =>
      if decide (cli_Name c1 = cli_Name c2) then
        let '(devices, codeletsets) :=
          match JBPF c1, JBPF c2 with
          | Some j1, Some j2 => (Devices j1 ++ Devices j2, JBPFCodelets j1 ++ JBPFCodelets j2)
          | Some j1, None => (Devices j1, JBPFCodelets j1)
          | None, Some j2 => (Devices j2, JBPFCodelets j2)
          | None, None => ([], [])
          end in
        Some (mk_cli (Apps c1 ++ Apps c2) (Decoders c1 ++ Decoders c2) (Some (mk_jbpf devices codeletsets)) (cli_Name c1))
      else None
  end.

Section Tool.
Variable ExpandEnv : string -> string.
(** Nanoseconds, or an error. *)
Variable ParseDuration : string -> option Z.

Definition expand_param (v : pvalue) : pvalue :=
  match v with
  | PString s => PString (ExpandEnv s)
  | PStrings l => PStrings (ExpandEnv <$> l)
  | POther => POther
  end.

(** The modules are expanded twice. *)
Definition expand_app (a : App) : App :=
  mk_app (Name a) (ExpandEnv (SharedLibraryPath a)) (AppType a) (Port a) (OptionalIP a) (OptionalDeadline a) (OptionalPeriod a)
    (OptionalRuntime a) (OptionalIOQSize a) (IP a) (Deadline a) (Period a) (Runtime a) (IOQSize a) (SharedLibraryCode a)
    (expand_param <$> AppParams a) (DeviceMapping a) (ExpandEnv <$> (ExpandEnv <$> AppModules a)).

Definition expandEnvVars (c : CLIConfig) : outcome CLIConfig :=
  match JBPF c with
  | None => Fault NullDeref
  | Some j =>
      Ret (mk_cli (expand_app <$> Apps c) (Decoders c)
             (Some (mk_jbpf (Devices j) ((λ x, mk_codelet (ExpandEnv (ConfigFile x)) (Device x)) <$> JBPFCodelets j))) (cli_Name c))
  end.

Definition default_ip (o : option string) : string :=
  match o with Some s => if decide (s = EmptyString) then "127.0.0.1" else s | None => "127.0.0.1" end.

Definition duration (o : option string) : option Z := match o with Some s => ParseDuration s | None => Some 0 end.

Definition set_app_defaults (a : App) : option App :=
  match duration (OptionalDeadline a) with
  | None => None
  | Some deadline =>
  match duration (OptionalPeriod a) with
  | None => None
  | Some period =>
  match duration (OptionalRuntime a) with
  | None => None
  | Some runtime =>
      Some (mk_app (Name a) (SharedLibraryPath a) (AppType a) (Port a) (OptionalIP a) (OptionalDeadline a) (OptionalPeriod a)
              (OptionalRuntime a) (OptionalIOQSize a) (default_ip (OptionalIP a)) deadline period runtime
              (default 1000 (OptionalIOQSize a)) (SharedLibraryCode a) (AppParams a) (DeviceMapping a) (AppModules a))
  end end end.

Definition setDefaults (c : CLIConfig) : outcome (option CLIConfig) :=
  match mapM set_app_defaults (Apps c) with
  | None => Ret None
  | Some apps =>
      match JBPF c with
      | None => Fault NullDeref
      | Some j =>
          Ret (Some (mk_cli apps ((λ d, mk_decoder (HTTPRelativePath d) (default_ip (dec_OptionalIP d)) (dec_OptionalIP d) (dec_Port d) (Typ d)) <$> Decoders c)
                 (Some (mk_jbpf ((λ d, mk_device (dev_ID d) (default_ip (dev_OptionalIP d)) (dev_OptionalIP d) (dev_Port d)) <$> Devices j)
                          (JBPFCodelets j))) (cli_Name c)))
      end
  end.

(** The devices seen so far; [None] is an error. *)
Fixpoint see_devices (ds : list JBPFDevice) (seen : gset Z) : option (gset Z) :=
  match ds with
  | [] => Some seen
  | d :: ds => if decide (dev_ID d ∈ seen) then None else see_devices ds ({[dev_ID d]} ∪ seen)
  end.

Fixpoint use_devices (cs : list JBPFCodelet) (seen used : gset Z) : option (gset Z) :=
  match cs with
  | [] => Some used
  | c :: cs => if decide (Device c ∈ seen) then use_devices cs seen ({[Device c]} ∪ used) else None
  end.

(** Whether the error is nil. *)
Definition validate (c : CLIConfig) : bool :=
  match JBPF c with
  | None => true
  | Some j =>
      match see_devices (Devices j) ∅ with
      | None => false
      | Some seen =>
          match use_devices (JBPFCodelets j) seen ∅ with
          | None => false
          | Some used => bool_decide (seen ∖ used = ∅)
          end
      end
  end.

(** The loop of [FromYamls] over the files, each as it was parsed. *)
Fixpoint merge_files (out : option CLIConfig) (files : list CLIConfig) : option (option CLIConfig) :=
  match files with
  | [] => Some out
  | f :: files => match mergeConfigs out f with None => None | Some c => merge_files (Some c) files end
  end.

(** [None] is an error. *)
Definition FromYamls (files : list CLIConfig) : outcome (option CLIConfig) :=
  if decide (files = []) then Ret None
  else
    match merge_files None files with
    | None => Ret None
    | Some None => Fault NullDeref
    | Some (Some out) =>
        out ← expandEnvVars out;
        o ← setDefaults out;
        match o with
        | None => Ret None
        | Some out => if validate out then Ret (Some out) else Ret None
        end
    end.

(** ** The request for an application *)

(** [GetDeviceMap] and the loop over it: addresses to ids, and back. Two devices
    with the same address are one entry. *)
Definition GetDeviceMap (j : JBPFConfig) : gmap string Z :=
  foldl (λ m d, <[String.append (dev_IP d) (String.append ":" (pretty (dev_Port d))) := dev_ID d]> m) ∅ (Devices j).

Definition device_mapping_of (l : list (string * Z)) (m : gmap string pvalue) : gmap string pvalue :=
  foldl (λ m x, <[pretty x.2 := PString x.1]> m) m l.

(** [int32(d.Microseconds())]. *)
Definition micros (d : Z) : Z := sext 32 (u32 (Z.quot d 1000)).

(** The body of the request; numbers are [int32]. *)
Record tool_request := mk_tool_request {
  tr_App : list Z;
  tr_AppName : string;
  tr_RuntimeUs : Z;
  tr_DeadlineUs : Z;
  tr_PeriodUs : Z;
  tr_IoqSize : Z;
  tr_AppPath : string;
  tr_AppType : string;
  tr_AppParams : gmap string pvalue;
  tr_DeviceMapping : gmap string pvalue;
  tr_AppModules : list string
}.

Definition NewJrtcAppLoadRequestFromBytes (code : list Z) (path name : string) (ioq deadline period runtime : Z) (typ : string)
    (modules : list string) (ps : gmap string pvalue) (mapping : gmap string pvalue) : tool_request :=
  mk_tool_request code name (micros runtime) (micros deadline) (micros period) ioq path typ ps mapping modules.

(** What [load] does with one application: a Python application is loaded as the
    library of the loader, with its script as a parameter. [loader] is the
    content of that library, [devices] the order in which the map is ranged over. *)
Definition load_request (a : App) (loader : option (list Z)) (devices : list (string * Z)) : option tool_request :=
  let mapping := device_mapping_of devices (DeviceMapping a) in
  if decide (AppType a = "python") then
    match loader with
    | None => None
    | Some code =>
        Some (NewJrtcAppLoadRequestFromBytes code (ExpandEnv "${JRTC_PATH}/out/lib/libjrtc_pythonapp_loader.so") (Name a) (IOQSize a)
                (Deadline a) (Period a) (Runtime a) (AppType a) (AppModules a)
                (<[AppType a := PString (SharedLibraryPath a)]> (AppParams a)) mapping)
    end
  else
    Some (NewJrtcAppLoadRequestFromBytes (SharedLibraryCode a) (SharedLibraryPath a) (Name a) (IOQSize a) (Deadline a) (Period a)
            (Runtime a) (AppType a) (AppModules a) (AppParams a) mapping).

End Tool.

(** ** Over HTTP *)

(** What the server decodes: its numbers are unsigned and the values of its
    maps strings; anything else is rejected before the handler runs. *)
Definition string_param (v : pvalue) : option string := match v with PString s => Some s | _ => None end.

Definition string_values (m : gmap string pvalue) : option (gmap string string) :=
  let ps := omap string_param m in if decide (dom ps = dom m) then Some ps else None.

Definition decoded (r : tool_request) : option JrtcAppLoadRequest :=
  if decide (0 <= tr_RuntimeUs r /\ 0 <= tr_DeadlineUs r /\ 0 <= tr_PeriodUs r /\ 0 <= tr_IoqSize r) then
    match string_values (tr_AppParams r), string_values (tr_DeviceMapping r) with
    | Some ps, Some mapping =>
        Some (mk_payload (tr_App r) (tr_AppName r) (tr_RuntimeUs r) (tr_DeadlineUs r) (tr_PeriodUs r) (tr_IoqSize r) (tr_AppPath r)
                (tr_AppType r) ps mapping (tr_AppModules r))
    | _, _ => None
    end
  else None.

Section Client.
Context {cs : CharSign}.
Context {B It T C R M S : Type}.
Context `{HB : CkBitmap B It} `{HT : CkHt T nat} `{HC : CkPtrHt C} `{HR : CkRing R} `{HM : Mempool M} `{HS : JbpfIo S}.
Abbreviation server := (ServerState (controller B T C R M * list ctl_event)).

(** [logResponse]: any status that is not 2XX is an error. *)
Definition status_ok (r : reply) : bool :=
  match r with Reply s _ => (200 <=? s) && (s <=? 299) | Closed => false end.

(** [App] of [cmd/app/load]: whether the error is nil. The time of the answer is
    one that can be parsed. *)
Definition tool_load (pl : JrtcAppLoadRequest) (ps mapping : list (string * string)) (now : string) (env : load_env) (st : server) :
    outcome (bool * server) :=
  '(r, st) ← rest_exec (C := C) (M := M) true st (PostApp pl ps mapping now env);
  match r with Some r => Ret (status_ok r, st) | None => Ret (false, st) end.

(** [App] of [cmd/app/unload]: the first application with this name is unloaded;
    -1 is the id of none. *)
Definition find_app (l : list JrtcAppState) (appName : string) : Z :=
  match list_find (λ a, pl_app_name (as_request a) = appName) l with Some (_, a) => as_id a | None => -1 end.

Definition tool_unload (appName : string) (join : unload_env) (st : server) : outcome (bool * server) :=
  match get_apps st with
  | Reply _ (BApps l) =>
      let appID := find_app l appName in
      if appID =? -1 then Ret (true, st)
      else
        '(r, st) ← rest_exec (C := C) (M := M) true st (DeleteApp appID join);
        match r with Some r => Ret (status_ok r, st) | None => Ret (false, st) end
  | _ => Ret (false, st)
  end.

End Client.
