(* ===== verification/CtlToolFacts.v ===== *)
(** * Properties of the command-line tool

    Which configurations are accepted; which script a Python application runs,
    from the configuration to the loader; loading and unloading by name. *)
From stdpp Require Import pretty.
From S2P Require Import Prelude StreamId Ext Router RouterInv RouterApps RouterInit Sched Logging Config Controller ControllerFacts Process ProcessFacts PyLoader RestServer RestServerFacts RestServerInv CtlTool.
From Stdlib Require Import Ascii.

(** ** Configuration *)

Definition devices_of (c : CLIConfig) : list JBPFDevice := match JBPF c with Some j => Devices j | None => [] end.
Definition codelets_of (c : CLIConfig) : list JBPFCodelet := match JBPF c with Some j => JBPFCodelets j | None => [] end.

(** Every device has an id of its own, and exactly the devices that are defined
    are used. *)
Definition devices_ok (ids used : list Z) : Prop := NoDup ids /\ forall d, d ∈ used <-> d ∈ ids.

Lemma see_devices_spec ds : forall seen,
  match see_devices ds seen with
  | Some s => NoDup (dev_ID <$> ds) /\ (forall d, d ∈ ds -> dev_ID d ∉ seen) /\ s = list_to_set (dev_ID <$> ds) ∪ seen
  | None => ~ (NoDup (dev_ID <$> ds) /\ forall d, d ∈ ds -> dev_ID d ∉ seen)
  end.
Proof.
  induction ds as [|d ds IH]; intros seen; cbn [see_devices].
  { split_and!; [constructor|by intros ? []%elem_of_nil|cbn; set_solver]. }
  case_decide as Hd; [intros [_ H]; exact (H d (list_elem_of_here _ _) Hd)|]. specialize (IH ({[dev_ID d]} ∪ seen)).
  destruct (see_devices ds _) as [s|]; rewrite fmap_cons, NoDup_cons.
  - destruct IH as (Hn & Hs & ->). split_and!; [|done| |cbn; set_solver].
    + intros (x & Ex & Hx)%list_elem_of_fmap. apply (Hs x Hx). rewrite Ex. set_solver.
    + intros x [->|Hx]%elem_of_cons; [done|]. specialize (Hs x Hx). set_solver.
  - intros [[Hd' Hn] Hs]. apply IH. split; [done|]. intros x Hx [Ex%elem_of_singleton|Hin]%elem_of_union.
    + apply Hd'. rewrite <- Ex. by apply list_elem_of_fmap_2.
    + apply (Hs x); [by apply elem_of_cons; right|done].
Qed.

Lemma use_devices_spec cs seen : forall used,
  match use_devices cs seen used with
  | Some s => (forall c, c ∈ cs -> Device c ∈ seen) /\ s = list_to_set (Device <$> cs) ∪ used
  | None => ~ forall c, c ∈ cs -> Device c ∈ seen
  end.
Proof.
  induction cs as [|c cs IH]; intros used; cbn [use_devices].
  { split; [by intros ? []%elem_of_nil|cbn; set_solver]. }
  case_decide as Hc; [|intros H; by apply Hc, H, list_elem_of_here]. specialize (IH ({[Device c]} ∪ used)).
  destruct (use_devices cs seen _) as [s|].
  - destruct IH as (H & ->). split; [|cbn; set_solver]. by intros x [->|Hx]%elem_of_cons; [|apply H].
  - intros H. apply IH. intros x Hx. apply H. by apply elem_of_cons; right.
Qed.

Lemma set_subseteq_difference (X Y : gset Z) : X ∖ Y = ∅ <-> X ⊆ Y.
Proof.
  split; [|set_solver]. intros E d Hd. destruct (decide (d ∈ Y)); [done|]. assert (d ∈ X ∖ Y) by set_solver. rewrite E in *. set_solver.
Qed.

Lemma validate_spec c j : JBPF c = Some j ->
  validate c = true <-> devices_ok (dev_ID <$> Devices j) (Device <$> JBPFCodelets j).
Proof.
  intros Ej. unfold validate, devices_ok. rewrite Ej. pose proof (see_devices_spec (Devices j) ∅) as Hs.
  destruct (see_devices (Devices j) ∅) as [seen|].
  2:{ split; [done|]. intros [Hn _]. destruct Hs. split; [done|]. intros d _. apply not_elem_of_empty. }
  destruct Hs as (Hn & _ & Es). rewrite union_empty_r_L in Es. subst seen. pose proof (use_devices_spec (JBPFCodelets j) (list_to_set (dev_ID <$> Devices j)) ∅) as Hu.
  destruct (use_devices _ _ _) as [used|].
  - destruct Hu as (Hc & ->). rewrite union_empty_r_L. rewrite bool_decide_eq_true. split.
    + intros He%set_subseteq_difference. split; [done|]. intros d. split.
      * intros (x & -> & Hx)%list_elem_of_fmap. by apply (elem_of_list_to_set (C := gset Z)), Hc.
      * intros Hd. by apply (elem_of_list_to_set (C := gset Z)), He, elem_of_list_to_set.
    + intros [_ H]. apply set_subseteq_difference. intros d Hd. by apply (elem_of_list_to_set (C := gset Z)), H, (elem_of_list_to_set (C := gset Z)).
  - split; [done|]. intros [_ H]. destruct Hu. intros x Hx.
    apply elem_of_list_to_set, H. by apply list_elem_of_fmap_2.
Qed.

(** The files from left to right. *)
Lemma merge_files_spec fs : forall c,
  match merge_files (Some c) fs with
  | Some (Some out) => Forall (λ f, cli_Name f = cli_Name c) fs /\ cli_Name out = cli_Name c /\
      Apps out = Apps c ++ (fs ≫= Apps) /\ Decoders out = Decoders c ++ (fs ≫= Decoders) /\
      devices_of out = devices_of c ++ (fs ≫= devices_of) /\ codelets_of out = codelets_of c ++ (fs ≫= codelets_of) /\
      (JBPF out = None <-> fs = [] /\ JBPF c = None)
  | Some None => False
  | None => ~ Forall (λ f, cli_Name f = cli_Name c) fs
  end.
Proof.
  induction fs as [|f fs IH]; intros c; cbn [merge_files].
  { cbn. rewrite !app_nil_r. split_and!; [by constructor|done..|naive_solver]. }
  cbn [mergeConfigs]. case_decide as En; [|intros [? _]%Forall_cons; congruence].
  set (d := match JBPF c, JBPF f with Some _, Some _ => _ | _, _ => _ end).
  assert (Hd : d = (devices_of c ++ devices_of f, codelets_of c ++ codelets_of f)).
  { unfold d, devices_of, codelets_of. by destruct (JBPF c), (JBPF f); rewrite ?app_nil_r. }
  rewrite Hd. cbv iota. match goal with |- context [merge_files (Some ?x)] => specialize (IH x) end.
  destruct (merge_files _ fs) as [[out|]|]; cbn in IH |- *; [|done|].
  - destruct IH as (Hf & -> & -> & -> & -> & -> & Hj). cbn. rewrite !app_assoc. split_and!; [by constructor|done..|].
    split; [intros [_ ?]%Hj; done|by intros [? _]].
  - intros [_ ?]%Forall_cons. by apply IH.
Qed.

Section Tool.
Variable ExpandEnv : string -> string.
Variable ParseDuration : string -> option Z.

(** The durations of an application can be parsed. *)
Definition durations_ok (a : App) : Prop :=
  is_Some (duration ParseDuration (OptionalDeadline a)) /\ is_Some (duration ParseDuration (OptionalPeriod a)) /\
  is_Some (duration ParseDuration (OptionalRuntime a)).

Lemma set_app_defaults_spec a : is_Some (set_app_defaults ParseDuration a) <-> durations_ok a.
Proof. unfold set_app_defaults, durations_ok. repeat case_match; naive_solver. Qed.

Lemma durations_expand a : durations_ok (expand_app ExpandEnv a) <-> durations_ok a.
Proof. done. Qed.

Lemma apps_defaults l :
  match mapM (set_app_defaults ParseDuration) l with
  | Some apps => Forall durations_ok l /\ Forall2 (λ a a', set_app_defaults ParseDuration a = Some a') l apps
  | None => ~ Forall durations_ok l
  end.
Proof.
  destruct (mapM _ l) as [apps|] eqn:E.
  - apply mapM_Some in E. split; [|done]. induction E; constructor; [|done]. apply set_app_defaults_spec. eauto.
  - apply mapM_None, Exists_exists in E as (a & Ha & E). rewrite Forall_forall. intros H.
    destruct (proj2 (set_app_defaults_spec a) (H a Ha)). congruence.
Qed.

(** What is demanded of the files together. *)
Definition files_ok (fs : list CLIConfig) : Prop :=
  (forall f g, f ∈ fs -> g ∈ fs -> cli_Name f = cli_Name g) /\ Forall durations_ok (fs ≫= Apps) /\
  devices_ok (dev_ID <$> (fs ≫= devices_of)) (Device <$> (fs ≫= codelets_of)).

Lemma same_names f fs :
  (forall g h, g ∈ f :: fs -> h ∈ f :: fs -> cli_Name g = cli_Name h) <-> Forall (λ g, cli_Name g = cli_Name f) fs.
Proof.
  rewrite Forall_forall. split; [intros H g Hg; apply H; [by apply elem_of_cons; right|by apply elem_of_cons; left]|].
  intros H. assert (Hf : forall g, g ∈ f :: fs -> cli_Name g = cli_Name f) by (intros g [->|Hg]%elem_of_cons; auto).
  intros g h Hg Hh. by rewrite (Hf g Hg), (Hf h Hh).
Qed.

(** Reading configuration files: a single file without a part for jbpf
    makes the tool panic, although [validate] would accept it; otherwise the
    result is a configuration exactly when the names of the files agree, all
    durations can be parsed, no two devices share an id and the codelets use
    exactly the devices that are defined, in whatever files they are. The
    configuration has the applications of all files, in their order, each with
    its paths expanded and its defaults set. *)
Theorem from_yamls_spec f fs :
  (fs = [] /\ JBPF f = None -> FromYamls ExpandEnv ParseDuration (f :: fs) = Fault NullDeref /\ validate f = true) /\
  (~ (fs = [] /\ JBPF f = None) -> exists r, FromYamls ExpandEnv ParseDuration (f :: fs) = Ret r /\
     match r with
     | Some c => files_ok (f :: fs) /\ cli_Name c = cli_Name f /\
         Forall2 (λ a a', set_app_defaults ParseDuration (expand_app ExpandEnv a) = Some a') ((f :: fs) ≫= Apps) (Apps c) /\
         (dev_ID <$> devices_of c) = (dev_ID <$> ((f :: fs) ≫= devices_of))
     | None => ~ files_ok (f :: fs)
     end).
Proof.
  unfold FromYamls. rewrite decide_False by done. cbn [merge_files mergeConfigs]. unfold files_ok.
  pose proof (merge_files_spec fs f) as Hm. split.
  { intros [-> Hj]. cbn [merge_files]. unfold expandEnvVars, validate. by rewrite Hj. }
  intros Hne. destruct (merge_files (Some f) fs) as [[out|]|]; [|done|eexists; split; [done|]; cbv beta iota; rewrite same_names; by intros [? _]].
  destruct Hm as (Hn & Hname & Ha & _ & Hd & Hc & Hj). unfold expandEnvVars.
  change ((f :: fs) ≫= Apps) with (Apps f ++ (fs ≫= Apps)). change ((f :: fs) ≫= devices_of) with (devices_of f ++ (fs ≫= devices_of)).
  change ((f :: fs) ≫= codelets_of) with (codelets_of f ++ (fs ≫= codelets_of)).
  rewrite <- Ha, <- Hd, <- Hc. destruct (JBPF out) as [j|] eqn:Ej; [|exfalso; naive_solver]. cbn [mbind outcome_bind].
  unfold setDefaults. cbn [Apps JBPF Decoders cli_Name]. pose proof (apps_defaults (expand_app ExpandEnv <$> Apps out)) as Hp.
  destruct (mapM _ _) as [apps|]; rewrite Forall_fmap in Hp.
  2:{ eexists. split; [done|]. cbv beta iota; rewrite same_names. intros (_ & H & _). by apply Hp. }
  destruct Hp as [Hp1 Hp2]. cbn [mbind outcome_bind Devices JBPFCodelets].
  assert (Hv : devices_of out = Devices j /\ codelets_of out = JBPFCodelets j) by (unfold devices_of, codelets_of; by rewrite Ej).
  destruct Hv as [-> ->]. match goal with |- context [validate ?x] => pose proof (validate_spec x _ eq_refl) as Hv end.
  cbn [JBPF Devices JBPFCodelets] in Hv. rewrite <- !list_fmap_compose in Hv. unfold compose in Hv. cbn [dev_ID Device] in Hv.
  case_match; (eexists; split; [done|]); cbv beta iota; rewrite same_names.
  - split_and!; [done|done|by apply Hv|done| |].
    + by apply Forall2_fmap_l in Hp2.
    + cbn. by rewrite <- list_fmap_compose.
  - intros (_ & _ & Hdev%Hv). congruence.
Qed.

End Tool.

(** ** The script of a Python application *)

Lemma script_of_request pl ps mapping h :
  script_of (env_of_request (request_of pl ps mapping) h) = option_map (λ kv, chars kv.2) (head ps).
Proof. unfold script_of. cbn [params env_of_request rq_params request_of]. destruct ps as [|kv l]; by unfold padded, MAX_ENTRIES. Qed.

(** Any entry can come first. *)
Lemma any_first (m : gmap string string) k v : m !! k = Some v -> exists rest, (k, v) :: rest ≡ₚ map_to_list m.
Proof. intros H. exists (map_to_list (delete k m)). by apply map_to_list_delete. Qed.

(** The loader runs [script] whatever the order of the parameters. *)
Definition runs_script (pl : JrtcAppLoadRequest) (script : string) : Prop :=
  forall ps mapping h, ps ≡ₚ map_to_list (pl_app_params pl) ->
    script_of (env_of_request (request_of pl ps mapping) h) = Some (chars script).

Lemma chars_inj s s' : chars s = chars s' -> s = s'.
Proof. revert s'. induction s as [|a s IH]; intros [|b s']; cbn; try done. intros [= -> ?]. f_equal. by apply IH. Qed.

Lemma runs_script_spec pl script :
  runs_script pl script <-> pl_app_params pl <> ∅ /\ map_Forall (λ _ v, v = script) (pl_app_params pl).
Proof.
  unfold runs_script. split.
  - intros H. split.
    + intros E. specialize (H [] [] 0%nat). rewrite script_of_request, E in H. by specialize (H (reflexivity _)).
    + intros k v Hk. destruct (any_first _ _ _ Hk) as [rest Hp]. specialize (H _ [] 0%nat Hp). rewrite script_of_request in H.
      injection H as H. by apply chars_inj.
  - intros [Hne H] ps mapping h Hp. rewrite script_of_request. destruct ps as [|[k v] ps].
    + apply Permutation_nil in Hp. by apply map_to_list_empty_iff in Hp.
    + cbn. do 2 f_equal. apply (H k). apply elem_of_map_to_list. rewrite <- Hp. by apply elem_of_cons; left.
Qed.

(** The request that the tool makes for a Python application. *)
Lemma python_request E a code devices r pl : AppType a = "python"%string -> load_request E a (Some code) devices = Some r ->
  decoded r = Some pl -> pl_app_params pl = omap string_param (<[AppType a := PString (SharedLibraryPath a)]> (AppParams a)).
Proof.
  intros Ht. unfold load_request. rewrite decide_True by done. intros [= <-]. unfold decoded, string_values.
  repeat case_decide; intros [= <-]; done.
Qed.

(** C22: which script a Python application runs, from the configuration to the
    loader: the tool adds the path as a parameter and sends it to the server, the
    server passes the parameters on in the order of its hash map, and the loader
    runs the value of the first. The script is the one that was configured, for
    every order, exactly when every parameter of the application other than
    [python] has the path as its value too; with any other value there is an
    order in which the loader runs that value as a script. *)
Theorem python_script_configured E a code devices r pl : AppType a = "python"%string ->
  load_request E a (Some code) devices = Some r -> decoded r = Some pl ->
  (runs_script pl (SharedLibraryPath a) <->
   forall k v, k <> "python"%string -> AppParams a !! k = Some (PString v) -> v = SharedLibraryPath a) /\
  (forall k v, k <> "python"%string -> AppParams a !! k = Some (PString v) ->
   exists ps, ps ≡ₚ map_to_list (pl_app_params pl) /\
     forall mapping h, script_of (env_of_request (request_of pl ps mapping) h) = Some (chars v)).
Proof.
  intros Ht Hr Hd. pose proof (python_request _ _ _ _ _ _ Ht Hr Hd) as Hp. rewrite Ht in Hp.
  assert (Hl : forall k v, k <> "python"%string -> AppParams a !! k = Some (PString v) -> pl_app_params pl !! k = Some v).
  { intros k v Hk E0. by rewrite Hp, lookup_omap, lookup_insert_ne, E0. }
  split.
  - rewrite runs_script_spec. split.
    + intros [_ H] k v Hk E0. apply (H k), Hl; done.
    + intros H. rewrite Hp. split.
      * intros E0. apply (f_equal (.!! "python"%string)) in E0. by rewrite lookup_omap, lookup_insert_eq in E0.
      * intros k v. rewrite lookup_omap. destruct (decide (k = "python"%string)) as [->|Hk].
        -- rewrite lookup_insert_eq. by intros [= <-].
        -- rewrite lookup_insert_ne by done. destruct (AppParams a !! k) as [[s|s|]|] eqn:E0; [|done..]. cbn. intros [= <-]. by apply (H k).
  - intros k v Hk E0. destruct (any_first _ _ _ (Hl k v Hk E0)) as [rest Hperm]. exists ((k, v) :: rest). split; [done|].
    intros mapping h. by rewrite script_of_request.
Qed.

(** ** Loading and unloading by name *)

Section Client.
Context {cs : CharSign}.
Context {B It T C R M S : Type}.
Context `{HB : CkBitmap B It} `{HT : CkHt T nat} `{HC : CkPtrHt C} `{HR : CkRing R} `{HM : Mempool M} `{HS : JbpfIo S}.
Context `{LB : !CkBitmapLaws B It} `{LT : !CkHtLaws T nat} `{LC : !CkPtrHtLaws C} `{LR : !CkRingLaws R} `{LM : !MempoolLaws M}.
Abbreviation server := (ServerState (controller B T C R M * list ctl_event)).
Implicit Types (st : server).

(** The first application that is listed with a name. *)
Definition named (l : list JrtcAppState) (name : string) : option (nat * JrtcAppState) :=
  list_find (λ a, pl_app_name (as_request a) = name) l.

Lemma find_own_id (l : list JrtcAppState) k a : NoDup (as_id <$> l) -> l !! k = Some a ->
  list_find (λ x, as_id x = as_id a) l = Some (k, a).
Proof.
  intros Hn Hk. apply list_find_Some. split_and!; [done|done|]. intros j y Hj Hlt Ey.
  assert (j = k); [|lia]. eapply (NoDup_lookup (as_id <$> l)); [done| |]; rewrite list_lookup_fmap; [by rewrite Hj|].
  by rewrite Hk, Ey.
Qed.

Lemma list_delete_app_l {A} (l l' : list A) k : (k < length l)%nat -> delete k (l ++ l') = delete k l ++ l'.
Proof. revert k. induction l as [|x l IH]; intros [|k] Hk; cbn in *; [lia|lia|done|]. f_equal. apply IH. lia. Qed.

Lemma tool_unload_spec st name : rest_wf st ->
  exists st', tool_unload name unload_fine st = Ret (true, st') /\ rest_wf st' /\
    match named (store st) name with
    | Some (k, a) => store st' = delete k (store st) /\ app_envs (world st').1 = <[Z.to_nat (as_id a) := None]> (app_envs (world st).1)
    | None => st' = st
    end.
Proof.
  intros W. unfold tool_unload, find_app, named. cbn [get_apps]. destruct (list_find _ (store st)) as [[k a]|] eqn:Ef.
  2:{ exists st. by split_and!. }
  apply list_find_Some in Ef as (Hk & _ & _). destruct (rw_slots _ W a (list_elem_of_lookup_2 _ _ _ Hk)) as (i & Hid & p & e & Hp & _ & _).
  rewrite (proj2 (Z.eqb_neq _ _)) by lia.
  destruct (delete_cases st (as_id a) W) as (r & st' & -> & W' & Hc).
  { apply lookup_lt_Some in Hp. rewrite (cw_len _ (rw_ctl _ W)) in Hp. lia. }
  rewrite Hid, Nat2Z.id in Hc |- *. rewrite Hp in Hc. destruct Hc as (Ha & Hs & -> & _). cbn [mbind outcome_bind].
  rewrite decide_True by (rewrite <- Hid; apply list_elem_of_fmap_2; by eapply list_elem_of_lookup_2).
  exists st'. split_and!; [done|done| |done].
  rewrite Hs, <- Hid. symmetry. eapply delete_found; [apply W|]. by apply find_own_id; [apply W|].
Qed.

(** C25: loading an application with the tool and unloading it by its name:
    when nothing was listed with this name, the list and the table are as before;
    when an application was, it is the older one that is unloaded, and the new one
    stays. Unloading a name that is not listed succeeds and changes nothing: an
    application that the controller loaded itself cannot be unloaded by name. *)
Theorem tool_load_unload st pl ps mapping now env st1 :
  rest_wf st -> rest_op_ok st (PostApp pl ps mapping now env) -> tool_load pl ps mapping now env st = Ret (true, st1) ->
  exists i, let new := mk_app_state (Z.of_nat i) pl now in
    store st1 = store st ++ [new] /\
    exists st2, tool_unload (pl_app_name pl) unload_fine st1 = Ret (true, st2) /\ rest_wf st2 /\
      match named (store st) (pl_app_name pl) with
      | None => store st2 = store st /\ app_envs (world st2).1 = app_envs (world st).1 /\
          tool_unload (pl_app_name pl) unload_fine st2 = Ret (true, st2)
      | Some (k, old) => store st2 = delete k (store st) ++ [new] /\
          app_envs (world st2).1 = <[Z.to_nat (as_id old) := None]> (app_envs (world st1).1)
      end.
Proof.
  intros W Hok. unfold tool_load. destruct (post_cases st pl ps mapping now env W Hok) as (r & st1' & -> & W1 & Hc).
  cbn [mbind outcome_bind]. intros [= Hr <-].
  destruct Hc as [(_ & _ & [->|[m ->]])|(i & p & _ & Es & Hi & Ea & _)]; [done|done|].
  exists i. cbv zeta. split; [done|]. set (new := mk_app_state (Z.of_nat i) pl now) in *.
  destruct (tool_unload_spec st1' (pl_app_name pl) W1) as (st2 & E2 & W2 & H). exists st2. split_and!; [done|done|].
  destruct (named (store st) (pl_app_name pl)) as [[k old]|] eqn:En.
  - assert (Hn : named (store st1') (pl_app_name pl) = Some (k, old)).
    { rewrite Es. unfold named in *. apply list_find_Some in En as (Hk & Hold & Hmin). apply list_find_Some. split_and!; [|done|].
      - by apply lookup_app_l_Some.
      - intros j y [Hj|[Hge _]]%lookup_app_Some Hlt; [by eapply Hmin|]. apply lookup_lt_Some in Hk. lia. }
    rewrite Hn in H. destruct H as [Hs Ha]. split; [|done]. rewrite Hs, Es. unfold named in En. apply list_find_Some in En as (Hk & _).
    apply lookup_lt_Some in Hk. by rewrite list_delete_app_l.
  - assert (Hn : named (store st1') (pl_app_name pl) = Some (length (store st), new)).
    { rewrite Es. unfold named in *. apply list_find_None in En. rewrite Forall_forall in En. apply list_find_Some. split_and!; [|done|].
      - by apply list_lookup_middle.
      - intros j y [Hj|[Hge _]]%lookup_app_Some Hlt; [|lia]. eapply En. by eapply list_elem_of_lookup_2. }
    rewrite Hn in H. destruct H as [Hs Ha].
    assert (Hs2 : store st2 = store st) by (by rewrite Hs, Es, delete_middle, app_nil_r). split_and!; [done| |].
    + rewrite Ha, Ea. cbn [as_id new]. rewrite Nat2Z.id, list_insert_insert_eq. by apply list_insert_id.
    + unfold tool_unload, find_app. cbn [get_apps]. rewrite Hs2. unfold named in En. by rewrite En.
Qed.

End Client.
