(* ===== verification/RestExample.v ===== *)
(** * Requests to the REST server

    The default application is loaded; a Python application is loaded through
    the server, asked for, loaded again and deleted. *)
From stdpp Require Import pretty.
From S2P Require Import Prelude StreamId Ext Router RouterInv RouterApps RouterInit RouterExample Sched Logging Config Controller ControllerFacts ControllerExample Process ProcessFacts ProcessExample RestServer RestServerFacts RestServerInv.
From Stdlib Require Import Ascii.
Import Reference.

#[local] Instance signed_char_rest : CharSign := true.

Abbreviation ex_rest_op := (rest_op (C := list (nat * nat)) (M := Z * list nat)).
Abbreviation ex_server := (ServerState (ex_ctl * list ctl_event)).

Definition ex_params : gmap string string := {["script" := "a.py"; "level" := "2"]}.
Definition script_first : list (string * string) := [("script", "a.py"); ("level", "2")]%string.
Definition level_first : list (string * string) := [("level", "2"); ("script", "a.py")]%string.

Definition ex_pl : JrtcAppLoadRequest :=
  mk_payload [127; 69] "app" 0 0 0 3 "/loader.so" "python" ex_params ∅ ["numpy"%string].

Definition ex_post (order : list (string * string)) (p h : nat) : ex_rest_op :=
  PostApp ex_pl order [] "2025-01-01T00:00:00Z" (mk_load_env (Some p) (Some h) 0).

Lemma script_first_order : script_first ≡ₚ map_to_list ex_params.
Proof. vm_compute. first [reflexivity | apply Permutation_swap]. Qed.
Lemma level_first_order : level_first ≡ₚ map_to_list ex_params.
Proof. vm_compute. first [reflexivity | apply Permutation_swap]. Qed.
Lemma no_mapping : [] ≡ₚ map_to_list (∅ : gmap string string).
Proof. reflexivity. Qed.

(** The default application in slot 0, nothing in the store. *)
Definition s0 : ex_server := mk_server [] (mk_raw ∅ 0) (p1, []).

Lemma raw_empty_ok : raw_ok (mk_raw ∅ 0).
Proof. intros p [x Hx]. cbn in Hx. by rewrite lookup_empty in Hx. Qed.

Lemma s0_wf : rest_wf s0.
Proof. constructor; cbn [s0 store raw world fst]; [exact raw_empty_ok|exact p1_wf|constructor|]. intros a Ha. by apply elem_of_nil in Ha. Qed.

Lemma p1_heap : heap p1 !! 50%nat = None /\ heap p1 !! 51%nat = None.
Proof. split; vm_compute; reflexivity. Qed.

Lemma ex_screened order : order = script_first \/ order = level_first -> screened ex_pl order [] = None.
Proof. intros [-> | ->]; vm_compute; reflexivity. Qed.

Lemma ex_post_ok : rest_op_ok s0 (ex_post script_first 50 60).
Proof.
  split; [split; [exact script_first_order|exact no_mapping]|]. cbn [ex_post ctl_ops_of].
  rewrite ex_screened by (by left). apply Forall_singleton. split; [split; [|cbn; lia]|split; [by eexists|reflexivity]].
  cbn [s0 world fst]. intros q [= <-]. apply p1_heap.
Qed.

(** The server after the first POST. *)
Definition s1 : ex_server := (ret_or (None, s0) (rest_exec true s0 (ex_post script_first 50 60))).2.

Lemma s1_post : rest_exec true s0 (ex_post script_first 50 60) =
  Ret (Some (Reply OK (BApp (mk_app_state 1 ex_pl "2025-01-01T00:00:00Z"))), s1).
Proof. vm_compute. reflexivity. Qed.

Lemma s1_wf : rest_wf s1.
Proof.
  destruct (rest_exec_wf s0 _ s0_wf ex_post_ok) as (r & st & E & W & _). pose proof s1_post as E'. rewrite E' in E.
  apply (f_equal (ret_or (None, s0))), (f_equal snd) in E. cbn [ret_or snd] in E. by subst st.
Qed.

(** ** Witnesses *)

Lemma rest_load_spec_witness : exists h, later 5 (raw s0) h /\
  rest_load_app (ctl_callbacks (mk_load_env (Some 50%nat) (Some 60%nat) 0) unload_fine) ex_pl script_first [] "now" s0 =
    Ret (Reply OK (BApp (mk_app_state 1 ex_pl "now")), mk_server [mk_app_state 1 ex_pl "now"] h (world s1)).
Proof.
  pose proof (rest_load_spec (ctl_callbacks (mk_load_env (Some 50%nat) (Some 60%nat) 0) unload_fine) ex_pl script_first [] "now" s0
    raw_empty_ok script_first_order no_mapping) as H.
  rewrite ex_screened in H by (by left). destruct H as (_ & _ & h & h3 & L & _ & E). exists h. split; [exact L|].
  rewrite E. vm_compute. reflexivity.
Defined.


Definition ex_requests : list ex_rest_op :=
  [ex_post script_first 50 60; GetApp 1; GetApps; DeleteApp 1 unload_fine; GetApp 1; DeleteApp 0 unload_fine; DeleteApp 0 unload_fine].

Definition ex_replies : list (option reply) :=
  let app := mk_app_state 1 ex_pl "2025-01-01T00:00:00Z" in
  [Some (Reply OK (BApp app)); Some (Reply OK (BApp app)); Some (Reply OK (BApps [app])); Some (Reply NO_CONTENT BNone);
   Some (Reply NOT_FOUND (BError "id = 1")); Some (Reply NOT_FOUND (BError "App not found")); Some (Reply NO_CONTENT BNone)].

Lemma ex_requests_run : exists st', rest_serve true s0 ex_requests = Ret (ex_replies, st').
Proof. eexists. vm_compute. reflexivity. Qed.

Lemma rest_refines_serve_witness : exists c ev, serve true p1 (ex_requests ≫= ctl_ops_of) = Ret (c, ev).
Proof.
  pose proof (rest_refines_serve true ex_requests s0 raw_empty_ok) as H. destruct ex_requests_run as [st' E]. rewrite E in H. clear E.
  change (world s0).1 with p1 in H. destruct (serve true p1 (ex_requests ≫= ctl_ops_of)) as [[c ev]|f]; [|discriminate H].
  exists c, ev. reflexivity.
Defined.

Lemma ex_post_env_ok ops :
  (forall r st', rest_exec true s0 (ex_post script_first 50 60) = Ret (r, st') -> rest_ops_env_ok st' ops) ->
  rest_ops_env_ok s0 (ex_post script_first 50 60 :: ops).
Proof.
  intros H. split; [|exact H]. destruct ex_post_ok as [Ho Hc]. split; [exact Ho|]. eapply Forall_impl; [exact Hc|]. by intros c [Hc' _].
Qed.

(** Requests without a POST may arrive in any state. *)
Lemma no_posts_env_ok (ops : list ex_rest_op) : Forall (λ o, match o with GetApps | GetApp _ | DeleteApp _ _ => True | _ => False end) ops ->
  forall st : ex_server, rest_ops_env_ok st ops.
Proof.
  induction 1 as [|o ops Ho _ IH]; intros st; [exact I|]. split; [|intros r st' _; apply IH].
  destruct o; try done; split; try done; by repeat constructor.
Qed.


Lemma rest_delete_spec_witness : rest_exec true s1 (DeleteApp 64 unload_fine) = Fault OutOfBounds /\
  (exists st', rest_exec true s1 (DeleteApp 0 unload_fine) = Ret (Some (Reply NOT_FOUND (BError "App not found")), st') /\ rest_wf st').
Proof.
  split; [apply (proj1 (rest_delete_spec s1 64 s1_wf)); unfold MAX_NUM_JRTC_APPS; lia|].
  destruct (proj2 (rest_delete_spec s1 0 s1_wf) ltac:(unfold MAX_NUM_JRTC_APPS; lia)) as (r & st' & E & W & _).
  exists st'. split; [|exact W]. rewrite E. vm_compute in E. by injection E as <- _.
Defined.

Lemma rest_roundtrip_witness : exists a st1 st2,
  rest_exec true s0 (ex_post script_first 50 60) = Ret (Some (Reply OK (BApp a)), st1) /\
  get_app (as_id a) st1 = Reply OK (BApp a) /\ rest_exec true st1 (DeleteApp (as_id a) unload_fine) = Ret (Some (Reply NO_CONTENT BNone), st2) /\
  store st2 = [].
Proof.
  destruct (rest_roundtrip s0 ex_pl script_first [] "2025-01-01T00:00:00Z" (mk_load_env (Some 50%nat) (Some 60%nat) 0) s0_wf ex_post_ok)
    as (r & st1 & E & H). assert (Hr : r = Reply OK (BApp (mk_app_state 1 ex_pl "2025-01-01T00:00:00Z"))).
  { pose proof s1_post as E'. unfold ex_post in E'. rewrite E in E'.
    exact (f_equal (λ o, match o with Ret (Some r, _) => r | _ => Closed end) E'). }
  subst r. destruct H as (_ & _ & Hg & _ & st2 & Ed & Hs & _). eexists _, st1, st2. split_and!; [exact E|exact Hg|exact Ed|exact Hs].
Defined.

(** ** The same application again *)

Lemma s1_envs : app_envs (world s1).1 = [Some 70%nat; Some 50%nat] ++ replicate 62 None.
Proof. vm_compute. reflexivity. Qed.
Lemma s1_first : forall p, p ∈ [70%nat; 50%nat] ->
  exists e, heap (world s1).1 !! p = Some e /\ params e !! 0%nat <> Some (kv_of ("level", "2")%string).
Proof.
  intros p [->|[->|[]%elem_of_nil]%elem_of_cons]%elem_of_cons; eexists; (split; [vm_compute; reflexivity|vm_compute; discriminate]).
Qed.
Lemma s1_heap : heap (world s1).1 !! 51%nat = None.
Proof. vm_compute. reflexivity. Qed.

Lemma s1_slots i p : app_envs (world s1).1 !! i = Some (Some p) -> p ∈ [70%nat; 50%nat].
Proof.
  rewrite s1_envs. intros [Hi|[_ Hi]]%lookup_app_Some; [|apply lookup_replicate in Hi as [[=] _]].
  destruct i as [|[|i]]; [| |discriminate Hi]; injection Hi as <-; set_solver.
Qed.

Lemma s1_no_level e : loaded (world s1).1 e -> params e !! 0%nat <> Some (kv_of ("level", "2")%string).
Proof.
  intros (i & p & Hi & He). destruct (s1_first p (s1_slots i p Hi)) as (e' & He' & Hne). rewrite He in He'. injection He' as ->. exact Hne.
Qed.

Lemma s1_load_ok : load_env_ok (world s1).1 (mk_load_env (Some 51%nat) (Some 61%nat) 0).
Proof. intros q [= <-]. exact s1_heap. Qed.

Lemma s1_loaded : exists e, loaded (world s1).1 e /\ params e !! 0%nat = Some (kv_of ("script", "a.py")%string).
Proof. eexists. split; [exists 1%nat, 50%nat; split; vm_compute; reflexivity|vm_compute; reflexivity]. Qed.

Lemma s1_free : has_free_slot (world s1).1.
Proof. exists 2%nat. rewrite s1_envs. reflexivity. Qed.

(** The application that is loaded, posted again in both orders. *)
Lemma rest_python_duplicate_witness :
  (exists st', rest_exec true s1 (ex_post script_first 51 61) = Ret (Some (Reply BAD_REQUEST (BError "Bad request")), st')) /\
  (exists i st', rest_exec true s1 (ex_post level_first 51 61) =
     Ret (Some (Reply OK (BApp (mk_app_state (Z.of_nat i) ex_pl "2025-01-01T00:00:00Z"))), st')).
Proof.
  destruct s1_loaded as (e & He & Hp).
  destruct (rest_python_duplicate s1 ex_pl ("script", "a.py")%string ("level", "2")%string [("level", "2")%string] [("script", "a.py")%string] []
    "2025-01-01T00:00:00Z" (mk_load_env (Some 51%nat) (Some 61%nat) 0) e s1_wf eq_refl ltac:(discriminate) He Hp
    (ex_screened _ (or_introl eq_refl)) (ex_screened _ (or_intror eq_refl))) as [(st' & E & _) H2]. split; [exists st'; exact E|].
  destruct (H2 s1_no_level s1_free s1_load_ok (ex_intro _ 51%nat eq_refl) (ex_intro _ 61%nat eq_refl) eq_refl) as (i & st2 & E2 & _).
  exists i, st2. exact E2.
Defined.

(** ** From POST to DELETE *)

Lemma s1_dapps : dapps (rt (world s1).1) !! 12%nat = None.
Proof. vm_compute. reflexivity. Qed.

Lemma rest_app_lives_witness : exists st2 st3,
  rest_exec true s1 (AppThread (fun _ => 0) 50 (ex_register 12) true) = Ret (None, st2) /\
  rest_exec true st2 (DeleteApp 1 unload_fine) = Ret (Some (Reply NO_CONTENT BNone), st3) /\
  dapps (rt (world st3).1) = dapps (rt (world s0).1) /\ store st3 = [].
Proof.
  destruct (rest_app_lives s0 ex_pl script_first [] "2025-01-01T00:00:00Z" (mk_load_env (Some 50%nat) (Some 60%nat) 0) 1 s1 50 (fun _ => 0)
    (ex_register 12) s0_wf ex_post_ok s1_post eq_refl ltac:(cbn; lia) (ex_register_ok _ 12 s1_dapps)) as (_ & st2 & d & st3 & E2 & _ & E3 & Hd & _ & Hs).
  exists st2, st3. split; [exact E2|]. split; [exact E3|]. split; [exact Hd|exact Hs].
Defined.
