(* ===== verification/CtlToolExample.v ===== *)
(** * The command-line tool on examples

    Two configuration files with a Python application, a device and its codelet;
    the request for the application; loading and unloading it by its name. *)
From stdpp Require Import pretty.
From S2P Require Import Prelude StreamId Ext Router RouterInv RouterApps RouterInit RouterExample Sched Logging Config Controller ControllerFacts ControllerExample Process ProcessFacts ProcessExample PyLoader RestServer RestServerFacts RestServerInv CtlTool CtlToolFacts RestExample.
From Stdlib Require Import Ascii.
Import Reference.

#[local] Instance signed_char_tool : CharSign := true.

(** An environment without variables, and the only duration of the files. *)
Definition ex_expand (s : string) : string := s.
Definition ex_duration (s : string) : option Z := if decide (s = "2ms"%string) then Some 2000000 else None.

Definition ex_app (ps : gmap string pvalue) : App :=
  mk_app "app" "a.py" "python" 3001 None (Some "2ms"%string) None None None "" 0 0 0 0 [] ps ∅ ["numpy"%string].

Definition ex_file1 : CLIConfig := mk_cli [ex_app ∅] [] None "cfg".
Definition ex_file2 : CLIConfig :=
  mk_cli [] [] (Some (mk_jbpf [mk_device 1 "" (Some "10.0.0.1"%string) 30450] [mk_codelet "codelet.yaml" 1])) "cfg".

Lemma ex_files_ok : files_ok ex_duration [ex_file1; ex_file2].
Proof.
  unfold files_ok. split_and!.
  - intros f g Hf Hg. set_unfold in Hf. set_unfold in Hg. destruct Hf as [->|[->|[]]], Hg as [->|[->|[]]]; reflexivity.
  - repeat constructor; by eexists.
  - split; [repeat constructor; set_solver|]. intros d. reflexivity.
Qed.

(** The first file alone is a panic, both together are a configuration. *)
Lemma from_yamls_spec_witness : FromYamls ex_expand ex_duration [ex_file1] = Fault NullDeref /\
  exists c, FromYamls ex_expand ex_duration [ex_file1; ex_file2] = Ret (Some c) /\ (Deadline <$> Apps c) = [2000000].
Proof.
  split; [by apply (proj1 (from_yamls_spec ex_expand ex_duration ex_file1 []))|].
  destruct (proj2 (from_yamls_spec ex_expand ex_duration ex_file1 [ex_file2])) as (r & E & H); [by intros [[=] _]|].
  destruct r as [c|]; [|destruct (H ex_files_ok)]. exists c. split; [exact E|]. vm_compute in E. injection E as <-. reflexivity.
Defined.

(** The request for the application with the parameter [level]. *)
Definition ex_level : gmap string pvalue := {["level" := PString "2"]}.
Definition ex_tool_request : option tool_request := load_request ex_expand (ex_app ex_level) (Some [127; 69]) [("10.0.0.1:30450"%string, 1)].

Lemma python_script_configured_witness : exists r pl ps, ex_tool_request = Some r /\ decoded r = Some pl /\
  ps ≡ₚ map_to_list (pl_app_params pl) /\ script_of (env_of_request (request_of pl ps []) 0) = Some (chars "2") /\
  ~ runs_script pl "a.py".
Proof.
  destruct ex_tool_request as [r|] eqn:Er; [|discriminate Er]. exists r. destruct (decoded r) as [pl|] eqn:Ed.
  2:{ exfalso. injection Er as <-. vm_compute in Ed. discriminate Ed. }
  destruct (python_script_configured ex_expand (ex_app ex_level) [127; 69] _ r pl eq_refl Er Ed) as [H1 H2].
  destruct (H2 "level"%string "2"%string) as (ps & Hp & Hs); [discriminate|reflexivity|].
  exists pl, ps. split_and!; [done|done|exact Hp|apply Hs|]. intros H. rewrite H1 in H.
  specialize (H "level"%string "2"%string). discriminate H; [discriminate|reflexivity].
Defined.

(** The application of the example server, loaded and unloaded by its name. *)
Lemma tool_load_unload_witness : exists st1 st2,
  tool_load ex_pl script_first [] "2025-01-01T00:00:00Z" (mk_load_env (Some 50%nat) (Some 60%nat) 0) s0 = Ret (true, st1) /\
  tool_unload "app" unload_fine st1 = Ret (true, st2) /\ length (store st1) = 1%nat /\ store st2 = [].
Proof.
  assert (E : tool_load ex_pl script_first [] "2025-01-01T00:00:00Z" (mk_load_env (Some 50%nat) (Some 60%nat) 0) s0 = Ret (true, s1)).
  { unfold tool_load. pose proof s1_post as H. unfold ex_post in H. rewrite H. reflexivity. }
  destruct (tool_load_unload s0 ex_pl script_first [] "2025-01-01T00:00:00Z" (mk_load_env (Some 50%nat) (Some 60%nat) 0) s1
    s0_wf ex_post_ok E) as (i & Hs1 & st2 & E2 & _ & Hs2 & _ & _).
  exists s1, st2. split_and!; [exact E|exact E2|by rewrite Hs1|exact Hs2].
Defined.
