(* ===== verification/UnitTests.v ===== *)
(** * The repository's own tests

    What [src/jrtc_tests/] asserts, evaluated on the definitions of this
    library: the unit tests of the logging level, of [concat], of the
    configuration reader and of variable expansion, each as a value that is
    [true] when all assertions hold, and the test of the router, in which two
    applications receive what an agent sends. *)
From S2P Require Import Prelude StreamId StreamIdSpec Bloom Ext Router RouterInit RouterExample Sched Logging Config ConfigFacts Controller.
From Stdlib Require Import Ascii.
Import Reference.

#[local] Instance signed_char_t : CharSign := true.

(** ** logginglevel_test.c *)

Definition level_is (s : string) (l : jrtc_logging_level) : bool := bool_decide (jrtc_get_logging_level (chars s) = l).

Definition test_logging_level : bool :=
  level_is "DEBUG" JRTC_DEBUG_LEVEL && level_is "INFO" JRTC_INFO_LEVEL && level_is "WARN" JRTC_WARN_LEVEL &&
  level_is "WARNING" JRTC_WARN_LEVEL && level_is "ERROR" JRTC_ERROR_LEVEL && level_is "CRITICAL" JRTC_CRITICAL_LEVEL &&
  level_is "FATAL" JRTC_CRITICAL_LEVEL && level_is "UNKNOWN" JRTC_DEBUG_LEVEL &&
  level_is "debug" JRTC_DEBUG_LEVEL && level_is "info" JRTC_INFO_LEVEL && level_is "warn" JRTC_WARN_LEVEL &&
  level_is "warning" JRTC_WARN_LEVEL && level_is "error" JRTC_ERROR_LEVEL && level_is "critical" JRTC_CRITICAL_LEVEL &&
  level_is "fatal" JRTC_CRITICAL_LEVEL.

(** Each level is set and then asked for. *)
Fixpoint set_and_get (st : logger_state) (ls : list jrtc_logging_level) : bool :=
  match ls with
  | [] => true
  | l :: ls =>
      let st := jrtc_set_logging_level st l in
      bool_decide (jrtc_get_current_logging_level st = l) && set_and_get st ls
  end.

Definition test_set_and_get_logging_level : bool :=
  set_and_get logger_init [JRTC_INFO_LEVEL; JRTC_DEBUG_LEVEL; JRTC_ERROR_LEVEL; JRTC_CRITICAL_LEVEL; JRTC_WARN_LEVEL].

(** ** strcat_test.c

    Tests 7 and 8 do not call [concat]. *)

Definition newline : string := String (ascii_of_nat 10) EmptyString.
Definition tab : string := String (ascii_of_nat 9) EmptyString.

Definition concat_is (s1 s2 expected : string) : bool := bool_decide (Controller.concat (chars s1) (chars s2) = chars expected).

Definition test_concat : bool :=
  concat_is "Hello, " "World!" "Hello, World!" && concat_is "" "World!" "World!" && concat_is "Hello, " "" "Hello, " &&
  concat_is "" "" "" &&
  concat_is (String.append "Hello" newline) (String.append "World" (String.append tab "!"))
    (String.append "Hello" (String.append newline (String.append "World" (String.append tab "!")))) &&
  concat_is "A very long string that is " "concatenated with another long string."
    "A very long string that is concatenated with another long string.".

(** ** yaml_test.c *)

(** The environment: [JRTC_TEST_ID] for the fifth test, the others for the
    expansions. *)
Definition test_env (n : list ascii) : option (list ascii) :=
  if decide (n = chars "JRTC_TEST_ID") then Some (chars "1234")
  else if decide (n = chars "JRTC_UNIT_TEST_1") then Some (chars "xxxx")
  else if decide (n = chars "JRTC_UNIT_TEST_2") then Some (chars "/home/xxx")
  else if decide (n = chars "AAA") then Some (chars "1111")
  else if decide (n = chars "bbbb") then Some (chars "2222")
  else None.

(** jbpf is built with "/tmp" and "jbpf" as its defaults. *)
Definition read_test (file : yaml_file) : outcome (Z * jrtc_config * logger_state * jrtc_logging_level) :=
  set_config_values test_env (fun _ => true) true 64 32 32 (chars "/tmp") (chars "jbpf") 10 file logger_init JRTC_DEBUG_LEVEL.

Definition valid_yaml : list yaml_event := [
  YAML_OTHER; YAML_OTHER; YAML_MAPPING_START;
  scalar "jbpf_io_config"; YAML_MAPPING_START;
  scalar "jbpf_namespace"; scalar "jrtc";
  scalar "jbpf_path"; scalar "/var/run/jrtc";
  YAML_MAPPING_END;
  scalar "jrtc_router_config"; YAML_MAPPING_START;
  scalar "ipc_name"; scalar "aaaaa";
  scalar "port"; scalar "1234";
  scalar "thread_config"; YAML_MAPPING_START;
  scalar "affinity_mask"; scalar "3";
  scalar "has_sched_config"; scalar "true";
  scalar "sched_config"; YAML_MAPPING_START;
  scalar "sched_policy"; scalar "0";
  scalar "sched_priority"; scalar "99";
  scalar "sched_deadline"; scalar "30000000";
  scalar "sched_runtime"; scalar "10000000";
  scalar "sched_period"; scalar "30000000";
  YAML_MAPPING_END; YAML_MAPPING_END; YAML_MAPPING_END; YAML_MAPPING_END; YAML_OTHER; YAML_STREAM_END].

Definition namespace_yaml (ns : string) : list yaml_event := [
  YAML_OTHER; YAML_OTHER; YAML_MAPPING_START;
  scalar "jbpf_io_config"; YAML_MAPPING_START; scalar "jbpf_namespace"; scalar ns; YAML_MAPPING_END;
  YAML_MAPPING_END; YAML_OTHER; YAML_STREAM_END].

(** A sequence with an empty entry, and then an error. *)
Definition invalid_yaml : list (option yaml_event) := [Some YAML_OTHER; Some YAML_OTHER; Some YAML_OTHER; Some (scalar ""); None].

#[local] Instance router_sched_eq_dec : EqDecision jrtc_router_sched_config.
Proof. solve_decision. Defined.

(** The assertions of one test on the result and the configuration. *)
Definition config_is (file : yaml_file) (ok : bool) (affinity : Z) (sched : bool) (ns path name : string) (p : Z) : bool :=
  match read_test file with
  | Ret (res, c, _, _) =>
      Bool.eqb (res =? 0) ok && (affinity_mask (thread_config c) =? affinity) &&
      Bool.eqb (has_sched_config (thread_config c)) sched &&
      bool_decide (sched_config (thread_config c) = mk_router_sched 0 99 10000000 30000000 30000000) &&
      streq (jbpf_namespace c) ns && streq (jbpf_path c) path && streq (ipc_name c) name && (port c =? p) &&
      bool_decide (cstr (jbpf_io_ipc_name c) = cstr (ipc_name c))
  | Fault _ => false
  end.

Definition test_yaml_parsing : bool :=
  config_is (Events (Some <$> valid_yaml)) true 3 true "jrtc" "/var/run/jrtc" "aaaaa" 1234 &&
  config_is (Events invalid_yaml) false 2 false "jbpf" "/tmp" "jrt_controller" 3001 &&
  config_is (Events [Some YAML_OTHER; Some YAML_STREAM_END]) true 2 false "jbpf" "/tmp" "jrt_controller" 3001 &&
  config_is (Events (Some <$> namespace_yaml "jrtc")) true 2 false "jrtc" "/tmp" "jrt_controller" 3001 &&
  config_is (Events (Some <$> namespace_yaml "jrtc_${JRTC_TEST_ID}")) true 2 false "jrtc_1234" "/tmp" "jrt_controller" 3001.

Definition assert_string_equals (input expected : string) : bool :=
  bool_decide (expand_env_vars test_env (fun _ => true) true 10 (Some (chars input)) = Ret (Some (chars expected))).

Definition test_env_expansions : bool :=
  assert_string_equals "${JRTC_UNIT_TEST_1}" "xxxx" &&
  assert_string_equals "${JRTC_UNIT_TEST_1} is at ${JRTC_UNIT_TEST_2}" "xxxx is at /home/xxx" &&
  assert_string_equals "${NONEXISTENT_VAR}" "" && assert_string_equals "" "" &&
  assert_string_equals "/${AAA}/documents/${bbbb}" "/1111/documents/2222" && assert_string_equals "${NOT_DEFINED}" "".

(** The unit tests of the repository pass on this library. *)
Theorem unit_tests_pass : test_logging_level && test_set_and_get_logging_level && test_concat && test_yaml_parsing && test_env_expansions = true.
Proof. vm_compute. reflexivity. Qed.

(** ** jrtc_router_test.c

    Buffer [b] holds the counter [b - 1]. *)

Definition any_stream : jrtc_router_stream_id :=
  Eval vm_compute in ret_or example_sid (generated_id (true, true) (true, true) JRTC_ROUTER_DEST_ANY JRTC_ROUTER_DEVICE_ID_ANY None None).
Definition map1_stream : jrtc_router_stream_id :=
  Eval vm_compute in ret_or example_sid (generated_id (true, true) (true, true) JRTC_ROUTER_DEST_UDP 0 (Some "codelet1"%string) (Some "map1"%string)).

(** What an application has logged and released, and the counter of [test_app2]. *)
Record test_state := mk_test {
  t_router : ex_router;
  t_io : ex_io;
  t_log1 : list Z;
  t_log2 : list Z;
  t_counter : Z;
  t_events : list io_event
}.

Definition test_register (p q : nat) (r : ex_router) (sid : jrtc_router_stream_id) : outcome ex_router :=
  '(r, ctx, _) ← (jrtc_router_register_app r (mk_register_env (Some p) true (Some (100, [])) (Some []) (Some [])) 100 :
    outcome (ex_router * option nat * list io_event));
  '(r, res) ← jrtc_router_channel_register_stream_id_req r (mk_request_env (Some q) true) ctx sid;
  if res =? 1 then Ret r else Fault Aborted.

(** One turn of the loop of [test_app]: the counters logged and the buffers
    released. *)
Definition test_receive (r : ex_router) (io : ex_io) (p : nat) : outcome (ex_router * ex_io * list Z) :=
  '(r, io, des) ← (jrtc_router_receive r io p 100 : outcome (ex_router * ex_io * list jrtc_router_data_entry));
  Ret (r, io, List.map de_data des).

Definition test_app (st : test_state) : outcome test_state :=
  '(r, io, bufs) ← test_receive (t_router st) (t_io st) 10;
  Ret (mk_test r io (t_log1 st ++ (Z.pred <$> bufs)) (t_log2 st) (t_counter st) (t_events st ++ (IoRelease <$> bufs))).

Definition test_app2 (st : test_state) : outcome test_state :=
  '(r, io, bufs) ← test_receive (t_router st) (t_io st) 11;
  let n := t_counter st + Z.of_nat (length bufs) in
  '(r, n) ← (if 10 <=? n then (r ← jrtc_router_channel_deregister_stream_id_req r (Some 11%nat) map1_stream; Ret (r, 0))
             else Ret (r, n));
  Ret (mk_test r io (t_log1 st) (t_log2 st ++ (Z.pred <$> bufs)) n (t_events st ++ (IoRelease <$> bufs))).

(** [agent_test] submits a buffer, which the router's thread picks up. *)
Definition test_agent (st : test_state) (buf : Z) : outcome test_state :=
  '(r, ev) ← _jrtc_router_handle_incoming_msgs (Some JBPF_IO_IPC_PRIMARY) (t_router st) [(map1_stream, [buf])];
  Ret (mk_test r (t_io st) (t_log1 st) (t_log2 st) (t_counter st) (t_events st ++ ev)).

Inductive test_step := App1 | App2 | Agent (buf : Z).

Fixpoint test_run (st : test_state) (steps : list test_step) : outcome test_state :=
  match steps with
  | [] => Ret st
  | s :: steps =>
      st ← match s with App1 => test_app st | App2 => test_app2 st | Agent b => test_agent st b end;
      test_run st steps
  end.

(** Start and end of both applications around the steps of a schedule. *)
Definition router_test (steps : list test_step) : outcome test_state :=
  r ← test_register 10 20 r0 any_stream;
  r ← test_register 11 21 r map1_stream;
  st ← test_run (mk_test r ∅ [] [] 0 []) steps;
  '(r, _) ← jrtc_router_deregister_app (t_router st) (Some 10%nat);
  r ← jrtc_router_channel_deregister_stream_id_req r (Some 11%nat) map1_stream;
  '(r, _) ← jrtc_router_deregister_app r (Some 11%nat);
  Ret (mk_test r (t_io st) (t_log1 st) (t_log2 st) (t_counter st) (t_events st)).

(** Both applications get the three messages, whether they read them as they
    come or all at the end, and every buffer is shared and released as often; the
    table keeps the request that [test_app] does not withdraw. *)
Definition test_ok (steps : list test_step) : bool :=
  match router_test steps with
  | Ret st => bool_decide (t_log1 st = [0; 1; 2]) && bool_decide (t_log2 st = [0; 1; 2]) &&
      forallb (λ b, Nat.eqb (length (filter (λ e, e = IoRelease b) (t_events st))) (length (filter (λ e, e = IoShare b) (t_events st)) + 1)) [1; 2; 3] &&
      (size (req_entries (t_router st)) =? 1)%nat && (size (dapps (t_router st)) =? 0)%nat
  | Fault _ => false
  end.

Example router_test_passes :
  test_ok [App1; App2; Agent 1; App1; App2; Agent 2; App2; App1; Agent 3; App1; App2] = true /\
  test_ok [Agent 1; Agent 2; App1; Agent 3; App2; App1] = true.
Proof. split; vm_compute; reflexivity. Qed.
