(* ===== verification/GoStreamId.v ===== *)
(** * Stream ids in the command-line tool

    [src/tools/jrtc-ctl/jrtcbindings/]: the tool reads and clears the fields of
    an id with code of its own, byte by byte, in Go. It agrees with the layout of
    the C side. *)
From S2P Require Import Prelude StreamId StreamIdFacts StreamIdSpec.

(** A shift of a [byte] keeps eight bits. *)
Definition shl8 (x k : Z) : Z := u8 (x << k).

Abbreviation at_ l k := (l !!! k%nat).

Definition GetVersion (s : list Z) : Z := (at_ s 0 >> 2) &&& 0x3F.

Definition GetForwardingDestination (s : list Z) : Z :=
  shl8 (at_ s 0 &&& 0x03) 5 ||| ((at_ s 1 >> 3) &&& 0x1F).

Definition GetDeviceID (s : list Z) : Z :=
  shl8 (at_ s 1 &&& 0x07) 4 ||| ((at_ s 2 >> 4) &&& 0x0F).

Definition GetStreamPath (s : list Z) : list Z :=
  [shl8 (at_ s 2 &&& 0x0F) 2 ||| (at_ s 3 >> 6); shl8 (at_ s 3) 2 ||| (at_ s 4 >> 6); shl8 (at_ s 4) 2 ||| (at_ s 5 >> 6);
   shl8 (at_ s 5) 2 ||| (at_ s 6 >> 6); shl8 (at_ s 6) 2 ||| (at_ s 7 >> 6); shl8 (at_ s 7) 2 ||| (at_ s 8 >> 6);
   shl8 (at_ s 8) 2 ||| (at_ s 9 >> 6)].

Definition GetStreamName (s : list Z) : list Z :=
  [at_ s 9 &&& 0x3F; at_ s 10; at_ s 11; at_ s 12; at_ s 13; at_ s 14; at_ s 15].

(** [StreamIDFormatConfig]. *)
Record StreamIDFormatConfig := mk_format {
  ClearVersion : bool;
  ClearForwardingDestination : bool;
  ClearDeviceID : bool;
  ClearStreamPath : bool;
  ClearStreamName : bool
}.

(** [s[k] &= m]. *)
Definition mask_at (s : list Z) (k : nat) (m : Z) : list Z := <[k := at_ s k &&& m]> s.

Definition Format (req : StreamIDFormatConfig) (s : list Z) : list Z :=
  let s := if ClearVersion req then mask_at s 0 0x03 else s in
  let s := if ClearForwardingDestination req then mask_at (mask_at s 0 0xFC) 1 0x07 else s in
  let s := if ClearDeviceID req then mask_at (mask_at s 1 0xF8) 2 0x0F else s in
  let s := if ClearStreamPath req then
             let s := <[7%nat := 0]> (<[6%nat := 0]> (<[5%nat := 0]> (<[4%nat := 0]> (<[3%nat := 0]> (mask_at s 2 0xF0))))) in
             mask_at (mask_at s 8 0) 9 0x3F
           else s in
  if ClearStreamName req then
    <[15%nat := 0]> (<[14%nat := 0]> (<[13%nat := 0]> (<[12%nat := 0]> (<[11%nat := 0]> (<[10%nat := 0]> (mask_at s 9 0xC0))))))
  else s.

(** The number that bytes with the most significant one first stand for. *)
Definition big_endian (l : list Z) : Z := foldl (λ acc b, (acc << 8) ||| b) 0 l.

(** ** Agreement with the layout *)

Ltac go_cbn :=
  unfold GetVersion, GetForwardingDestination, GetDeviceID, GetStreamPath, GetStreamName, big_endian, shl8, mask_at;
  cbn [insert list_insert lookup_total list_lookup_total id foldl].

(** The getters of the tool read the fields of the layout, on every
    id; so they agree with the getters in C, except where [char] is signed and
    the C getters of path and name read something else. *)
Theorem go_getters_decode s : stream_id_wf s ->
  GetVersion (id s) = ver (decode s) /\ GetForwardingDestination (id s) = fwd_dst (decode s) /\
  GetDeviceID (id s) = device_id (decode s) /\ big_endian (GetStreamPath (id s)) = stream_path (decode s) /\
  big_endian (GetStreamName (id s)) = stream_name (decode s).
Proof.
  intros W. explode s. go_cbn. rewrite decode_bytes by solve_bytes. cbn [ver fwd_dst device_id stream_path stream_name].
  split_and!; bitwise.
Qed.

Lemma land_byte b m : is_byte b -> 0 <= m -> is_byte (b &&& m).
Proof.
  unfold is_byte. intros Hb Hm. split; [apply Z.land_nonneg; lia|]. change 256 with (2 ^ 8). apply bits_lt; [lia|apply Z.land_nonneg; lia|].
  intros i Hi. rewrite Z.land_spec, (testbit_high 8 b i) by lia. done.
Qed.

Ltac go_bytes :=
  repeat (apply Forall_cons_2; [solve [assumption | apply land_byte; [assumption|lia] | unfold is_byte; lia]|]); apply Forall_nil_2.
Ltac go_step :=
  intros W; match goal with s : jrtc_router_stream_id |- _ => explode s end; go_cbn; split; [split; [reflexivity|cbn [id]; go_bytes]|];
  rewrite !decode_bytes by go_bytes; cbn [ver fwd_dst device_id stream_path stream_name]; f_equal; bitwise.

(** The id with one field cleared. *)
Definition cleared (s s' : jrtc_router_stream_id) (v f d p n : bool) : Prop :=
  stream_id_wf s' /\
  decode s' = mk_sid_int (if v then 0 else ver (decode s)) (if f then 0 else fwd_dst (decode s)) (if d then 0 else device_id (decode s))
    (if p then 0 else stream_path (decode s)) (if n then 0 else stream_name (decode s)).

Lemma clear_version s : stream_id_wf s -> cleared s (mk_stream_id (mask_at (id s) 0 0x03)) true false false false false.
Proof. unfold cleared. go_step. Qed.

Lemma clear_destination s : stream_id_wf s ->
  cleared s (mk_stream_id (mask_at (mask_at (id s) 0 0xFC) 1 0x07)) false true false false false.
Proof. unfold cleared. go_step. Qed.

Lemma clear_device s : stream_id_wf s ->
  cleared s (mk_stream_id (mask_at (mask_at (id s) 1 0xF8) 2 0x0F)) false false true false false.
Proof. unfold cleared. go_step. Qed.

Lemma clear_path s : stream_id_wf s ->
  cleared s (mk_stream_id (mask_at (mask_at (<[7%nat := 0]> (<[6%nat := 0]> (<[5%nat := 0]> (<[4%nat := 0]> (<[3%nat := 0]> (mask_at (id s) 2 0xF0)))))) 8 0) 9 0x3F))
    false false false true false.
Proof. unfold cleared. go_step. Qed.

Lemma clear_name s : stream_id_wf s ->
  cleared s (mk_stream_id (<[15%nat := 0]> (<[14%nat := 0]> (<[13%nat := 0]> (<[12%nat := 0]> (<[11%nat := 0]> (<[10%nat := 0]> (mask_at (id s) 9 0xC0))))))))
    false false false false true.
Proof. unfold cleared. go_step. Qed.

Lemma cleared_none s : stream_id_wf s -> cleared s s false false false false false.
Proof. intros W. split; [done|]. by destruct (decode s). Qed.

Lemma cleared_trans s s' s'' v f d p n v' f' d' p' n' : cleared s s' v f d p n -> cleared s' s'' v' f' d' p' n' ->
  cleared s s'' (v || v') (f || f') (d || d') (p || p') (n || n').
Proof.
  intros [W E] [W' E']. split; [done|]. rewrite E', E. cbn [ver fwd_dst device_id stream_path stream_name].
  by destruct v, v', f, f', d, d', p, p', n, n'.
Qed.

(** One step of [Format]: its field is cleared when it is asked for. *)
Lemma clear_if (b : bool) s l v f d p n : (stream_id_wf s -> cleared s (mk_stream_id l) v f d p n) -> stream_id_wf s ->
  cleared s (mk_stream_id (if b then l else id s)) (b && v) (b && f) (b && d) (b && p) (b && n).
Proof. intros H W. destruct b; [by apply H|]. cbn [andb]. rewrite mk_id. by apply cleared_none. Qed.

(** [Format] clears exactly the fields it is asked to clear: the
    others, and the layout, stay as they were. *)
Theorem go_format_clears req s : stream_id_wf s ->
  cleared s (mk_stream_id (Format req (id s))) (ClearVersion req) (ClearForwardingDestination req) (ClearDeviceID req)
    (ClearStreamPath req) (ClearStreamName req).
Proof.
  intros W. destruct req as [v f d p n]. unfold Format. cbn [ClearVersion ClearForwardingDestination ClearDeviceID ClearStreamPath ClearStreamName].
  pose proof (clear_if v s _ _ _ _ _ _ (clear_version s) W) as C1. set (l1 := if v then _ else _) in *.
  pose proof (clear_if f _ _ _ _ _ _ _ (clear_destination (mk_stream_id l1)) (proj1 C1)) as C2. cbn [id] in C2. set (l2 := if f then _ else _) in *.
  pose proof (clear_if d _ _ _ _ _ _ _ (clear_device (mk_stream_id l2)) (proj1 C2)) as C3. cbn [id] in C3. set (l3 := if d then _ else _) in *.
  pose proof (clear_if p _ _ _ _ _ _ _ (clear_path (mk_stream_id l3)) (proj1 C3)) as C4. cbn [id] in C4. set (l4 := if p then _ else _) in *.
  pose proof (clear_if n _ _ _ _ _ _ _ (clear_name (mk_stream_id l4)) (proj1 C4)) as C5. cbn [id] in C5.
  pose proof (cleared_trans _ _ _ _ _ _ _ _ _ _ _ _ _ (cleared_trans _ _ _ _ _ _ _ _ _ _ _ _ _ (cleared_trans _ _ _ _ _ _ _ _ _ _ _ _ _
    (cleared_trans _ _ _ _ _ _ _ _ _ _ _ _ _ C1 C2) C3) C4) C5) as C.
  rewrite ?andb_true_r, ?andb_false_r, ?orb_false_r, ?orb_false_l in C. exact C.
Qed.

(** ** The tests of the bindings *)

Definition all_ones : list Z := replicate 16 0xFF.

Example test_format :
  ((λ req, let s := Format req all_ones in
      (GetVersion s, GetForwardingDestination s, GetDeviceID s, big_endian (GetStreamPath s), big_endian (GetStreamName s))) <$>
    [mk_format false false false false false; mk_format true false false false false; mk_format false true false false false;
     mk_format false false true false false; mk_format false false false true false; mk_format false false false false true]) =
  [(0x3f, 0x7f, 0x7f, 0x3fffffffffffff, 0x3fffffffffffff); (0, 0x7f, 0x7f, 0x3fffffffffffff, 0x3fffffffffffff);
   (0x3f, 0, 0x7f, 0x3fffffffffffff, 0x3fffffffffffff); (0x3f, 0x7f, 0, 0x3fffffffffffff, 0x3fffffffffffff);
   (0x3f, 0x7f, 0x7f, 0, 0x3fffffffffffff); (0x3f, 0x7f, 0x7f, 0x3fffffffffffff, 0)].
Proof. vm_compute. reflexivity. Qed.

Lemma go_getters_decode_witness : GetDeviceID (id example_sid) = device_id (decode example_sid) /\
  big_endian (GetStreamPath (id example_sid)) = 0x38c25ec5152ff2.
Proof.
  destruct (go_getters_decode example_sid example_sid_wf) as (_ & _ & Hd & Hp & _). split; [exact Hd|]. rewrite Hp. vm_compute. reflexivity.
Defined.

Lemma go_format_clears_witness :
  cleared example_sid (mk_stream_id (Format (mk_format false false true true false) (id example_sid))) false false true true false.
Proof. exact (go_format_clears (mk_format false false true true false) example_sid example_sid_wf). Defined.
